(* ===== verification/_CoqProject ===== *)
-Q . S2P
Prelude.v
HalBuff.v
Lights.v
CFloat.v
Calendar.v
NmeaToken.v
NmeaReader.v
NmeaParse.v
NmeaProps.v
NmeaTime.v
NmeaSats.v
EpoTime.v
EpoConf.v
EpoDownload.v
Daemon.v
Layout.v
Hal.v
HalProps.v
Agps.v
MnldHandler.v
MnldProps.v
Session.v
SessionProps.v
WpaData.v
WpaStats.v
WpaP2p.v
WpaCmd.v
WpaProps.v
Lifecycle.v
LifecycleInv.v
LifecycleProps.v
AtCommand.v
AtLogic.v
AtParse.v
AtStats.v
AtProps.v
BtVendor.v
Device.v
EpoThread.v
EpoRetry.v
EpoOutage.v
EpoGiveUp.v
AtNmea.v
Modules.v
MnldSafe.v
HalThread.v
HalFix.v
