(* ===== verification/Prelude.v ===== *)
(** * The MT6582 device tree: a verification library

    The C code of this device tree runs in four places of an Android system:
    the GPS HAL (src/mtk/gps/hal/gps_mtk_aosp.c), which the framework's
    location service loads; the lights HAL (src/liblights/lights.c); the
    private commands of the WiFi driver, which are linked into wpa_supplicant
    (src/wpa_supplicant/mediatek_driver_cmd_nl80211.c); and the Bluetooth
    vendor library (src/libbt-vendor-mtk/libbt-vendor-mtk.c).  The four do not
    call each other.  The library models their code as executable definitions
    with the names of the C functions, and proves what the code promises, or
    where it breaks its promise.

    ** How C is modelled

    - The target is 32-bit ARM: integers are [Z] with the wrap functions below
      where the width matters, bytes are [Z] in 0..255, a string is the list
      of its bytes, memory is a list of bytes.
    - Stateful code is in a state monad: [ST] for code that cannot go wrong,
      [CM] where [None] is an access outside of an object, a call through NULL
      or any other undefined behaviour, and the fault monad of AtCommand.v
      where the kind of fault matters.  [wp] and [awp] are their weakest
      preconditions.  A theorem that a run is [Some] says that it is memory
      safe and returns.
    - A loop over system calls consumes the list of their answers; a loop that
      needs one more answer has not returned, and is never said to have.
    - Code outside of this repository is a parameter: the kernel ([Kernel],
      the lights' [os], lists of answers), the C library's time zone
      ([TimeZone]), malloc ([Allocator], [allocations]), hardware/gps.h
      ([GpsHeader], [NiHeader]) and hardware/hardware.h ([HardwareHeader]), the
      closed libraries ([Blob], the URL of a download), wpa_supplicant and the driver
      ([World]).  The laws that a class states are the documented ones, and
      every class has a concrete instance, used by the witnesses.
    - Threads are steps that interleave: a step is what a thread does between
      two waits (Session.v, Lifecycle.v); a round of the EPO thread and an
      alarm that expires are steps, too (EpoRetry.v).

    ** The files

    - Prelude.v: integers, record update [r ⟨ f := v ⟩], the monads and their
      rules, C strings, buffers, the hints [cint], [blen] and [preserves].
    - Lights.v: lights.c, with the LEDs as they are shown as specification:
      the writes refine it ([speaker_lights_refine]) as long as the kernel
      opens the attribute files (a failed open is remembered as a write that
      was made, [failed_open_hides_write]), under one lock ([lights_mutex]).
    - The GPS HAL, from the inside out:
      -- HalBuff.v (the buff_put and buff_get functions): messages round trip,
         and overrun their buffer exactly when they are too long;
      -- CFloat.v, Calendar.v, Layout.v: the floating point, the calendar and
         the structure layouts that C gives;
      -- NmeaToken.v, NmeaReader.v, NmeaParse.v: the NMEA reader, with
         NmeaProps.v (memory safety on every input, framing, reports),
         NmeaTime.v (time stamps) and NmeaSats.v (the satellite table refines
         a list);
      -- EpoTime.v, EpoConf.v, EpoDownload.v: orbit prediction files, their
         expiry, the settings and the download thread; EpoThread.v: the
         thread against any server; EpoRetry.v: its retries with the POSIX
         timers ([TimerKernel]); EpoOutage.v, EpoGiveUp.v: what becomes of a
         download while the server cannot be reached, without and with a
         current orbit file;
      -- Daemon.v: the loops around the daemon's socket, what [DaemonLink] in
         Hal.v promises to everything that sends;
      -- Hal.v, HalProps.v: the globals and the small entry points; Agps.v:
         the AGPS, NI and RIL calls; MnldHandler.v, MnldProps.v, MnldSafe.v:
         messages from the daemon to the framework, and which of them do harm;
      -- Session.v, SessionProps.v: mtk_gps_start and mtk_gps_stop against the
         HAL thread and the daemon, with all of its messages (in order unless
         the daemon crashes or has an icon reported, [crash_blocks_sessions],
         [icon_breaks_order]); Lifecycle.v, LifecycleInv.v,
         LifecycleProps.v: mtk_gps_init and mtk_gps_cleanup, the threads and
         the descriptors of the process;
      -- AtCommand.v: the AT command test, with AtLogic.v (rules, and the use
         of its block), AtParse.v (the commands as a grammar), AtStats.v (the
         measurements) and AtProps.v (the theorems); AtNmea.v: the test and the
         reader of NmeaParse.v together;
      -- Device.v: the thinned reading of the device, and the codec;
      -- HalThread.v: the event loop of gps_state_thread, over the reader, the
         device, the codec and the handler of the daemon's messages; HalFix.v:
         the way of a position through the loop, from the device over
         LOCATION.DAT to the daemon.
    - WpaData.v, WpaStats.v, WpaP2p.v, WpaCmd.v, WpaProps.v: the WiFi
      commands: statistics as text, channels of WiFi Direct, and the private
      commands by their names.
    - BtVendor.v: the Bluetooth vendor library and its sessions.
    - Modules.v: how the framework opens and closes the lights, the GPS and the
      audio module (src/audio/audio.cpp), on top of Lights.v and Device.v.

    ** What the theorems show

    - Safety and invariants: hal_thread_safe (the HAL thread as a whole, over
      the theorems on its parts) and nmea_memory_safe, both with the position
      log off and the lines bounded, lights_mutex, sessions_in_order (without
      crashes and icons), life_invariant (in every reachable state threads and
      conditions, and the descriptors unless mtk_gps_init is lost),
      at_block_discipline, epo_round_well_formed, retry_never_lost.
    - Refinement of an abstract specification: speaker_lights_refine,
      tokenizer_refines_split, gsv_refines_table, conf_refines,
      retries_refine, at_gsv_refines, light_devices_refine, and the lemma
      shared_freqs_distinct; equivalence with a reference: at_command_refines
      (a grammar), freq_to_channel_plan (the channel plan),
      at_reader_transparent (the reader without the test).
    - Functional behaviour on every branch: the reports of NMEA sentences,
      time stamps, EPO times and downloads, the messages to and from the
      daemon, at_test_measures (a whole test with its statistics),
      device_thinned, the WiFi commands; fix_reaches_daemon (the composition
      of reader, thread, file and daemon's messages).
    - Round trips and bounds: msg_roundtrip, agps_calls, at_block_bounds,
      handler_survives (a decision procedure for the messages that make the
      handler leave its arrays, or call or write through NULL); msg_overflow and
      at_result_fits are lemmas of the same kind.
    - Termination and liveness: mtk_start_retries, init_returns_or_hangs,
      cleanup_returns_or_hangs, endless_retries_overflow, and the lemmas
      crash_blocks_sessions and stop_never_returns.
    - Errors: bt_session (against an abstract machine, call by call),
      unknown_command_passed_on, and the lemma lost_alarm_ends_retries.

    ** Bounds and fuel

    Loops of C with a bound have it (20 questions for the chip, six sends of
    mtk_start); loops over data recur on the data, or on its length where the
    data shrinks otherwise (the settings, the tokens).  A theorem bounds
    a quantity where that keeps a C counter from wrapping or its text from
    overflowing: the satellites that wait for a report in nmea_memory_safe and
    hal_thread_safe; the counter of failed download requests in
    epo_round_well_formed, which is at most 9996 when a round begins (it starts
    at 1, so at most 9995 failures in a row); the 2000 measurements of 99 dB of
    at_test_measures, whose squares just fit into an int; and the 32 satellites
    of a group in at_gsv_refines, which is the size of the arrays that the test
    fills.  device_thinned is for intervals up to ten seconds, for which the
    floating-point comparisons are evaluated one by one, and epo_expiry for
    periods of at most thirty days, as the settings give them, in a zone at a
    constant distance from UTC.

    ** Not modelled

    - What only logs, the #if 0 code, and what GPS_AOSP_MODE leaves out.
    - The reader of NmeaParse.v is the build without GPS_AT_COMMAND; AtNmea.v is
      the build with it.  In AtCommand.v itself a group of satellites is an
      argument.
    - HalThread.v lets the other threads run while the HAL thread waits, not
      between two events of one answer of epoll_wait; what may happen there is
      the finer interleaving of Session.v.  The reports of a read are written
      to LOCATION.DAT when the read ends.
    - In Lifecycle.v the sessions are only what they leave behind; that they
      are in order is Session.v.  There the only message of the daemon is
      MNL_DIE, since the others change no condition, flag or descriptor that a
      call waits for.  In Session.v the framework calls mtk_gps_start and
      mtk_gps_stop only, and the HAL thread does not end.  A failed pthread_create of the EPO thread, and failures
      of chmod and chown, change nothing and are left out.
    - The fcntl locks, and the tables of function pointers, whose order is that
      of hardware/gps.h.  Of the retry timer's sigevent only the handler is
      modelled.
    - C++ shims and xlog.c (empty functions for closed libraries), the Java
      applications, and the configuration of the device. *)

From Stdlib Require Export ZArith Lia Bool.
From stdpp Require Export base list strings pretty.

#[global] Set Default Proof Using "Type".
#[global] Open Scope Z_scope.

(** ** Machine integers

    The target (MT6582, ARMv7, 32 bit, two's complement) has 32-bit [int],
    [long], [size_t] and pointers, and an unsigned plain [char].  A C integer
    is a [Z]; every place where the width matters is written with the wrap
    functions below. *)

Definition uwrap (w z : Z) : Z := z mod 2 ^ w.
Definition swrap (w z : Z) : Z := (z + 2 ^ (w - 1)) mod 2 ^ w - 2 ^ (w - 1).

Abbreviation u8 := (uwrap 8).
Abbreviation u16 := (uwrap 16).
Abbreviation u32 := (uwrap 32).
Abbreviation u64 := (uwrap 64).
Abbreviation s8 := (swrap 8).
Abbreviation s16 := (swrap 16).
Abbreviation s32 := (swrap 32).
Abbreviation s64 := (swrap 64).

#[global] Arguments uwrap : simpl never.
#[global] Arguments swrap : simpl never.

Definition is_byte (b : Z) : Prop := 0 <= b < 256.
Definition is_s32 (z : Z) : Prop := - 2 ^ 31 <= z < 2 ^ 31.
Definition is_u32 (z : Z) : Prop := 0 <= z < 2 ^ 32.

#[export] Instance is_byte_dec b : Decision (is_byte b).
Proof. unfold is_byte. apply _. Defined.
#[export] Instance is_s32_dec z : Decision (is_s32 z).
Proof. unfold is_s32. apply _. Defined.
#[export] Instance is_u32_dec z : Decision (is_u32 z).
Proof. unfold is_u32. apply _. Defined.

(** Close a decidable goal on concrete data by evaluation. *)
Ltac by_decide := apply (bool_decide_unpack _); vm_compute; exact I.

(** C truth values. *)
Definition cbool (b : bool) : Z := if b then 1 else 0.
Definition truthy (z : Z) : bool := negb (z =? 0).

(** ** Record update

    [r ⟨ f := v ⟩] is [r] with field [f] replaced.  A record type declares how
    it is rebuilt from its projections ([Rebuild]); the update of one field is
    then found by instance search. *)

Class Rebuild (R : Type) := rebuild : R -> R.
Class FieldUpdate {R F : Type} (proj : R -> F) := field_update : (F -> F) -> R -> R.
#[global] Hint Mode FieldUpdate + + + : typeclass_instances.

Ltac solve_field_update :=
  match goal with
  | |- @FieldUpdate ?R ?F ?proj =>
      let inst := constr:(_ : Rebuild R) in
      let f := fresh "f" in let r := fresh "r" in
      refine (fun (f : F -> F) (r : R) => _);
      let body := eval cbv beta delta [rebuild] in (inst r) in
      let body := (match body with
                   | ?h r => let h' := eval red in h in eval cbv beta in (h' r)
                   | _ => body
                   end) in
      let abs := eval pattern (proj r) in body in
      match abs with
      | ?ctx (proj r) => let out := eval cbv beta in (ctx (f (proj r))) in exact out
      end
  end.

#[export] Hint Extern 1 (FieldUpdate _) => solve_field_update : typeclass_instances.

Declare Scope record_scope.
Delimit Scope record_scope with record.
Notation "r ⟨ p := v ⟩" := (field_update (proj := p) (fun _ => v) r)
  (at level 1, left associativity, p at level 99, format "r  ⟨ p  :=  v ⟩") : record_scope.
Notation "r ⟨ p $= f ⟩" := (field_update (proj := p) f r)
  (at level 1, left associativity, p at level 99, format "r  ⟨ p  $=  f ⟩") : record_scope.
#[global] Open Scope record_scope.

(** ** State monad

    Stateful C code is written with stdpp's [x ← m; k] over this monad. *)

Definition ST (S A : Type) : Type := S -> A * S.

#[export] Instance st_ret {S} : MRet (ST S) := fun A x s => (x, s).
#[export] Instance st_bind {S} : MBind (ST S) := fun A B k m s =>
  let '(x, s') := m s in k x s'.

Definition gets {S A} (f : S -> A) : ST S A := fun s => (f s, s).
Definition modify {S} (f : S -> S) : ST S unit := fun s => (tt, f s).
Definition when {S} (b : bool) (m : ST S unit) : ST S unit :=
  if b then m else mret tt.

(** The same with undefined behaviour: [None] is an access outside of an
    object.  A run that returns [Some] is memory safe. *)
Definition CM (S A : Type) : Type := S -> option (A * S).

#[export] Instance cm_ret {S} : MRet (CM S) := fun A x s => Some (x, s).
#[export] Instance cm_bind {S} : MBind (CM S) := fun A B k m s =>
  match m s with
  | Some (x, s') => k x s'
  | None => None
  end.

Definition cgets {S A} (f : S -> A) : CM S A := fun s => Some (f s, s).
Definition cmodify {S} (f : S -> S) : CM S unit := fun s => Some (tt, f s).
Definition clift {S A} (o : option A) : CM S A := fun s => x ← o; Some (x, s).
Definition cwhen {S} (b : bool) (m : CM S unit) : CM S unit :=
  if b then m else mret tt.

(** Run a computation on a part of the state. *)
Definition on_part {S T A} (get : S -> T) (set : T -> S -> S) (m : CM T A) : CM S A :=
  fun s => '(x, t) ← m (get s); Some (x, set t s).

(** [m] runs without undefined behaviour from [s], and ends in [Q]. *)
Definition wp {S A} (m : CM S A) (Q : A -> S -> Prop) (s : S) : Prop :=
  match m s with
  | Some (x, s') => Q x s'
  | None => False
  end.

(** Write one element of an array. *)
Definition array_set {A} (l : list A) (i : Z) (x : A) : option (list A) :=
  if (0 <=? i) && (i <? Z.of_nat (length l)) then Some (<[Z.to_nat i := x]> l) else None.
Definition array_get {A} (l : list A) (i : Z) : option A :=
  if 0 <=? i then l !! Z.to_nat i else None.

(** Reduce the option monad only. *)
Ltac obind := cbn [mbind option_bind].

(** Bring a monadic definition to plain state passing. *)
Ltac st_simpl := cbv [mret mbind st_ret st_bind gets modify when field_update].

(** ** Character strings

    A C string is the list of its bytes, without the terminating NUL; memory
    holds it followed by a zero byte. *)

Definition zs (s : string) : list Z :=
  (fun c => Z.of_nat (Ascii.nat_of_ascii c)) <$> String.list_ascii_of_string s.

(** One character constant. *)
Definition ch (s : string) : Z := default 0 (head (zs s)).

(** [strlen] on a memory area: bytes before the first NUL. *)
Fixpoint strlen (m : list Z) : option Z :=
  match m with
  | [] => None
  | c :: m' => if c =? 0 then Some 0 else l ← strlen m'; Some (l + 1)
  end.

(** The C string that starts a memory area. *)
Fixpoint cstr (m : list Z) : option (list Z) :=
  match m with
  | [] => None
  | c :: m' => if c =? 0 then Some [] else s ← cstr m'; Some (c :: s)
  end.

Definition no_nul (s : list Z) : Prop := Forall (fun c => c <> 0) s.

#[export] Instance no_nul_dec s : Decision (no_nul s).
Proof. unfold no_nul. apply _. Defined.

Definition bytes_eqb (a b : list Z) : bool := bool_decide (a = b).

(** [strncmp(a, b, n) == 0] for two C strings. *)
Fixpoint strncmp_eq (a b : list Z) (n : nat) : bool :=
  match n, a, b with
  | O, _, _ => true
  | S n', [], [] => true
  | S n', x :: a', y :: b' => (x =? y) && strncmp_eq a' b' n'
  | S n', _, _ => false
  end.

Definition tolower (c : Z) : Z := if (65 <=? c) && (c <=? 90) then c + 32 else c.

Definition strncasecmp_eq (a b : list Z) (n : nat) : bool :=
  strncmp_eq (tolower <$> a) (tolower <$> b) n.
Definition strcasecmp_eq (a b : list Z) : bool :=
  bytes_eqb (tolower <$> a) (tolower <$> b).

Definition is_digit (c : Z) : bool := (48 <=? c) && (c <=? 57).
(** [isspace] in the C locale. *)
Definition is_space (c : Z) : bool := (c =? 32) || ((9 <=? c) && (c <=? 13)).

Fixpoint skip_space (s : list Z) : list Z :=
  match s with
  | c :: s' => if is_space c then skip_space s' else s
  | [] => []
  end.

(** Leading digits of [s], as accumulated value and the rest. *)
Fixpoint digits (acc : Z) (s : list Z) : Z * list Z :=
  match s with
  | c :: s' => if is_digit c then digits (acc * 10 + (c - 48)) s' else (acc, s)
  | [] => (acc, [])
  end.

(** Decimal [strtol] clamped to a 32-bit [long], which is what [atoi] uses. *)
Definition clamp_s32 (z : Z) : Z := Z.max (- 2 ^ 31) (Z.min (2 ^ 31 - 1) z).
Definition atoi (s : list Z) : Z :=
  match skip_space s with
  | 45 :: s' => clamp_s32 (- fst (digits 0 s'))
  | 43 :: s' => clamp_s32 (fst (digits 0 s'))
  | s' => clamp_s32 (fst (digits 0 s'))
  end.

(** What [sprintf("%d")] prints. *)
Definition dec (z : Z) : list Z := zs (pretty z).

(** ** Byte buffers

    A buffer is the list of its bytes.  Reading or writing outside of it is
    undefined behaviour in C: the operations return [None]. *)

Definition buf_read (b : list Z) (off n : Z) : option (list Z) :=
  if (0 <=? off) && (0 <=? n) && (off + n <=? Z.of_nat (length b))
  then Some (take (Z.to_nat n) (drop (Z.to_nat off) b)) else None.

Definition buf_write (b : list Z) (off : Z) (bs : list Z) : option (list Z) :=
  if (0 <=? off) && (off + Z.of_nat (length bs) <=? Z.of_nat (length b))
  then Some (take (Z.to_nat off) b ++ bs ++ drop (Z.to_nat off + length bs) b)
  else None.

(** Little-endian representation of an integer on [n] bytes. *)
Fixpoint le_bytes (n : nat) (z : Z) : list Z :=
  match n with
  | O => []
  | S n' => z mod 256 :: le_bytes n' (z / 256)
  end.

Fixpoint le_val (bs : list Z) : Z :=
  match bs with
  | [] => 0
  | b :: bs' => b + 256 * le_val bs'
  end.

Definition zeros (n : Z) : list Z := replicate (Z.to_nat n) 0.

(** ** Lemmas on machine integers *)

Create HintDb cint discriminated.
#[export] Hint Constants Opaque : cint.

Lemma uwrap_range w z : 0 <= w -> 0 <= uwrap w z < 2 ^ w.
Proof. intros. apply Z.mod_pos_bound. lia. Qed.

Lemma uwrap_id w z : 0 <= z < 2 ^ w -> uwrap w z = z.
Proof. apply Z.mod_small. Qed.

Lemma uwrap_idemp w z : uwrap w (uwrap w z) = uwrap w z.
Proof. unfold uwrap. by rewrite Zmod_mod. Qed.

Lemma swrap_range w z : 0 < w -> - 2 ^ (w - 1) <= swrap w z < 2 ^ (w - 1).
Proof.
  intros Hw. unfold swrap.
  assert (2 ^ w = 2 * 2 ^ (w - 1)) as Hp.
  { rewrite <-Z.pow_succ_r by lia. f_equal; lia. }
  pose proof (Z.mod_pos_bound (z + 2 ^ (w - 1)) (2 ^ w)). lia.
Qed.

Lemma swrap_id w z : 0 < w -> - 2 ^ (w - 1) <= z < 2 ^ (w - 1) -> swrap w z = z.
Proof.
  intros Hw Hz. unfold swrap.
  assert (2 ^ w = 2 * 2 ^ (w - 1)) as Hp.
  { rewrite <-Z.pow_succ_r by lia. f_equal; lia. }
  rewrite Z.mod_small; lia.
Qed.

Lemma swrap_uwrap w z : swrap w (uwrap w z) = swrap w z.
Proof. unfold swrap, uwrap. by rewrite Zplus_mod_idemp_l. Qed.

(** [swrap] depends on its argument modulo [2 ^ w] only. *)
Lemma swrap_cong w x y : x mod 2 ^ w = y mod 2 ^ w -> swrap w x = swrap w y.
Proof. intros E. rewrite <-(swrap_uwrap w x), <-(swrap_uwrap w y). unfold uwrap. by rewrite E. Qed.

Lemma swrap_mod w z : swrap w z mod 2 ^ w = z mod 2 ^ w.
Proof.
  unfold swrap. rewrite Zminus_mod_idemp_l. f_equal. lia.
Qed.

Lemma swrap_mul_add_l w x k c : swrap w (swrap w x * k + c) = swrap w (x * k + c).
Proof.
  apply swrap_cong.
  rewrite <-Zplus_mod_idemp_l, <-Zmult_mod_idemp_l, swrap_mod, Zmult_mod_idemp_l, Zplus_mod_idemp_l.
  done.
Qed.

Lemma swrap_mul_r w k x : swrap w (k * swrap w x) = swrap w (k * x).
Proof.
  apply swrap_cong. by rewrite <-Zmult_mod_idemp_r, swrap_mod, Zmult_mod_idemp_r.
Qed.

Lemma s32_id z : is_s32 z -> s32 z = z.
Proof. intros. by apply swrap_id. Qed.

Lemma u32_id z : is_u32 z -> u32 z = z.
Proof. apply uwrap_id. Qed.

#[export] Hint Resolve uwrap_range uwrap_id swrap_range swrap_id s32_id u32_id : cint.

(** ** Lemmas on bytes *)

Lemma length_le_bytes n z : length (le_bytes n z) = n.
Proof. revert z. induction n; intros; simpl; auto. Qed.

Lemma le_bytes_are_bytes n z : Forall is_byte (le_bytes n z).
Proof.
  revert z. induction n; intros; simpl; constructor; auto.
  unfold is_byte. pose proof (Z.mod_pos_bound z 256). lia.
Qed.

Lemma le_val_le_bytes n z : le_val (le_bytes n z) = z mod 2 ^ (8 * Z.of_nat n).
Proof.
  revert z. induction n as [|n IH]; intros z.
  - simpl. by rewrite Z.mod_1_r.
  - cbn [le_bytes le_val]. rewrite IH.
    replace (8 * Z.of_nat (S n)) with (8 + 8 * Z.of_nat n) by lia.
    rewrite Z.pow_add_r by lia. change (2 ^ 8) with 256.
    rewrite (Z.rem_mul_r z 256) by lia. done.
Qed.

Lemma le_val_range bs : Forall is_byte bs -> 0 <= le_val bs < 2 ^ (8 * Z.of_nat (length bs)).
Proof.
  induction 1 as [|b bs Hb _ IH]; simpl length; [simpl; lia|].
  cbn [le_val].
  replace (8 * Z.of_nat (S (length bs))) with (8 + 8 * Z.of_nat (length bs)) by lia.
  rewrite Z.pow_add_r by lia. change (2 ^ 8) with 256.
  unfold is_byte in Hb. lia.
Qed.

Lemma le_bytes_le_val bs : Forall is_byte bs -> le_bytes (length bs) (le_val bs) = bs.
Proof.
  induction 1 as [|b bs Hb _ IH]; [done|].
  cbn [length le_val le_bytes]. unfold is_byte in Hb. f_equal.
  - rewrite Z.mul_comm, Z_mod_plus by lia. by apply Z.mod_small.
  - rewrite (Z.add_comm b), Z.mul_comm, Z.div_add_l by lia.
    rewrite (Z.div_small b) by lia. by rewrite Z.add_0_r.
Qed.

(** ** Lemmas on buffers *)

Lemma buf_write_Some b off bs :
  0 <= off -> off + Z.of_nat (length bs) <= Z.of_nat (length b) ->
  buf_write b off bs
  = Some (take (Z.to_nat off) b ++ bs ++ drop (Z.to_nat off + length bs) b).
Proof.
  intros. unfold buf_write.
  by rewrite (proj2 (Z.leb_le _ _)), (proj2 (Z.leb_le _ _)) by lia.
Qed.

Lemma buf_write_None b off bs :
  off < 0 \/ Z.of_nat (length b) < off + Z.of_nat (length bs) ->
  buf_write b off bs = None.
Proof.
  intros [?|?]; unfold buf_write.
  - by rewrite (proj2 (Z.leb_gt _ _)) by lia.
  - rewrite (proj2 (Z.leb_gt (off + _) _)) by lia. by rewrite andb_false_r.
Qed.

Lemma length_buf_write b off bs b' :
  buf_write b off bs = Some b' -> length b' = length b.
Proof.
  unfold buf_write. case_match eqn:E; [|done]. intros [= <-].
  apply andb_prop in E as [? ?]. rewrite Z.leb_le in *.
  rewrite !length_app, length_take, length_drop. lia.
Qed.

Lemma buf_read_app pre bs post off n :
  off = Z.of_nat (length pre) -> n = Z.of_nat (length bs) ->
  buf_read (pre ++ bs ++ post) off n = Some bs.
Proof.
  intros -> ->. unfold buf_read. rewrite !length_app.
  rewrite !(proj2 (Z.leb_le _ _)) by lia. cbn [andb].
  by rewrite !Nat2Z.id, drop_app_length, take_app_length.
Qed.

Lemma buf_read_all bs n : n = Z.of_nat (length bs) -> buf_read bs 0 n = Some bs.
Proof.
  intros ->. pose proof (buf_read_app [] bs [] 0 (Z.of_nat (length bs))) as H.
  cbn in H. rewrite app_nil_r in H. by apply H.
Qed.

Lemma length_buf_read b off n bs :
  buf_read b off n = Some bs -> Z.of_nat (length bs) = n.
Proof.
  unfold buf_read. case_match eqn:E; [|done]. intros [= <-].
  rewrite !andb_true_iff, !Z.leb_le in E. rewrite length_take, length_drop. lia.
Qed.

Lemma buf_read_Some_inv b off n bs :
  buf_read b off n = Some bs -> 0 <= off /\ 0 <= n /\ off + n <= Z.of_nat (length b).
Proof.
  unfold buf_read. case_match eqn:E; [|done]. intros _.
  rewrite !andb_true_iff, !Z.leb_le in E. lia.
Qed.

(** ** Lemmas on C strings *)

Lemma cstr_app s rest : no_nul s -> cstr (s ++ 0 :: rest) = Some s.
Proof.
  induction 1 as [|c s Hc Hs IH]; [done|].
  cbn. rewrite (proj2 (Z.eqb_neq _ _)) by done. by rewrite IH.
Qed.

Lemma strlen_app s rest : no_nul s -> strlen (s ++ 0 :: rest) = Some (Z.of_nat (length s)).
Proof.
  induction 1 as [|c s Hc Hs IH]; [done|].
  cbn [strlen app]. rewrite (proj2 (Z.eqb_neq _ _)) by done. rewrite IH. cbn. f_equal. lia.
Qed.

Lemma bytes_eqb_eq a b : bytes_eqb a b = true <-> a = b.
Proof. unfold bytes_eqb. by rewrite bool_decide_eq_true. Qed.

Lemma strncmp_eq_refl a n : strncmp_eq a a n = true.
Proof. revert n. induction a; intros [|n]; cbn; auto. by rewrite Z.eqb_refl, IHa. Qed.

(** [strncmp] over the first [n] bytes compares the strings cut at [n]. *)
Lemma strncmp_eq_spec a b n : strncmp_eq a b n = true <-> take n a = take n b.
Proof.
  revert a b. induction n as [|n IH]; intros [|x a] [|y b]; cbn; try done.
  rewrite andb_true_iff, Z.eqb_eq, IH.
  split; [by intros [-> ->] | by intros [= -> ->]].
Qed.

(** ** Running a computation *)

Lemma run_bind {S A B} (m : CM S A) (k : A -> CM S B) s x s' :
  m s = Some (x, s') -> (x ← m; k x) s = k x s'.
Proof. unfold mbind, cm_bind. by intros ->. Qed.

Lemma run_gets {S A B} (f : S -> A) (k : A -> CM S B) s : (x ← cgets f; k x) s = k (f s) s.
Proof. done. Qed.

Lemma run_modify {S B} (f : S -> S) (k : unit -> CM S B) s : (x ← cmodify f; k x) s = k tt (f s).
Proof. done. Qed.

Lemma run_lift {S A B} (o : option A) (k : A -> CM S B) s x :
  o = Some x -> (x ← clift o; k x) s = k x s.
Proof. by intros ->. Qed.

Lemma bind_inv {S A B} (m : CM S A) (k : A -> CM S B) s x s' :
  (y ← m; k y) s = Some (x, s') -> exists y s1, m s = Some (y, s1) /\ k y s1 = Some (x, s').
Proof. unfold mbind, cm_bind. destruct (m s) as [[y s1]|]; [|done]. by exists y, s1. Qed.

(** ** Rules of [wp] *)

Lemma wp_ret {S A} (x : A) (Q : A -> S -> Prop) s : Q x s -> wp (mret x) Q s.
Proof. done. Qed.

Lemma wp_bind {S A B} (m : CM S A) (k : A -> CM S B) Q s :
  wp m (fun x => wp (k x) Q) s -> wp (x ← m; k x) Q s.
Proof. unfold wp, mbind, cm_bind. destruct (m s) as [[x s']|]; done. Qed.

Lemma wp_gets {S A} (f : S -> A) (Q : A -> S -> Prop) s : Q (f s) s -> wp (cgets f) Q s.
Proof. done. Qed.

Lemma wp_modify {S} (f : S -> S) (Q : unit -> S -> Prop) s : Q tt (f s) -> wp (cmodify f) Q s.
Proof. done. Qed.

Lemma wp_lift {S A} (o : option A) (Q : A -> S -> Prop) s x :
  o = Some x -> Q x s -> wp (clift o) Q s.
Proof. by intros -> ?. Qed.

Lemma wp_when {S} (b : bool) (m : CM S unit) Q s :
  (b = true -> wp m Q s) -> (b = false -> Q tt s) -> wp (cwhen b m) Q s.
Proof. destruct b; cbn; auto. Qed.

Lemma wp_if {S A} (b : bool) (m1 m2 : CM S A) Q s :
  (b = true -> wp m1 Q s) -> (b = false -> wp m2 Q s) -> wp (if b then m1 else m2) Q s.
Proof. destruct b; auto. Qed.

Lemma wp_on_part {S T A} (get : S -> T) (set : T -> S -> S) (m : CM T A) Q s :
  wp m (fun x t => Q x (set t s)) (get s) -> wp (on_part get set m) Q s.
Proof. unfold wp, on_part. destruct (m (get s)) as [[x t]|]; done. Qed.

Lemma wp_mono {S A} (m : CM S A) (P Q : A -> S -> Prop) s :
  wp m P s -> (forall x s', P x s' -> Q x s') -> wp m Q s.
Proof. unfold wp. destruct (m s) as [[x s']|]; auto. Qed.

Lemma wp_Some {S A} (m : CM S A) Q s :
  wp m Q s -> exists x s', m s = Some (x, s') /\ Q x s'.
Proof. unfold wp. destruct (m s) as [[x s']|]; [eauto|done]. Qed.

Lemma wp_eq {S A} (m : CM S A) (Q : A -> S -> Prop) s x s' :
  m s = Some (x, s') -> Q x s' -> wp m Q s.
Proof. unfold wp. by intros ->. Qed.

(** ** Parts of the state that a computation does not change *)

Section Preserves.
Context {S T : Type} (part : S -> T).

Definition preserves {A} (m : CM S A) : Prop := forall s x s', m s = Some (x, s') -> part s' = part s.

Lemma preserves_bind {A B} (m : CM S A) (k : A -> CM S B) :
  preserves m -> (forall x, preserves (k x)) -> preserves (x ← m; k x).
Proof.
  intros Hm Hk s y s'' H. unfold mbind, cm_bind in H.
  destruct (m s) as [[x s']|] eqn:E; [|done]. by rewrite (Hk x s' y s'' H), (Hm s x s' E).
Qed.

Lemma preserves_ret {A} (x : A) : preserves (mret x).
Proof. by intros s y s' [= _ <-]. Qed.

Lemma preserves_gets {A} (f : S -> A) : preserves (cgets f).
Proof. by intros s y s' [= _ <-]. Qed.

Lemma preserves_lift {A} (o : option A) : preserves (clift o).
Proof. intros s y s'. unfold clift. destruct o; [|done]. by intros [= _ <-]. Qed.

Lemma preserves_modify (f : S -> S) : (forall s, part (f s) = part s) -> preserves (cmodify f).
Proof. intros Hf s y s' [= _ <-]. apply Hf. Qed.

Lemma preserves_if {A} (b : bool) (m1 m2 : CM S A) :
  preserves m1 -> preserves m2 -> preserves (if b then m1 else m2).
Proof. by destruct b. Qed.

Lemma preserves_when (b : bool) (m : CM S unit) : preserves m -> preserves (cwhen b m).
Proof. destruct b; [done|]. intros _. apply preserves_ret. Qed.

Lemma preserves_on_part {U A} (get : S -> U) (set : U -> S -> S) (m : CM U A) :
  (forall u s, part (set u s) = part s) -> preserves (on_part get set m).
Proof.
  intros Hs s y s'. unfold on_part. destruct (m (get s)) as [[x u]|]; [|done]. intros [= _ <-]. apply Hs.
Qed.

Lemma wp_preserves {A} (m : CM S A) Q s :
  preserves m -> wp m Q s -> wp m (fun x s' => part s' = part s /\ Q x s') s.
Proof. unfold wp. intros Hm. destruct (m s) as [[x s']|] eqn:E; [|done]. intros HQ. split; [by eapply Hm|done]. Qed.
End Preserves.

Create HintDb preserves discriminated.
#[export] Hint Resolve preserves_ret preserves_gets preserves_lift : preserves.

Ltac preserves :=
  repeat first
    [ progress auto with preserves
    | apply preserves_bind; [|intros ?]
    | apply preserves_if
    | apply preserves_when
    | apply preserves_modify; reflexivity
    | apply preserves_on_part; reflexivity
    | match goal with |- preserves _ (match ?x with _ => _ end) => destruct x end ].

Lemma array_set_Some {A} (l : list A) i x :
  0 <= i < Z.of_nat (length l) -> array_set l i x = Some (<[Z.to_nat i := x]> l).
Proof.
  intros. unfold array_set. by rewrite (proj2 (Z.leb_le _ _)), (proj2 (Z.ltb_lt _ _)) by lia.
Qed.

Lemma array_get_Some {A} (l : list A) i :
  0 <= i < Z.of_nat (length l) -> exists x, array_get l i = Some x /\ l !! Z.to_nat i = Some x.
Proof.
  intros. unfold array_get. rewrite (proj2 (Z.leb_le _ _)) by lia.
  destruct (lookup_lt_is_Some_2 l (Z.to_nat i)) as [x Hx]; [lia|eauto].
Qed.

(** The hints of the library: facts on lengths and byte ranges. *)
Create Rewrite HintDb blen.
#[export] Hint Rewrite length_le_bytes : blen.
#[export] Hint Rewrite @length_app @length_replicate @length_take @length_drop : blen.
#[export] Hint Resolve le_bytes_are_bytes : cint.

(** One step of a [wp] proof; [wps] repeats it. *)
Ltac wp_step :=
  lazymatch goal with
  | |- wp (mbind _ _) _ _ => apply wp_bind
  | |- wp (mret _) _ _ => apply wp_ret
  | |- wp (cgets _) _ _ => apply wp_gets
  | |- wp (cmodify _) _ _ => apply wp_modify
  | |- wp (cwhen _ _) _ _ => apply wp_when; intros
  | |- wp (if _ then _ else _) _ _ => apply wp_if; intros
  | |- wp (on_part _ _ _) _ _ => apply wp_on_part
  end.

Ltac wps := repeat (wp_step; cbv beta).

(** Case analysis on boolean comparisons of [Z] in goal and hypotheses. *)
Ltac zbool :=
  repeat match goal with
  | H : context [?a =? ?b] |- _ => destruct (Z.eqb_spec a b)
  | H : context [?a <=? ?b] |- _ => destruct (Z.leb_spec a b)
  | H : context [?a <? ?b] |- _ => destruct (Z.ltb_spec a b)
  | |- context [?a =? ?b] => destruct (Z.eqb_spec a b)
  | |- context [?a <=? ?b] => destruct (Z.leb_spec a b)
  | |- context [?a <? ?b] => destruct (Z.ltb_spec a b)
  end; cbn [andb orb negb] in *.
