(* ===== verification/HalBuff.v ===== *)
(** * The message buffers shared by the GPS HAL and the MNL daemon

    [mtk/gps/hal/gps_mtk_aosp.c], lines 663-721 and 748-788: [buff_put_*] and
    [buff_get_*] write and read a message at a moving offset of a byte
    array; [asc_str_to_usc2_str] and [raw_data_to_hex_string] prepare the
    strings of a network-initiated notification.  The C functions check no
    bound; here an access outside of an array is [None]. *)

From S2P Require Import Prelude.

(** ** Definitions *)

(** A buffer together with the running [offset]. *)
Record msgbuf := MsgBuf { mb_data : list Z; mb_off : Z }.

(** [char buff[n] = {0}; int offset = 0;] *)
Definition msg_init (n : Z) : msgbuf := MsgBuf (zeros n) 0.

(** Store [bs] at the offset and advance it: the common part of the writers. *)
Definition buff_store (bs : list Z) (m : msgbuf) : option msgbuf :=
  d ← buf_write (mb_data m) (mb_off m) bs;
  Some (MsgBuf d (mb_off m + Z.of_nat (length bs))).

Definition buff_put_int (input : Z) (m : msgbuf) : option msgbuf :=
  buff_store (le_bytes 4 (u32 input)) m.

Definition buff_put_string (str : list Z) (m : msgbuf) : option msgbuf :=
  let len := Z.of_nat (length str) + 1 in
  m ← buff_put_int len m;
  buff_store (str ++ [0]) m.

(** [memcpy(&buff[*offset], input, size)]: [input] is the source object, and
    reading past its end is out of bounds as well. *)
Definition buff_put_struct (input : list Z) (size : Z) (m : msgbuf) : option msgbuf :=
  bs ← buf_read input 0 size;
  buff_store bs m.

Definition buff_put_binary (input : list Z) (len : Z) (m : msgbuf) : option msgbuf :=
  m ← buff_put_int len m;
  buff_put_struct input len m.

Definition buff_get_int (m : msgbuf) : option (Z * msgbuf) :=
  bs ← buf_read (mb_data m) (mb_off m) 4;
  Some (s32 (le_val bs), MsgBuf (mb_data m) (mb_off m + 4)).

(** [output] is the destination object; it is filled from its start. *)
Definition buff_get_struct (output : list Z) (size : Z) (m : msgbuf)
    : option (list Z * msgbuf) :=
  bs ← buf_read (mb_data m) (mb_off m) size;
  o ← buf_write output 0 bs;
  Some (o, MsgBuf (mb_data m) (mb_off m + size)).

Definition buff_get_string (str : list Z) (m : msgbuf) : option (Z * list Z * msgbuf) :=
  '(len, m) ← buff_get_int m;
  '(o, m) ← buff_get_struct str len m;
  Some (len, o, m).

Definition buff_get_binary (output : list Z) (m : msgbuf) : option (Z * list Z * msgbuf) :=
  '(len, m) ← buff_get_int m;
  '(o, m) ← buff_get_struct output len m;
  Some (len, o, m).

(** [asc_str_to_usc2_str(output, input)]: the loop appends 00 and the
    character; the two stores after it are at [len + 1] and [len + 2]. *)
Fixpoint usc2_loop (output : list Z) (input : list Z) (len : Z) : option (list Z * Z) :=
  match input with
  | [] => None
  | c :: input' =>
      if c =? 0 then Some (output, len)
      else
        o ← buf_write output len [0];
        o ← buf_write o (len + 1) [c];
        usc2_loop o input' (len + 2)
  end.

Definition asc_str_to_usc2_str (output input : list Z) : option (list Z * Z) :=
  o ← buf_write output 0 [254];
  o ← buf_write o 1 [255];
  '(o, len) ← usc2_loop o input 2;
  o ← buf_write o (len + 1) [0];
  o ← buf_write o (len + 2) [0];
  Some (o, len).

(** One hexadecimal digit, upper case; [tmp] is a nibble. *)
Definition hex_digit (tmp : Z) : Z :=
  if (0 <=? tmp) && (tmp <=? 9) then tmp + 48 else (tmp - 10) + 65.

Fixpoint raw_data_to_hex_loop (output input : list Z) (i : Z) (n : nat) : option (list Z) :=
  match n with
  | O => Some output
  | S n' =>
      c ← buf_read input i 1;
      let b := le_val c in
      o ← buf_write output (i * 2) [hex_digit (Z.land (Z.shiftr b 4) 15)];
      o ← buf_write o (i * 2 + 1) [hex_digit (Z.land b 15)];
      raw_data_to_hex_loop o input (i + 1) n'
  end.

Definition raw_data_to_hex_string (output input : list Z) (input_len : Z) : option (list Z) :=
  raw_data_to_hex_loop output input 0 (Z.to_nat input_len).

(** ** Message contents

    What the writers build: the bytes written so far, then the zeros the
    buffer was initialised with. *)

Definition msg_of (n : Z) (enc : list Z) : msgbuf :=
  MsgBuf (enc ++ zeros (n - Z.of_nat (length enc))) (Z.of_nat (length enc)).

Definition enc_int (z : Z) : list Z := le_bytes 4 (u32 z).
Definition enc_string (s : list Z) : list Z :=
  enc_int (Z.of_nat (length s) + 1) ++ s ++ [0].
Definition enc_binary (bs : list Z) : list Z := enc_int (Z.of_nat (length bs)) ++ bs.

#[global] Arguments enc_int : simpl never.
#[global] Arguments enc_string : simpl never.
#[global] Arguments enc_binary : simpl never.
#[global] Arguments msg_of : simpl never.

(** A reader positioned after [pre], with [rest] still to read. *)
Definition msg_at (pre rest : list Z) : msgbuf :=
  MsgBuf (pre ++ rest) (Z.of_nat (length pre)).

(** ** Whole messages

    A message is a sequence of fields; [put_field] and [get_field] select the
    C writer and reader of each kind (the size of a structure is fixed).  Strings and binaries are read into a
    zeroed array of [cap] bytes. *)

Inductive field :=
  | FInt (z : Z)
  | FString (s : list Z)
  | FBinary (bs : list Z)
  | FStruct (bs : list Z).

Definition enc_field (f : field) : list Z :=
  match f with
  | FInt z => enc_int z
  | FString s => enc_string s
  | FBinary bs => enc_binary bs
  | FStruct bs => bs
  end.

Definition enc_fields (fs : list field) : list Z := concat (enc_field <$> fs).

Definition put_field (f : field) (m : msgbuf) : option msgbuf :=
  match f with
  | FInt z => buff_put_int z m
  | FString s => buff_put_string s m
  | FBinary bs => buff_put_binary bs (Z.of_nat (length bs)) m
  | FStruct bs => buff_put_struct bs (Z.of_nat (length bs)) m
  end.

Fixpoint put_fields (fs : list field) (m : msgbuf) : option msgbuf :=
  match fs with
  | [] => Some m
  | f :: fs' => m ← put_field f m; put_fields fs' m
  end.

(** Read one field of the kind of [f]. *)
Definition get_field (cap : Z) (f : field) (m : msgbuf) : option (field * msgbuf) :=
  match f with
  | FInt _ => '(z, m) ← buff_get_int m; Some (FInt z, m)
  | FString _ =>
      '(_, o, m) ← buff_get_string (zeros cap) m;
      s ← cstr o; Some (FString s, m)
  | FBinary _ =>
      '(len, o, m) ← buff_get_binary (zeros cap) m;
      Some (FBinary (take (Z.to_nat len) o), m)
  | FStruct bs =>
      '(o, m) ← buff_get_struct (zeros cap) (Z.of_nat (length bs)) m;
      Some (FStruct (take (length bs) o), m)
  end.

Fixpoint get_fields (cap : Z) (kinds : list field) (m : msgbuf) : option (list field) :=
  match kinds with
  | [] => Some []
  | k :: ks =>
      '(f, m) ← get_field cap k m;
      fs ← get_fields cap ks m; Some (f :: fs)
  end.

(** What a field must satisfy to survive the trip: an [int] is 32-bit, a
    string has no NUL, and both strings and binaries fit the reader's array. *)
Definition field_ok (cap : Z) (f : field) : Prop :=
  match f with
  | FInt z => is_s32 z
  | FString s => no_nul s /\ Z.of_nat (length s) < cap
  | FBinary bs | FStruct bs => Z.of_nat (length bs) <= cap
  end.

#[export] Instance field_ok_dec cap f : Decision (field_ok cap f).
Proof. destruct f; cbn; apply _. Defined.

(** Reference codec of [raw_data_to_hex_string]. *)
Definition hex_of (bs : list Z) : list Z :=
  concat ((fun b => [hex_digit (Z.land (Z.shiftr b 4) 15); hex_digit (Z.land b 15)]) <$> bs).

Definition unhex_digit (c : Z) : option Z :=
  if (48 <=? c) && (c <=? 57) then Some (c - 48)
  else if (65 <=? c) && (c <=? 70) then Some (c - 55) else None.

Fixpoint unhex (s : list Z) : option (list Z) :=
  match s with
  | [] => Some []
  | h :: l :: s' =>
      a ← unhex_digit h; b ← unhex_digit l; r ← unhex s'; Some (a * 16 + b :: r)
  | _ => None
  end.

(** Reference content of a UCS-2 string: byte order mark FE FF, then 00 c. *)
Definition usc2_of (s : list Z) : list Z :=
  254 :: 255 :: concat ((fun c => [0; c]) <$> s).

(** ** Lemmas *)

Create HintDb buff discriminated.

Lemma length_enc_int z : length (enc_int z) = 4%nat.
Proof. apply length_le_bytes. Qed.
#[export] Hint Rewrite length_enc_int : blen.

Ltac blen := autorewrite with blen in *; cbn [length] in *.

Lemma msg_init_of n : 0 <= n -> msg_init n = msg_of n [].
Proof. intros. unfold msg_init, msg_of. cbn. by rewrite Z.sub_0_r. Qed.

Lemma buff_store_of n enc bs :
  Z.of_nat (length enc + length bs) <= n ->
  buff_store bs (msg_of n enc) = Some (msg_of n (enc ++ bs)).
Proof.
  intros Hn. unfold buff_store, msg_of. cbn.
  rewrite buf_write_Some by (unfold zeros; blen; lia). cbn. do 2 f_equal; [|blen; lia].
  rewrite Nat2Z.id, take_app_length, <-(app_assoc enc). f_equal. f_equal.
  unfold zeros. rewrite drop_app_ge by lia. rewrite drop_replicate. f_equal. blen. lia.
Qed.

Lemma buff_store_overflow n enc bs :
  Z.of_nat (length enc) <= n ->
  n < Z.of_nat (length enc + length bs) -> buff_store bs (msg_of n enc) = None.
Proof.
  intros. unfold buff_store, msg_of. cbn.
  rewrite buf_write_None; [done|]. right. unfold zeros. blen. lia.
Qed.

Lemma buff_put_int_of n enc z :
  Z.of_nat (length enc) + 4 <= n ->
  buff_put_int z (msg_of n enc) = Some (msg_of n (enc ++ enc_int z)).
Proof. intros. apply buff_store_of. blen. lia. Qed.

Lemma buff_put_string_of n enc s :
  Z.of_nat (length enc) + 5 + Z.of_nat (length s) <= n ->
  buff_put_string s (msg_of n enc) = Some (msg_of n (enc ++ enc_string s)).
Proof.
  intros. unfold buff_put_string. rewrite buff_put_int_of by lia. cbn.
  rewrite buff_store_of by (blen; lia). unfold enc_string. by rewrite <-!app_assoc.
Qed.

Lemma buff_put_struct_of n enc bs size :
  size = Z.of_nat (length bs) -> Z.of_nat (length enc) + size <= n ->
  buff_put_struct bs size (msg_of n enc) = Some (msg_of n (enc ++ bs)).
Proof.
  intros -> ?. unfold buff_put_struct.
  rewrite buf_read_all by done. cbn.
  apply buff_store_of. lia.
Qed.

Lemma buff_put_binary_of n enc bs len :
  len = Z.of_nat (length bs) -> Z.of_nat (length enc) + 4 + len <= n ->
  buff_put_binary bs len (msg_of n enc) = Some (msg_of n (enc ++ enc_binary bs)).
Proof.
  intros -> ?. unfold buff_put_binary. rewrite buff_put_int_of by lia. cbn.
  rewrite buff_put_struct_of by (blen; lia). unfold enc_binary. by rewrite <-app_assoc.
Qed.

Lemma enc_int_val z : s32 (le_val (enc_int z)) = s32 z.
Proof.
  unfold enc_int. rewrite le_val_le_bytes. change (8 * Z.of_nat 4) with 32.
  change (u32 z mod 2 ^ 32) with (u32 (u32 z)). by rewrite uwrap_idemp, swrap_uwrap.
Qed.

Lemma buff_get_int_at pre z rest :
  buff_get_int (msg_at pre (enc_int z ++ rest))
  = Some (s32 z, msg_at (pre ++ enc_int z) rest).
Proof.
  unfold buff_get_int, msg_at. cbn.
  rewrite (buf_read_app pre _ rest) by (blen; lia). cbn. rewrite enc_int_val.
  by rewrite (app_assoc pre), length_app, Nat2Z.inj_add, length_enc_int.
Qed.

Lemma buff_get_struct_at pre bs rest output size :
  size = Z.of_nat (length bs) -> (length bs <= length output)%nat ->
  buff_get_struct output size (msg_at pre (bs ++ rest))
  = Some (bs ++ drop (length bs) output, msg_at (pre ++ bs) rest).
Proof.
  intros -> Hlen. unfold buff_get_struct, msg_at. cbn.
  rewrite (buf_read_app pre bs rest) by done. cbn.
  rewrite buf_write_Some by lia. cbn.
  by rewrite (app_assoc pre), length_app, Nat2Z.inj_add.
Qed.

Lemma buff_get_string_at pre s rest str :
  is_s32 (Z.of_nat (length s) + 1) -> (length s < length str)%nat ->
  buff_get_string str (msg_at pre (enc_string s ++ rest))
  = Some (Z.of_nat (length s) + 1, s ++ 0 :: drop (length s + 1) str,
          msg_at (pre ++ enc_string s) rest).
Proof.
  intros Hs Hlen. unfold buff_get_string, enc_string.
  rewrite <-!app_assoc, buff_get_int_at, s32_id by done. obind.
  rewrite (app_assoc s), buff_get_struct_at by (blen; lia). obind.
  rewrite <-!app_assoc, length_app. done.
Qed.

Lemma buff_get_binary_at pre bs rest output :
  is_s32 (Z.of_nat (length bs)) -> (length bs <= length output)%nat ->
  buff_get_binary output (msg_at pre (enc_binary bs ++ rest))
  = Some (Z.of_nat (length bs), bs ++ drop (length bs) output,
          msg_at (pre ++ enc_binary bs) rest).
Proof.
  intros Hs Hlen. unfold buff_get_binary, enc_binary.
  rewrite <-!app_assoc, buff_get_int_at, s32_id by done. obind.
  rewrite buff_get_struct_at by (blen; lia). cbn. by rewrite <-!app_assoc.
Qed.

Lemma msg_of_at n enc : msg_at [] (mb_data (msg_of n enc)) = MsgBuf (mb_data (msg_of n enc)) 0.
Proof. done. Qed.

Lemma put_field_of n enc f :
  Z.of_nat (length enc + length (enc_field f)) <= n ->
  put_field f (msg_of n enc) = Some (msg_of n (enc ++ enc_field f)).
Proof.
  destruct f; cbn [enc_field put_field]; unfold enc_string, enc_binary; intros; blen.
  - apply buff_put_int_of. lia.
  - apply buff_put_string_of. lia.
  - apply buff_put_binary_of; lia.
  - apply buff_put_struct_of; lia.
Qed.

Lemma buff_put_int_overflow n enc z :
  Z.of_nat (length enc) <= n < Z.of_nat (length enc) + 4 ->
  buff_put_int z (msg_of n enc) = None.
Proof. intros. apply buff_store_overflow; blen; lia. Qed.

Lemma put_field_overflow n enc f :
  Z.of_nat (length enc) <= n ->
  n < Z.of_nat (length enc + length (enc_field f)) ->
  put_field f (msg_of n enc) = None.
Proof.
  destruct f as [z|s|bs|bs]; cbn [enc_field put_field]; unfold enc_string, enc_binary;
    intros ? Hn; blen.
  - apply buff_put_int_overflow. lia.
  - unfold buff_put_string. destruct (Z.ltb_spec n (Z.of_nat (length enc) + 4)).
    + by rewrite buff_put_int_overflow by lia.
    + rewrite buff_put_int_of by lia. obind. apply buff_store_overflow; blen; lia.
  - unfold buff_put_binary. destruct (Z.ltb_spec n (Z.of_nat (length enc) + 4)).
    + by rewrite buff_put_int_overflow by lia.
    + rewrite buff_put_int_of by lia. obind. unfold buff_put_struct.
      rewrite buf_read_all by done. obind. apply buff_store_overflow; blen; lia.
  - unfold buff_put_struct. rewrite buf_read_all by done. obind. apply buff_store_overflow; lia.
Qed.

Lemma put_fields_of n fs enc :
  Z.of_nat (length enc + length (enc_fields fs)) <= n ->
  put_fields fs (msg_of n enc) = Some (msg_of n (enc ++ enc_fields fs)).
Proof.
  revert enc. induction fs as [|f fs IH]; intros enc Hn; cbn [put_fields].
  - by rewrite app_nil_r.
  - unfold enc_fields in *. cbn in *. blen.
    rewrite put_field_of by lia. obind.
    rewrite IH by (blen; lia). by rewrite <-app_assoc.
Qed.

Lemma put_fields_overflow n fs enc :
  Z.of_nat (length enc) <= n ->
  n < Z.of_nat (length enc + length (enc_fields fs)) ->
  put_fields fs (msg_of n enc) = None.
Proof.
  revert enc. induction fs as [|f fs IH]; intros enc Hl Hn; cbn [put_fields].
  - cbn in Hn. lia.
  - unfold enc_fields in *. cbn in Hn. blen.
    destruct (Z.ltb_spec n (Z.of_nat (length enc + length (enc_field f)))).
    + by rewrite put_field_overflow by lia.
    + rewrite put_field_of by lia. obind. apply IH; blen; lia.
Qed.

Lemma get_field_at cap f pre rest :
  0 <= cap < 2 ^ 31 - 1 -> field_ok cap f ->
  get_field cap f (msg_at pre (enc_field f ++ rest))
  = Some (f, msg_at (pre ++ enc_field f) rest).
Proof.
  intros Hc Hf. destruct f as [z|s|bs|bs]; cbn [field_ok enc_field get_field] in *.
  - rewrite buff_get_int_at. obind. by rewrite s32_id.
  - destruct Hf as [Hs Hl].
    rewrite buff_get_string_at by (unfold is_s32, zeros; blen; lia). obind.
    by rewrite cstr_app.
  - rewrite buff_get_binary_at by (unfold is_s32, zeros; blen; lia). obind.
    by rewrite Nat2Z.id, take_app_length.
  - rewrite buff_get_struct_at by (unfold zeros; blen; lia). obind. by rewrite take_app_length.
Qed.

Lemma get_fields_at cap fs pre rest :
  0 <= cap < 2 ^ 31 - 1 -> Forall (field_ok cap) fs ->
  get_fields cap fs (msg_at pre (enc_fields fs ++ rest)) = Some fs.
Proof.
  intros Hc Hfs. revert pre. induction Hfs as [|f fs Hf _ IH]; intros pre; [done|].
  unfold enc_fields in *. cbn [get_fields concat fmap list_fmap].
  rewrite <-app_assoc, get_field_at by done. obind. by rewrite IH.
Qed.

Lemma hex_digit_unhex d : 0 <= d < 16 -> unhex_digit (hex_digit d) = Some d.
Proof.
  intros Hd. unfold hex_digit, unhex_digit.
  destruct (Z.leb_spec 0 d); [|lia]. destruct (Z.leb_spec d 9); cbn [andb].
  - rewrite !(proj2 (Z.leb_le _ _)) by lia. cbn. f_equal. lia.
  - rewrite (proj2 (Z.leb_le 48 _)), (proj2 (Z.leb_gt _ 57)) by lia. cbn [andb].
    rewrite !(proj2 (Z.leb_le _ _)) by lia. cbn. f_equal. lia.
Qed.

Lemma unhex_hex_of bs : Forall is_byte bs -> unhex (hex_of bs) = Some bs.
Proof.
  unfold hex_of. induction 1 as [|b bs Hb _ IH]; [done|]. unfold is_byte in Hb.
  cbn [fmap list_fmap concat app unhex].
  assert (Z.land (Z.shiftr b 4) 15 = b / 16) as ->.
  { change 15 with (Z.ones 4). rewrite Z.land_ones, Z.shiftr_div_pow2 by lia.
    change (2 ^ 4) with 16. apply Z.mod_small.
    split; [apply Z.div_pos|apply Z.div_lt_upper_bound]; lia. }
  assert (Z.land b 15 = b mod 16) as ->.
  { change 15 with (Z.ones 4). by rewrite Z.land_ones by lia. }
  pose proof (Z.div_mod b 16). pose proof (Z.mod_pos_bound b 16).
  pose proof (Z.div_pos b 16). pose proof (Z.div_lt_upper_bound b 16 16).
  rewrite !hex_digit_unhex by lia. obind. rewrite IH. obind. f_equal. f_equal. lia.
Qed.

Lemma length_hex_of bs : length (hex_of bs) = (2 * length bs)%nat.
Proof. unfold hex_of. induction bs; cbn in *; lia. Qed.
#[export] Hint Rewrite length_hex_of : blen.

(** Writing [y] over the byte that follows [pre]. *)
Lemma buf_write_at pre x post off y :
  off = Z.of_nat (length pre) -> buf_write (pre ++ x :: post) off [y] = Some (pre ++ y :: post).
Proof.
  intros ->. rewrite buf_write_Some by (blen; lia).
  rewrite Nat2Z.id, take_app_length. do 2 f_equal. cbn [app length]. f_equal.
  rewrite drop_app_ge by lia. by replace (_ - _)%nat with 1%nat by lia.
Qed.

Lemma buf_write_at_succ pre a x post off y :
  off = Z.of_nat (length pre) + 1 ->
  buf_write (pre ++ a :: x :: post) off [y] = Some (pre ++ a :: y :: post).
Proof.
  intros ->. rewrite !(cons_middle a pre), !(app_assoc pre). apply buf_write_at. blen. lia.
Qed.

Lemma raw_data_to_hex_loop_spec pre bs post done rest :
  (2 * length bs <= length rest)%nat -> length done = (2 * length pre)%nat ->
  raw_data_to_hex_loop (done ++ rest) (pre ++ bs ++ post)
    (Z.of_nat (length pre)) (length bs)
  = Some (done ++ hex_of bs ++ drop (2 * length bs) rest).
Proof.
  revert pre done rest. induction bs as [|b bs IH]; intros pre done rest Hl Hd.
  { done. }
  destruct rest as [|r1 [|r2 rest]]; cbn [length] in Hl; [lia|lia|].
  cbn [raw_data_to_hex_loop length].
  rewrite (buf_read_app pre [b] (bs ++ post)) by (blen; lia). obind.
  cbn [le_val]. rewrite Z.mul_0_r, Z.add_0_r.
  rewrite buf_write_at by lia. obind.
  rewrite buf_write_at_succ by lia. obind.
  set (h1 := hex_digit _). set (h2 := hex_digit _).
  specialize (IH (pre ++ [b]) (done ++ [h1; h2]) rest).
  rewrite <-!app_assoc in IH. cbn [app] in IH.
  replace (Z.of_nat (length pre) + 1) with (Z.of_nat (length (pre ++ [b]))) by (blen; lia).
  cbn [app]. rewrite IH by (blen; lia). unfold hex_of. cbn [fmap list_fmap concat app].
  by replace (2 * S (length bs))%nat with (S (S (2 * length bs))) by lia.
Qed.

Lemma length_usc2_chars s : length (concat ((fun c => [0; c]) <$> s)) = (2 * length s)%nat.
Proof. induction s as [|c s IH]; cbn [fmap list_fmap concat length app] in *; lia. Qed.

Lemma usc2_loop_spec s rest done x :
  no_nul s -> (2 * length s <= length x)%nat ->
  usc2_loop (done ++ x) (s ++ 0 :: rest) (Z.of_nat (length done))
  = Some (done ++ concat ((fun c => [0; c]) <$> s) ++ drop (2 * length s) x,
          Z.of_nat (length done) + 2 * Z.of_nat (length s)).
Proof.
  intros Hs. revert done x. induction Hs as [|c s Hc Hs IH]; intros done x Hx.
  { cbn. do 2 f_equal. lia. }
  destruct x as [|x1 [|x2 x]]; cbn [length] in Hx; [lia|lia|].
  cbn [app usc2_loop]. rewrite (proj2 (Z.eqb_neq _ _)) by done.
  rewrite buf_write_at by lia. obind. rewrite buf_write_at_succ by lia. obind.
  specialize (IH (done ++ [0; c]) x). rewrite <-!app_assoc in IH. cbn [app] in IH.
  replace (Z.of_nat (length done) + 2) with (Z.of_nat (length (done ++ [0; c]))) by (blen; lia).
  rewrite IH by lia. cbn [fmap list_fmap concat app].
  replace (2 * length (c :: s))%nat with (S (S (2 * length s))) by (cbn; lia).
  cbn [drop]. do 2 f_equal. blen. lia.
Qed.

(** The whole conversion, byte order mark and terminator included. *)
Lemma usc2_val x s rest b :
  no_nul s -> (2 * length s + 5 <= length x)%nat ->
  x !! (2 * length s + 2)%nat = Some b ->
  asc_str_to_usc2_str x (s ++ 0 :: rest)
  = Some (usc2_of s ++ b :: 0 :: 0 :: drop (2 * length s + 5) x,
          2 * Z.of_nat (length s) + 2).
Proof.
  intros Hs Hx Hb. destruct x as [|x0 [|x1 x]]; cbn [length] in Hx; [lia|lia|].
  unfold asc_str_to_usc2_str.
  rewrite (buf_write_at [] x0 (x1 :: x)) by done. obind. cbn [app].
  rewrite (buf_write_at [254] x1 x) by done. obind.
  change ([254] ++ 255 :: x) with ([254; 255] ++ x).
  change 2 with (Z.of_nat (length [254; 255])) at 1.
  rewrite usc2_loop_spec by (done || lia). obind.
  replace (2 * length s + 2)%nat with (S (S (2 * length s))) in Hb by lia.
  change (x !! (2 * length s)%nat = Some b) in Hb.
  pose proof (drop_S x b _ Hb) as Hd.
  assert (exists y1 y2 ys, drop (2 * length s) x = b :: y1 :: y2 :: ys) as (y1 & y2 & ys & E).
  { assert (2 <= length (drop (S (2 * length s)) x))%nat as Hge by (rewrite length_drop; lia).
    rewrite Hd. destruct (drop (S _) x) as [|y1 [|y2 ys]]; cbn [length] in Hge; [lia|lia|].
    eauto. }
  rewrite E. set (u := concat _).
  pose proof (length_usc2_chars s) as Hu. fold u in Hu.
  change ([254; 255] ++ u ++ b :: y1 :: y2 :: ys)
    with ((254 :: 255 :: u) ++ b :: y1 :: y2 :: ys).
  rewrite buf_write_at_succ by (cbn [length]; lia). obind.
  rewrite (cons_middle b), (app_assoc (254 :: _)).
  rewrite buf_write_at_succ by (blen; lia). obind.
  unfold usc2_of. rewrite <-(app_assoc (254 :: _)). cbn [app]. fold u.
  replace (_ + 2 * Z.of_nat _) with (2 * Z.of_nat (length s) + 2) by (cbn [length]; lia).
  do 8 f_equal.
  change (drop (2 * length s + 5) (x0 :: x1 :: x)) with (drop (2 * length s + 5) ([x0; x1] ++ x)).
  rewrite drop_app_ge by (cbn; lia).
  replace (2 * length s + 5 - length [x0; x1])%nat with (2 * length s + 3)%nat by (cbn; lia).
  rewrite <-drop_drop, E. done.
Qed.

(** Digits that do not fit run past the end of the array. *)
Lemma raw_data_to_hex_loop_overflow pre bs post done rest :
  (length rest < 2 * length bs)%nat -> length done = (2 * length pre)%nat ->
  raw_data_to_hex_loop (done ++ rest) (pre ++ bs ++ post) (Z.of_nat (length pre)) (length bs) = None.
Proof.
  revert pre done rest. induction bs as [|b bs IH]; intros pre done rest Hl Hd; [cbn in Hl; lia|].
  cbn [raw_data_to_hex_loop length].
  rewrite (buf_read_app pre [b] (bs ++ post)) by (blen; lia). obind.
  destruct rest as [|r1 [|r2 rest]].
  - rewrite buf_write_None by (blen; cbn; lia). done.
  - rewrite buf_write_at by lia. obind. rewrite buf_write_None by (blen; cbn; lia). done.
  - rewrite buf_write_at by lia. obind. rewrite buf_write_at_succ by lia. obind.
    set (h1 := hex_digit _). set (h2 := hex_digit _). cbn [length] in Hl.
    specialize (IH (pre ++ [b]) (done ++ [h1; h2]) rest).
    rewrite <-!app_assoc in IH. cbn [app] in IH.
    replace (Z.of_nat (length pre) + 1) with (Z.of_nat (length (pre ++ [b]))) by (blen; lia).
    cbn [app]. apply IH; blen; lia.
Qed.

(** ** Properties *)

(** C1 (round trip): a message written field by field with [buff_put_int],
    [buff_put_string], [buff_put_binary] and [buff_put_struct] into a fresh
    [n]-byte buffer is read back exactly by the matching readers, for every sequence of fields that fits. *)
Theorem msg_roundtrip n cap fs :
  0 <= cap < 2 ^ 31 - 1 -> Forall (field_ok cap) fs ->
  Z.of_nat (length (enc_fields fs)) <= n ->
  exists m, put_fields fs (msg_init n) = Some m
    /\ mb_off m = Z.of_nat (length (enc_fields fs))
    /\ Z.of_nat (length (mb_data m)) = n
    /\ get_fields cap fs (MsgBuf (mb_data m) 0) = Some fs.
Proof.
  intros Hc Hfs Hn. exists (msg_of n (enc_fields fs)).
  rewrite msg_init_of, put_fields_of by (cbn; lia). unfold msg_of. cbn [mb_data mb_off app].
  split_and!; [done|done|unfold zeros; blen; lia|].
  by apply (get_fields_at _ _ []).
Qed.

Lemma msg_roundtrip_witness :
  exists m, put_fields [FInt (-5); FString (zs "supl.host"); FBinary [1; 0; 255]] (msg_init 1024)
              = Some m
    /\ mb_off m = 25
    /\ Z.of_nat (length (mb_data m)) = 1024
    /\ get_fields 64 [FInt (-5); FString (zs "supl.host"); FBinary [1; 0; 255]]
         (MsgBuf (mb_data m) 0)
       = Some [FInt (-5); FString (zs "supl.host"); FBinary [1; 0; 255]].
Proof.
  apply (msg_roundtrip 1024 64 [FInt (-5); FString (zs "supl.host"); FBinary [1; 0; 255]]).
  - lia.
  - by_decide.
  - vm_compute. discriminate.
Defined.

(** Writing a message runs past the end of an [n]-byte buffer
    exactly when its encoding is longer than [n]; the writers do not check. *)
Theorem msg_overflow n fs :
  0 <= n ->
  put_fields fs (msg_init n) = None <-> n < Z.of_nat (length (enc_fields fs)).
Proof.
  intros Hn. rewrite msg_init_of by done. split.
  - intros H. destruct (Z.ltb_spec n (Z.of_nat (length (enc_fields fs)))); [done|].
    by rewrite put_fields_of in H by (cbn; lia).
  - intros H. apply put_fields_overflow; cbn; lia.
Qed.

Lemma msg_overflow_witness :
  put_fields [FInt 1; FString (replicate 8 65)] (msg_init 16) = None.
Proof. apply (msg_overflow 16); [lia | vm_compute; reflexivity]. Defined.

(** [raw_data_to_hex_string] writes exactly two upper-case
    digits per input byte, which decode to the input, and leaves the rest of
    the output array, including the byte after the digits, as it was. *)
Theorem raw_data_to_hex_string_spec output input n :
  Forall is_byte input -> 0 <= n <= Z.of_nat (length input) ->
  2 * n <= Z.of_nat (length output) ->
  exists hex, raw_data_to_hex_string output input n
      = Some (hex ++ drop (2 * Z.to_nat n) output)
    /\ length hex = (2 * Z.to_nat n)%nat
    /\ unhex hex = Some (take (Z.to_nat n) input).
Proof.
  intros Hb Hn Ho. exists (hex_of (take (Z.to_nat n) input)). split_and!.
  - unfold raw_data_to_hex_string.
    rewrite <-(take_drop (Z.to_nat n) input) at 1.
    pose proof (raw_data_to_hex_loop_spec [] (take (Z.to_nat n) input)
                  (drop (Z.to_nat n) input) [] output) as H.
    cbn [app length] in H. blen.
    replace (Z.to_nat n `min` length input)%nat with (Z.to_nat n) in H by lia.
    apply H; lia.
  - blen. lia.
  - apply unhex_hex_of. by apply Forall_take.
Qed.

Lemma raw_data_to_hex_string_spec_witness :
  exists hex, raw_data_to_hex_string (zeros 8) [254; 255; 65] 3 = Some (hex ++ drop 6 (zeros 8))
    /\ length hex = 6%nat
    /\ unhex hex = Some [254; 255; 65].
Proof.
  apply (raw_data_to_hex_string_spec (zeros 8) [254; 255; 65] 3);
    [by_decide | cbn; lia | vm_compute; discriminate].
Defined.

(** [asc_str_to_usc2_str] writes FE FF and the characters in
    UCS-2 and returns their length; the two final stores land one byte late,
    so the byte at the returned length keeps its old value and the array must
    have three spare bytes. *)
Theorem asc_str_to_usc2_str_spec x s rest b :
  no_nul s -> (2 * length s + 5 <= length x)%nat ->
  x !! (2 * length s + 2)%nat = Some b ->
  asc_str_to_usc2_str x (s ++ 0 :: rest)
  = Some (usc2_of s ++ b :: 0 :: 0 :: drop (2 * length s + 5) x,
          2 * Z.of_nat (length s) + 2).
Proof. exact (usc2_val x s rest b). Qed.

Lemma asc_str_to_usc2_str_spec_witness :
  asc_str_to_usc2_str (replicate 10 7) [72; 105; 0; 9]
  = Some ([254; 255; 0; 72; 0; 105; 7; 0; 0; 7], 6).
Proof.
  apply (asc_str_to_usc2_str_spec (replicate 10 7) [72; 105] [9] 7);
    [by_decide | cbn; lia | reflexivity].
Defined.
