(* ===== verification/Lights.v ===== *)
(** * The lights HAL ([liblights/lights.c])

    The state is the module's globals, the static [preStatus] of each
    [blink_*] function and the trace of system calls.  The kernel is the
    parameter [os]: the result of a call as a function of the calls made
    before it; a negative result is [-errno].  The answers of [nanosleep] to
    one [led_wait_delay] come from [os_sleep], a finite list: a thread is not
    interrupted for ever. *)

From stdpp Require Import functions.
From S2P Require Import Prelude.

(** ** Data *)

(** [struct light_state_t] of the Android lights interface. *)
Inductive flash_mode :=
  | LIGHT_FLASH_NONE
  | LIGHT_FLASH_TIMED
  | LIGHT_FLASH_HARDWARE
  | LIGHT_FLASH_OTHER (mode : Z).

Record light_state_t := LightState {
  color : Z;
  flashMode : flash_mode;
  flashOnMS : Z;
  flashOffMS : Z;
}.

Inductive led := Red | Green | Blue.

#[export] Instance led_eq_dec : EqDecision led.
Proof. solve_decision. Defined.

(** The sysfs attribute files. *)
Inductive file :=
  | TRACKBALL_FILE
  | LED_FILE (c : led)
  | TRIGGER_FILE (c : led)
  | DELAY_ON_FILE (c : led)
  | DELAY_OFF_FILE (c : led)
  | LCD_FILE
  | KEYBOARD_FILE
  | BUTTON_FILE.

#[export] Instance file_eq_dec : EqDecision file.
Proof. solve_decision. Defined.

Inductive access_mode := F_OK | R_OK_W_OK | W_OK.

#[export] Instance access_mode_eq_dec : EqDecision access_mode.
Proof. solve_decision. Defined.

(** System calls, in the order they are made. *)
Inductive syscall :=
  | SOpen (f : file)
  | SWrite (f : file) (bytes : list Z)
  | SClose (f : file)
  | SAccess (f : file) (m : access_mode)
  | SNanosleep (ns : Z)
  | SLock
  | SUnlock
  | SMutexInit.

#[export] Instance syscall_eq_dec : EqDecision syscall.
Proof. solve_decision. Defined.

(** How one [nanosleep] ends. *)
Inductive sleep_answer :=
  | SleepEINTR (rem_ns : Z)
  | SleepError (errno : Z).

Record lights := Lights {
  g_init : bool;
  g_haveTrackballLight : Z;
  g_notification : light_state_t;
  g_battery : light_state_t;
  g_backlight : Z;
  g_trackball : Z;
  g_buttons : Z;
  g_attention : Z;
  preStatus : led -> Z;
  trace : list syscall;
}.

#[export] Instance lights_rebuild : Rebuild lights := fun s =>
  Lights (g_init s) (g_haveTrackballLight s) (g_notification s) (g_battery s) (g_backlight s)
    (g_trackball s) (g_buttons s) (g_attention s) (preStatus s) (trace s).

(** The globals as the loader leaves them. *)
Definition light_zero : light_state_t := LightState 0 LIGHT_FLASH_NONE 0 0.
Definition lights_boot : lights :=
  Lights false 0 light_zero light_zero 255 (-1) 0 0 (fun _ => 0) [].

Section Lights.
Context (os : list syscall -> syscall -> Z).
Context (os_sleep : list syscall -> list sleep_answer).
(** The light names of the Android lights interface, backlight, keyboard,
    buttons, battery, notifications and attention, in this order. *)
Context (LIGHT_ID : list (list Z)).

(** ** Operations *)

(** Make one system call: its result, logged in the trace. *)
Definition sys (c : syscall) : ST lights Z := fun s =>
  (os (trace s) c, s ⟨ trace $= fun t => t ++ [c] ⟩).

Fixpoint sleep_loop (answers : list sleep_answer) (req : Z) : ST lights Z :=
  _ ← sys (SNanosleep req);
  match answers with
  | [] => mret 0
  | SleepEINTR rem :: answers' => sleep_loop answers' rem
  | SleepError e :: _ => mret e
  end.

Definition led_wait_delay (ms : Z) : ST lights Z :=
  answers ← gets (fun s => os_sleep (trace s));
  sleep_loop answers (ms * 1000000).

Definition init_globals : ST lights unit :=
  _ ← sys SMutexInit;
  r ← sys (SAccess TRACKBALL_FILE W_OK);
  modify (fun s => s ⟨ g_haveTrackballLight := if r =? 0 then 1 else 0 ⟩).

(** The common body of [write_int] and [write_str]: [errno] is read after
    [close], which may have changed it. *)
Definition write_bytes (f : file) (bytes : list Z) : ST lights Z :=
  fd ← sys (SOpen f);
  if 0 <=? fd then
    amt ← sys (SWrite f bytes);
    cl ← sys (SClose f);
    mret (if amt <? 0 then (if cl <? 0 then cl else amt) else 0)
  else mret fd.

Definition write_int (f : file) (value : Z) : ST lights Z :=
  write_bytes f (dec value ++ [10]).

Definition write_str (f : file) (str : list Z) : ST lights Z := write_bytes f str.

Definition is_lit (state : light_state_t) : Z := Z.land (color state) 16777215.

Definition blink_status (level onMS offMS : Z) : Z :=
  if level =? 0 then 0 else if truthy onMS && truthy offMS then 1 else 2.

(** The [while] over the two [access] calls; [n] is [10 - i]. *)
Fixpoint wait_delay_file (f : file) (n : nat) : ST lights unit :=
  a ← sys (SAccess f F_OK);
  missing ← (if a <? 0 then mret true
             else b ← sys (SAccess f R_OK_W_OK); mret (b <? 0));
  match missing, n with
  | true, S n' => _ ← led_wait_delay 5; wait_delay_file f n'
  | _, _ => mret tt
  end.

(** [blink_red], [blink_green] and [blink_blue] are this code on their own
    files and their own static [preStatus]. *)
Definition blink (c : led) (level onMS offMS : Z) : ST lights Z :=
  let nowStatus := blink_status level onMS offMS in
  pre ← gets (fun s => preStatus s c);
  if pre =? nowStatus then mret (-1) else
  _ ← (if nowStatus =? 0 then
         write_int (LED_FILE c) 0
       else if nowStatus =? 1 then
         _ ← write_str (TRIGGER_FILE c) (zs "timer");
         _ ← wait_delay_file (DELAY_OFF_FILE c) 10;
         _ ← write_int (DELAY_OFF_FILE c) offMS;
         write_int (DELAY_ON_FILE c) onMS
       else
         _ ← write_str (TRIGGER_FILE c) (zs "none");
         write_int (LED_FILE c) 255);
  _ ← modify (fun s => s ⟨ preStatus $= <[c := nowStatus]> ⟩);
  mret 0.

Definition blink_red := blink Red.
Definition blink_green := blink Green.
Definition blink_blue := blink Blue.

Definition handle_trackball_light_locked : ST lights Z :=
  attention ← gets g_attention;
  backlight ← gets g_backlight;
  trackball ← gets g_trackball;
  let mode := if (attention =? 7) && truthy backlight then 0 else attention in
  if trackball =? mode then mret 0 else write_int TRACKBALL_FILE mode.

Definition rgb_to_brightness (state : light_state_t) : Z :=
  let color := Z.land (color state) 16777215 in
  Z.shiftr (77 * Z.land (Z.shiftr color 16) 255
            + 150 * Z.land (Z.shiftr color 8) 255
            + 29 * Z.land color 255) 8.

Definition set_light_backlight (state : light_state_t) : ST lights Z :=
  let brightness := rgb_to_brightness state in
  _ ← sys SLock;
  _ ← modify (fun s => s ⟨ g_backlight := brightness ⟩);
  err ← write_int LCD_FILE brightness;
  have ← gets g_haveTrackballLight;
  _ ← when (truthy have) (_ ← handle_trackball_light_locked; mret tt);
  _ ← sys SUnlock;
  mret err.

Definition set_light_keyboard (state : light_state_t) : ST lights Z :=
  let on := is_lit state in
  _ ← sys SLock;
  err ← write_int KEYBOARD_FILE (if truthy on then 255 else 0);
  _ ← sys SUnlock;
  mret err.

Definition set_light_buttons (state : light_state_t) : ST lights Z :=
  let on := is_lit state in
  _ ← sys SLock;
  _ ← modify (fun s => s ⟨ g_buttons := on ⟩);
  err ← write_int BUTTON_FILE (if truthy on then 255 else 0);
  _ ← sys SUnlock;
  mret err.

(** The channel levels [set_speaker_light_locked] extracts: alpha 0 turns
    the LED off. *)
Definition channel (colorRGB : Z) (c : led) : Z :=
  if Z.land (Z.shiftr colorRGB 24) 255 =? 0 then 0
  else match c with
       | Red => Z.land (Z.shiftr colorRGB 16) 255
       | Green => Z.land (Z.shiftr colorRGB 8) 255
       | Blue => Z.land colorRGB 255
       end.

Definition set_speaker_light_locked (state : light_state_t) : ST lights Z :=
  let '(onMS, offMS) :=
    match flashMode state with
    | LIGHT_FLASH_TIMED => (flashOnMS state, flashOffMS state)
    | _ => (0, 0)
    end in
  let red := channel (color state) Red in
  let green := channel (color state) Green in
  let blue := channel (color state) Blue in
  _ ← blink_red 0 0 0;
  _ ← blink_green 0 0 0;
  _ ← blink_blue 0 0 0;
  _ ← when (truthy red) (_ ← blink_red red onMS offMS; mret tt);
  _ ← when (truthy green) (_ ← blink_green green onMS offMS; mret tt);
  _ ← when (truthy blue) (_ ← blink_blue blue onMS offMS; mret tt);
  mret 0.

Definition handle_speaker_battery_locked : ST lights unit :=
  battery ← gets g_battery;
  notification ← gets g_notification;
  if truthy (is_lit battery) then
    _ ← set_speaker_light_locked battery; mret tt
  else
    _ ← set_speaker_light_locked battery;
    _ ← set_speaker_light_locked notification; mret tt.

Definition set_light_battery (state : light_state_t) : ST lights Z :=
  _ ← sys SLock;
  _ ← modify (fun s => s ⟨ g_battery := state ⟩);
  have ← gets g_haveTrackballLight;
  _ ← when (truthy have) (_ ← set_speaker_light_locked state; mret tt);
  _ ← handle_speaker_battery_locked;
  _ ← sys SUnlock;
  mret 0.

Definition set_light_notifications (state : light_state_t) : ST lights Z :=
  _ ← sys SLock;
  _ ← modify (fun s => s ⟨ g_notification := state ⟩);
  have ← gets g_haveTrackballLight;
  _ ← when (truthy have) (_ ← handle_trackball_light_locked; mret tt);
  _ ← handle_speaker_battery_locked;
  _ ← sys SUnlock;
  mret 0.

Definition set_light_attention (state : light_state_t) : ST lights Z :=
  _ ← sys SLock;
  _ ← modify (fun s =>
        match flashMode state with
        | LIGHT_FLASH_HARDWARE => s ⟨ g_attention := flashOnMS state ⟩
        | LIGHT_FLASH_NONE => s ⟨ g_attention := 0 ⟩
        | _ => s
        end);
  have ← gets g_haveTrackballLight;
  _ ← when (truthy have) (_ ← handle_trackball_light_locked; mret tt);
  _ ← sys SUnlock;
  mret 0.

(** The function pointer [open_lights] stores in the device. *)
Inductive set_light_fn :=
  | SetBacklight
  | SetKeyboard
  | SetButtons
  | SetBattery
  | SetNotifications
  | SetAttention.

#[local] Instance set_light_fn_eq_dec : EqDecision set_light_fn.
Proof. solve_decision. Defined.

Definition set_light (f : set_light_fn) : light_state_t -> ST lights Z :=
  match f with
  | SetBacklight => set_light_backlight
  | SetKeyboard => set_light_keyboard
  | SetButtons => set_light_buttons
  | SetBattery => set_light_battery
  | SetNotifications => set_light_notifications
  | SetAttention => set_light_attention
  end.

(** The [strcmp] chain: the first equal name wins. *)
Fixpoint light_by_name (name : list Z) (ids : list (list Z)) (fs : list set_light_fn)
    : option set_light_fn :=
  match ids, fs with
  | i :: ids', f :: fs' => if bytes_eqb i name then Some f else light_by_name name ids' fs'
  | _, _ => None
  end.

(** [inl (-EINVAL)], or the opened device; [pthread_once] runs
    [init_globals] on the first success only. *)
Definition open_lights (name : list Z) : ST lights (Z + set_light_fn) :=
  match light_by_name name LIGHT_ID
          [SetBacklight; SetKeyboard; SetButtons; SetBattery; SetNotifications; SetAttention] with
  | None => mret (inl (-22))
  | Some f =>
      done ← gets g_init;
      _ ← when (negb done) (_ ← modify (fun s => s ⟨ g_init := true ⟩); init_globals);
      mret (inr f)
  end.

(** The calls the framework can make. *)
Inductive lights_op :=
  | OpOpen (name : list Z)
  | OpSet (f : set_light_fn) (st : light_state_t).

Definition run_op (o : lights_op) (s : lights) : lights :=
  match o with
  | OpOpen name => snd (open_lights name s)
  | OpSet f st => snd (set_light f st s)
  end.

Inductive reachable : lights -> Prop :=
  | reach_boot : reachable lights_boot
  | reach_op o s : reachable s -> reachable (run_op o s).

(** ** Specification *)

(** What a LED is asked to do, and the attribute writes that make it so. *)
Inductive led_mode :=
  | Off
  | Blinking (onMS offMS : Z)
  | Solid.

Definition mode_of (level onMS offMS : Z) : led_mode :=
  if level =? 0 then Off
  else if truthy onMS && truthy offMS then Blinking onMS offMS else Solid.

Definition mode_status (m : led_mode) : Z :=
  match m with Off => 0 | Blinking _ _ => 1 | Solid => 2 end.

Definition program (c : led) (m : led_mode) : list (file * list Z) :=
  match m with
  | Off => [(LED_FILE c, dec 0 ++ [10])]
  | Blinking onMS offMS =>
      [(TRIGGER_FILE c, zs "timer"); (DELAY_OFF_FILE c, dec offMS ++ [10]);
       (DELAY_ON_FILE c, dec onMS ++ [10])]
  | Solid => [(TRIGGER_FILE c, zs "none"); (LED_FILE c, dec 255 ++ [10])]
  end.

(** The LED mode a light state asks for. *)
Definition led_want (c : led) (state : light_state_t) : led_mode :=
  match flashMode state with
  | LIGHT_FLASH_TIMED => mode_of (channel (color state) c) (flashOnMS state) (flashOffMS state)
  | _ => mode_of (channel (color state) c) 0 0
  end.

(** The light state on display: a lit battery light hides notifications. *)
Definition shown (s : lights) : light_state_t :=
  if truthy (is_lit (g_battery s)) then g_battery s else g_notification s.

(** Writes of a trace, and those to one LED's files. *)
Definition write_of (e : syscall) : option (file * list Z) :=
  match e with SWrite f b => Some (f, b) | _ => None end.
Definition writes (t : list syscall) : list (file * list Z) := omap write_of t.

Definition of_led (c : led) (w : file * list Z) : bool :=
  match w.1 with
  | LED_FILE c' | TRIGGER_FILE c' | DELAY_ON_FILE c' | DELAY_OFF_FILE c' => bool_decide (c = c')
  | _ => false
  end.

(** LED [c] was last programmed with mode [m]; off is also its state before
    the first write. *)
Definition shows (c : led) (W : list (file * list Z)) (m : led_mode) : Prop :=
  (m = Off /\ filter (of_led c) W = [])
  \/ exists l, filter (of_led c) W = l ++ program c m.

(** Mutex discipline: attribute files are only touched under the lock. *)
Definition lock_step (locked : option bool) (e : syscall) : option bool :=
  match locked, e with
  | Some false, SLock => Some true
  | Some true, SUnlock => Some false
  | Some false, SMutexInit => Some false
  | Some false, SAccess TRACKBALL_FILE _ => Some false
  | Some true, (SOpen _ | SWrite _ _ | SClose _ | SAccess _ _ | SNanosleep _) => Some true
  | _, _ => None
  end.
Definition lock_state (t : list syscall) : option bool := fold_left lock_step t (Some false).

(** ** Lemmas: the lock and [g_trackball] *)

(** Run from a state with lock state [a], [m] ends with lock state [b] and
    leaves [g_trackball] alone. *)
Definition locks {A} (a b : bool) (m : ST lights A) : Prop := forall s,
  lock_state (trace s) = Some a ->
  lock_state (trace (snd (m s))) = Some b /\ g_trackball (snd (m s)) = g_trackball s.

Lemma lock_state_snoc t e : lock_state (t ++ [e]) = lock_step (lock_state t) e.
Proof. unfold lock_state. by rewrite fold_left_app. Qed.

Lemma locks_ret {A} a (x : A) : locks a a (mret x).
Proof. by intros s. Qed.

Lemma locks_gets {A} a (f : lights -> A) : locks a a (gets f).
Proof. by intros s. Qed.

Lemma locks_bind {A B} a b c (m : ST lights A) (k : A -> ST lights B) :
  locks a b m -> (forall x, locks b c (k x)) -> locks a c (x ← m; k x).
Proof.
  intros Hm Hk s Hs. cbv [mbind st_bind]. specialize (Hm s Hs).
  destruct (m s) as [x s1]. cbn [snd] in Hm. destruct Hm as [H1 H2].
  destruct (Hk x s1 H1) as [H3 H4]. split; [done|congruence].
Qed.

Lemma locks_modify a f :
  (forall s, trace (f s) = trace s /\ g_trackball (f s) = g_trackball s) ->
  locks a a (modify f).
Proof. intros Hf s Hs. destruct (Hf s) as [E1 E2]. cbn. by rewrite E1. Qed.

Lemma locks_sys a b c : lock_step (Some a) c = Some b -> locks a b (sys c).
Proof. 
  intros Hc s Hs. split; [|done]. change (lock_state (trace s ++ [c]) = Some b).
  by rewrite lock_state_snoc, Hs.
Qed.

Lemma locks_when a b m : locks a a m -> locks a a (when b m).
Proof. intros. destruct b; [done|apply locks_ret]. Qed.

Lemma locks_if {A} a c (b : bool) (m1 m2 : ST lights A) :
  locks a c m1 -> locks a c m2 -> locks a c (if b then m1 else m2).
Proof. by destruct b. Qed.

Create HintDb lights discriminated.

Ltac locks :=
  repeat first
    [ solve [auto with lights] | eapply locks_bind; [|intros ?] | apply locks_when
    | apply locks_if | apply locks_ret | apply locks_gets
    | eapply locks_sys; reflexivity
    | apply locks_modify; intros; split; repeat case_match; reflexivity ].

Lemma locks_sleep_loop answers req : locks true true (sleep_loop answers req).
Proof. revert req. induction answers as [|[] answers IH]; intros; cbn [sleep_loop]; locks. Qed.
Hint Resolve locks_sleep_loop : lights.

Lemma locks_led_wait_delay ms : locks true true (led_wait_delay ms).
Proof. unfold led_wait_delay. locks. Qed.
Hint Resolve locks_led_wait_delay : lights.

Lemma locks_write_bytes f b : locks true true (write_bytes f b).
Proof. unfold write_bytes. locks. Qed.
Hint Resolve locks_write_bytes : lights.

Lemma locks_write_int f v : locks true true (write_int f v).
Proof. apply locks_write_bytes. Qed.
Lemma locks_write_str f v : locks true true (write_str f v).
Proof. apply locks_write_bytes. Qed.
Hint Resolve locks_write_int locks_write_str : lights.

Lemma locks_wait_delay_file f n : locks true true (wait_delay_file f n).
Proof. induction n as [|n IH]; cbn [wait_delay_file]; locks; case_match; locks. Qed.
Hint Resolve locks_wait_delay_file : lights.

Lemma locks_blink c lvl on off : locks true true (blink c lvl on off).
Proof. unfold blink. locks. Qed.
Hint Resolve locks_blink : lights.

Lemma locks_handle_trackball : locks true true handle_trackball_light_locked.
Proof. unfold handle_trackball_light_locked. locks. Qed.
Hint Resolve locks_handle_trackball : lights.

Lemma locks_set_speaker st : locks true true (set_speaker_light_locked st).
Proof.
  unfold set_speaker_light_locked, blink_red, blink_green, blink_blue.
  destruct (match flashMode st with LIGHT_FLASH_TIMED => _ | _ => _ end). locks.
Qed.
Hint Resolve locks_set_speaker : lights.

Lemma locks_handle_speaker_battery : locks true true handle_speaker_battery_locked.
Proof. unfold handle_speaker_battery_locked. locks. Qed.
Hint Resolve locks_handle_speaker_battery : lights.

Lemma locks_set_light f st : locks false false (set_light f st).
Proof.
  destruct f; cbn [set_light];
    unfold set_light_backlight, set_light_keyboard, set_light_buttons, set_light_battery,
      set_light_notifications, set_light_attention; locks.
Qed.

Lemma locks_open_lights name : locks false false (open_lights name).
Proof. unfold open_lights, init_globals. case_match; locks. Qed.

Lemma locks_run_op o s :
  lock_state (trace s) = Some false ->
  lock_state (trace (run_op o s)) = Some false /\ g_trackball (run_op o s) = g_trackball s.
Proof. destruct o; [apply locks_open_lights|apply locks_set_light]. Qed.

Lemma reachable_lock s :
  reachable s -> lock_state (trace s) = Some false /\ g_trackball s = -1.
Proof.
  induction 1 as [|o s _ [IH1 IH2]]; [done|].
  destruct (locks_run_op o s IH1) as [-> ->]. done.
Qed.

(** ** Lemmas: the LED programs *)

Definition wrs : Type := list (file * list Z).

(** [m] extends the trace, its attribute writes and the new cached statuses
    being [F] of the old ones; nothing else changes. *)
Definition effect {A} (m : ST lights A) (F : (led -> Z) -> wrs * (led -> Z)) : Prop :=
  forall s, exists r l,
    m s = (r, s ⟨ trace := trace s ++ l ⟩ ⟨ preStatus := snd (F (preStatus s)) ⟩)
    /\ writes l = fst (F (preStatus s)).

Definition quiet (p : led -> Z) : wrs * (led -> Z) := ([], p).
Definition emit (w : wrs) (p : led -> Z) : wrs * (led -> Z) := (w, p).
Definition andthen (F G : (led -> Z) -> wrs * (led -> Z)) (p : led -> Z)
    : wrs * (led -> Z) :=
  let '(w1, p1) := F p in let '(w2, p2) := G p1 in (w1 ++ w2, p2).
Definition blink_effect (c : led) (level onMS offMS : Z) (p : led -> Z)
    : wrs * (led -> Z) :=
  if p c =? blink_status level onMS offMS then ([], p)
  else (program c (mode_of level onMS offMS), <[c := blink_status level onMS offMS]> p).

Lemma writes_app t1 t2 : writes (t1 ++ t2) = writes t1 ++ writes t2.
Proof. apply omap_app. Qed.

Lemma effect_ext {A} (m : ST lights A) F G :
  (forall p, F p = G p) -> effect m F -> effect m G.
Proof. intros HFG Hm s. destruct (Hm s) as (r & l & ? & ?). exists r, l. by rewrite <-HFG. Qed.

Lemma effect_quiet {A} (m : ST lights A) : (forall s, snd (m s) = s) -> effect m quiet.
Proof.
  intros Hm s. exists (fst (m s)), []. split; [|done].
  specialize (Hm s). destruct (m s) as [r s']. cbn in *. subst s'.
  destruct s. cbn. by rewrite app_nil_r.
Qed.

Lemma effect_bind {A B} (m : ST lights A) (k : A -> ST lights B) F G :
  effect m F -> (forall x, effect (k x) G) -> effect (x ← m; k x) (andthen F G).
Proof.
  intros Hm Hk s. destruct (Hm s) as (r & l & E & Hl).
  set (s1 := s ⟨ trace := trace s ++ l ⟩ ⟨ preStatus := snd (F (preStatus s)) ⟩) in *.
  destruct (Hk r s1) as (r2 & l2 & E2 & Hl2).
  exists r2, (l ++ l2). cbv [mbind st_bind]. rewrite E, E2. subst s1. unfold andthen.
  cbn in *. destruct (F (preStatus s)) as [w1 p1]. cbn in *.
  destruct (G p1) as [w2 p2]. cbn in *. rewrite app_assoc. split; [done|].
  rewrite writes_app. by f_equal.
Qed.

Lemma effect_sys c : write_of c = None -> effect (sys c) quiet.
Proof.
  intros Hc s. exists (os (trace s) c), [c]. split; [by destruct s|].
  unfold writes. cbn. by rewrite Hc.
Qed.

Lemma effect_if {A} (b : bool) (m1 m2 : ST lights A) F G :
  effect m1 F -> effect m2 G -> effect (if b then m1 else m2) (if b then F else G).
Proof. by destruct b. Qed.

Lemma andthen_quiet_l F p : andthen quiet F p = F p.
Proof. unfold andthen. cbn. by destruct (F p). Qed.
Lemma andthen_quiet_r F p : andthen F quiet p = F p.
Proof. unfold andthen. cbn. destruct (F p). by rewrite app_nil_r. Qed.

(** Sequencing with a silent first or last step. *)
Lemma effect_bind_l {A B} (m : ST lights A) (k : A -> ST lights B) G :
  effect m quiet -> (forall x, effect (k x) G) -> effect (x ← m; k x) G.
Proof.
  intros. eapply effect_ext; [apply andthen_quiet_l|]. by apply effect_bind.
Qed.
Lemma effect_bind_r {A B} (m : ST lights A) (k : A -> ST lights B) G :
  effect m G -> (forall x, effect (k x) quiet) -> effect (x ← m; k x) G.
Proof.
  intros. eapply effect_ext; [apply andthen_quiet_r|]. by apply effect_bind.
Qed.

Lemma effect_sleep_loop answers req : effect (sleep_loop answers req) quiet.
Proof.
  revert req. induction answers as [|[] answers IH]; intros; cbn [sleep_loop];
    (apply effect_bind_l; [by apply effect_sys|intros]); auto using effect_quiet.
Qed.

Lemma effect_led_wait_delay ms : effect (led_wait_delay ms) quiet.
Proof. apply effect_bind_l; [by apply effect_quiet|]. intros. apply effect_sleep_loop. Qed.

Lemma effect_wait_delay_file f n : effect (wait_delay_file f n) quiet.
Proof.
  induction n as [|n IH]; cbn [wait_delay_file];
    (apply effect_bind_l; [by apply effect_sys|intros a]);
    (apply effect_bind_l;
     [destruct (a <? 0); [by apply effect_quiet|];
      apply effect_bind_l; [by apply effect_sys|intros; by apply effect_quiet]|]);
    intros []; try by apply effect_quiet.
  apply effect_bind_l; [apply effect_led_wait_delay|]. done.
Qed.

Lemma effect_read_status {A} c (k : Z -> ST lights A) G :
  (forall x, effect (k x) (G x)) ->
  effect (x ← gets (fun s => preStatus s c); k x) (fun p => G (p c) p).
Proof. intros Hk s. apply (Hk (preStatus s c) s). Qed.

Lemma effect_set_status c v :
  effect (modify (fun s => s ⟨ preStatus $= <[c := v]> ⟩)) (fun p => ([], <[c := v]> p)).
Proof.
  intros s. exists tt, []. split; [|done]. destruct s. cbn. by rewrite app_nil_r.
Qed.

(** The LED files can be opened. *)
Definition leds_writable : Prop := forall h f, 0 <= os h (SOpen f).

Lemma effect_write_bytes f b : leds_writable -> effect (write_bytes f b) (emit [(f, b)]).
Proof.
  intros Hw s. pose proof (proj2 (Z.leb_le _ _) (Hw (trace s) f)) as Hfd.
  unfold write_bytes, sys. st_simpl. rewrite Hfd. destruct s. cbn [trace] in *.
  eexists _, [SOpen f; SWrite f b; SClose f]. split; [|done].
  cbn. rewrite <-!app_assoc. reflexivity.
Qed.

Lemma mode_status_of l on off : mode_status (mode_of l on off) = blink_status l on off.
Proof. unfold mode_of, blink_status. by repeat case_match. Qed.

Lemma effect_blink c l on off :
  leds_writable -> effect (blink c l on off) (blink_effect c l on off).
Proof.
  intros Hw. unfold blink.
  eapply effect_ext; [|apply (effect_read_status c _
    (fun x => if x =? blink_status l on off then quiet
              else andthen (emit (program c (mode_of l on off)))
                     (fun p => ([], <[c := blink_status l on off]> p))))].
  { intros p. unfold blink_effect, andthen. by destruct (p c =? _); cbn; rewrite ?app_nil_r. }
  intros x. apply effect_if; [by apply effect_quiet|].
  apply effect_bind; [|intros; apply effect_bind_r;
                        [apply effect_set_status|intros; by apply effect_quiet]].
  unfold mode_of, blink_status, write_int, write_str.
  destruct (l =? 0); [by apply effect_write_bytes|].
  destruct (truthy on && truthy off); cbn [Z.eqb program].
  - eapply effect_ext; [|eapply effect_bind; [by apply effect_write_bytes|intros;
      eapply effect_bind_l; [apply effect_wait_delay_file|intros;
      eapply effect_bind; [|intros]; by apply effect_write_bytes]]]; done.
  - eapply effect_ext; [|eapply effect_bind; [|intros]; by apply effect_write_bytes]; done.
Qed.

(** [set_speaker_light_locked]: all LEDs off, then each lit channel. *)
Definition speaker_on (c : led) (state : light_state_t) : (led -> Z) -> wrs * (led -> Z) :=
  let '(on, off) := match flashMode state with
                    | LIGHT_FLASH_TIMED => (flashOnMS state, flashOffMS state)
                    | _ => (0, 0) end in
  if truthy (channel (color state) c)
  then blink_effect c (channel (color state) c) on off else quiet.

Definition speaker_effect (state : light_state_t) : (led -> Z) -> wrs * (led -> Z) :=
  andthen (blink_effect Red 0 0 0) (andthen (blink_effect Green 0 0 0)
    (andthen (blink_effect Blue 0 0 0) (andthen (speaker_on Red state)
      (andthen (speaker_on Green state) (speaker_on Blue state))))).

Lemma effect_set_speaker st :
  leds_writable -> effect (set_speaker_light_locked st) (speaker_effect st).
Proof.
  intros Hw. unfold set_speaker_light_locked, speaker_effect, speaker_on,
    blink_red, blink_green, blink_blue.
  destruct (match flashMode st with LIGHT_FLASH_TIMED => _ | _ => _ end) as [on off].
  assert (forall c, effect (when (truthy (channel (color st) c))
            (_ ← blink c (channel (color st) c) on off; mret tt))
            (if truthy (channel (color st) c)
             then blink_effect c (channel (color st) c) on off else quiet)) as Hon.
  { intros c. apply effect_if; [|by apply effect_quiet].
    apply effect_bind_r; [by apply effect_blink|intros; by apply effect_quiet]. }
  do 3 (apply effect_bind; [by apply effect_blink|intros _]).
  do 2 (apply effect_bind; [apply Hon|intros _]).
  apply effect_bind_r; [apply Hon|]. intros; by apply effect_quiet.
Qed.

(** *** The writes and the cached statuses stay in step *)

(** Every LED shows the mode given by [M], and the cache says so. *)
Definition display (W : wrs) (p : led -> Z) (M : led -> led_mode) : Prop :=
  forall c, shows c W (M c) /\ p c = mode_status (M c).

Lemma of_led_program c c' m :
  filter (of_led c) (program c' m) = if bool_decide (c = c') then program c' m else [].
Proof. by destruct c, c', m. Qed.

Lemma shows_app c W w m : filter (of_led c) w = [] -> shows c W m -> shows c (W ++ w) m.
Proof. intros Hw. unfold shows. by rewrite filter_app, Hw, app_nil_r. Qed.

(** A [blink] call that is not skipped while lit displays its mode. *)
Lemma blink_effect_display c l on off W p M :
  display W p M ->
  p c <> blink_status l on off \/ blink_status l on off = 0 ->
  let '(w, p') := blink_effect c l on off p in
  display (W ++ w) p' (<[c := mode_of l on off]> M).
Proof.
  intros HM Hc. unfold blink_effect. destruct (Z.eqb_spec (p c) (blink_status l on off)).
  - destruct Hc as [Hc|Hc]; [done|]. rewrite app_nil_r. intros c'. destruct (HM c') as [H1 H2].
    destruct (decide (c = c')) as [<-|]; [|by rewrite fn_lookup_insert_ne].
    rewrite fn_lookup_insert. rewrite <-mode_status_of in *.
    destruct (mode_of l on off), (M c); cbn in *; try done; try congruence.
  - intros c'. destruct (HM c') as [H1 H2]. destruct (decide (c = c')) as [<-|Hne].
    + rewrite !fn_lookup_insert, mode_status_of. split; [|done]. right.
      exists (filter (of_led c) W). rewrite filter_app, of_led_program.
      by rewrite bool_decide_eq_true_2.
    + rewrite !fn_lookup_insert_ne by done. split; [|done]. apply shows_app; [|done].
      rewrite of_led_program. by rewrite bool_decide_eq_false_2.
Qed.

(** [F] takes every display of [M1] to a display of [M2]. *)
Definition takes (F : (led -> Z) -> wrs * (led -> Z)) (M1 M2 : led -> led_mode) : Prop :=
  forall W p, display W p M1 -> let '(w, p') := F p in display (W ++ w) p' M2.

Lemma display_ext W p M1 M2 : (forall c, M1 c = M2 c) -> display W p M1 -> display W p M2.
Proof. intros HM H c. rewrite <-HM. apply H. Qed.

Lemma takes_andthen F G M1 M2 M3 : takes F M1 M2 -> takes G M2 M3 -> takes (andthen F G) M1 M3.
Proof.
  intros HF HG W p H. specialize (HF W p H). unfold andthen.
  destruct (F p) as [w1 p1]. specialize (HG _ p1 HF). destruct (G p1) as [w2 p2].
  by rewrite app_assoc.
Qed.

Lemma takes_emit f b M : (forall c, of_led c (f, b) = false) -> takes (emit [(f, b)]) M M.
Proof.
  intros Hf W p H c. destruct (H c) as [H1 H2]. split; [|done]. apply shows_app; [|done].
  unfold filter. cbn. unfold decide. rewrite (Hf c). done.
Qed.

Lemma takes_blink_off c M : takes (blink_effect c 0 0 0) M (<[c := Off]> M).
Proof. intros W p H. by apply (blink_effect_display c 0 0 0 W p M H); right. Qed.

Lemma led_want_off c st : channel (color st) c = 0 -> led_want c st = Off.
Proof. intros E. unfold led_want, mode_of. rewrite E. by case_match. Qed.

Lemma takes_speaker_on c st M :
  M c = Off -> takes (speaker_on c st) M (<[c := led_want c st]> M).
Proof.
  intros HM W p H. destruct (H c) as [_ Hc]. rewrite HM in Hc. cbn in Hc.
  destruct (Z.eqb_spec (channel (color st) c) 0) as [E|E].
  - unfold speaker_on. destruct (match flashMode st with LIGHT_FLASH_TIMED => _ | _ => _ end).
    rewrite E. cbn. rewrite app_nil_r. eapply display_ext; [|exact H]. intros c'.
    destruct (decide (c = c')) as [<-|]; [|by rewrite fn_lookup_insert_ne].
    by rewrite fn_lookup_insert, led_want_off, HM.
  - assert (forall on off, let '(w, p') := blink_effect c (channel (color st) c) on off p in
      display (W ++ w) p' (<[c := mode_of (channel (color st) c) on off]> M)) as Hb.
    { intros on off. apply blink_effect_display; [done|]. left. rewrite Hc.
      unfold blink_status. rewrite (proj2 (Z.eqb_neq _ _)) by done. by case_match. }
    unfold speaker_on, led_want, truthy. rewrite (proj2 (Z.eqb_neq _ _)) by done.
    destruct (flashMode st); apply Hb.
Qed.

Lemma takes_speaker st M : takes (speaker_effect st) M (fun c => led_want c st).
Proof.
  intros W p H.
  assert (takes (speaker_effect st) M
    (<[Blue := led_want Blue st]> (<[Green := led_want Green st]> (<[Red := led_want Red st]>
      (<[Blue := Off]> (<[Green := Off]> (<[Red := Off]> M))))))) as HS.
  { unfold speaker_effect.
    repeat (eapply takes_andthen; [apply takes_blink_off|]).
    repeat (eapply takes_andthen; [by apply takes_speaker_on|]). by apply takes_speaker_on. }
  specialize (HS W p H). destruct (speaker_effect st p) as [w p'].
  eapply display_ext; [|exact HS]. by intros [].
Qed.

(** *** Triples over the display, the battery and the notification state *)

Definition disp (M : led -> led_mode) (B N : light_state_t) (s : lights) : Prop :=
  display (writes (trace s)) (preStatus s) M /\ g_battery s = B /\ g_notification s = N.

Definition triple {A} (P : lights -> Prop) (m : ST lights A) (Q : lights -> Prop) : Prop :=
  forall s, P s -> Q (snd (m s)).

Lemma triple_bind {A B} P Q R (m : ST lights A) (k : A -> ST lights B) :
  triple P m Q -> (forall x, triple Q (k x) R) -> triple P (x ← m; k x) R.
Proof.
  intros Hm Hk s Hs. cbv [mbind st_bind]. specialize (Hm s Hs).
  destruct (m s) as [x s1]. by apply Hk.
Qed.

Lemma triple_ret {A} P (x : A) : triple P (mret x) P.
Proof. by intros s. Qed.

Lemma triple_gets {A} P (f : lights -> A) : triple P (gets f) P.
Proof. by intros s. Qed.

Lemma triple_effect {A} (m : ST lights A) F M1 M2 B N :
  effect m F -> takes F M1 M2 -> triple (disp M1 B N) m (disp M2 B N).
Proof.
  intros Hm HF s (H & <- & <-). destruct (Hm s) as (r & l & E & Hl). rewrite E.
  specialize (HF _ _ H). destruct (F (preStatus s)) as [w p']. cbn in *. subst w.
  unfold disp. cbn [trace preStatus g_battery g_notification field_update].
  by rewrite writes_app.
Qed.

Lemma triple_modify M B N f :
  (forall s, trace (f s) = trace s /\ preStatus (f s) = preStatus s
     /\ g_battery (f s) = g_battery s /\ g_notification (f s) = g_notification s) ->
  triple (disp M B N) (modify f) (disp M B N).
Proof. intros Hf s H. destruct (Hf s) as (E1 & E2 & E3 & E4). unfold disp. cbn. by rewrite E1, E2, E3, E4. Qed.

Lemma triple_sys M B N c : write_of c = None -> triple (disp M B N) (sys c) (disp M B N).
Proof.
  intros. eapply triple_effect; [by apply effect_sys|].
  intros W p HM. unfold quiet. by rewrite app_nil_r.
Qed.

Lemma triple_when P b m : triple P m P -> triple P (when b m) P.
Proof. intros. destruct b; [done|apply triple_ret]. Qed.

Lemma triple_write_int M B N f v :
  leds_writable -> (forall c b, of_led c (f, b) = false) ->
  triple (disp M B N) (write_int f v) (disp M B N).
Proof. intros. eapply triple_effect; [by apply effect_write_bytes|by apply takes_emit]. Qed.

Lemma triple_trackball M B N :
  leds_writable -> triple (disp M B N) handle_trackball_light_locked (disp M B N).
Proof.
  intros. do 3 (eapply triple_bind; [apply triple_gets|intros ?]). cbv zeta.
  match goal with |- triple _ (if ?b then _ else _) _ => destruct b end;
    [apply triple_ret|]. apply triple_write_int; [done|]. by intros [].
Qed.

Lemma triple_speaker M B N st : leds_writable ->
  triple (disp M B N) (set_speaker_light_locked st) (disp (fun c => led_want c st) B N).
Proof. intros. eapply triple_effect; [by apply effect_set_speaker|apply takes_speaker]. Qed.

Lemma triple_speaker_battery M B N : leds_writable ->
  triple (disp M B N) handle_speaker_battery_locked
    (disp (fun c => led_want c (if truthy (is_lit B) then B else N)) B N).
Proof.
  intros Hw s H. pose proof H as (_ & EB & EN).
  unfold handle_speaker_battery_locked. cbv [mbind st_bind gets]. rewrite EB, EN.
  destruct (truthy (is_lit B)).
  - pose proof (triple_speaker M B N B Hw s H) as HS.
    by destruct (set_speaker_light_locked B s).
  - pose proof (triple_speaker M B N B Hw s H) as HS.
    destruct (set_speaker_light_locked B s) as [r s1].
    pose proof (triple_speaker _ B N N Hw s1 HS) as HS2.
    by destruct (set_speaker_light_locked N s1).
Qed.

Ltac triple :=
  repeat first
    [ apply triple_ret | apply triple_gets | apply triple_when
    | apply triple_sys; reflexivity | apply triple_trackball; assumption
    | apply triple_write_int; [assumption | intros []; reflexivity]
    | apply triple_modify; intros; repeat split; repeat case_match; reflexivity
    | eapply triple_bind; [|intros ?] ].

(** The calls that do not concern the LEDs keep the display. *)
Lemma triple_set_light_other M B N f st :
  leds_writable -> f <> SetBattery -> f <> SetNotifications ->
  triple (disp M B N) (set_light f st) (disp M B N).
Proof.
  intros. destruct f; try done; cbn [set_light];
    unfold set_light_backlight, set_light_keyboard, set_light_buttons, set_light_attention;
    triple.
Qed.

Lemma triple_open_lights M B N name :
  triple (disp M B N) (open_lights name) (disp M B N).
Proof. unfold open_lights, init_globals. case_match; triple. Qed.

Lemma triple_modify_to M B N B' N' f :
  (forall s, trace (f s) = trace s /\ preStatus (f s) = preStatus s) ->
  (forall s, g_battery s = B -> g_notification s = N ->
     g_battery (f s) = B' /\ g_notification (f s) = N') ->
  triple (disp M B N) (modify f) (disp M B' N').
Proof.
  intros Hf Hf' s (H1 & H2 & H3). destruct (Hf s) as (E1 & E2).
  destruct (Hf' s H2 H3) as [E4 E5]. unfold disp, modify. cbn [snd].
  rewrite E1, E2. exact (conj H1 (conj E4 E5)).
Qed.

(** The tail of [set_light_battery] and [set_light_notifications]. *)
Lemma triple_show M B N : leds_writable ->
  triple (disp M B N) (_ ← handle_speaker_battery_locked; _ ← sys SUnlock; mret 0)
    (disp (fun c => led_want c (if truthy (is_lit B) then B else N)) B N).
Proof.
  intros. eapply triple_bind; [by apply triple_speaker_battery|intros _]. triple.
Qed.

Lemma triple_set_battery M B N st : leds_writable ->
  triple (disp M B N) (set_light_battery st)
    (disp (fun c => led_want c (if truthy (is_lit st) then st else N)) st N).
Proof.
  intros Hw. unfold set_light_battery.
  eapply triple_bind; [by apply triple_sys|intros _].
  eapply triple_bind; [by apply (triple_modify_to M B N st N)|intros _].
  eapply triple_bind; [apply triple_gets|intros have]. unfold when.
  destruct (truthy have).
  - eapply triple_bind; [|intros _; by apply triple_show].
    eapply triple_bind; [by apply triple_speaker|intros _; apply triple_ret].
  - eapply triple_bind; [apply triple_ret|intros _; by apply triple_show].
Qed.

Lemma triple_set_notifications M B N st : leds_writable ->
  triple (disp M B N) (set_light_notifications st)
    (disp (fun c => led_want c (if truthy (is_lit B) then B else st)) B st).
Proof.
  intros Hw. unfold set_light_notifications.
  eapply triple_bind; [by apply triple_sys|intros _].
  eapply triple_bind; [by apply (triple_modify_to M B N B st)|intros _].
  eapply triple_bind; [apply triple_gets|intros have].
  eapply triple_bind; [|intros _; by apply triple_show]. triple.
Qed.

Lemma disp_boot : disp (fun _ => Off) light_zero light_zero lights_boot.
Proof. split; [|done]. intros c. split; [by left|done]. Qed.

(** In every reachable state the cache describes what the LEDs were last
    programmed with. *)
Lemma reachable_disp s :
  leds_writable -> reachable s -> exists M, disp M (g_battery s) (g_notification s) s.
Proof.
  intros Hw. induction 1 as [|o s _ [M IH]]; [exists (fun _ => Off); apply disp_boot|].
  assert (exists M' B' N', disp M' B' N' (run_op o s)) as (M' & B' & N' & H').
  { destruct o as [name|f st]; cbn [run_op].
    - do 3 eexists. exact (triple_open_lights _ _ _ name s IH).
    - destruct (decide (f = SetBattery)) as [->|]; [|destruct (decide (f = SetNotifications)) as [->|]].
      + do 3 eexists. exact (triple_set_battery _ _ _ st Hw s IH).
      + do 3 eexists. exact (triple_set_notifications _ _ _ st Hw s IH).
      + do 3 eexists. eapply (triple_set_light_other _ _ _ f st Hw); done. }
  exists M'. by destruct H' as (H1 & <- & <-).
Qed.
End Lights.

(** ** Properties *)

(** C2 (refinement): on a kernel that opens every attribute file whenever it
    is asked ([leds_writable]), after any history of calls, setting the battery
    or the notification light leaves every LED programmed with what the light
    on display asks for: the battery state when it is lit, else the
    notification.  So the cached [preStatus] values never suppress a needed
    write there.  A write counts as made, whatever the kernel answers to it,
    since the code does not look.  Where an open can fail the claim is false:
    [failed_open_hides_write]. *)
Theorem speaker_lights_refine os os_sleep ids s f st :
  leds_writable os -> reachable os os_sleep ids s ->
  f = SetBattery \/ f = SetNotifications ->
  let s' := snd (set_light os os_sleep f st s) in
  (forall c, shows c (writes (trace s')) (led_want c (shown s')))
  /\ (f = SetBattery -> g_battery s' = st /\ g_notification s' = g_notification s)
  /\ (f = SetNotifications -> g_notification s' = st /\ g_battery s' = g_battery s).
Proof.
  intros Hw Hs Hf. destruct (reachable_disp os os_sleep ids s Hw Hs) as [M HM].
  destruct Hf as [-> | ->]; cbn [set_light].
  - destruct (triple_set_battery os os_sleep _ _ _ st Hw s HM) as (H & HB & HN).
    cbv zeta. unfold shown. rewrite HB, HN. split_and!; try done. intros c. apply H.
  - destruct (triple_set_notifications os os_sleep _ _ _ st Hw s HM) as (H & HB & HN).
    cbv zeta. unfold shown. rewrite HB, HN. split_and!; try done. intros c. apply H.
Qed.

Definition os_ok (h : list syscall) (c : syscall) : Z := 0.
Definition blue_blink : light_state_t := LightState 4278190335 LIGHT_FLASH_TIMED 500 2000.

Lemma speaker_lights_refine_witness :
  shows Blue (writes (trace (snd (set_light os_ok (fun _ => []) SetNotifications blue_blink
                                    lights_boot)))) (Blinking 500 2000).
Proof.
  exact (proj1 (speaker_lights_refine os_ok (fun _ => []) [] lights_boot SetNotifications
           blue_blink (fun _ _ => Z.le_refl 0) (reach_boot _ _ _) (or_intror eq_refl)) Blue).
Defined.

(** Why speaker_lights_refine asks for [leds_writable]: the status is remembered although the open
    for its write has failed.  On a kernel that refuses the LEDs' brightness
    files during the second call only, a blinking LED that is to be switched
    off in that call stays as it is, and in the third call, where every open
    would succeed, no attempt is made: nothing is written any more. *)
Definition os_refuses_once (h : list syscall) (c : syscall) : Z :=
  match c with
  | SOpen (LED_FILE _) =>
      if (length (filter (eq SUnlock) h) =? 1)%nat then -13 else 0
  | _ => 0
  end.

Lemma failed_open_hides_write :
  let set st s := snd (set_light os_refuses_once (fun _ => []) SetNotifications st s) in
  let s1 := set blue_blink lights_boot in
  let s2 := set light_zero s1 in
  let s3 := set light_zero s2 in
  last (filter (of_led Blue) (writes (trace s1))) = Some (DELAY_ON_FILE Blue, zs "500" ++ [10])
  /\ writes (trace s3) = writes (trace s1)
  /\ (forall f, os_refuses_once (trace s2) (SOpen f) = 0)
  /\ trace s3 = trace s2 ++ [SLock; SUnlock].
Proof. vm_compute. split_and!; try done. by intros []. Qed.

(** C3 (safety): in every history, [g_lock] is taken before and released
    after each update, it is never taken twice, and no attribute file is
    opened, written or closed without it, whatever the kernel answers. *)
Theorem lights_mutex os os_sleep ids s :
  reachable os os_sleep ids s -> lock_state (trace s) = Some false.
Proof. intros H. by apply (reachable_lock os os_sleep ids). Qed.

Lemma lights_mutex_witness :
  lock_state (trace (run_op os_ok (fun _ => []) [] (OpSet SetBattery blue_blink) lights_boot))
  = Some false.
Proof.
  apply (lights_mutex os_ok (fun _ => []) []). constructor. constructor.
Defined.

(** [g_trackball] is initialised to -1 and never assigned, so the
    guard that should skip a write of an unchanged mode never fires: every
    call writes the trackball file, unless the attention mode is -1. *)
Theorem trackball_always_written os os_sleep ids s :
  reachable os os_sleep ids s -> g_attention s <> -1 ->
  handle_trackball_light_locked os s
  = write_int os TRACKBALL_FILE
      (if (g_attention s =? 7) && truthy (g_backlight s) then 0 else g_attention s) s.
Proof.
  intros Hs Ha. destruct (reachable_lock os os_sleep ids s Hs) as [_ Ht].
  unfold handle_trackball_light_locked. st_simpl. rewrite Ht.
  destruct ((g_attention s =? 7) && truthy (g_backlight s)); [done|].
  by rewrite (proj2 (Z.eqb_neq _ _)) by lia.
Qed.

Lemma trackball_always_written_witness :
  handle_trackball_light_locked os_ok lights_boot = write_int os_ok TRACKBALL_FILE 0 lights_boot.
Proof.
  apply (trackball_always_written os_ok (fun _ => []) [] lights_boot); [constructor|discriminate].
Defined.

(** The backlight brightness of a color is the weighted mean of
    its channels, between 0 and 255, and does not depend on alpha. *)
Theorem rgb_to_brightness_spec a r g b fm on off :
  is_byte a -> is_byte r -> is_byte g -> is_byte b ->
  rgb_to_brightness (LightState (a * 2 ^ 24 + r * 2 ^ 16 + g * 2 ^ 8 + b) fm on off)
  = (77 * r + 150 * g + 29 * b) / 256
  /\ 0 <= (77 * r + 150 * g + 29 * b) / 256 <= 255.
Proof.
  unfold is_byte. intros Ha Hr Hg Hb. split.
  - unfold rgb_to_brightness. cbn [color].
    assert (Z.land (a * 2 ^ 24 + r * 2 ^ 16 + g * 2 ^ 8 + b) 16777215
            = r * 2 ^ 16 + g * 2 ^ 8 + b) as ->.
    { change 16777215 with (Z.ones 24). rewrite Z.land_ones by lia. symmetry.
      apply (Z.mod_unique _ _ a); lia. }
    change 255 with (Z.ones 8). rewrite !Z.land_ones, !Z.shiftr_div_pow2 by lia.
    assert ((r * 2 ^ 16 + g * 2 ^ 8 + b) / 2 ^ 16 = r) as ->
      by (symmetry; apply (Z.div_unique _ _ _ (g * 2 ^ 8 + b)); lia).
    assert ((r * 2 ^ 16 + g * 2 ^ 8 + b) / 2 ^ 8 = r * 2 ^ 8 + g) as ->
      by (symmetry; apply (Z.div_unique _ _ _ b); lia).
    assert ((r * 2 ^ 8 + g) mod 2 ^ 8 = g) as ->
      by (symmetry; apply (Z.mod_unique _ _ r); lia).
    assert ((r * 2 ^ 16 + g * 2 ^ 8 + b) mod 2 ^ 8 = b) as ->
      by (symmetry; apply (Z.mod_unique _ _ (r * 2 ^ 8 + g)); lia).
    by rewrite (Z.mod_small r) by lia.
  - split; [apply Z.div_pos; lia|]. apply Z.lt_succ_r, Z.div_lt_upper_bound; lia.
Qed.

Lemma rgb_to_brightness_spec_witness :
  rgb_to_brightness (LightState (255 * 2 ^ 24 + 255 * 2 ^ 16 + 255 * 2 ^ 8 + 255)
                       LIGHT_FLASH_NONE 0 0) = 255.
Proof.
  destruct (rgb_to_brightness_spec 255 255 255 255 LIGHT_FLASH_NONE 0 0) as [H _];
    try (unfold is_byte; lia). exact H.
Defined.
