(* ===== verification/CFloat.v ===== *)
(** * C floating point and [strtod]

    The program's [double]s and [float]s are IEEE 754 binary64 and binary32
    numbers, modelled by the executable reference operations of the Standard
    Library's [SpecFloat], rounding to nearest even as the target does.
    [strtod] is the C function of the language's library, in the C locale,
    correctly rounded. *)

From Stdlib Require Export SpecFloat.
From S2P Require Import Prelude.

Definition double := spec_float.
Definition float32 := spec_float.

(** ** Arithmetic on doubles *)

Definition d_add : double -> double -> double := SFadd 53 1024.
Definition d_sub : double -> double -> double := SFsub 53 1024.
Definition d_mul : double -> double -> double := SFmul 53 1024.
Definition d_div : double -> double -> double := SFdiv 53 1024.
Definition d_neg : double -> double := SFopp.
Definition d_of_Z (z : Z) : double := binary_normalize 53 1024 z 0 false.

(** Conversion of a [double] to [float]. *)
Definition f_of_d (d : double) : float32 :=
  match d with
  | S754_finite s m e => binary_round 24 128 s m e
  | _ => d
  end.

(** Every [float] is a [double]. *)
Definition d_of_f (f : float32) : double :=
  match f with
  | S754_finite s m e => binary_round 53 1024 s m e
  | _ => f
  end.

(** The magnitude of [m * 2^e] rounded towards zero. *)
Definition trunc_mag (m : positive) (e : Z) : Z := Z.shiftl (Z.pos m) e.

(** [(int) d]: truncation; the conversion instruction of the target saturates
    and maps a NaN to zero. *)
Definition d_to_int (d : double) : Z :=
  match d with
  | S754_finite s m e =>
      clamp_s32 (if s then - trunc_mag m e else trunc_mag m e)
  | S754_infinity s => clamp_s32 (if s then - 2 ^ 31 else 2 ^ 31)
  | _ => 0
  end.

(** [floor]. *)
Definition d_floor (d : double) : double :=
  match d with
  | S754_finite s m e =>
      if 0 <=? e then d
      else let q := Z.shiftl (if s then Z.neg m else Z.pos m) e in
           binary_normalize 53 1024 q 0 s
  | _ => d
  end.

(** ** [strtod] *)

(** [s * m * 10^e], correctly rounded, for the at most 15 characters the
    program converts; an exponent far out of range overflows or vanishes. *)
Definition dec_to_double (s : bool) (m e : Z) : double :=
  match m with
  | Z.pos p =>
      if 400 <? e then S754_infinity s
      else if e <? -800 then S754_zero s
      else if 0 <=? e then
        binary_normalize 53 1024 (if s then - (m * 10 ^ e) else m * 10 ^ e) 0 s
      else
        match 10 ^ (- e) with
        | Z.pos k => SFdiv 53 1024 (S754_finite s p 0) (S754_finite false k 0)
        | _ => S754_nan
        end
  | _ => S754_zero s
  end.

(** Digits of a mantissa: value, number of digits read, rest. *)
Fixpoint mant_digits (acc n : Z) (s : list Z) : Z * Z * list Z :=
  match s with
  | c :: s' => if is_digit c then mant_digits (acc * 10 + (c - 48)) (n + 1) s' else (acc, n, s)
  | [] => (acc, n, [])
  end.

(** The optional exponent; it is consumed only if it has a digit. *)
Definition strtod_exponent (s : list Z) : Z :=
  match s with
  | c :: s' =>
      if tolower c =? ch "e" then
        match s' with
        | 45 :: s'' => - fst (digits 0 s'')
        | 43 :: s'' => fst (digits 0 s'')
        | _ => fst (digits 0 s')
        end
      else 0
  | [] => 0
  end.

Definition strtod_decimal (sg : bool) (s : list Z) : double :=
  let '(m1, n1, s1) := mant_digits 0 0 s in
  let '(m, n2, s2) :=
    match s1 with
    | 46 :: s' => mant_digits m1 0 s'
    | _ => (m1, 0, s1)
    end in
  if n1 + n2 =? 0 then S754_zero false   (* no conversion: 0.0 *)
  else dec_to_double sg m (strtod_exponent s2 - n2).

Definition hex_val (c : Z) : option Z :=
  if is_digit c then Some (c - 48)
  else let l := tolower c in
       if (97 <=? l) && (l <=? 102) then Some (l - 87) else None.

Fixpoint hex_digits (acc n : Z) (s : list Z) : Z * Z * list Z :=
  match s with
  | c :: s' =>
      match hex_val c with
      | Some v => hex_digits (acc * 16 + v) (n + 1) s'
      | None => (acc, n, s)
      end
  | [] => (acc, n, [])
  end.

(** Hexadecimal constants [0xh.hp+d]; with no digit only the "0" is read. *)
Definition strtod_hex (sg : bool) (s : list Z) : double :=
  let '(m1, n1, s1) := hex_digits 0 0 s in
  let '(m, n2, s2) :=
    match s1 with
    | 46 :: s' => hex_digits m1 0 s'
    | _ => (m1, 0, s1)
    end in
  let ex :=
    match s2 with
    | c :: s' =>
        if tolower c =? ch "p" then
          match s' with
          | 45 :: s'' => - fst (digits 0 s'')
          | 43 :: s'' => fst (digits 0 s'')
          | _ => fst (digits 0 s')
          end
        else 0
    | [] => 0
    end in
  if n1 + n2 =? 0 then S754_zero sg
  else
    let e := Z.max (-5000) (Z.min 5000 ex) - 4 * n2 in
    binary_normalize 53 1024 (if sg then - m else m) e sg.

Definition strtod_body (sg : bool) (s : list Z) : double :=
  if strncasecmp_eq s (zs "inf") 3 then S754_infinity sg
  else if strncasecmp_eq s (zs "nan") 3 then S754_nan
  else if strncasecmp_eq s (zs "0x") 2 then strtod_hex sg (drop 2 s)
  else strtod_decimal sg s.

(** [strtod(s, NULL)] on a C string. *)
Definition strtod (s : list Z) : double :=
  match skip_space s with
  | 45 :: s' => strtod_body true s'
  | 43 :: s' => strtod_body false s'
  | s' => strtod_body false s'
  end.

(** ** [printf("%lf")] *)

(** [m * 2^e * 10^k] rounded to the nearest integer, ties to even. *)
Definition fixed_point (k : Z) (m : positive) (e : Z) : Z :=
  let n := Z.pos m * 10 ^ k in
  if 0 <=? e then n * 2 ^ e
  else
    let d := 2 ^ (- e) in
    let q := n / d in
    let r := n mod d in
    if (2 * r <? d) || ((2 * r =? d) && Z.even q) then q else q + 1.

Definition pad6 (s : list Z) : list Z := replicate (6 - length s) 48 ++ s.

Definition fmt_lf (d : double) : list Z :=
  match d with
  | S754_zero s => (if s then [45] else []) ++ zs "0.000000"
  | S754_infinity s => (if s then [45] else []) ++ zs "inf"
  | S754_nan => zs "nan"
  | S754_finite s m e =>
      let q := fixed_point 6 m e in
      (if s then [45] else []) ++ dec (q / 10 ^ 6) ++ [46] ++ pad6 (dec (q mod 10 ^ 6))
  end.

(** [printf("%.1f")]. *)
Definition fmt_1f (d : double) : list Z :=
  match d with
  | S754_zero s => (if s then [45] else []) ++ zs "0.0"
  | S754_infinity s => (if s then [45] else []) ++ zs "inf"
  | S754_nan => zs "nan"
  | S754_finite s m e =>
      let q := fixed_point 1 m e in
      (if s then [45] else []) ++ dec (q / 10) ++ [46] ++ dec (q mod 10)
  end.

(** ** Values on concrete strings *)

Example fmt_lf_values :
  fmt_lf (strtod (zs "-121.645")) = zs "-121.645000" /\ fmt_lf (strtod (zs "0.1234567")) = zs "0.123457"
  /\ length (fmt_lf (strtod (zs "1e300"))) = 308%nat.
Proof. vm_compute. auto. Qed.

Example strtod_1_5 : strtod (zs "1.5") = d_div (d_of_Z 3) (d_of_Z 2).
Proof. vm_compute. reflexivity. Qed.

(** 0.1 has the correctly rounded mantissa 0x1999999999999a *)
Example strtod_0_1 : strtod (zs "0.1") = S754_finite false 7205759403792794 (-56).
Proof. vm_compute. reflexivity. Qed.

Example strtod_1e23 : strtod (zs "1e23") = S754_finite false 5960464477539062 24.
Proof. vm_compute. reflexivity. Qed.

Example strtod_words :
  strtod (zs " -inf") = S754_infinity true /\ strtod (zs "") = S754_zero false /\
  strtod (zs "0x1.8p1") = strtod (zs "3") /\ strtod (zs "12abc") = d_of_Z 12 /\
  strtod (zs "1e999") = S754_infinity false /\ strtod (zs "-.5e") = strtod (zs "-0.5").
Proof. vm_compute. auto 10. Qed.

Example d_to_int_cases :
  d_to_int (strtod (zs "-3.99")) = -3 /\ d_to_int (strtod (zs "1e10")) = 2 ^ 31 - 1
  /\ d_to_int (strtod (zs "59.999")) = 59 /\ d_floor (strtod (zs "-0.5")) = d_of_Z (-1)
  /\ d_floor (strtod (zs "2503.7")) = d_of_Z 2503.
Proof. vm_compute. auto 10. Qed.
