(* ===== verification/Calendar.v ===== *)
(** * Calendar: [struct tm], [gmtime_r] and the POSIX time of a UTC date

    The C library functions the GPS HAL relies on (the local zone is a parameter), for the proleptic Gregorian
    calendar, with years and months counted as in [struct tm]. *)

From S2P Require Import Prelude.

Record tm := Tm {
  tm_sec : Z;
  tm_min : Z;
  tm_hour : Z;
  tm_mday : Z;    (* 1 .. 31 *)
  tm_mon : Z;     (* 0 .. 11 *)
  tm_year : Z;    (* since 1900 *)
  tm_isdst : Z;
}.

#[export] Instance tm_rebuild : Rebuild tm := fun r =>
  Tm (tm_sec r) (tm_min r) (tm_hour r) (tm_mday r) (tm_mon r) (tm_year r) (tm_isdst r).

#[export] Instance tm_eq_dec : EqDecision tm.
Proof. solve_decision. Defined.

Definition is_leap (y : Z) : bool :=
  ((y mod 4 =? 0) && negb (y mod 100 =? 0)) || (y mod 400 =? 0).

Definition year_len (y : Z) : Z := if is_leap y then 366 else 365.

Definition month_len (y m : Z) : Z :=
  match m with
  | 1 => if is_leap y then 29 else 28
  | 3 | 5 | 8 | 10 => 30
  | _ => 31
  end.

(** Leap years in [1 .. y]. *)
Definition leap_years (y : Z) : Z := y / 4 - y / 100 + y / 400.

(** Days from 1970-01-01 to the first day of a year, and of a month. *)
Definition days_before_year (y : Z) : Z :=
  365 * (y - 1970) + (leap_years (y - 1) - leap_years 1969).

Fixpoint days_before_month (y : Z) (m : nat) : Z :=
  match m with
  | O => 0
  | S m' => days_before_month y m' + month_len y (Z.of_nat m')
  end.

(** Day number of a date; months out of range count in the years around. *)
Definition day_number (y m d : Z) : Z :=
  let y := y + m / 12 in
  days_before_year y + days_before_month y (Z.to_nat (m mod 12)) + (d - 1).

(** Seconds since the Epoch of a UTC broken-down time. *)
Definition timegm (t : tm) : Z :=
  86400 * day_number (1900 + tm_year t) (tm_mon t) (tm_mday t)
  + 3600 * tm_hour t + 60 * tm_min t + tm_sec t.

(** The year of a day number, counted from the start of year [y], and the day
    in it. *)
Fixpoint year_of_day (fuel : nat) (y d : Z) : Z * Z :=
  match fuel with
  | O => (y, d)
  | S fuel' =>
      if d <? 0 then year_of_day fuel' (y - 1) (d + year_len (y - 1))
      else if year_len y <=? d then year_of_day fuel' (y + 1) (d - year_len y)
      else (y, d)
  end.

Fixpoint month_of_day (n : nat) (y : Z) (m d : Z) : Z * Z :=
  match n with
  | O => (m, d)
  | S n' => if d <? month_len y m then (m, d) else month_of_day n' y (m + 1) (d - month_len y m)
  end.

(** [gmtime_r]. *)
Definition gmtime (t : Z) : tm :=
  let days := t / 86400 in
  let rem := t mod 86400 in
  let '(y, d) := year_of_day (S (Z.to_nat (Z.abs days))) 1970 days in
  let '(m, d) := month_of_day 11 y 0 d in
  Tm (rem mod 60) (rem / 60 mod 60) (rem / 3600) (d + 1) m (y - 1900) 0.

(** The C library's local time: [mktime] returns the time and the normalised
    broken-down time; [gmtoff] is the [tm_gmtoff] that [localtime_r] gives. *)
Class TimeZone := {
  mktime : tm -> Z * tm;
  gmtoff : Z -> Z;
}.

(** A zone at a constant offset east of UTC. *)
Definition fixed_zone (off : Z) : TimeZone := {|
  mktime t := (timegm t - off, gmtime (timegm t));
  gmtoff _ := off;
|}.

(** A valid UTC date and time of day. *)
Definition tm_valid (t : tm) : Prop :=
  0 <= tm_mon t < 12 /\ 1 <= tm_mday t <= month_len (1900 + tm_year t) (tm_mon t)
  /\ 0 <= tm_hour t < 24 /\ 0 <= tm_min t < 60 /\ 0 <= tm_sec t < 60.

(** ** Lemmas *)

Ltac zdiv := Z.to_euclidean_division_equations; lia.

Lemma leap_years_step y :
  leap_years y = leap_years (y - 1) + (if is_leap y then 1 else 0).
Proof.
  unfold leap_years, is_leap.
  destruct (Z.eqb_spec (y mod 4) 0), (Z.eqb_spec (y mod 100) 0), (Z.eqb_spec (y mod 400) 0);
    cbn [andb orb negb]; zdiv.
Qed.

Lemma days_before_year_succ y : days_before_year (y + 1) = days_before_year y + year_len y.
Proof.
  unfold days_before_year, year_len. replace (y + 1 - 1) with y by lia.
  rewrite (leap_years_step y). destruct (is_leap y); lia.
Qed.

Lemma year_len_bounds y : 365 <= year_len y <= 366.
Proof. unfold year_len. destruct (is_leap y); lia. Qed.

Lemma days_before_month_12 y : days_before_month y 12 = year_len y.
Proof. unfold year_len. cbn. unfold month_len. destruct (is_leap y); reflexivity. Qed.

Lemma month_len_bounds y m : 28 <= month_len y m <= 31.
Proof. unfold month_len. repeat case_match; lia. Qed.

Lemma year_of_day_spec fuel y d :
  (Z.to_nat (Z.abs d) < fuel)%nat ->
  let '(y', d') := year_of_day fuel y d in
  days_before_year y' + d' = days_before_year y + d /\ 0 <= d' < year_len y'.
Proof.
  revert y d. induction fuel as [|fuel IH]; intros y d Hf; [lia|]. cbn [year_of_day].
  pose proof (year_len_bounds y). pose proof (year_len_bounds (y - 1)).
  pose proof (days_before_year_succ y). pose proof (days_before_year_succ (y - 1)).
  replace (y - 1 + 1) with y in * by lia.
  destruct (Z.ltb_spec d 0); [|destruct (Z.leb_spec (year_len y) d); [|lia]].
  - destruct (Z.le_gt_cases (year_len (y - 1)) (- d)).
    + specialize (IH (y - 1) (d + year_len (y - 1))). destruct (year_of_day _ _ _).
      destruct IH; lia.
    + (* the year before is the right one *)
      destruct fuel as [|fuel]; [lia|]. cbn [year_of_day].
      rewrite (proj2 (Z.ltb_ge _ _)), (proj2 (Z.leb_gt _ _)) by lia. lia.
  - specialize (IH (y + 1) (d - year_len y)). destruct (year_of_day _ _ _).
    destruct IH; lia.
Qed.

Lemma month_of_day_spec n y m d :
  0 <= m -> (Z.to_nat m + n = 11)%nat ->
  0 <= d < days_before_month y 12 - days_before_month y (Z.to_nat m) ->
  let '(m', d') := month_of_day n y m d in
  days_before_month y (Z.to_nat m') + d' = days_before_month y (Z.to_nat m) + d
  /\ 0 <= m' < 12 /\ 0 <= d' < month_len y m'.
Proof.
  revert m d. induction n as [|n IH]; intros m d Hm Hn Hd.
  - assert (m = 11) as -> by lia. cbn [month_of_day]. repeat split; try lia.
    change (Z.to_nat 11) with 11%nat in Hd. cbn [days_before_month] in Hd.
    change (Z.of_nat 11) with 11 in Hd. lia.
  - cbn [month_of_day]. destruct (Z.ltb_spec d (month_len y m)); [lia|].
    assert (days_before_month y (Z.to_nat (m + 1))
            = days_before_month y (Z.to_nat m) + month_len y m) as Hs.
    { replace (Z.to_nat (m + 1)) with (S (Z.to_nat m)) by lia. cbn [days_before_month].
      by rewrite Z2Nat.id. }
    specialize (IH (m + 1) (d - month_len y m)). destruct (month_of_day _ _ _ _).
    destruct IH as (? & ? & ?); lia.
Qed.

Lemma day_number_in_year y m d :
  0 <= m < 12 ->
  day_number y m d = days_before_year y + days_before_month y (Z.to_nat m) + (d - 1).
Proof.
  intros Hm. unfold day_number. rewrite Z.div_small, Z.mod_small by done.
  by rewrite Z.add_0_r.
Qed.

Lemma split_day_time r :
  0 <= r < 86400 ->
  3600 * (r / 3600) + 60 * (r / 60 mod 60) + r mod 60 = r
  /\ 0 <= r / 3600 < 24 /\ 0 <= r / 60 mod 60 < 60 /\ 0 <= r mod 60 < 60.
Proof. intros. zdiv. Qed.

(** [gmtime_r] gives a valid date, and [timegm] is its inverse. *)
Lemma gmtime_timegm t : timegm (gmtime t) = t /\ tm_valid (gmtime t).
Proof.
  unfold gmtime. pose proof (year_of_day_spec (S (Z.to_nat (Z.abs (t / 86400)))) 1970 (t / 86400)) as Hy.
  destruct (year_of_day _ _ _) as [y d]. destruct Hy as [Hy Hd]; [lia|].
  pose proof (month_of_day_spec 11 y 0 d) as Hm.
  destruct (month_of_day _ _ _ _) as [m d']. rewrite days_before_month_12 in Hm.
  change (days_before_month y (Z.to_nat 0)) with 0 in Hm. destruct Hm as (Hm & Hm12 & Hd'); [lia..|].
  unfold timegm, tm_valid. cbn [tm_sec tm_min tm_hour tm_mday tm_mon tm_year].
  replace (1900 + (y - 1900)) with y by lia.
  rewrite day_number_in_year by done.
  change (days_before_year 1970) with 0 in Hy. pose proof (Z.mod_pos_bound t 86400).
  pose proof (split_day_time (t mod 86400)). pose proof (Z.div_mod t 86400). lia.
Qed.

Example gmtime_2019 : gmtime 1554641999 = Tm 59 59 12 7 3 119 0.
Proof. vm_compute. reflexivity. Qed.
