(* ===== verification/NmeaToken.v ===== *)
(** * NMEA tokenizer (gps_mtk_aosp.c: nmea_tokenizer_init ... str2float)

    The characters of a sentence live in a memory area given by the list of
    its bytes; a [Token] is a pair of offsets into it, or points to the empty
    string constant that nmea_tokenizer_get returns for a missing field.
    Every read is checked: [None] is a read outside of the area. *)

From S2P Require Import Prelude CFloat.

(** The objects a token can point into. *)
Inductive area := IN | DUMMY.

#[export] Instance area_eq_dec : EqDecision area.
Proof. solve_decision. Defined.

Record Token := MkToken { obj : area; p : Z; end_ : Z }.

Definition MAX_NMEA_TOKENS : Z := 24.

Record NmeaTokenizer := MkTokenizer { count : Z; tokens : list Token }.

(** One byte of memory, and of the object a token points into. *)
Definition rd (m : list Z) (i : Z) : option Z :=
  if 0 <=? i then m !! Z.to_nat i else None.

Definition peek (m : list Z) (a : area) (i : Z) : option Z :=
  match a with
  | IN => rd m i
  | DUMMY => rd [0] i
  end.

(** [memchr(p, c, n)]: the offset of the first [c] among [n] bytes. *)
Fixpoint memchr (m : list Z) (q c : Z) (n : nat) : option (option Z) :=
  match n with
  | O => Some None
  | S n' =>
      b ← rd m q;
      if b =? c then Some (Some q) else memchr m (q + 1) c n'
  end.

(** The tokenizing loop; each round advances [p], so [end - p + 1] rounds are
    enough. *)
Fixpoint tokenizer_loop (fuel : nat) (m : list Z) (p e : Z) (t : NmeaTokenizer)
  : option NmeaTokenizer :=
  match fuel with
  | O => None
  | S fuel' =>
      if p <? e then
        r ← memchr m p (ch ",") (Z.to_nat (e - p));
        let q := default e r in
        let t := if q >=? p then
                   if count t <? MAX_NMEA_TOKENS
                   then MkTokenizer (count t + 1) (tokens t ++ [MkToken IN p q])
                   else t
                 else t in
        let q := if q <? e then q + 1 else q in
        tokenizer_loop fuel' m q e t
      else Some t
  end.

Definition trim_dollar (m : list Z) (p e : Z) : option Z :=
  if p <? e then c ← rd m p; Some (if c =? ch "$" then p + 1 else p) else Some p.

Definition trim_newline (m : list Z) (p e : Z) : option Z :=
  if p <? e then
    c ← rd m (e - 1);
    if c =? 10 then
      let e := e - 1 in
      if p <? e then
        c ← rd m (e - 1); Some (if c =? 13 then e - 1 else e)
      else Some e
    else Some e
  else Some e.

Definition trim_checksum (m : list Z) (p e : Z) : option Z :=
  if p + 3 <=? e then
    c ← rd m (e - 3); Some (if c =? ch "*" then e - 3 else e)
  else Some e.

Definition nmea_tokenizer_init (m : list Z) (p e : Z) : option NmeaTokenizer :=
  p ← trim_dollar m p e;
  e ← trim_newline m p e;
  e ← trim_checksum m p e;
  tokenizer_loop (S (Z.to_nat (e - p))) m p e (MkTokenizer 0 []).

Definition nmea_tokenizer_get (t : NmeaTokenizer) (index : Z) : Token :=
  if (index <? 0) || (count t <=? index) then MkToken DUMMY 0 0
  else nth (Z.to_nat index) (tokens t) (MkToken DUMMY 0 0).

(** ** Numbers *)

Fixpoint str2int_loop (m : list Z) (a : area) (p e : Z) (result : Z) (len : nat)
  : option (option Z) :=
  match len with
  | O => Some (Some result)
  | S len' =>
      if e <=? p then Some None                           (* goto Fail *)
      else
        b ← peek m a p;
        let c := b - 48 in
        if 10 <=? u32 c then Some None                    (* goto Fail *)
        else str2int_loop m a (p + 1) e (s32 (result * 10 + c)) len'
  end.

Definition str2int (m : list Z) (a : area) (p e : Z) : option Z :=
  b ← peek m a p;
  let '(sign, p) := if b =? ch "-" then (-1, p + 1) else (1, p) in
  r ← str2int_loop m a p e 0 (Z.to_nat (e - p));
  Some (match r with Some result => s32 (sign * result) | None => -1 end).

(** [memcpy] into the local array, then [strtod] of the C string in it. *)
Definition str2float (m : list Z) (a : area) (p e : Z) : option double :=
  let len := e - p in
  if 16 <=? len then Some (S754_zero false)
  else
    temp ← match a with IN => buf_read m p len | DUMMY => buf_read [0] p len end;
    s ← cstr (temp ++ [0]);
    Some (strtod s).

Definition tok2int (m : list Z) (t : Token) : option Z := str2int m (obj t) (p t) (end_ t).
Definition tok2float (m : list Z) (t : Token) : option double :=
  str2float m (obj t) (p t) (end_ t).

(** ** Specification

    The text between two offsets, and the fields of a sentence: its body split
    at the commas, a trailing empty field not counted. *)

Definition slice (m : list Z) (a b : Z) : list Z :=
  take (Z.to_nat (b - a)) (drop (Z.to_nat a) m).

Definition token_text (m : list Z) (t : Token) : list Z :=
  match obj t with IN => slice m (p t) (end_ t) | DUMMY => [] end.

Definition strip_dollar (s : list Z) : list Z :=
  match s with 36 :: s' => s' | _ => s end.

Definition drop_last (n : nat) (s : list Z) : list Z := take (length s - n) s.

Definition strip_newline (s : list Z) : list Z :=
  if bool_decide (last s = Some 10) then
    let s := drop_last 1 s in
    if bool_decide (last s = Some 13) then drop_last 1 s else s
  else s.

(** [*XX] at the end. *)
Definition strip_checksum (s : list Z) : list Z :=
  if (3 <=? Z.of_nat (length s)) && bool_decide (s !! (length s - 3)%nat = Some 42)
  then drop_last 3 s else s.

Definition sentence_body (s : list Z) : list Z :=
  strip_checksum (strip_newline (strip_dollar s)).

Fixpoint split_commas (s : list Z) : list (list Z) :=
  match s with
  | [] => [[]]
  | c :: s' =>
      if c =? ch "," then [] :: split_commas s'
      else match split_commas s' with
           | f :: fs => (c :: f) :: fs
           | [] => [[c]]
           end
  end.

Definition fields (s : list Z) : list (list Z) :=
  let l := split_commas s in
  if bool_decide (last l = Some []) then removelast l else l.

(** A token lies in the area [a, b). *)
Definition token_in (a b : Z) (t : Token) : Prop :=
  obj t = IN /\ a <= p t <= end_ t /\ end_ t <= b.

(** ** Lemmas on slices *)

Lemma rd_Some m i : 0 <= i < Z.of_nat (length m) -> exists b, rd m i = Some b /\ m !! Z.to_nat i = Some b.
Proof.
  intros Hi. unfold rd. rewrite (proj2 (Z.leb_le _ _)) by lia.
  destruct (lookup_lt_is_Some_2 m (Z.to_nat i)) as [b Hb]; [lia|eauto].
Qed.

Lemma slice_nil m a b : b <= a -> slice m a b = [].
Proof. intros. unfold slice. by replace (Z.to_nat (b - a)) with O by lia. Qed.

Lemma slice_cons m a b c :
  0 <= a < b -> m !! Z.to_nat a = Some c -> slice m a b = c :: slice m (a + 1) b.
Proof.
  intros Hab Hc. unfold slice.
  replace (Z.to_nat (b - a)) with (S (Z.to_nat (b - (a + 1)))) by lia.
  rewrite (drop_S _ _ _ Hc). cbn [take]. by replace (S (Z.to_nat a)) with (Z.to_nat (a + 1)) by lia.
Qed.

Lemma length_slice m a b :
  0 <= a <= b -> b <= Z.of_nat (length m) -> length (slice m a b) = Z.to_nat (b - a).
Proof. intros. unfold slice. autorewrite with blen. lia. Qed.

Lemma lookup_slice m a b i :
  0 <= a -> Z.of_nat i < b - a -> slice m a b !! i = m !! Z.to_nat (a + Z.of_nat i).
Proof.
  intros. unfold slice. rewrite lookup_take_lt by lia. rewrite lookup_drop.
  f_equal. lia.
Qed.

Lemma slice_app m a b c :
  0 <= a <= b -> b <= c -> slice m a c = slice m a b ++ slice m b c.
Proof.
  intros. unfold slice.
  replace (Z.to_nat (c - a)) with (Z.to_nat (b - a) + Z.to_nat (c - b))%nat by lia.
  rewrite <-take_take_drop, drop_drop. do 3 f_equal. lia.
Qed.

Lemma drop_last_slice m a b n :
  0 <= a -> a + Z.of_nat n <= b -> b <= Z.of_nat (length m) ->
  drop_last n (slice m a b) = slice m a (b - Z.of_nat n).
Proof.
  intros. unfold drop_last. rewrite length_slice by lia.
  unfold slice. rewrite take_take. f_equal. lia.
Qed.

Lemma last_slice m a b :
  0 <= a < b -> b <= Z.of_nat (length m) -> last (slice m a b) = m !! Z.to_nat (b - 1).
Proof.
  intros. rewrite last_lookup, length_slice by lia.
  rewrite lookup_slice by lia. f_equal. lia.
Qed.

(** ** The trims *)

Lemma trim_dollar_spec m a b :
  0 <= a <= b -> b <= Z.of_nat (length m) ->
  exists a', trim_dollar m a b = Some a' /\ a <= a' <= b /\ a' <= a + 1
          /\ slice m a' b = strip_dollar (slice m a b).
Proof.
  intros Ha Hb. unfold trim_dollar. destruct (Z.ltb_spec a b).
  - destruct (rd_Some m a) as (c & -> & Hc); [lia|]. obind.
    rewrite (slice_cons m a b c) by (done || lia). change (ch "$") with 36.
    destruct (Z.eqb_spec c 36) as [->|Hne].
    + eexists; split; [done|]. split; [lia|]. split; [lia|done].
    + eexists; split; [done|]. split; [lia|]. split; [lia|].
      rewrite (slice_cons m a b c) by (done || lia).
      unfold strip_dollar. repeat case_match; done || lia.
  - eexists; split; [done|]. split; [lia|]. split; [lia|]. by rewrite slice_nil by lia.
Qed.

Lemma trim_newline_spec m a b :
  0 <= a <= b -> b <= Z.of_nat (length m) ->
  exists b', trim_newline m a b = Some b' /\ a <= b' <= b
          /\ slice m a b' = strip_newline (slice m a b).
Proof.
  intros Ha Hb. unfold trim_newline, strip_newline. destruct (Z.ltb_spec a b).
  2: { eexists; split; [done|]. split; [lia|]. by rewrite slice_nil by lia. }
  destruct (rd_Some m (b - 1)) as (c & -> & Hc); [lia|]. obind.
  rewrite last_slice, Hc by lia.
  destruct (Z.eqb_spec c 10) as [->|Hne].
  2: { rewrite bool_decide_eq_false_2 by congruence. eauto 6 with lia. }
  rewrite bool_decide_eq_true_2 by done.
  rewrite drop_last_slice by lia. change (b - Z.of_nat 1) with (b - 1).
  destruct (Z.ltb_spec a (b - 1)).
  2: { eexists; split; [done|]. split; [lia|]. by rewrite slice_nil by lia. }
  destruct (rd_Some m (b - 1 - 1)) as (c & -> & Hc'); [lia|]. obind.
  rewrite last_slice, Hc' by lia.
  destruct (Z.eqb_spec c 13) as [->|Hne].
  - rewrite bool_decide_eq_true_2, drop_last_slice by (done || lia). eauto 6 with lia.
  - rewrite bool_decide_eq_false_2 by congruence. eauto 6 with lia.
Qed.

Lemma trim_checksum_spec m a b :
  0 <= a <= b -> b <= Z.of_nat (length m) ->
  exists b', trim_checksum m a b = Some b' /\ a <= b' <= b
          /\ slice m a b' = strip_checksum (slice m a b).
Proof.
  intros Ha Hb. unfold trim_checksum, strip_checksum. rewrite length_slice by lia.
  destruct (Z.leb_spec (a + 3) b); cycle 1.
  { rewrite (proj2 (Z.leb_gt _ _)) by lia. cbn [andb]. eauto 6 with lia. }
  rewrite (proj2 (Z.leb_le _ _)) by lia. cbn [andb].
  destruct (rd_Some m (b - 3)) as (c & -> & Hc); [lia|]. obind.
  rewrite lookup_slice by lia.
  replace (Z.to_nat (a + Z.of_nat (Z.to_nat (b - a) - 3))) with (Z.to_nat (b - 3)) by lia.
  rewrite Hc. change (ch "*") with 42.
  destruct (Z.eqb_spec c 42) as [->|Hne].
  - rewrite bool_decide_eq_true_2, drop_last_slice by (done || lia). eauto 6 with lia.
  - rewrite bool_decide_eq_false_2 by congruence. eauto 6 with lia.
Qed.

(** ** The loop *)

Lemma memchr_spec m a c n :
  0 <= a -> a + Z.of_nat n <= Z.of_nat (length m) ->
  (memchr m a c n = Some None /\ c ∉ slice m a (a + Z.of_nat n)) \/
  (exists q, memchr m a c n = Some (Some q) /\ a <= q < a + Z.of_nat n
          /\ m !! Z.to_nat q = Some c /\ c ∉ slice m a q).
Proof.
  revert a. induction n as [|n IH]; intros a Ha Hn.
  { left. rewrite slice_nil by lia. split; [done|]. apply not_elem_of_nil. }
  cbn [memchr]. destruct (rd_Some m a) as (b & -> & Hb); [lia|]. obind.
  destruct (Z.eqb_spec b c) as [->|Hne].
  - right. exists a. rewrite slice_nil by lia. split_and!; try done; try lia.
    apply not_elem_of_nil.
  - replace (a + Z.of_nat (S n)) with (a + 1 + Z.of_nat n) in * by lia.
    destruct (IH (a + 1)) as [(-> & Hc) | (q & -> & Hq & Hm & Hc)]; try lia.
    + left. split; [done|]. rewrite (slice_cons m a _ b) by (done || lia).
      rewrite not_elem_of_cons. split; [congruence|done].
    + right. exists q. split_and!; try done; try lia.
      rewrite (slice_cons m a _ b) by (done || lia). by apply not_elem_of_cons.
Qed.

Lemma split_commas_ne s : split_commas s <> [].
Proof. destruct s as [|c s]; cbn [split_commas]; [done|]. repeat case_match; done. Qed.

Lemma split_commas_app f r :
  ch "," ∉ f -> split_commas (f ++ ch "," :: r) = f :: split_commas r.
Proof.
  induction f as [|c f IH]; intros Hf; [done|].
  rewrite not_elem_of_cons in Hf. destruct Hf as [Hc Hf].
  cbn [app split_commas]. rewrite (proj2 (Z.eqb_neq c (ch ","))) by congruence.
  by rewrite IH.
Qed.

Lemma split_commas_none f : ch "," ∉ f -> split_commas f = [f].
Proof.
  induction f as [|c f IH]; intros Hf; [done|].
  rewrite not_elem_of_cons in Hf. destruct Hf as [Hc Hf].
  cbn [split_commas]. rewrite (proj2 (Z.eqb_neq c (ch ","))) by congruence. by rewrite IH.
Qed.

Lemma fields_app f r :
  ch "," ∉ f -> fields (f ++ ch "," :: r) = f :: fields r.
Proof.
  intros Hf. unfold fields. rewrite split_commas_app by done.
  pose proof (split_commas_ne r). destruct (split_commas r) as [|g gs] eqn:E; [done|].
  replace (last (f :: g :: gs)) with (last (g :: gs)) by done. by case_bool_decide.
Qed.

Lemma fields_none f : ch "," ∉ f -> f <> [] -> fields f = [f].
Proof.
  intros Hf Hne. unfold fields. rewrite split_commas_none by done.
  by rewrite bool_decide_eq_false_2 by (cbn; congruence).
Qed.

(** The state of the loop: the tokens stored so far, with their count. *)
Definition tokenizer_wf (a b : Z) (t : NmeaTokenizer) : Prop :=
  count t = Z.of_nat (length (tokens t)) /\ count t <= MAX_NMEA_TOKENS
  /\ Forall (token_in a b) (tokens t).

Definition first_token (t : NmeaTokenizer) : Z :=
  match tokens t with [] => 0 | tk :: _ => p tk end.

Lemma tokenizer_loop_spec m a b :
  0 <= a -> b <= Z.of_nat (length m) ->
  forall fuel q t, a <= q <= b -> (Z.to_nat (b - q) < fuel)%nat -> tokenizer_wf a b t ->
  exists t', tokenizer_loop fuel m q b t = Some t' /\ tokenizer_wf a b t'
    /\ token_text m <$> tokens t'
       = (token_text m <$> tokens t)
         ++ take (24 - length (tokens t)) (fields (slice m q b))
    /\ first_token t' = match tokens t with
                        | [] => if q <? b then q else 0
                        | tk :: _ => p tk
                        end.
Proof.
  intros Ha Hb. induction fuel as [|fuel IH]; intros q t Hq Hf Hwf; [lia|].
  cbn [tokenizer_loop]. destruct (Z.ltb_spec q b).
  2: { exists t. split_and!; [done|done| |by unfold first_token]. rewrite slice_nil by lia.
       change (fields []) with (@nil (list Z)). by rewrite take_nil, app_nil_r. }
  destruct Hwf as (Hc & Hmax & Hall). unfold MAX_NMEA_TOKENS in *.
  (* one round stores the field [q, q2) and goes on at q2', whatever the case *)
  assert (exists q2 q2', default b <$> memchr m q (ch ",") (Z.to_nat (b - q)) = Some q2
    /\ (if q2 <? b then q2 + 1 else q2) = q2' /\ q <= q2 <= b /\ q < q2' <= b
    /\ fields (slice m q b) = slice m q q2 :: fields (slice m q2' b))
    as (q2 & q2' & Hr & Hq2' & Hq2 & Hlt & Hfields).
  { destruct (memchr_spec m q (ch ",") (Z.to_nat (b - q))) as [(-> & Hn) | (q2 & -> & Hq2 & Hm & Hn)];
      try lia; cbn [fmap option_fmap option_map default].
    - rewrite Z2Nat.id, Zplus_minus in Hn by lia. exists b, b.
      rewrite Z.ltb_irrefl. split_and!; try done; try lia.
      rewrite (slice_nil m b b) by lia. apply fields_none; [done|].
      intros E. apply (f_equal length) in E. rewrite length_slice in E by lia. cbn in E. lia.
    - exists q2, (q2 + 1). rewrite (proj2 (Z.ltb_lt _ _)) by lia. split_and!; try done; try lia.
      rewrite (slice_app m q q2 b), (slice_cons m q2 b (ch ",")) by (done || lia).
      by apply fields_app. }
  destruct (memchr m q (ch ",") (Z.to_nat (b - q))) as [r|]; [|done].
  cbn [fmap option_fmap option_map] in Hr. injection Hr as Hr. obind.
  rewrite Hr, Hq2'. rewrite Z.geb_leb, (proj2 (Z.leb_le q q2)) by lia.
  destruct (Z.ltb_spec (count t) 24).
  - edestruct (IH q2' (MkTokenizer (count t + 1) (tokens t ++ [MkToken IN q q2])))
      as (t' & -> & Hwf' & Htext & Hfst); [lia..| |].
    { split_and!; cbn [count tokens]; [rewrite length_app; cbn; lia|unfold MAX_NMEA_TOKENS; lia|].
      apply Forall_app; split; [done|]. repeat constructor; cbn; lia. }
    exists t'. split_and!; [done|done| |by rewrite Hfst; cbn; destruct (tokens t)].
    rewrite Htext, Hfields. cbn [tokens].
    rewrite fmap_app, length_app, <-app_assoc.
    replace (24 - length (tokens t))%nat with (S (24 - (length (tokens t) + length [MkToken IN q q2])))
      by (cbn; lia). done.
  - edestruct (IH q2' t) as (t' & -> & Hwf' & Htext & Hfst); [lia..|done|].
    exists t'. split_and!; [done|done| |rewrite Hfst; destruct (tokens t); cbn in *; done || lia].
    rewrite Htext, Hfields.
    by replace (24 - length (tokens t))%nat with O by lia.
Qed.

(** nmea_tokenizer_init reads inside its area and stores the fields. *)
Lemma tokenizer_init_fields m a b :
  0 <= a <= b -> b <= Z.of_nat (length m) ->
  exists t, nmea_tokenizer_init m a b = Some t /\ tokenizer_wf a b t
    /\ token_text m <$> tokens t = take 24 (fields (sentence_body (slice m a b)))
    /\ first_token t <= a + 1.
Proof.
  intros Ha Hb. unfold nmea_tokenizer_init, sentence_body.
  destruct (trim_dollar_spec m a b) as (a' & -> & Ha' & Hle & <-); [lia..|]. obind.
  destruct (trim_newline_spec m a' b) as (b' & -> & Hb' & <-); [lia..|]. obind.
  destruct (trim_checksum_spec m a' b') as (b'' & -> & Hb'' & <-); [lia..|]. obind.
  destruct (tokenizer_loop_spec m a' b'' ltac:(lia) ltac:(lia)
              (S (Z.to_nat (b'' - a'))) a' (MkTokenizer 0 []))
    as (t & -> & (Hc & Hm & Hall) & Ht & Hf); [lia..|repeat split; constructor || done|].
  cbn [tokens] in Hf. assert (first_token t <= a + 1) by (rewrite Hf; destruct (a' <? b''); lia).
  exists t. split_and!; [done| |done|done]. repeat split; try done.
  eapply Forall_impl; [exact Hall|]. intros tk (? & ? & ?). unfold token_in. repeat split; try done; lia.
Qed.

(** ** Numbers in fields *)

(** What str2int means by the integer of a field: a decimal number with an
    optional minus sign, in 32-bit arithmetic; -1 if it is not one; 0 for an
    empty field. *)
Definition field_int (s : list Z) : Z :=
  let '(sign, d) := match s with 45 :: d => (-1, d) | _ => (1, s) end in
  if forallb is_digit d then s32 (sign * fst (digits 0 d)) else -1.

Lemma is_digit_u32 b : is_byte b -> (10 <=? u32 (b - 48)) = negb (is_digit b).
Proof.
  unfold is_byte, is_digit, uwrap. intros Hb.
  destruct (Z.leb_spec 48 b).
  - rewrite Z.mod_small by lia.
    destruct (Z.leb_spec 10 (b - 48)), (Z.leb_spec b 57); cbn; done || lia.
  - cbn [andb negb].
    replace ((b - 48) mod 2 ^ 32) with (b - 48 + 2 ^ 32).
    + apply Z.leb_le. lia.
    + symmetry. rewrite <-(Z.mod_add _ 1) by lia. apply Z.mod_small. lia.
Qed.

Lemma str2int_loop_spec m p e acc :
  0 <= p <= e -> e <= Z.of_nat (length m) -> Forall is_byte m ->
  str2int_loop m IN p e (s32 acc) (Z.to_nat (e - p))
  = Some (let s := slice m p e in
          if forallb is_digit s then Some (s32 (fst (digits acc s))) else None).
Proof.
  intros Hp He Hm. remember (Z.to_nat (e - p)) as n eqn:Hn.
  revert p acc Hp Hn. induction n as [|n IH]; intros p acc Hp Hn.
  - by rewrite slice_nil by lia.
  - cbn [str2int_loop]. rewrite (proj2 (Z.leb_gt _ _)) by lia.
    destruct (rd_Some m p) as (b & Hrd & Hb); [lia|]. cbn [peek]. rewrite Hrd. obind.
    rewrite (slice_cons m p e b) by (done || lia). cbn [forallb digits].
    rewrite is_digit_u32 by (eapply Forall_lookup_1; eauto).
    destruct (is_digit b); cbn [negb andb]; [|done].
    rewrite swrap_mul_add_l, IH by lia. done.
Qed.

Lemma str2int_field m p e :
  0 <= p <= e -> e <= Z.of_nat (length m) -> p < Z.of_nat (length m) -> Forall is_byte m ->
  str2int m IN p e = Some (field_int (slice m p e)).
Proof.
  intros Hp He Hl Hm. unfold str2int. cbn [peek].
  destruct (rd_Some m p) as (b & -> & Hb); [lia|]. obind. change (ch "-") with 45.
  destruct (Z.ltb_spec p e).
  2: { rewrite slice_nil by lia. destruct (b =? 45); obind;
       [replace (Z.to_nat (e - (p + 1))) with O by lia
       |replace (Z.to_nat (e - p)) with O by lia]; done. }
  rewrite (slice_cons m p e b) by (done || lia). unfold field_int.
  destruct (Z.eqb_spec b 45) as [->|Hne].
  - change 0 with (s32 0). rewrite str2int_loop_spec by (done || lia). obind.
    cbv zeta. destruct (forallb _ _); [|done]. by rewrite swrap_mul_r.
  - replace (match b :: slice m (p + 1) e with 45 :: d => (-1, d) | _ => (1, b :: slice m (p + 1) e) end)
      with (1, b :: slice m (p + 1) e) by (repeat case_match; done || lia).
    change 0 with (s32 0). rewrite str2int_loop_spec by (done || lia). obind.
    rewrite (slice_cons m p e b) by (done || lia). cbv zeta.
    destruct (forallb _ _); [|done]. by rewrite swrap_mul_r.
Qed.

(** A token that str2int may be applied to, in a memory area with a readable
    byte after it, or the dummy. *)
Definition tok_ok (m : list Z) (t : Token) : Prop :=
  match obj t with
  | IN => 0 <= p t <= end_ t /\ end_ t < Z.of_nat (length m)
  | DUMMY => p t = 0 /\ end_ t = 0
  end.

Lemma tok2int_field m t :
  Forall is_byte m -> tok_ok m t -> tok2int m t = Some (field_int (token_text m t)).
Proof.
  unfold tok_ok, tok2int, token_text. intros Hm.
  destruct (obj t); [|by intros [-> ->]]. intros ?. apply str2int_field; (done || lia).
Qed.

(** The number of a field: the first 15 characters at most are read. *)
Definition field_float (s : list Z) : double :=
  if 16 <=? Z.of_nat (length s) then S754_zero false
  else strtod (default [] (cstr (s ++ [0]))).

Lemma cstr_total s : exists x, cstr (s ++ [0]) = Some x.
Proof.
  induction s as [|c s [x IH]]; cbn; [eauto|]. destruct (c =? 0); [eauto|].
  rewrite IH. cbn. eauto.
Qed.

Lemma str2float_field m p e :
  0 <= p <= e -> e <= Z.of_nat (length m) ->
  str2float m IN p e = Some (field_float (slice m p e)).
Proof.
  intros Hp He. unfold str2float, field_float. rewrite length_slice, Z2Nat.id by lia.
  destruct (Z.leb_spec 16 (e - p)); [done|].
  unfold buf_read. rewrite !(proj2 (Z.leb_le _ _)) by lia. cbn [andb]. obind.
  fold (slice m p e). destruct (cstr_total (slice m p e)) as [x ->]. done.
Qed.

Lemma tok2float_field m t :
  tok_ok m t -> tok2float m t = Some (field_float (token_text m t)).
Proof.
  unfold tok_ok, tok2float, token_text.
  destruct (obj t); [|by intros [-> ->]]. intros ?. apply str2float_field; lia.
Qed.

(** The token at an index of a tokenized sentence. *)
Lemma tokenizer_get_ok m a b t i :
  0 <= a -> b < Z.of_nat (length m) -> tokenizer_wf a b t ->
  tok_ok m (nmea_tokenizer_get t i)
  /\ token_text m (nmea_tokenizer_get t i)
     = (if i <? 0 then [] else default [] ((token_text m <$> tokens t) !! Z.to_nat i)).
Proof.
  intros Ha Hb (Hc & _ & Hall). unfold nmea_tokenizer_get.
  destruct (Z.ltb_spec i 0); [done|]. cbn [orb]. rewrite list_lookup_fmap.
  destruct (Z.leb_spec (count t) i).
  { by rewrite (lookup_ge_None_2 (tokens t)) by lia. }
  destruct (lookup_lt_is_Some_2 (tokens t) (Z.to_nat i)) as [tk Htk]; [lia|].
  rewrite (nth_lookup_Some _ _ _ _ Htk), Htk.
  split; [|done]. eapply Forall_lookup_1 in Hall as (Ho & ? & ?); [|exact Htk].
  unfold tok_ok. rewrite Ho. lia.
Qed.

Lemma field_int_neg s :
  field_int s = let neg := bool_decide (head s = Some 45) in
            let d := if neg then drop 1 s else s in
            if forallb is_digit d then s32 ((if neg then -1 else 1) * fst (digits 0 d)) else -1.
Proof.
  unfold field_int. cbv zeta. case_bool_decide as H.
  - destruct s as [|c s]; [done|]. cbn in H. injection H as ->. done.
  - destruct s as [|c s]; [done|].
    replace (match c :: s with 45 :: d => (-1, d) | _ => (1, c :: s) end) with (1, c :: s); [done|].
    cbn in H. repeat case_match; done || congruence.
Qed.

Lemma digits_range acc s :
  0 <= acc -> forallb is_digit s = true ->
  acc * 10 ^ Z.of_nat (length s) <= fst (digits acc s) < (acc + 1) * 10 ^ Z.of_nat (length s).
Proof.
  revert acc. induction s as [|c s IH]; intros acc Ha Hd; [cbn; lia|].
  cbn [forallb] in Hd. apply andb_prop in Hd as [Hc Hd]. cbn [digits]. rewrite Hc.
  assert (48 <= c <= 57) by (unfold is_digit in Hc; zbool; done || lia).
  destruct (IH (acc * 10 + (c - 48))) as [H1 H2]; [lia|done|].
  cbn [length]. rewrite Nat2Z.inj_succ, Z.pow_succ_r by lia. nia.
Qed.

Lemma digits_bound d :
  forallb is_digit d = true -> (length d <= 9)%nat -> 0 <= fst (digits 0 d) < 10 ^ 9.
Proof.
  intros Hd Hlen. destruct (digits_range 0 d) as [H1 H2]; [lia|done|].
  assert (10 ^ Z.of_nat (length d) <= 10 ^ 9) by (apply Z.pow_le_mono_r; lia). lia.
Qed.

(** Up to nine digits are read as they are. *)
Lemma field_int_digits s :
  forallb is_digit s = true -> (length s <= 9)%nat -> field_int s = fst (digits 0 s).
Proof.
  intros Hd Hl. pose proof (digits_bound s Hd Hl). rewrite field_int_neg. cbv zeta.
  rewrite bool_decide_eq_false_2, Hd.
  - rewrite s32_id by (unfold is_s32; lia). lia.
  - destruct s as [|c s]; [done|]. intros [= ->]. done.
Qed.

Lemma drop_last_app s c : drop_last 1 (s ++ [c]) = s.
Proof. unfold drop_last. rewrite length_app. apply take_app_length'. cbn. lia. Qed.

(** A non-empty token 0 starts the sentence, after the optional dollar. *)
Lemma tokenizer_get_first a b t :
  tokenizer_wf a b t -> p (nmea_tokenizer_get t 0) < end_ (nmea_tokenizer_get t 0) ->
  obj (nmea_tokenizer_get t 0) = IN /\ p (nmea_tokenizer_get t 0) = first_token t.
Proof.
  intros (Hc & _ & Hall). unfold nmea_tokenizer_get, first_token.
  change (Z.to_nat 0) with O. cbn [nth].
  destruct (tokens t) as [|tk l]; [rewrite Hc; change (Z.of_nat (length [])) with 0; cbn; intros; lia|].
  apply Forall_cons in Hall as [[Ho _] _].
  rewrite (proj2 (Z.leb_gt (count t) 0)) by (rewrite Hc; cbn; lia). done.
Qed.

(** ** Properties *)

(** C12 (refinement): for every sentence in memory, nmea_tokenizer_init reads
    only the sentence and terminates, and nmea_tokenizer_get returns for each
    index the corresponding field of the sentence: the text without '$', end
    of line and checksum, split at the commas, the first 24 fields only; a
    missing field, or a negative index, is the empty string. *)
Theorem tokenizer_refines_split (m : list Z) (a b : Z) :
  0 <= a <= b -> b < Z.of_nat (length m) ->
  exists t, nmea_tokenizer_init m a b = Some t /\
    forall i, token_text m (nmea_tokenizer_get t i)
      = (if i <? 0 then []
         else default [] (take 24 (fields (sentence_body (slice m a b))) !! Z.to_nat i)).
Proof.
  intros Ha Hb. destruct (tokenizer_init_fields m a b) as (t & -> & Hwf & Ht & _); [lia..|].
  exists t. split; [done|]. intros i. rewrite <-Ht.
  by eapply tokenizer_get_ok; [| |done]; lia.
Qed.

Definition sample_sentence : list Z :=
  zs "$GPGGA,061830.00,2503.71,N,12138.74,E,1,8,1.0,12.3,M,,M,,*47" ++ [13; 10; 0].

Lemma tokenizer_refines_split_witness :
  exists t, nmea_tokenizer_init sample_sentence 0 62 = Some t /\
    token_text sample_sentence (nmea_tokenizer_get t 2) = zs "2503.71" /\
    token_text sample_sentence (nmea_tokenizer_get t 12) = zs "M" /\
    token_text sample_sentence (nmea_tokenizer_get t 30) = [].
Proof.
  destruct (tokenizer_refines_split sample_sentence 0 62) as (t & Ht & Hi);
    [by_decide..|].
  exists t. split; [exact Ht|]. rewrite !Hi. vm_compute. auto.
Defined.

(** C13 (functional): str2int of a token is the integer of its text: a decimal
    number with an optional minus sign, computed without wrapping when it has
    at most nine digits, 0 for an empty field and -1 as soon as there is a
    character that is not a digit.  It reads no byte outside of the memory
    area, although it looks at the first character before the length. *)
Theorem str2int_spec (m : list Z) (t : Token) :
  Forall is_byte m -> tok_ok m t ->
  exists r, tok2int m t = Some r /\
    let s := token_text m t in
    let neg := bool_decide (head s = Some 45) in
    let d := if neg then drop 1 s else s in
    (forallb is_digit d = true -> (length d <= 9)%nat ->
       r = (if neg then -1 else 1) * fst (digits 0 d) /\ Z.abs r < 10 ^ 9)
    /\ (forallb is_digit d = false -> r = -1)
    /\ (s = [] -> r = 0).
Proof.
  intros Hm Ht. exists (field_int (token_text m t)).
  split; [by apply tok2int_field|]. cbv zeta. set (s := token_text m t).
  assert (field_int s = let neg := bool_decide (head s = Some 45) in
            let d := if neg then drop 1 s else s in
            if forallb is_digit d then s32 ((if neg then -1 else 1) * fst (digits 0 d)) else -1)
    as -> by apply field_int_neg.
  cbv zeta. case_bool_decide as Hneg.
  - split_and!.
    + intros Hd Hlen. rewrite Hd. pose proof (digits_bound _ Hd Hlen).
      rewrite s32_id by (unfold is_s32; lia). lia.
    + by intros ->.
    + by intros ->.
  - split_and!.
    + intros Hd Hlen. rewrite Hd. pose proof (digits_bound _ Hd Hlen).
      rewrite s32_id by (unfold is_s32; lia). lia.
    + by intros ->.
    + by intros ->.
Qed.

Lemma str2int_spec_witness :
  exists r, tok2int sample_sentence (MkToken IN 7 13) = Some r /\ r = 61830.
Proof.
  destruct (str2int_spec sample_sentence (MkToken IN 7 13)) as (r & Hr & H & _);
    [by_decide..|].
  exists r. split; [exact Hr|]. apply H; [vm_compute; reflexivity|vm_compute; lia].
Defined.
