(* ===== verification/NmeaReader.v ===== *)
(** * NMEA reader (gps_mtk_aosp.c: NmeaReader, nmea_reader_init ... nmea_reader_addc)

    One character at a time, nmea_reader_addc assembles sentences in a
    129-byte buffer and nmea_reader_parse turns each into updates of the
    current fix and of the satellite tables, and into framework callbacks.
    The state is the reader with the globals it uses; callbacks, datagrams to
    the daemon and the location file are a trace of events.  The build without
    GPS_AT_COMMAND is modelled here. *)

From S2P Require Import Prelude CFloat Calendar HalBuff NmeaToken.

(** ** What the code takes from outside: hardware/gps.h *)

Class GpsHeader := {
  GPS_MAX_SVS : Z;
  GNSS_MAX_SVS : Z;
  GPS_LOCATION_HAS_LAT_LONG : Z;
  GPS_LOCATION_HAS_ALTITUDE : Z;
  GPS_LOCATION_HAS_SPEED : Z;
  GPS_LOCATION_HAS_BEARING : Z;
  GPS_LOCATION_HAS_ACCURACY : Z;
}.

(** The tables are not empty and small, and the flags are set bits. *)
Class GpsHeaderLaws `{GpsHeader} := {
  gps_max_range : 0 < GPS_MAX_SVS < 2 ^ 16;
  gnss_max_range : 0 < GNSS_MAX_SVS < 2 ^ 16;
  has_flags_pos : Forall (fun f => 0 < f)
    [GPS_LOCATION_HAS_LAT_LONG; GPS_LOCATION_HAS_ALTITUDE; GPS_LOCATION_HAS_SPEED;
     GPS_LOCATION_HAS_BEARING; GPS_LOCATION_HAS_ACCURACY];
}.

(** ** Data *)

Record GpsLocation := MkGpsLocation {
  flags : Z;
  latitude : double;
  longitude : double;
  altitude : double;
  speed : float32;
  bearing : float32;
  accuracy : float32;
  timestamp : Z;
}.

#[export] Instance GpsLocation_rebuild : Rebuild GpsLocation := fun r =>
  MkGpsLocation (flags r) (latitude r) (longitude r) (altitude r) (speed r)
                (bearing r) (accuracy r) (timestamp r).

(** GpsSvInfo and GnssSvInfo ([used_in_fix] is in the latter only). *)
Record SvInfo := MkSvInfo {
  prn : Z;
  snr : float32;
  elevation : float32;
  azimuth : float32;
  used_in_fix : bool;
}.

Record GpsSvStatus := MkGpsSvStatus {
  gps_num_svs : Z;
  gps_sv_list : list SvInfo;
  ephemeris_mask : Z;
  almanac_mask : Z;
  used_in_fix_mask : Z;
}.

#[export] Instance GpsSvStatus_rebuild : Rebuild GpsSvStatus := fun r =>
  MkGpsSvStatus (gps_num_svs r) (gps_sv_list r) (ephemeris_mask r) (almanac_mask r)
                (used_in_fix_mask r).

Record GnssSvStatus := MkGnssSvStatus {
  num_svs : Z;
  sv_list : list SvInfo;
}.

#[export] Instance GnssSvStatus_rebuild : Rebuild GnssSvStatus := fun r =>
  MkGnssSvStatus (num_svs r) (sv_list r).

Definition NMEA_MAX_SIZE : Z := 128.
Definition NMEA_MAX_SV_INFO : Z := 4.

Record NmeaReader := MkNmeaReader {
  pos : Z;
  overflow : Z;
  utc_year : Z;
  utc_mon : Z;
  utc_day : Z;
  utc_diff : Z;
  fix_ : GpsLocation;
  fix_mode : Z;
  cb_status_changed : Z;
  sv_count : Z;
  sv_status_gps : GpsSvStatus;
  sv_status_gnss : GnssSvStatus;
  in_ : list Z;
}.

#[export] Instance NmeaReader_rebuild : Rebuild NmeaReader := fun r =>
  MkNmeaReader (pos r) (overflow r) (utc_year r) (utc_mon r) (utc_day r) (utc_diff r)
    (fix_ r) (fix_mode r) (cb_status_changed r) (sv_count r) (sv_status_gps r)
    (sv_status_gnss r) (in_ r).

(** The location record written to LOCATION_NLP_FIX. *)
Record nlp_context := MkNlp {
  nlp_latitude : double;
  nlp_longitude : double;
  nlp_accuracy : float32;
  ts_sec : Z;
  ts_nsec : Z;
  nlp_type : Z;
  nlp_started : Z;
}.

Inductive event :=
  | LocationCb (l : GpsLocation)
  | SvStatusCb (s : GpsSvStatus)
  | GnssSvStatusCb (s : GnssSvStatus)
  | NmeaCb (timestamp : Z) (nmea : list Z) (length : Z)
  | DaemonSend (msg : list Z)                          (* to MTK_HAL2MNLD *)
  | WriteLocation (c : nlp_context).                   (* LOCATION_NLP_FIX *)

(** The reader with the globals it uses. *)
Record hal := MkHal {
  reader : NmeaReader;
  sv_used_in_fix : list Z;
  gps_nmea_end_tag : Z;
  started : Z;
  cb_size : Z;                          (* callback_backup_mtk.base.size *)
  mnl_prop : list Z;                    (* the property MNL_CONFIG_STATUS *)
  trace : list event;
}.

#[export] Instance hal_rebuild : Rebuild hal := fun r =>
  MkHal (reader r) (sv_used_in_fix r) (gps_nmea_end_tag r) (started r) (cb_size r)
        (mnl_prop r) (trace r).

Definition on_reader {A} : CM NmeaReader A -> CM hal A :=
  on_part reader (fun r h => h ⟨ reader := r ⟩).

Definition emit (e : event) : CM hal unit := cmodify (fun h => h ⟨ trace $= fun t => t ++ [e] ⟩).

Section Reader.
Context `{GpsHeader} `{TimeZone}.

Definition upd_fix (f : GpsLocation -> GpsLocation) : CM NmeaReader unit :=
  cmodify (fun r => r ⟨ fix_ $= f ⟩).

(** ** Initialisation *)

Definition sv_zero : SvInfo :=
  MkSvInfo 0 (S754_zero false) (S754_zero false) (S754_zero false) false.
Definition fix_zero : GpsLocation :=
  MkGpsLocation 0 (S754_zero false) (S754_zero false) (S754_zero false)
    (S754_zero false) (S754_zero false) (S754_zero false) 0.

(** nmea_reader_update_utc_diff, with the values of [gmtime_r] and of
    [localtime_r] at the current time. *)
Definition nmea_reader_update_utc_diff (now : Z) (tm_local : tm) : CM NmeaReader unit :=
  let tm_utc := gmtime now in
  let time_local := fst (mktime tm_local) in
  let time_utc := fst (mktime tm_utc) in
  cmodify (fun r => r ⟨ utc_diff := s32 (time_utc - time_local) ⟩).

Definition nmea_reader_init (now : Z) (tm_local : tm) : option NmeaReader :=
  '(_, r) ← nmea_reader_update_utc_diff now tm_local
    (MkNmeaReader 0 0 (-1) (-1) (-1) 0 fix_zero 0 0 0
      (MkGpsSvStatus 0 (replicate (Z.to_nat GPS_MAX_SVS) sv_zero) 0 0 0)
      (MkGnssSvStatus 0 (replicate (Z.to_nat GNSS_MAX_SVS) sv_zero))
      (zeros (NMEA_MAX_SIZE + 1)));
  Some r.

(** With [cbs] non-null and MNL_AT_TEST_FLAG 0; otherwise nothing happens. *)
Definition nmea_reader_set_callback (cbs_null : bool) (MNL_AT_TEST_FLAG : Z)
  : CM NmeaReader unit :=
  if cbs_null then mret tt
  else if truthy MNL_AT_TEST_FLAG then mret tt
  else
    _ ← upd_fix (fun f => f ⟨ flags := 0 ⟩);
    _ ← cmodify (fun r => r ⟨ sv_count := 0 ⟩);
    _ ← cmodify (fun r => r ⟨ sv_status_gps $= fun s => s ⟨ gps_num_svs := 0 ⟩ ⟩);
    cmodify (fun r => r ⟨ sv_status_gnss $= fun s => s ⟨ num_svs := 0 ⟩ ⟩).

(** ** Fields of the fix *)

Definition str2int_at (a : area) (p e : Z) : CM NmeaReader Z :=
  m ← cgets in_; clift (str2int m a p e).
Definition str2float_at (a : area) (p e : Z) : CM NmeaReader double :=
  m ← cgets in_; clift (str2float m a p e).

Definition get_time_of_day (tok : Token) : CM NmeaReader (Z * Z * double) :=
  hour ← str2int_at (obj tok) (p tok) (p tok + 2);
  minute ← str2int_at (obj tok) (p tok + 2) (p tok + 4);
  seconds ← str2float_at (obj tok) (p tok + 4) (end_ tok);
  mret (hour, minute, seconds).

(** No date yet: get the current one. *)
Definition ensure_date (now : Z) : CM NmeaReader unit :=
  y ← cgets utc_year;
  cwhen (y <? 0)
    (let tm := gmtime now in
     cmodify (fun r => r ⟨ utc_year := tm_year tm + 1900 ⟩ ⟨ utc_mon := tm_mon tm + 1 ⟩
                         ⟨ utc_day := tm_mday tm ⟩)).

Definition set_fix_time (hms : Z * Z * double) : CM NmeaReader unit :=
  let '(hour, minute, seconds) := hms in
  r ← cgets id;
  let tm := Tm (d_to_int seconds) minute hour (utc_day r) (utc_mon r - 1)
               (utc_year r - 1900) (-1) in
  let tm := snd (mktime tm) in                (* mktime(&tm) normalises tm *)
  let fix_time := fst (mktime tm) in
  let fix_time := s32 (fix_time + gmtoff fix_time) in
  upd_fix (fun f => f ⟨ timestamp := fix_time * 1000 ⟩).

Definition nmea_reader_update_time (now : Z) (tok : Token) : CM NmeaReader Z :=
  if p tok + 6 >? end_ tok then mret (-1)
  else
    _ ← ensure_date now;
    hms ← get_time_of_day tok;
    _ ← set_fix_time hms;
    mret 0.

Definition nmea_reader_update_date (now : Z) (date time : Token) : CM NmeaReader Z :=
  let tok := date in
  if negb (p tok + 6 =? end_ tok) then mret (-1)
  else
    day ← str2int_at (obj tok) (p tok) (p tok + 2);
    mon ← str2int_at (obj tok) (p tok + 2) (p tok + 4);
    yy ← str2int_at (obj tok) (p tok + 4) (p tok + 6);
    let year := yy + 2000 in
    if Z.lor (Z.lor day mon) year <? 0 then mret (-1)
    else
      _ ← cmodify (fun r => r ⟨ utc_year := year ⟩ ⟨ utc_mon := mon ⟩ ⟨ utc_day := day ⟩);
      nmea_reader_update_time now time.

(** [convert_from_hhmm] on the value of the token. *)
Definition hhmm_degrees (val : double) : double :=
  let degrees := d_to_int (d_div (d_floor val) (d_of_Z 100)) in
  let minutes := d_sub val (d_mul (d_of_Z degrees) (d_of_Z 100)) in
  d_add (d_of_Z degrees) (d_div minutes (d_of_Z 60)).

Definition convert_from_hhmm (tok : Token) : CM NmeaReader double :=
  val ← str2float_at (obj tok) (p tok) (end_ tok);
  mret (hhmm_degrees val).

Definition nmea_reader_update_latlong (lat : Token) (latitudeHemi : Z)
    (lon : Token) (longitudeHemi : Z) : CM NmeaReader Z :=
  if p lat + 6 >? end_ lat then mret (-1)
  else
    la ← convert_from_hhmm lat;
    let la := if latitudeHemi =? ch "S" then d_neg la else la in
    if p lon + 6 >? end_ lon then mret (-1)
    else
      lo ← convert_from_hhmm lon;
      let lo := if longitudeHemi =? ch "W" then d_neg lo else lo in
      _ ← upd_fix (fun f => f ⟨ flags $= fun x => Z.lor x GPS_LOCATION_HAS_LAT_LONG ⟩
                              ⟨ latitude := la ⟩ ⟨ longitude := lo ⟩);
      mret 0.

Definition nmea_reader_update_altitude (tok units : Token) : CM NmeaReader Z :=
  if p tok >=? end_ tok then mret (-1)
  else
    _ ← upd_fix (fun f => f ⟨ flags $= fun x => Z.lor x GPS_LOCATION_HAS_ALTITUDE ⟩);
    alt ← str2float_at (obj tok) (p tok) (end_ tok);
    _ ← upd_fix (fun f => f ⟨ altitude := alt ⟩);
    mret 0.

Definition nmea_reader_update_bearing (tok : Token) : CM NmeaReader Z :=
  if p tok >=? end_ tok then mret (-1)
  else
    _ ← upd_fix (fun f => f ⟨ flags $= fun x => Z.lor x GPS_LOCATION_HAS_BEARING ⟩);
    v ← str2float_at (obj tok) (p tok) (end_ tok);
    _ ← upd_fix (fun f => f ⟨ bearing := f_of_d v ⟩);
    mret 0.

Definition nmea_reader_update_speed (tok : Token) : CM NmeaReader Z :=
  if p tok >=? end_ tok then mret (-1)
  else
    _ ← upd_fix (fun f => f ⟨ flags $= fun x => Z.lor x GPS_LOCATION_HAS_SPEED ⟩);
    v ← str2float_at (obj tok) (p tok) (end_ tok);
    _ ← upd_fix (fun f => f ⟨ speed := f_of_d (d_div v (strtod (zs "1.942795467"))) ⟩);
    mret 0.

Definition nmea_reader_update_accuracy (tok : Token) : CM NmeaReader Z :=
  if p tok >=? end_ tok then mret (-1)
  else
    _ ← upd_fix (fun f => f ⟨ flags $= fun x => Z.lor x GPS_LOCATION_HAS_ACCURACY ⟩);
    v ← str2float_at (obj tok) (p tok) (end_ tok);
    _ ← upd_fix (fun f => f ⟨ accuracy := f_of_d v ⟩);
    mret 0.

(** ** Satellite tables *)

Definition f_of_Z (z : Z) : float32 := binary_normalize 24 128 z 0 false.

Definition sv_fields (elevation azimuth snr : Token) : CM NmeaReader (float32 * float32 * float32) :=
  m ← cgets in_;
  s ← clift (tok2float m snr);
  e ← clift (tok2int m elevation);
  a ← clift (tok2int m azimuth);
  mret (f_of_d s, f_of_Z e, f_of_Z a).

Definition nmea_reader_update_sv_status_gps (id : Z) (ele azi snr : Token) : CM NmeaReader unit :=
  let prn := id in
  c ← cgets sv_count;
  if (prn <=? 0) || ((prn <? 65) && (prn >? GPS_MAX_SVS)) || (prn >? 96) || (c >=? GPS_MAX_SVS)
  then mret tt
  else
    n ← cgets (fun r => gps_num_svs (sv_status_gps r));
    let sv_index := s32 (c + n) in
    if GPS_MAX_SVS <=? sv_index then mret tt
    else
      '(s, e, a) ← sv_fields ele azi snr;
      l ← cgets (fun r => gps_sv_list (sv_status_gps r));
      old ← clift (array_get l sv_index);
      l ← clift (array_set l sv_index (MkSvInfo prn s e a (used_in_fix old)));
      _ ← cmodify (fun r => r ⟨ sv_status_gps $= fun g => g ⟨ gps_sv_list := l ⟩ ⟩);
      cmodify (fun r => r ⟨ sv_count := c + 1 ⟩).

(** The satellites the GNSS table takes. *)
Definition gnss_ignored (prn : Z) : bool :=
  (prn <=? 0) || ((prn <? 65) && (prn >? GPS_MAX_SVS)) || ((prn >? 96) && (prn <? 200))
  || (prn >? 232).

Definition nmea_reader_update_sv_status_gnss (id : Z) (ele azi snr : Token) : CM hal unit :=
  let prn := id in
  c ← on_reader (cgets sv_count);
  if gnss_ignored prn || (c >=? GNSS_MAX_SVS) then mret tt
  else
    n ← on_reader (cgets (fun r => num_svs (sv_status_gnss r)));
    let sv_index := s32 (c + n) in
    if GNSS_MAX_SVS <=? sv_index then mret tt
    else
      '(s, e, a) ← on_reader (sv_fields ele azi snr);
      used ← cgets sv_used_in_fix;
      u ← clift (array_get used prn);
      l ← on_reader (cgets (fun r => sv_list (sv_status_gnss r)));
      l ← clift (array_set l sv_index (MkSvInfo prn s e a (1 =? u)));
      _ ← on_reader (cmodify (fun r => r ⟨ sv_status_gnss $= fun g => g ⟨ sv_list := l ⟩ ⟩));
      on_reader (cmodify (fun r => r ⟨ sv_count := c + 1 ⟩)).
End Reader.

(** ** What the operations on the fix leave alone *)

(** [r'] differs from [r] in the date and the fix only. *)
Definition same_core (r r' : NmeaReader) : Prop :=
  in_ r' = in_ r /\ pos r' = pos r /\ overflow r' = overflow r /\ sv_count r' = sv_count r
  /\ fix_mode r' = fix_mode r
  /\ sv_status_gps r' = sv_status_gps r /\ sv_status_gnss r' = sv_status_gnss r.

#[export] Instance same_core_refl : Reflexive same_core.
Proof. intros r. by repeat split. Qed.
#[export] Instance same_core_trans : Transitive same_core.
Proof.
  intros r1 r2 r3 (?&?&?&?&?&?&?) (?&?&?&?&?&?&?). repeat split; congruence.
Qed.

(** The sentence memory: 129 bytes. *)
Definition mem_ok (m : list Z) : Prop :=
  Z.of_nat (length m) = NMEA_MAX_SIZE + 1 /\ Forall is_byte m.

Lemma tok_ok_IN m t n :
  tok_ok m t -> 0 < n -> p t + n <= end_ t ->
  obj t = IN /\ 0 <= p t /\ p t + n <= end_ t /\ end_ t < Z.of_nat (length m).
Proof. unfold tok_ok. destruct (obj t); intros; [repeat split; lia|lia]. Qed.

Lemma length_token_text m t :
  tok_ok m t -> Z.of_nat (length (token_text m t)) = end_ t - p t.
Proof.
  unfold tok_ok, token_text. destruct (obj t); [|cbn; lia].
  intros ?. rewrite length_slice by lia. lia.
Qed.

Section ReaderLemmas.
Context `{GpsHeader} `{TimeZone}.
Implicit Types (r : NmeaReader) (t : Token).

Lemma wp_str2int_at r x e (Q : Z -> NmeaReader -> Prop) :
  mem_ok (in_ r) -> 0 <= x <= e -> e <= NMEA_MAX_SIZE ->
  Q (field_int (slice (in_ r) x e)) r -> wp (str2int_at IN x e) Q r.
Proof.
  intros [Hl Hb] Hx He HQ. unfold NMEA_MAX_SIZE in *. wps.
  by eapply wp_lift; [apply str2int_field; lia || done|].
Qed.

Lemma wp_str2float_at r x e (Q : double -> NmeaReader -> Prop) :
  mem_ok (in_ r) -> 0 <= x <= e -> e <= NMEA_MAX_SIZE ->
  Q (field_float (slice (in_ r) x e)) r -> wp (str2float_at IN x e) Q r.
Proof.
  intros [Hl Hb] Hx He HQ. unfold NMEA_MAX_SIZE in *. wps.
  by eapply wp_lift; [apply str2float_field; lia|].
Qed.

(** The number at a token. *)
Lemma wp_tok_float r t (Q : double -> NmeaReader -> Prop) :
  mem_ok (in_ r) -> tok_ok (in_ r) t ->
  Q (field_float (token_text (in_ r) t)) r ->
  wp (str2float_at (obj t) (p t) (end_ t)) Q r.
Proof. intros Hm Ht HQ. wps. by eapply wp_lift; [apply tok2float_field|]. Qed.

Lemma slice_token_text (m : list Z) t a b :
  obj t = IN -> 0 <= p t -> 0 <= a -> p t + b <= end_ t ->
  slice m (p t + a) (p t + b) = slice (token_text m t) a b.
Proof.
  intros Ho Hp Ha Hb. unfold token_text. rewrite Ho. unfold slice.
  rewrite skipn_firstn_comm, drop_drop, take_take. f_equal; [lia|]. f_equal. lia.
Qed.

Lemma slice_token_head (m : list Z) t b :
  obj t = IN -> 0 <= p t -> p t + b <= end_ t ->
  slice m (p t) (p t + b) = slice (token_text m t) 0 b.
Proof.
  intros. rewrite <-(slice_token_text m t 0 b) by (done || lia). f_equal. lia.
Qed.

Lemma slice_token_tail (m : list Z) t a :
  obj t = IN -> 0 <= p t -> 0 <= a -> p t + a <= end_ t ->
  slice m (p t + a) (end_ t) = drop (Z.to_nat a) (token_text m t).
Proof.
  intros Ho Hp Ha Hb. unfold token_text. rewrite Ho. unfold slice.
  rewrite skipn_firstn_comm, drop_drop. f_equal; [lia|]. f_equal. lia.
Qed.

(** *** The time of day *)

Definition date_known (now : Z) r : NmeaReader :=
  if utc_year r <? 0 then
    r ⟨ utc_year := tm_year (gmtime now) + 1900 ⟩ ⟨ utc_mon := tm_mon (gmtime now) + 1 ⟩
      ⟨ utc_day := tm_mday (gmtime now) ⟩
  else r.

Definition tod (r : NmeaReader) (s : list Z) : tm :=
  Tm (d_to_int (field_float (drop 4 s))) (field_int (slice s 2 4)) (field_int (slice s 0 2))
     (utc_day r) (utc_mon r - 1) (utc_year r - 1900) (-1).

Definition local_to_utc (t : tm) : Z :=
  let fix_time := fst (mktime (snd (mktime t))) in s32 (fix_time + gmtoff fix_time).

Lemma wp_ensure_date now r (Q : unit -> NmeaReader -> Prop) :
  Q tt (date_known now r) -> wp (ensure_date now) Q r.
Proof.
  unfold ensure_date, date_known. intros HQ. apply wp_bind, wp_gets, wp_when;
    intros E; rewrite E in HQ; [wps|]; exact HQ.
Qed.

Lemma wp_get_time_of_day r t Q :
  mem_ok (in_ r) -> tok_ok (in_ r) t -> p t + 6 <= end_ t ->
  (let s := token_text (in_ r) t in
   Q (field_int (slice s 0 2), field_int (slice s 2 4), field_float (drop 4 s)) r) ->
  wp (get_time_of_day t) Q r.
Proof.
  intros Hm Ht Hlen HQ.
  destruct (tok_ok_IN _ _ 6 Ht) as (Ho & ? & _ & ?); [lia..|].
  pose proof Hm as [Hl _]. rewrite Hl in *.
  unfold get_time_of_day. rewrite Ho.
  apply wp_bind, wp_str2int_at; [done|lia..|].
  apply wp_bind, wp_str2int_at; [done|lia..|].
  apply wp_bind, wp_str2float_at; [done|lia..|]. wps.
  rewrite slice_token_tail, (slice_token_text _ _ 2 4) by (done || lia).
  rewrite slice_token_head by (done || lia).
  exact HQ.
Qed.

Lemma wp_update_time now r t (Q : Z -> NmeaReader -> Prop) :
  mem_ok (in_ r) -> tok_ok (in_ r) t ->
  (let s := token_text (in_ r) t in
   if 6 <=? Z.of_nat (length s) then
     let r := date_known now r in
     Q 0 (r ⟨ fix_ $= fun f => f ⟨ timestamp := local_to_utc (tod r s) * 1000 ⟩ ⟩)
   else Q (-1) r) ->
  wp (nmea_reader_update_time now t) Q r.
Proof.
  intros Hm Ht HQ. unfold nmea_reader_update_time.
  pose proof (length_token_text _ _ Ht) as Hlen.
  cbv zeta in HQ. rewrite Hlen in HQ. rewrite Z.gtb_ltb. destruct (Z.ltb_spec (end_ t) (p t + 6)).
  { wps. by rewrite (proj2 (Z.leb_gt _ _)) in HQ by lia. }
  rewrite (proj2 (Z.leb_le _ _)) in HQ by lia.
  destruct (tok_ok_IN _ _ 6 Ht) as (Ho & ? & ? & ?); [lia..|].
  pose proof Hm as [Hl _]. rewrite Hl in *.
  assert (in_ (date_known now r) = in_ r) as Hin by (unfold date_known; by case_match).
  apply wp_bind, wp_ensure_date, wp_bind.
  apply (wp_get_time_of_day (date_known now r) t); rewrite ?Hin; try done; try lia.
Qed.
Lemma same_core_time now r t :
  mem_ok (in_ r) -> tok_ok (in_ r) t ->
  wp (nmea_reader_update_time now t) (fun _ => same_core r) r.
Proof.
  intros Hm Ht. apply wp_update_time; [done..|]. cbv zeta.
  case_match; [|done]. unfold date_known. case_match; by repeat split.
Qed.

(** *** The date *)

Definition dated r (s : list Z) : NmeaReader :=
  r ⟨ utc_year := field_int (slice s 4 6) + 2000 ⟩ ⟨ utc_mon := field_int (slice s 2 4) ⟩
    ⟨ utc_day := field_int (slice s 0 2) ⟩.

Definition date_bad (s : list Z) : bool :=
  Z.lor (Z.lor (field_int (slice s 0 2)) (field_int (slice s 2 4)))
        (field_int (slice s 4 6) + 2000) <? 0.

Lemma wp_update_date now r t time (Q : Z -> NmeaReader -> Prop) :
  mem_ok (in_ r) -> tok_ok (in_ r) t ->
  (let s := token_text (in_ r) t in
   if (Z.of_nat (length s) =? 6) && negb (date_bad s)
   then wp (nmea_reader_update_time now time) Q (dated r s)
   else Q (-1) r) ->
  wp (nmea_reader_update_date now t time) Q r.
Proof.
  intros Hm Ht HQ. cbv zeta in HQ. unfold nmea_reader_update_date.
  rewrite (length_token_text _ _ Ht) in HQ.
  destruct (Z.eqb_spec (p t + 6) (end_ t)) as [He|He]; cbn [negb].
  2: { rewrite (proj2 (Z.eqb_neq _ _)) in HQ by lia. by wps. }
  rewrite (proj2 (Z.eqb_eq _ _)) in HQ by lia. cbn [andb] in HQ.
  destruct (tok_ok_IN _ _ 6 Ht) as (Ho & ? & _ & ?); [lia..|].
  pose proof Hm as [Hl _]. rewrite Hl in *. rewrite Ho.
  apply wp_bind, wp_str2int_at; [done|lia..|].
  apply wp_bind, wp_str2int_at; [done|lia..|].
  apply wp_bind, wp_str2int_at; [done|lia..|].
  rewrite (slice_token_text _ _ 2 4), (slice_token_text _ _ 4 6) by (done || lia).
  rewrite slice_token_head by (done || lia).
  cbv zeta. unfold date_bad in HQ. destruct (_ <? 0); cbn [negb] in HQ; wps; exact HQ.
Qed.

Lemma same_core_date now r t time :
  mem_ok (in_ r) -> tok_ok (in_ r) t -> tok_ok (in_ r) time ->
  wp (nmea_reader_update_date now t time) (fun _ => same_core r) r.
Proof.
  intros Hm Ht Htime. apply wp_update_date; [done..|]. cbv zeta.
  case_match; [|done]. eapply wp_mono; [apply same_core_time; [exact Hm|exact Htime]|].
  intros ? ? Hs. etrans; [|exact Hs]. by repeat split.
Qed.

(** *** Position, altitude, bearing, speed, accuracy *)

Definition located r (la lo : double) : NmeaReader :=
  r ⟨ fix_ $= fun f => f ⟨ flags $= fun x => Z.lor x GPS_LOCATION_HAS_LAT_LONG ⟩
                       ⟨ latitude := la ⟩ ⟨ longitude := lo ⟩ ⟩.

Definition coordinate (s : list Z) (hemi negative : Z) : double :=
  let v := hhmm_degrees (field_float s) in if hemi =? negative then d_neg v else v.

Lemma wp_update_latlong r la hla lo hlo (Q : Z -> NmeaReader -> Prop) :
  mem_ok (in_ r) -> tok_ok (in_ r) la -> tok_ok (in_ r) lo ->
  (let sla := token_text (in_ r) la in
   let slo := token_text (in_ r) lo in
   if (6 <=? Z.of_nat (length sla)) && (6 <=? Z.of_nat (length slo))
   then Q 0 (located r (coordinate sla hla (ch "S")) (coordinate slo hlo (ch "W")))
   else Q (-1) r) ->
  wp (nmea_reader_update_latlong la hla lo hlo) Q r.
Proof.
  intros Hm Hla Hlo HQ. cbv zeta in HQ. unfold nmea_reader_update_latlong, convert_from_hhmm.
  rewrite (length_token_text _ _ Hla), (length_token_text _ _ Hlo) in HQ.
  rewrite !Z.gtb_ltb. destruct (Z.ltb_spec (end_ la) (p la + 6)).
  { rewrite (proj2 (Z.leb_gt 6 (end_ la - _))) in HQ by lia. by wps. }
  rewrite (proj2 (Z.leb_le 6 (end_ la - _))) in HQ by lia. cbn [andb] in HQ.
  apply wp_bind, wp_bind, wp_tok_float; [done..|]. apply wp_ret.
  destruct (Z.ltb_spec (end_ lo) (p lo + 6)).
  { rewrite (proj2 (Z.leb_gt 6 (end_ lo - _))) in HQ by lia. by wps. }
  rewrite (proj2 (Z.leb_le 6 (end_ lo - _))) in HQ by lia.
  apply wp_bind, wp_bind, wp_tok_float; [done..|]. apply wp_ret.
  unfold upd_fix. by wps.
Qed.

Lemma same_core_latlong r la hla lo hlo :
  mem_ok (in_ r) -> tok_ok (in_ r) la -> tok_ok (in_ r) lo ->
  wp (nmea_reader_update_latlong la hla lo hlo) (fun _ => same_core r) r.
Proof.
  intros. apply wp_update_latlong; [done..|]. cbv zeta. case_match; by repeat split.
Qed.

(** The four updates that read one number. *)
Ltac one_number :=
  intros; unfold upd_fix; apply wp_if; intros; [by wps|];
  apply wp_bind, wp_modify, wp_bind, wp_tok_float; [done..|]; wps; by repeat split.

Lemma same_core_altitude r t u :
  mem_ok (in_ r) -> tok_ok (in_ r) t ->
  wp (nmea_reader_update_altitude t u) (fun _ => same_core r) r.
Proof. unfold nmea_reader_update_altitude. one_number. Qed.

Lemma same_core_bearing r t :
  mem_ok (in_ r) -> tok_ok (in_ r) t ->
  wp (nmea_reader_update_bearing t) (fun _ => same_core r) r.
Proof. unfold nmea_reader_update_bearing. one_number. Qed.

Lemma same_core_speed r t :
  mem_ok (in_ r) -> tok_ok (in_ r) t ->
  wp (nmea_reader_update_speed t) (fun _ => same_core r) r.
Proof. unfold nmea_reader_update_speed. one_number. Qed.

Lemma same_core_accuracy r t :
  mem_ok (in_ r) -> tok_ok (in_ r) t ->
  wp (nmea_reader_update_accuracy t) (fun _ => same_core r) r.
Proof. unfold nmea_reader_update_accuracy. one_number. Qed.

(** *** Satellite data *)

Lemma wp_sv_fields r ele azi sn Q :
  mem_ok (in_ r) -> tok_ok (in_ r) ele -> tok_ok (in_ r) azi -> tok_ok (in_ r) sn ->
  Q (f_of_d (field_float (token_text (in_ r) sn)),
     f_of_Z (field_int (token_text (in_ r) ele)),
     f_of_Z (field_int (token_text (in_ r) azi))) r ->
  wp (sv_fields ele azi sn) Q r.
Proof.
  intros [Hl Hb] He Ha Hs HQ. unfold sv_fields. wps.
  eapply wp_lift; [by apply tok2float_field|]. wps.
  eapply wp_lift; [by apply tok2int_field|]. wps.
  eapply wp_lift; [by apply tok2int_field|]. by wps.
Qed.
End ReaderLemmas.
