(* ===== verification/NmeaParse.v ===== *)
(** * NMEA sentences (gps_mtk_aosp.c: nmea_reader_parse, nmea_reader_addc)

    The dispatch on the sentence identifier, the reports to the framework at
    the end of a burst, and the assembly of sentences from characters. *)

From S2P Require Import Prelude CFloat Calendar HalBuff NmeaToken NmeaReader.

Definition MNL_CMD_GPS_LOG_WRITE : Z := 64.

Section Parse.
Context `{GpsHeader} `{TimeZone} (sizeof_GpsCallbacks : Z).

(** [typedef struct { GpsCallbacks base; } GpsCallbacks_mtk;] *)
Definition sizeof_GpsCallbacks_mtk : Z := sizeof_GpsCallbacks.

Definition in_mem : CM hal (list Z) := h ← cgets reader; mret (in_ h).
Definition tok_int (t : Token) : CM hal Z := m ← in_mem; clift (tok2int m t).
Definition tok_char (t : Token) : CM hal Z := m ← in_mem; clift (peek m (obj t) (p t)).

(** [!memcmp(t.p, s, n)] *)
Definition memcmp_eq (t : Token) (s : string) : CM hal bool :=
  m ← in_mem;
  bs ← clift (match obj t with
              | IN => buf_read m (p t) (Z.of_nat (length (zs s)))
              | DUMMY => buf_read [0] (p t) (Z.of_nat (length (zs s)))
              end);
  mret (bytes_eqb bs (zs s)).

Fixpoint memcmp_any (t : Token) (l : list string) : CM hal bool :=
  match l with
  | [] => mret false
  | s :: l' => b ← memcmp_eq t s; if (b : bool) then mret true else memcmp_any t l'
  end.

Definition LOC_FIXED (r : NmeaReader) : bool := (fix_mode r =? 2) || (fix_mode r =? 3).

Definition set_used_in_fix (id v : Z) : CM hal unit :=
  u ← cgets sv_used_in_fix;
  u ← clift (array_set u id v);
  cmodify (fun h => h ⟨ sv_used_in_fix := u ⟩).

(** ** GGA and RMC *)

Definition parse_gga (now : Z) (tzer : NmeaTokenizer) : CM hal unit :=
  let tok_time := nmea_tokenizer_get tzer 1 in
  let tok_latitude := nmea_tokenizer_get tzer 2 in
  let tok_latitudeHemi := nmea_tokenizer_get tzer 3 in
  let tok_longitude := nmea_tokenizer_get tzer 4 in
  let tok_longitudeHemi := nmea_tokenizer_get tzer 5 in
  let tok_altitude := nmea_tokenizer_get tzer 9 in
  let tok_altitudeUnits := nmea_tokenizer_get tzer 10 in
  _ ← on_reader (nmea_reader_update_time now tok_time);
  la ← tok_char tok_latitudeHemi;
  lo ← tok_char tok_longitudeHemi;
  _ ← on_reader (nmea_reader_update_latlong tok_latitude la tok_longitude lo);
  _ ← on_reader (nmea_reader_update_altitude tok_altitude tok_altitudeUnits);
  mret tt.

Definition parse_rmc (now : Z) (tzer : NmeaTokenizer) : CM hal unit :=
  let tok_time := nmea_tokenizer_get tzer 1 in
  let tok_fixStatus := nmea_tokenizer_get tzer 2 in
  let tok_latitude := nmea_tokenizer_get tzer 3 in
  let tok_latitudeHemi := nmea_tokenizer_get tzer 4 in
  let tok_longitude := nmea_tokenizer_get tzer 5 in
  let tok_longitudeHemi := nmea_tokenizer_get tzer 6 in
  let tok_speed := nmea_tokenizer_get tzer 7 in
  let tok_bearing := nmea_tokenizer_get tzer 8 in
  let tok_date := nmea_tokenizer_get tzer 9 in
  c ← tok_char tok_fixStatus;
  cwhen (c =? ch "A")
    (_ ← on_reader (nmea_reader_update_date now tok_date tok_time);
     la ← tok_char tok_latitudeHemi;
     lo ← tok_char tok_longitudeHemi;
     _ ← on_reader (nmea_reader_update_latlong tok_latitude la tok_longitude lo);
     _ ← on_reader (nmea_reader_update_bearing tok_bearing);
     _ ← on_reader (nmea_reader_update_speed tok_speed);
     mret tt).

(** ** GSA: the satellites used in the fix *)

(** One listed satellite; the result says whether the loop goes on. *)
Definition gsa_satellite (bds : bool) (tok : Token) : CM hal bool :=
  id ← tok_int tok;
  let sate_id := if bds then s32 (id + 200) else id in
  if (1 <=? sate_id) && (sate_id <=? 32) then
    _ ← set_used_in_fix sate_id 1; mret true
  else if (193 <=? sate_id) && (sate_id <=? 197) then
    _ ← set_used_in_fix sate_id 0; mret true
  else if (65 <=? sate_id) && (sate_id <=? 96) then
    _ ← set_used_in_fix sate_id 1; mret true
  else if (201 <=? sate_id) && (sate_id <=? 232) then
    _ ← set_used_in_fix sate_id 1; mret true
  else mret false.

Fixpoint gsa_loop (sat : Token -> CM hal bool) (tzer : NmeaTokenizer) (idx : Z) (n : nat)
  : CM hal unit :=
  match n with
  | O => mret tt
  | S n' =>
      let tok := nmea_tokenizer_get tzer (idx + 3) in
      if p tok =? end_ tok then mret tt
      else
        go ← sat tok;
        if (go : bool) then gsa_loop sat tzer (idx + 1) n' else mret tt
  end.

Definition parse_gsa_mtk (bds : bool) (tzer : NmeaTokenizer) : CM hal unit :=
  mode ← tok_int (nmea_tokenizer_get tzer 2);
  _ ← on_reader (cmodify (fun r => r ⟨ fix_mode := mode ⟩));
  r ← cgets reader;
  cwhen (LOC_FIXED r) (gsa_loop (gsa_satellite bds) tzer 0 12).

Definition gsa_satellite_base (tok : Token) : CM hal bool :=
  sate_id ← tok_int tok;
  if (1 <=? sate_id) && (sate_id <=? 32) then
    _ ← on_reader (cmodify (fun r => r ⟨ sv_status_gps $= fun s =>
          s ⟨ used_in_fix_mask $= fun m => u32 (Z.lor m (Z.shiftl 1 (sate_id - 1))) ⟩ ⟩));
    mret true
  else mret ((193 <=? sate_id) && (sate_id <=? 197)).

Definition parse_gsa_base (tzer : NmeaTokenizer) : CM hal unit :=
  mode ← tok_int (nmea_tokenizer_get tzer 2);
  _ ← on_reader (cmodify (fun r => r ⟨ fix_mode := mode ⟩
        ⟨ sv_status_gps $= fun s => s ⟨ used_in_fix_mask := 0 ⟩ ⟩));
  r ← cgets reader;
  cwhen (LOC_FIXED r) (gsa_loop gsa_satellite_base tzer 0 12).

(** ** GSV: the satellites in view *)

Section Gsv.
Variable update : Z -> Token -> Token -> Token -> CM hal unit.

Fixpoint gsv_loop (bds : bool) (tzer : NmeaTokenizer) (idx : Z) (n : nat) : CM hal unit :=
  match n with
  | O => mret tt
  | S n' =>
      let base_idx := 4 * (idx + 1) in
      id ← tok_int (nmea_tokenizer_get tzer (base_idx + 0));
      let sv_id := if bds then s32 (id + 200) else id in
      _ ← update sv_id (nmea_tokenizer_get tzer (base_idx + 1))
            (nmea_tokenizer_get tzer (base_idx + 2)) (nmea_tokenizer_get tzer (base_idx + 3));
      gsv_loop bds tzer (idx + 1) n'
  end.

(** The number of satellites that message [seq] of a group carries. *)
Definition gsv_sv_num (seq cnt : Z) : Z :=
  let sv_base := s32 ((seq - 1) * NMEA_MAX_SV_INFO) in
  let sv_num := s32 (cnt - sv_base) in
  if sv_num >? NMEA_MAX_SV_INFO then NMEA_MAX_SV_INFO else sv_num.

Variable commit reject : CM hal unit.

Definition parse_gsv (bds : bool) (tzer : NmeaTokenizer) : CM hal unit :=
  num ← tok_int (nmea_tokenizer_get tzer 1);
  seq ← tok_int (nmea_tokenizer_get tzer 2);
  cnt ← tok_int (nmea_tokenizer_get tzer 3);
  _ ← cwhen (seq =? 1) (on_reader (cmodify (fun r => r ⟨ sv_count := 0 ⟩)));
  _ ← gsv_loop bds tzer 0 (Z.to_nat (gsv_sv_num seq cnt));
  cwhen (seq =? num)
    (c ← on_reader (cgets sv_count);
     if c <=? cnt then commit else reject).
End Gsv.

Definition parse_gsv_gnss : bool -> NmeaTokenizer -> CM hal unit :=
  parse_gsv nmea_reader_update_sv_status_gnss
    (on_reader (cmodify (fun r => r ⟨ sv_status_gnss $= fun s =>
       s ⟨ num_svs $= fun n => s32 (n + sv_count r) ⟩ ⟩)))
    (on_reader (cmodify (fun r => r ⟨ sv_count := 0 ⟩
       ⟨ sv_status_gnss $= fun s => s ⟨ num_svs := 0 ⟩ ⟩))).

Definition parse_gsv_gps : bool -> NmeaTokenizer -> CM hal unit :=
  parse_gsv (fun id e a s => on_reader (nmea_reader_update_sv_status_gps id e a s))
    (on_reader (cmodify (fun r => r ⟨ sv_status_gps $= fun s =>
       s ⟨ gps_num_svs $= fun n => s32 (n + sv_count r) ⟩ ⟨ almanac_mask := 0 ⟩
         ⟨ ephemeris_mask := 0 ⟩ ⟩)))
    (on_reader (cmodify (fun r => r ⟨ sv_count := 0 ⟩
       ⟨ sv_status_gps $= fun s => s ⟨ gps_num_svs := 0 ⟩ ⟩))).

(** ** The sentence *)

Definition parse_accuracy (tzer : NmeaTokenizer) : CM hal unit :=
  r ← cgets reader;
  cwhen ((fix_mode r =? 3) || (fix_mode r =? 2))
    (_ ← on_reader (nmea_reader_update_accuracy (nmea_tokenizer_get tzer 1)); mret tt).

Definition parse_sentence (now : Z) (tzer : NmeaTokenizer) (mtok : Token) : CM hal unit :=
  bds ← memcmp_eq mtok "BD";
  let tok := MkToken (obj mtok) (p mtok + 2) (end_ mtok) in
  size ← cgets cb_size;
  let mtk := size =? sizeof_GpsCallbacks_mtk in
  let base := size =? sizeof_GpsCallbacks in
  is_gga ← memcmp_eq tok "GGA";
  if (is_gga : bool) then parse_gga now tzer else
  gsa3 ← memcmp_any mtok ["GPGSA"; "BDGSA"; "GLGSA"]%string;
  if mtk && gsa3 then parse_gsa_mtk bds tzer else
  gsa1 ← memcmp_eq mtok "GPGSA";
  if base && gsa1 then parse_gsa_base tzer else
  is_rmc ← memcmp_eq tok "RMC";
  if (is_rmc : bool) then parse_rmc now tzer else
  is_gsv ← memcmp_eq tok "GSV";
  if mtk && is_gsv then parse_gsv_gnss bds tzer else
  gsv2 ← memcmp_any mtok ["GPGSV"; "GLGSV"]%string;
  if base && gsv2 then parse_gsv_gps bds tzer else
  is_acc ← memcmp_eq tok "ACCURACY";
  if (is_acc : bool) then parse_accuracy tzer else mret tt.

(** ** The reports *)

(** [get_prop]: the property is copied to a zeroed array. *)
Definition get_prop (prop : list Z) : Z :=
  if 0 <? Z.of_nat (length prop) then default 0 (prop !! 6%nat) - 48 else 0.

(** The position log: [sprintf] into [pos[64]], then one message. *)
Definition position_log (r : NmeaReader) : CM hal unit :=
  let text := fmt_lf (latitude (fix_ r)) ++ zs ", " ++ fmt_lf (longitude (fix_ r)) in
  _ ← clift (buf_write (zeros 64) 0 (text ++ [0]));
  m ← clift (buff_put_int MNL_CMD_GPS_LOG_WRITE (msg_init 1024));
  m ← clift (buff_put_string text m);
  emit (DaemonSend (mb_data m)).

Definition nlp_of_fix (f : GpsLocation) (started : Z) : nlp_context :=
  MkNlp (latitude f) (longitude f) (accuracy f)
    (s32 (Z.quot (timestamp f) 1000)) (s32 (Z.rem (timestamp f) 1000 * 1000 * 1000)) 1 started.

Definition report_location : CM hal unit :=
  h ← cgets id;
  let r := reader h in
  cwhen (LOC_FIXED r && negb (flags (fix_ r) =? 0) && truthy (gps_nmea_end_tag h))
    (_ ← cwhen (truthy (get_prop (mnl_prop h))) (position_log r);
     _ ← emit (LocationCb (fix_ r));
     _ ← emit (WriteLocation (nlp_of_fix (fix_ r) (u8 (started h))));
     on_reader (upd_fix (fun f => f ⟨ flags := 0 ⟩))).

(** The loop around [sv_status_cb]; its body clears [num_svs]. *)
Fixpoint sv_status_loop (idx : Z) (fuel : nat) : CM hal unit :=
  match fuel with
  | O => clift None
  | S fuel' =>
      r ← cgets reader;
      if idx <? gps_num_svs (sv_status_gps r) then
        _ ← clift (array_get (gps_sv_list (sv_status_gps r)) idx);
        _ ← emit (SvStatusCb (sv_status_gps r));
        _ ← on_reader (cmodify (fun r => r ⟨ sv_count := 0 ⟩
              ⟨ sv_status_gps $= fun s => s ⟨ gps_num_svs := 0 ⟩ ⟨ used_in_fix_mask := 0 ⟩ ⟩));
        sv_status_loop (idx + 1) fuel'
      else mret tt
  end.

Definition report_svs : CM hal unit :=
  h ← cgets id;
  if cb_size h =? sizeof_GpsCallbacks_mtk then
    cwhen (negb (num_svs (sv_status_gnss (reader h)) =? 0) && truthy (gps_nmea_end_tag h))
      (_ ← emit (GnssSvStatusCb (sv_status_gnss (reader h)));
       _ ← on_reader (cmodify (fun r => r ⟨ sv_count := 0 ⟩
             ⟨ sv_status_gnss $= fun s => s ⟨ num_svs := 0 ⟩ ⟩));
       cmodify (fun h => h ⟨ sv_used_in_fix := zeros 256 ⟩))
  else
    cwhen (negb (gps_num_svs (sv_status_gps (reader h)) =? 0) && truthy (gps_nmea_end_tag h))
      (sv_status_loop 0 2).

Definition nmea_reader_parse (now : Z) : CM hal unit :=
  r ← cgets reader;
  if pos r <? 9 then mret tt
  else
    tzer ← clift (nmea_tokenizer_init (in_ r) 0 (pos r));
    let tok := nmea_tokenizer_get tzer 0 in
    if p tok + 5 >? end_ tok then mret tt
    else
      _ ← parse_sentence now tzer tok;
      _ ← report_location;
      report_svs.

Definition nmea_reader_addc (now c : Z) : CM hal unit :=
  r ← cgets reader;
  if truthy (overflow r) then
    on_reader (cmodify (fun r => r ⟨ overflow := cbool (negb (c =? 10)) ⟩))
  else if (pos r >=? NMEA_MAX_SIZE + 1 - 1) || (pos r <? 0) then
    on_reader (cmodify (fun r => r ⟨ overflow := 1 ⟩ ⟨ pos := 0 ⟩))
  else
    m ← clift (array_set (in_ r) (pos r) c);
    _ ← on_reader (cmodify (fun r => r ⟨ in_ := m ⟩));
    _ ← on_reader (cmodify (fun r => r ⟨ pos $= fun n => n + 1 ⟩));
    cwhen (c =? 10)
      (_ ← nmea_reader_parse now;
       r ← cgets reader;
       _ ← emit (NmeaCb (timestamp (fix_ r)) (in_ r) (pos r));
       on_reader (cmodify (fun r => r ⟨ pos := 0 ⟩))).

(** The reader fed with the [ret] bytes of one read of the device: the end tag
    is set for the last one. *)
Fixpoint read_loop (now : Z) (buff : list Z) : CM hal unit :=
  match buff with
  | [] => mret tt
  | c :: rest =>
      _ ← cwhen (match rest with [] => true | _ => false end)
            (cmodify (fun h => h ⟨ gps_nmea_end_tag := 1 ⟩));
      _ ← nmea_reader_addc now c;
      read_loop now rest
  end.

Definition gps_device_data (now : Z) (buff : list Z) : CM hal unit :=
  _ ← cmodify (fun h => h ⟨ gps_nmea_end_tag := 0 ⟩);
  read_loop now buff.
End Parse.

(** ** Memory safety

    The invariant of the HAL between sentences.  [B] bounds the number of
    satellites that wait to be reported; every sentence adds at most the size
    of a table to it. *)

Section Safety.
Context `{HL : GpsHeaderLaws}.

Definition table_max : Z := Z.max GPS_MAX_SVS GNSS_MAX_SVS.

Record hal_wf (B : Z) (h : hal) : Prop := {
  wf_mem : mem_ok (in_ (reader h));
  wf_used : length (sv_used_in_fix h) = 256%nat;
  wf_gps : Z.of_nat (length (gps_sv_list (sv_status_gps (reader h)))) = GPS_MAX_SVS;
  wf_gnss : Z.of_nat (length (sv_list (sv_status_gnss (reader h)))) = GNSS_MAX_SVS;
  wf_count : 0 <= sv_count (reader h) <= table_max;
  wf_gps_num : 0 <= gps_num_svs (sv_status_gps (reader h)) <= B;
  wf_gnss_num : 0 <= num_svs (sv_status_gnss (reader h)) <= B;
  wf_log : get_prop (mnl_prop h) = 0;
}.

(** The invariant while a sentence of [n] characters in [mem] is parsed. *)
Definition inv (B : Z) (mem : list Z) (n : Z) (h : hal) : Prop :=
  hal_wf B h /\ in_ (reader h) = mem /\ pos (reader h) = n.

(** [f] is safe and keeps the invariant. *)
Definition safe {A} (B : Z) (mem : list Z) (n : Z) (f : CM hal A) : Prop :=
  forall h, inv B mem n h -> wp f (fun _ => inv B mem n) h.

Lemma safe_bind {A C} B mem n (f : CM hal A) (k : A -> CM hal C) :
  safe B mem n f -> (forall x, safe B mem n (k x)) -> safe B mem n (x ← f; k x).
Proof.
  intros Hf Hk h Hh. apply wp_bind. eapply wp_mono; [by apply Hf|].
  intros x h' Hh'. by apply Hk.
Qed.

Lemma inv_more B mem n h : inv B mem n h -> inv (B + table_max) mem n h.
Proof using HL.
  intros ([] & ? & ?). split; [|done]. split; try done; unfold table_max in *;
    pose proof gps_max_range; lia.
Qed.

Lemma safe_more {A} B mem n (f : CM hal A) :
  safe B mem n f -> forall h, inv B mem n h -> wp f (fun _ => inv (B + table_max) mem n) h.
Proof using HL.
  intros Hf h Hh. eapply wp_mono; [by apply Hf|]. intros. by apply inv_more.
Qed.

Lemma safe_then {A C} B mem n (f : CM hal A) (k : A -> CM hal C) Q :
  safe B mem n f -> (forall x h, inv B mem n h -> wp (k x) Q h) ->
  forall h, inv B mem n h -> wp (x ← f; k x) Q h.
Proof. intros Hf Hk h Hh. apply wp_bind. eapply wp_mono; [by apply Hf|]. auto. Qed.

Lemma safe_ret {A} B mem n (x : A) : safe B mem n (mret x).
Proof. intros h Hh. by apply wp_ret. Qed.

Lemma safe_gets {A} B mem n (f : hal -> A) : safe B mem n (cgets f).
Proof. intros h Hh. by apply wp_gets. Qed.

Lemma safe_when B mem n b (f : CM hal unit) : safe B mem n f -> safe B mem n (cwhen b f).
Proof. intros Hf h Hh. apply wp_when; intros; [by apply Hf|done]. Qed.

Lemma safe_if {A} B mem n (b : bool) (f g : CM hal A) :
  safe B mem n f -> safe B mem n g -> safe B mem n (if b then f else g).
Proof. by destruct b. Qed.

Lemma safe_emit B mem n e : safe B mem n (emit e).
Proof. intros h ([] & ? & ?). apply wp_modify. split; [by split|done]. Qed.

(** Operations that read the reader only. *)
Lemma safe_read {A} B mem n (f : CM NmeaReader A) :
  (forall r, mem_ok mem -> in_ r = mem -> wp f (fun _ r' => r' = r) r) ->
  safe B mem n (on_reader f).
Proof.
  intros Hf h (Hwf & <- & Hn). apply wp_on_part. eapply wp_mono; [apply Hf; [apply Hwf|done]|].
  intros _ ? ->. destruct Hwf. split; [by split|done].
Qed.

(** Operations on the date and the fix. *)
Lemma safe_core {A} B mem n (f : CM NmeaReader A) :
  (forall r, mem_ok mem -> in_ r = mem -> wp f (fun _ => same_core r) r) ->
  safe B mem n (on_reader f).
Proof.
  intros Hf h ([] & <- & Hn). apply wp_on_part. eapply wp_mono; [by apply Hf|].
  intros _ r (E1 & E2 & E3 & E4 & E5 & E6 & E7).
  unfold inv. cbn [reader field_update]. rewrite E1, E2. split; [|done].
  split; cbn [reader field_update mnl_prop sv_used_in_fix]; by rewrite ?E1, ?E4, ?E6, ?E7.
Qed.

(** Every token of the sentence can be read. *)
Definition tz_ok (mem : list Z) (tz : NmeaTokenizer) : Prop :=
  forall i, tok_ok mem (nmea_tokenizer_get tz i).

Lemma safe_lift_read {A} B mem n (g : list Z -> option A) :
  (mem_ok mem -> exists x, g mem = Some x) ->
  safe B mem n (m ← in_mem; clift (g m)).
Proof.
  intros Hg h (Hwf & Hm & Hn). unfold in_mem. wps. rewrite Hm.
  destruct Hg as [x Hx]; [rewrite <-Hm; apply Hwf|]. by eapply wp_lift.
Qed.

Lemma safe_tok_int B mem n t : tok_ok mem t -> safe B mem n (tok_int t).
Proof.
  intros Ht. apply safe_lift_read. intros [_ Hb]. eexists. by apply tok2int_field.
Qed.

Lemma safe_tok_char B mem n t : tok_ok mem t -> safe B mem n (tok_char t).
Proof.
  intros Ht. apply safe_lift_read. intros [_ Hb]. revert Ht. unfold tok_ok.
  destruct (obj t); cbn [peek].
  - intros ?. destruct (rd_Some mem (p t)) as (b & -> & _); [lia|eauto].
  - intros [-> _]. eauto.
Qed.

Lemma safe_memcmp B mem n t s :
  obj t = IN -> 0 <= p t -> p t + Z.of_nat (length (zs s)) <= NMEA_MAX_SIZE + 1 ->
  safe B mem n (memcmp_eq t s).
Proof.
  intros Ho Hp Hs h (Hwf & Hm & Hn). unfold memcmp_eq, in_mem. wps. rewrite Ho, Hm.
  pose proof (wf_mem _ _ Hwf) as [Hl _]. rewrite Hm in Hl.
  unfold buf_read. rewrite !(proj2 (Z.leb_le _ _)) by lia.
  eapply wp_lift; [done|]. by wps.
Qed.

Lemma safe_memcmp_any B mem n t l :
  (forall s, s ∈ l -> safe B mem n (memcmp_eq t s)) -> safe B mem n (memcmp_any t l).
Proof.
  induction l as [|s l IH]; intros Hl; cbn [memcmp_any]; [apply safe_ret|].
  apply safe_bind; [apply Hl; left|]. intros b. apply safe_if; [apply safe_ret|].
  apply IH. intros ??. apply Hl. by right.
Qed.

Lemma safe_set_used B mem n id v : 0 <= id < 256 -> safe B mem n (set_used_in_fix id v).
Proof.
  intros Hid h ([] & Hm & Hn). unfold set_used_in_fix. wps.
  eapply wp_lift; [apply array_set_Some; lia|]. wps.
  split; [|done]. split; cbn; try done. by rewrite length_insert.
Qed.

(** A change of the fix mode or of the reports, not of the tables. *)
Lemma safe_modify_reader B mem n (f : NmeaReader -> NmeaReader) :
  (forall h, inv B mem n h -> inv B mem n (h ⟨ reader := f (reader h) ⟩)) ->
  safe B mem n (on_reader (cmodify f)).
Proof. intros Hf h Hh. apply wp_on_part, wp_modify. by apply Hf. Qed.
End Safety.

Create HintDb safety discriminated.
#[export] Hint Resolve safe_bind safe_ret safe_gets safe_when safe_if safe_emit safe_tok_int
  safe_tok_char : safety.

(** Compose [safe] along the structure of a computation. *)
Ltac safe_step :=
  lazymatch goal with
  | |- safe _ _ _ (mbind _ _) => apply safe_bind; [|intros ?]
  | |- safe _ _ _ (mret _) => apply safe_ret
  | |- safe _ _ _ (cgets _) => apply safe_gets
  | |- safe _ _ _ (cwhen _ _) => apply safe_when
  | |- safe _ _ _ (if _ then _ else _) => apply safe_if
  | |- safe _ _ _ (emit _) => apply safe_emit
  | |- safe _ _ _ (tok_int _) => apply safe_tok_int
  | |- safe _ _ _ (tok_char _) => apply safe_tok_char
  end.
Ltac safes := repeat (safe_step; cbv beta).

(** A change that leaves the tables alone. *)
Ltac reader_change :=
  apply safe_modify_reader; intros ? ([] & ? & ?); split; [split; cbn; done || lia|done].

Section SafeParse.
#[local] Set Default Proof Using "All".
Context `{GpsHeaderLaws} `{TimeZone} (sizeof_GpsCallbacks : Z).
Variables (B : Z) (mem : list Z) (n : Z).
Hypothesis HB : B + 2 * table_max < 2 ^ 31.
Implicit Types (tz : NmeaTokenizer).

Abbreviation safe := (safe B mem n).

(** The updates of the fix, on the tokens of the sentence in memory. *)
Ltac core_of L :=
  apply safe_core; intros r Hm Hin; rewrite <-Hin in *; apply L; auto.

Lemma safe_gga now tz : tz_ok mem tz -> safe (parse_gga now tz).
Proof.
  intros Htz. unfold parse_gga. safes; try apply Htz.
  - core_of same_core_time.
  - core_of same_core_latlong.
  - core_of same_core_altitude.
Qed.

Lemma safe_rmc now tz : tz_ok mem tz -> safe (parse_rmc now tz).
Proof.
  intros Htz. unfold parse_rmc. safes; try apply Htz.
  - core_of same_core_date.
  - core_of same_core_latlong.
  - core_of same_core_bearing.
  - core_of same_core_speed.
Qed.

Lemma safe_accuracy tz : tz_ok mem tz -> safe (parse_accuracy tz).
Proof. intros Htz. unfold parse_accuracy. safes. core_of same_core_accuracy. Qed.

Lemma safe_gsa_loop sat tz idx k :
  tz_ok mem tz -> (forall t, tok_ok mem t -> safe (sat t)) -> safe (gsa_loop sat tz idx k).
Proof.
  intros Htz Hs. revert idx. induction k as [|k IH]; intros idx; cbn [gsa_loop]; safes;
    [apply Hs, Htz|apply IH].
Qed.

Lemma safe_gsa_mtk bds tz : tz_ok mem tz -> safe (parse_gsa_mtk bds tz).
Proof.
  intros Htz. unfold parse_gsa_mtk. safes; [apply Htz|reader_change|].
  apply safe_gsa_loop; [done|]. intros t Ht. unfold gsa_satellite. apply safe_bind; [by safes|].
  intros id. cbv zeta. set (sid := if bds then _ else _).
  repeat (match goal with |- safe (if ?b then _ else _) => destruct b eqn:? end);
    safes; apply safe_set_used; zbool; lia || done.
Qed.

Lemma safe_gsa_base tz : tz_ok mem tz -> safe (parse_gsa_base tz).
Proof.
  intros Htz. unfold parse_gsa_base. safes; [apply Htz|reader_change|].
  apply safe_gsa_loop; [done|]. intros t Ht. unfold gsa_satellite_base. safes; [done|].
  reader_change.
Qed.

(** The tables: an entry is written below the size of the table only. *)
Lemma safe_update_gnss id ele azi sn :
  tok_ok mem ele -> tok_ok mem azi -> tok_ok mem sn ->
  safe (nmea_reader_update_sv_status_gnss id ele azi sn).
Proof.
  intros He Ha Hs h (Hwf & Hm & Hn). rewrite <-Hm in He, Ha, Hs.
  unfold nmea_reader_update_sv_status_gnss.
  destruct Hwf. pose proof gnss_max_range. pose proof gps_max_range. unfold table_max in *.
  apply wp_bind, wp_on_part, wp_gets, wp_if; intros Hig; [wps; split; [by split|done]|].
  apply orb_false_elim in Hig as [Hid Hc].
  apply wp_bind, wp_on_part, wp_gets. cbn [reader field_update] in *.
  rewrite s32_id by (unfold is_s32; lia).
  apply wp_if; intros Hidx; [wps; split; [by split|done]|].
  apply wp_bind, wp_on_part, wp_sv_fields; [exact wf_mem0|exact He|exact Ha|exact Hs|].
  apply wp_bind, wp_gets. cbn [sv_used_in_fix field_update reader].
  destruct (array_get_Some (sv_used_in_fix h) id) as (u & Hu & _).
  { rewrite wf_used0. unfold gnss_ignored in Hid. zbool; lia || done. }
  apply wp_bind. eapply wp_lift; [exact Hu|].
  apply wp_bind, wp_on_part, wp_gets, wp_bind. cbn [sv_used_in_fix field_update reader].
  eapply wp_lift; [apply array_set_Some; zbool; lia|].
  rewrite Z.geb_leb in Hc. wps. split; [|done].
  split; cbn; try done; [by rewrite length_insert|unfold table_max; zbool; lia || done].
Qed.

Lemma safe_update_gps id ele azi sn :
  tok_ok mem ele -> tok_ok mem azi -> tok_ok mem sn ->
  safe (on_reader (nmea_reader_update_sv_status_gps id ele azi sn)).
Proof.
  intros He Ha Hs h (Hwf & Hm & Hn). rewrite <-Hm in He, Ha, Hs.
  unfold nmea_reader_update_sv_status_gps.
  destruct Hwf. pose proof gnss_max_range. pose proof gps_max_range. unfold table_max in *.
  apply wp_on_part, wp_bind, wp_gets, wp_if; intros Hig; [wps; split; [by split|done]|].
  apply orb_false_elim in Hig as [Hid Hc].
  apply wp_bind, wp_gets. rewrite s32_id by (unfold is_s32; lia).
  apply wp_if; intros Hidx; [wps; split; [by split|done]|].
  apply wp_bind, wp_sv_fields; [exact wf_mem0|exact He|exact Ha|exact Hs|].
  apply wp_bind, wp_gets, wp_bind.
  assert (0 <= sv_count (reader h) + gps_num_svs (sv_status_gps (reader h))
          < Z.of_nat (length (gps_sv_list (sv_status_gps (reader h))))) as Hr
    by (zbool; lia).
  destruct (array_get_Some _ _ Hr) as (old & Hold & _).
  eapply wp_lift; [exact Hold|]. apply wp_bind.
  eapply wp_lift; [by apply array_set_Some|].
  rewrite Z.geb_leb in Hc. wps. split; [|done].
  split; cbn; try done; [by rewrite length_insert|unfold table_max; zbool; lia || done].
Qed.

Lemma safe_gsv_loop update bds tz idx k :
  tz_ok mem tz ->
  (forall id e a s, tok_ok mem e -> tok_ok mem a -> tok_ok mem s -> safe (update id e a s)) ->
  safe (gsv_loop update bds tz idx k).
Proof.
  intros Htz Hu. revert idx. induction k as [|k IH]; intros idx; cbn [gsv_loop]; safes;
    [apply Htz|apply Hu; apply Htz|apply IH].
Qed.

Lemma safe_gsv update commit reject bds tz :
  tz_ok mem tz ->
  (forall id e a s, tok_ok mem e -> tok_ok mem a -> tok_ok mem s -> safe (update id e a s)) ->
  (forall h, inv B mem n h -> wp commit (fun _ => inv (B + table_max) mem n) h) ->
  (forall h, inv B mem n h -> wp reject (fun _ => inv B mem n) h) ->
  forall h, inv B mem n h ->
  wp (parse_gsv update commit reject bds tz) (fun _ => inv (B + table_max) mem n) h.
Proof.
  intros Htz Hu Hc Hr. unfold parse_gsv.
  apply (safe_then B mem n (tok_int _)); [apply safe_tok_int, Htz|]. intros num.
  apply (safe_then B mem n (tok_int _)); [apply safe_tok_int, Htz|]. intros seq.
  apply (safe_then B mem n (tok_int _)); [apply safe_tok_int, Htz|]. intros cnt.
  apply (safe_then B mem n (cwhen _ _)); [safes; reader_change|]. intros _.
  apply (safe_then B mem n (gsv_loop _ _ _ _ _)); [by apply safe_gsv_loop|]. intros _.
  intros h Hh. apply wp_when; intros; [|by apply inv_more].
  apply wp_bind, wp_on_part, wp_gets, wp_if; intros _.
  - apply Hc. destruct Hh as ([] & ? & ?). split; [by split|done].
  - eapply wp_mono; [apply Hr|intros; by apply inv_more].
    destruct Hh as ([] & ? & ?). split; [by split|done].
Qed.

Lemma safe_gsv_gnss bds tz :
  tz_ok mem tz -> forall h, inv B mem n h ->
  wp (parse_gsv_gnss bds tz) (fun _ => inv (B + table_max) mem n) h.
Proof.
  intros Htz. apply safe_gsv; [done|apply safe_update_gnss| |];
    intros h ([] & ? & ?); wps; (split; [split; cbn; try done|done]); try lia.
  rewrite s32_id by (unfold is_s32; lia). lia.
Qed.

Lemma safe_gsv_gps bds tz :
  tz_ok mem tz -> forall h, inv B mem n h ->
  wp (parse_gsv_gps bds tz) (fun _ => inv (B + table_max) mem n) h.
Proof.
  intros Htz. apply safe_gsv; [done|intros; by apply safe_update_gps| |];
    intros h ([] & ? & ?); wps; (split; [split; cbn; try done|done]); try lia.
  rewrite s32_id by (unfold is_s32; lia). lia.
Qed.

Lemma safe_sentence now tz t :
  tz_ok mem tz -> obj t = IN -> 0 <= p t <= 1 ->
  forall h, inv B mem n h ->
  wp (parse_sentence sizeof_GpsCallbacks now tz t) (fun _ => inv (B + table_max) mem n) h.
Proof.
  intros Htz Ho Hp. unfold parse_sentence.
  assert (forall s, Z.of_nat (length (zs s)) <= 8 -> safe (memcmp_eq t s)) as M1
    by (intros; apply safe_memcmp; unfold NMEA_MAX_SIZE; done || lia).
  assert (forall s, Z.of_nat (length (zs s)) <= 8 ->
            safe (memcmp_eq (MkToken (obj t) (p t + 2) (end_ t)) s)) as M2
    by (intros; apply safe_memcmp; unfold NMEA_MAX_SIZE; cbn; done || lia).
  assert (forall l, Forall (fun s => Z.of_nat (length (zs s)) <= 8) l -> safe (memcmp_any t l)) as M3.
  { intros l Hl. apply safe_memcmp_any. intros s Hs. apply M1. by eapply Forall_forall in Hl. }
  apply (safe_then B mem n (memcmp_eq t _)); [apply M1; by_decide|]. intros bds.
  apply (safe_then B mem n (cgets _)); [apply safe_gets|]. intros size. cbv zeta.
  apply (safe_then B mem n (memcmp_eq _ _)); [apply M2; by_decide|]. intros [];
    [by apply safe_more, safe_gga|].
  apply (safe_then B mem n (memcmp_any _ _)); [apply M3; by_decide|]. intros gsa3.
  destruct (_ && _); [by apply safe_more, safe_gsa_mtk|].
  apply (safe_then B mem n (memcmp_eq _ _)); [apply M1; by_decide|]. intros gsa1.
  destruct (_ && _); [by apply safe_more, safe_gsa_base|].
  apply (safe_then B mem n (memcmp_eq _ _)); [apply M2; by_decide|]. intros [];
    [by apply safe_more, safe_rmc|].
  apply (safe_then B mem n (memcmp_eq _ _)); [apply M2; by_decide|]. intros gsv.
  destruct (_ && _); [by apply safe_gsv_gnss|].
  apply (safe_then B mem n (memcmp_any _ _)); [apply M3; by_decide|]. intros gsv2.
  destruct (_ && _); [by apply safe_gsv_gps|].
  apply (safe_then B mem n (memcmp_eq _ _)); [apply M2; by_decide|]. intros [];
    [by apply safe_more, safe_accuracy|apply safe_more, safe_ret].
Qed.

End SafeParse.

Section SafeReport.
#[local] Set Default Proof Using "All".
Context `{HL : GpsHeaderLaws} (sizeof_GpsCallbacks : Z).
Variables (B : Z) (mem : list Z) (n : Z).

Lemma safe_report_location : safe B mem n report_location.
Proof using Type.
  intros h Hh. unfold report_location. apply wp_bind, wp_gets, wp_when; [intros _|done].
  apply wp_bind, wp_when; cbn [id]; intros E; [by rewrite (wf_log B h) in E by apply Hh|].
  assert (safe B mem n (
    _ ← emit (LocationCb (fix_ (reader h)));
    _ ← emit (WriteLocation (nlp_of_fix (fix_ (reader h)) (u8 (started h))));
    on_reader (upd_fix (fun f => f ⟨ flags := 0 ⟩)))) as Hs by (safes; reader_change).
  by apply Hs.
Qed.

Lemma safe_report_svs : safe B mem n (report_svs sizeof_GpsCallbacks).
Proof.
  intros h Hh. unfold report_svs. apply wp_bind, wp_gets, wp_if; intros _.
  - apply wp_when; [intros _|done].
    assert (safe B mem n (_ ← emit (GnssSvStatusCb (sv_status_gnss (reader h)));
                  _ ← on_reader (cmodify (fun r => r ⟨ sv_count := 0 ⟩
                        ⟨ sv_status_gnss $= fun s => s ⟨ num_svs := 0 ⟩ ⟩));
                  cmodify (fun h => h ⟨ sv_used_in_fix := zeros 256 ⟩))) as Hs; [|by apply Hs].
    pose proof gps_max_range. safes.
    + apply safe_modify_reader. intros ? ([] & ? & ?). unfold table_max in *.
      split; [split; cbn; done || (unfold table_max; lia)|done].
    + intros ? ([] & ? & ?). apply wp_modify. split; [by split|done].
  - apply wp_when; [intros Hne|done]. destruct Hh as ([] & Hm & Hn).
    apply andb_prop in Hne as [Hne _]. cbn [id] in Hne. pose proof gps_max_range.
    destruct (array_get_Some (gps_sv_list (sv_status_gps (reader h))) 0) as (v & Hv & _); [lia|].
    cbn [sv_status_loop]. apply wp_bind, wp_gets.
    rewrite (proj2 (Z.ltb_lt _ _)) by (zbool; done || lia).
    apply wp_bind. eapply wp_lift; [exact Hv|]. unfold emit.
    apply wp_bind, wp_modify, wp_bind, wp_on_part, wp_modify, wp_bind, wp_gets.
    apply wp_if; [done|intros _]. apply wp_ret. unfold table_max in *.
    split; [split; cbn; done || (unfold table_max; lia)|done].
Qed.

End SafeReport.

Section SafeReader.
Context `{HL : GpsHeaderLaws} `{TimeZone} (sizeof_GpsCallbacks : Z).

Lemma safe_parse B mem n now h :
  B + 2 * table_max < 2 ^ 31 -> 0 <= n <= NMEA_MAX_SIZE -> inv B mem n h ->
  wp (nmea_reader_parse sizeof_GpsCallbacks now) (fun _ => inv (B + table_max) mem n) h.
Proof using HL.
  intros HB Hn Hh. unfold nmea_reader_parse. apply wp_bind, wp_gets.
  pose proof Hh as (Hwf & Hmem & Hpos). rewrite Hmem, Hpos.
  pose proof (wf_mem _ _ Hwf) as [Hl Hb]. rewrite Hmem in *. unfold NMEA_MAX_SIZE in *.
  apply wp_if; intros _; [by apply wp_ret, inv_more|].
  destruct (tokenizer_init_fields mem 0 n) as (tz & Htz & Hwft & _ & Hf); [lia..|].
  apply wp_bind. eapply wp_lift; [exact Htz|].
  assert (tz_ok mem tz) as Hok.
  { intros i. eapply tokenizer_get_ok; [| |done]; lia. }
  apply wp_if; intros Hlen; [by apply wp_ret, inv_more|].
  destruct (tokenizer_get_first _ _ _ Hwft) as [Ho Hfst]; [zbool; rewrite ?Z.gtb_ltb in *; zbool; lia || done|].
  pose proof (Hok 0) as Ht. unfold tok_ok in Ht. rewrite Ho in Ht.
  apply wp_bind. eapply wp_mono; [apply safe_sentence; done || lia|]. intros ? h1 Hh1.
  apply wp_bind. eapply wp_mono; [apply safe_report_location; exact Hh1|]. intros ? h2 Hh2.
  apply safe_report_svs. exact Hh2.
Qed.

(** The reader between two characters. *)
Definition reader_ok (B : Z) (h : hal) : Prop :=
  hal_wf B h /\ 0 <= pos (reader h) <= NMEA_MAX_SIZE.

Lemma safe_addc B now c h :
  B + 2 * table_max < 2 ^ 31 -> is_byte c -> reader_ok B h ->
  wp (nmea_reader_addc sizeof_GpsCallbacks now c)
     (fun _ => reader_ok (if c =? 10 then B + table_max else B)) h.
Proof using HL.
  intros HB Hc [Hwf Hpos]. unfold nmea_reader_addc. pose proof gps_max_range.
  assert (forall h', reader_ok B h' -> reader_ok (if c =? 10 then B + table_max else B) h') as Hmore.
  { intros h' [Hw Hp]. case_match; [|done]. split; [|done].
    destruct (inv_more B (in_ (reader h')) (pos (reader h')) h'); [by split|done]. }
  apply wp_bind, wp_gets, wp_if; [intros _|intros Hov].
  { wps. apply Hmore. destruct Hwf. split; [by split|done]. }
  apply wp_if; intros Hp.
  { wps. apply Hmore. destruct Hwf. split; [by split|cbn; unfold NMEA_MAX_SIZE; lia]. }
  apply orb_false_elim in Hp as [Hp _]. rewrite Z.geb_leb in Hp.
  pose proof (wf_mem _ _ Hwf) as [Hl Hb]. unfold NMEA_MAX_SIZE in *.
  apply wp_bind. eapply wp_lift; [apply array_set_Some; zbool; lia|].
  apply wp_bind, wp_on_part, wp_modify, wp_bind, wp_on_part, wp_modify.
  set (h1 := _ ⟨ reader := _ ⟩).
  assert (inv B (<[Z.to_nat (pos (reader h)):=c]> (in_ (reader h))) (pos (reader h) + 1) h1) as Hinv.
  { destruct Hwf. split; [|done]. split; cbn; try done.
    split; [by rewrite length_insert|]. by apply Forall_insert. }
  apply wp_when; intros E; rewrite E.
  - apply wp_bind. eapply wp_mono; [apply safe_parse; [done| |exact Hinv]|].
    { unfold NMEA_MAX_SIZE. zbool; lia. }
    intros ? h2 ([] & ? & ?). wps. split; [by split|cbn; unfold NMEA_MAX_SIZE; lia].
  - destruct Hinv as (Hw & _ & Hps). split; [done|]. rewrite Hps. unfold NMEA_MAX_SIZE. zbool; lia.
Qed.

Definition newlines (s : list Z) : Z := Z.of_nat (length (filter (fun c => c = 10) s)).

Lemma newlines_cons c s : newlines (c :: s) = (if c =? 10 then 1 else 0) + newlines s.
Proof.
  unfold newlines. rewrite filter_cons. destruct (decide (c = 10)) as [->|Hne].
  - cbn [length]. rewrite Z.eqb_refl. lia.
  - by rewrite (proj2 (Z.eqb_neq _ _)).
Qed.

Lemma safe_read_loop now s B h :
  Forall is_byte s -> B + (newlines s + 2) * table_max < 2 ^ 31 -> reader_ok B h ->
  wp (read_loop sizeof_GpsCallbacks now s)
     (fun _ => reader_ok (B + newlines s * table_max)) h.
Proof using HL.
  revert B h. induction s as [|c s IH]; intros B h Hs HB Hh; cbn [read_loop].
  { wps. unfold newlines. cbn. by replace (B + 0 * table_max) with B by lia. }
  inversion Hs as [|? ? Hc Hs']; subst. rewrite newlines_cons in *.
  pose proof gps_max_range. assert (0 < table_max) by (unfold table_max; lia).
  assert (0 <= newlines s) by (unfold newlines; lia).
  apply wp_bind. apply (wp_mono _ (fun _ => reader_ok B)).
  { apply wp_when; intros _; [|done]. wps. destruct Hh as [[] ?]. split; [by split|done]. }
  intros ? h1 Hh1. apply wp_bind. eapply wp_mono; [apply safe_addc; [|done|exact Hh1]|].
  { destruct (c =? 10); nia. }
  intros ? h2 Hh2. eapply wp_mono; [apply IH; [done| |exact Hh2]|].
  { destruct (c =? 10); nia. }
  intros ? h3. destruct (c =? 10);
    [replace (B + (1 + newlines s) * table_max) with (B + table_max + newlines s * table_max) by lia|]; done.
Qed.
End SafeReader.
(** ** A concrete run *)

Definition aosp_gps_h : GpsHeader := {|
  GPS_MAX_SVS := 32; GNSS_MAX_SVS := 64;
  GPS_LOCATION_HAS_LAT_LONG := 1; GPS_LOCATION_HAS_ALTITUDE := 2;
  GPS_LOCATION_HAS_SPEED := 4; GPS_LOCATION_HAS_BEARING := 8;
  GPS_LOCATION_HAS_ACCURACY := 16;
|}.

Lemma aosp_gps_h_laws : @GpsHeaderLaws aosp_gps_h.
Proof. split; cbn; [lia|lia|]. repeat constructor. Qed.
