(* ===== verification/NmeaProps.v ===== *)
(** * What the NMEA reader guarantees

    Memory safety for every input, the framing of sentences, the time stamp,
    the satellite table and the reports to the framework. *)

From S2P Require Import Prelude CFloat Calendar HalBuff NmeaToken NmeaReader NmeaParse.

(** ** Runs *)

Section Runs.
Context `{GpsHeader} `{TimeZone} (sizeof_GpsCallbacks : Z).

(** Successive reads of the device, each at a time of the clock. *)
Fixpoint device_reads (l : list (Z * list Z)) : CM hal unit :=
  match l with
  | [] => mret tt
  | (now, buff) :: l' =>
      _ ← gps_device_data sizeof_GpsCallbacks now buff;
      device_reads l'
  end.

(** Characters fed one by one. *)
Fixpoint feed (now : Z) (s : list Z) : CM hal unit :=
  match s with
  | [] => mret tt
  | c :: s' => _ ← nmea_reader_addc sizeof_GpsCallbacks now c; feed now s'
  end.

Lemma feed_app now s1 s2 h :
  feed now (s1 ++ s2) h = (_ ← feed now s1; feed now s2) h.
Proof.
  revert h. induction s1 as [|c s1 IH]; intros h; [done|].
  cbn [feed app]. unfold mbind, cm_bind in *.
  destruct (nmea_reader_addc _ now c h) as [[[] h1]|]; [apply IH|done].
Qed.
End Runs.

(** ** Memory safety of a run *)

Section RunSafety.
Context `{HL : GpsHeaderLaws} `{TimeZone} (sizeof_GpsCallbacks : Z).

Definition all_newlines (l : list (Z * list Z)) : Z :=
  foldr (fun x n => newlines (snd x) + n) 0 l.

Lemma safe_device_reads l B h :
  Forall (fun x => Forall is_byte (snd x)) l ->
  B + (all_newlines l + 2) * table_max < 2 ^ 31 -> reader_ok B h ->
  wp (device_reads sizeof_GpsCallbacks l)
     (fun _ => reader_ok (B + all_newlines l * table_max)) h.
Proof using HL.
  revert B h. induction l as [|[now s] l IH]; intros B h Hl HB Hh; cbn [device_reads].
  { wps. cbn. by replace (B + 0 * table_max) with B by lia. }
  apply Forall_cons in Hl as [Hs Hl]. cbn [all_newlines foldr snd] in *. fold (all_newlines l) in *.
  pose proof gps_max_range. assert (0 < table_max) by (unfold table_max; lia).
  assert (0 <= newlines s) by (unfold newlines; lia).
  assert (0 <= all_newlines l).
  { clear. induction l as [|x l IH]; cbn; [lia|]. fold (all_newlines l). unfold newlines in *. lia. }
  unfold gps_device_data. apply wp_bind, wp_bind, wp_modify.
  eapply wp_mono; [apply (safe_read_loop _ now s B); [done|nia|]|].
  { destruct Hh as [[] ?]. split; [by split|done]. }
  intros ? h1 Hh1. eapply wp_mono; [apply IH; [done| |exact Hh1]|]; [nia|].
  intros ? h2.
  by replace (B + newlines s * table_max + all_newlines l * table_max)
    with (B + (newlines s + all_newlines l) * table_max) by lia.
Qed.

Lemma nmea_reader_init_ok now tm r cbsz st prop :
  nmea_reader_init now tm = Some r -> get_prop prop = 0 ->
  reader_ok 0 (MkHal r (zeros 256) 0 st cbsz prop []).
Proof using HL.
  intros [= <-] Hp. pose proof gps_max_range. pose proof gnss_max_range.
  split; [split|]; cbn [reader in_ sv_used_in_fix sv_status_gps sv_status_gnss sv_count
    gps_num_svs num_svs gps_sv_list sv_list mnl_prop pos field_update]; try done;
    unfold NMEA_MAX_SIZE, table_max; rewrite ?length_replicate; try lia.
  split; [done|]. by_decide.
Qed.

(** C4 (safety): started from nmea_reader_init, with the position log off
    ([get_prop] of the property is 0), the reader survives every
    input up to a bound on its lines: whatever bytes the device delivers, in
    whatever chunks, no sentence
    makes it access memory outside of the sentence buffer, the token array,
    the satellite tables or sv_used_in_fix; the write position stays in the
    buffer and the satellite count within the tables.  The bound: the number of
    newlines and two, times the size of a table, is less than 2^31, so that the
    32-bit count of satellites that wait for a report cannot wrap.  With the
    position log on the reader is not safe, [position_log_overruns]. *)
Theorem nmea_memory_safe (now : Z) (tm_local : tm) (r : NmeaReader) (st cbsz : Z)
    (prop : list Z) (l : list (Z * list Z)) :
  nmea_reader_init now tm_local = Some r -> get_prop prop = 0 ->
  Forall (fun x => Forall is_byte (snd x)) l ->
  (all_newlines l + 2) * table_max < 2 ^ 31 ->
  exists h, device_reads sizeof_GpsCallbacks l (MkHal r (zeros 256) 0 st cbsz prop []) = Some (tt, h)
    /\ 0 <= pos (reader h) <= NMEA_MAX_SIZE
    /\ length (in_ (reader h)) = 129%nat
    /\ 0 <= sv_count (reader h) <= table_max.
Proof using HL.
  intros Hr Hp Hl HB.
  destruct (wp_Some _ _ _ (safe_device_reads l 0 _ Hl HB (nmea_reader_init_ok _ _ _ cbsz st _ Hr Hp)))
    as ([] & h & Hrun & [Hwf Hpos]).
  exists h. split; [exact Hrun|]. split; [exact Hpos|].
  pose proof (wf_mem _ _ Hwf) as [Hlen _]. unfold NMEA_MAX_SIZE in Hlen.
  split; [lia|apply Hwf].
Qed.
End RunSafety.

Definition sample_burst : list Z :=
  zs "$GPGGA,061830.00,2503.7100,N,12138.7400,W,1,8,1.0,12.3,M,,M,,*47" ++ [13; 10] ++
  zs "$GPGSA,A,3,04,05,,09,12,,,24,,,,,2.5,1.3,2.1*39" ++ [13; 10] ++
  zs "$GPGSV,1,1,02,04,75,001,42,05,40,083,46*75" ++ [13; 10] ++
  zs "$GPGSV,9,-7,,,,garbage" ++ [10] ++ replicate 200 44 ++ [10] ++
  zs "$GPRMC,061830.00,A,2503.7100,N,12138.7400,W,000.5,054.7,070419,020.3,E*68" ++ [13; 10].

Lemma nmea_memory_safe_witness :
  let tz := fixed_zone 28800 in
  exists r h, @nmea_reader_init aosp_gps_h tz 0 (gmtime 0) = Some r /\
    @device_reads aosp_gps_h tz 100 [(7, sample_burst)] (MkHal r (zeros 256) 0 1 100 [] [])
      = Some (tt, h) /\ 0 <= pos (reader h) <= 128.
Proof.
  intros tz. eexists.
  edestruct (@nmea_memory_safe aosp_gps_h aosp_gps_h_laws tz 100 0 (gmtime 0))
    with (st := 1) (cbsz := 100) (prop := @nil Z) (l := [(7, sample_burst)])
    as (h & Hh & Hpos & _); [reflexivity|reflexivity|by_decide|vm_compute; reflexivity|].
  exists h. split; [reflexivity|]. split; [exact Hh|exact Hpos].
Defined.

(** ** Framing *)

Section Framing.
Context `{GpsHeader} `{TimeZone} (sizeof_GpsCallbacks : Z).

(** The buffer after [s] has been typed at the start of it. *)
Definition overlay (s m : list Z) : list Z := s ++ drop (length s) m.

Definition typed (s : list Z) (h : hal) : hal :=
  h ⟨ reader $= fun r => r ⟨ in_ := overlay s (in_ r) ⟩ ⟨ pos := Z.of_nat (length s) ⟩ ⟩.

Lemma hal_eta h : MkHal (reader h) (sv_used_in_fix h) (gps_nmea_end_tag h) (started h) (cb_size h)
  (mnl_prop h) (trace h) = h.
Proof. by destruct h. Qed.

Lemma overlay_snoc s c m :
  (length s < length m)%nat ->
  <[length s := c]> (overlay s m) = overlay (s ++ [c]) m.
Proof.
  intros Hl. unfold overlay. rewrite length_app. cbn [length].
  destruct (drop (length s) m) as [|x rest] eqn:E.
  { apply (f_equal length) in E. rewrite length_drop in E. cbn in E. lia. }
  replace (length s) with (length s + 0)%nat at 1 by lia. rewrite insert_app_r. cbn.
  rewrite <-app_assoc, <-(drop_drop m 1 (length s)), E. done.
Qed.

Definition idle (h : hal) : Prop :=
  Z.of_nat (length (in_ (reader h))) = NMEA_MAX_SIZE + 1 /\ pos (reader h) = 0.

(** A character that fits is stored. *)
Lemma addc_stores now s c h :
  idle h -> overflow (reader h) = 0 -> c <> 10 -> Z.of_nat (length s) < NMEA_MAX_SIZE ->
  nmea_reader_addc sizeof_GpsCallbacks now c (typed s h) = Some (tt, typed (s ++ [c]) h).
Proof.
  intros [Hl Hp] Ho Hc Hs. unfold NMEA_MAX_SIZE in *. unfold nmea_reader_addc.
  rewrite run_gets.
  change (overflow (reader (typed s h))) with (overflow (reader h)).
  change (pos (reader (typed s h))) with (Z.of_nat (length s)).
  change (in_ (reader (typed s h))) with (overlay s (in_ (reader h))).
  rewrite Ho. cbn [truthy negb Z.eqb].
  rewrite Z.geb_leb, (proj2 (Z.leb_gt _ _)), (proj2 (Z.ltb_ge _ _)) by (unfold NMEA_MAX_SIZE; lia).
  cbn [orb]. erewrite run_lift
    by (apply array_set_Some; unfold overlay; rewrite length_app, length_drop; lia).
  rewrite Nat2Z.id, overlay_snoc by lia. rewrite (proj2 (Z.eqb_neq c 10)) by done.
  unfold typed. rewrite length_app, Nat2Z.inj_add. done.
Qed.

Lemma feed_fits now s1 s2 h :
  idle h -> overflow (reader h) = 0 -> 10 ∉ s2 ->
  Z.of_nat (length (s1 ++ s2)) <= NMEA_MAX_SIZE ->
  feed sizeof_GpsCallbacks now s2 (typed s1 h) = Some (tt, typed (s1 ++ s2) h).
Proof.
  revert s1. induction s2 as [|c s2 IH]; intros s1 Hi Ho Hn Hl.
  { by rewrite app_nil_r. }
  rewrite not_elem_of_cons in Hn. destruct Hn as [Hc Hn].
  rewrite length_app in Hl. cbn [length] in Hl.
  cbn [feed]. erewrite run_bind by (apply addc_stores; congruence || done || lia).
  rewrite IH; [by rewrite <-app_assoc|done|done|done|].
  rewrite !length_app. cbn [length]. lia.
Qed.

(** The state after a sentence that was dropped: [o] says whether the next
    line is dropped too. *)
Definition dropped (o : Z) (s : list Z) (h : hal) : hal :=
  (typed s h) ⟨ reader $= fun r => r ⟨ overflow := o ⟩ ⟨ pos := 0 ⟩ ⟩.

Lemma feed_overflow now s h :
  truthy (overflow (reader h)) = true -> 10 ∉ s ->
  feed sizeof_GpsCallbacks now s h
  = Some (tt, match s with [] => h | _ => h ⟨ reader $= fun r => r ⟨ overflow := 1 ⟩ ⟩ end).
Proof.
  revert h. induction s as [|c s IH]; intros h Ho Hn; [done|].
  rewrite not_elem_of_cons in Hn. destruct Hn as [Hc Hn]. cbn [feed].
  erewrite run_bind by (unfold nmea_reader_addc; rewrite run_gets, Ho; reflexivity).
  rewrite (proj2 (Z.eqb_neq c 10)) by congruence. cbn [negb cbool].
  rewrite IH by done. by destruct s.
Qed.

Lemma typed_nil h : idle h -> typed [] h = h.
Proof.
  intros [_ Hp]. destruct h as [[] ? ? ? ? ? ?]. cbn in Hp. subst. done.
Qed.

Lemma feed_one now c h : feed sizeof_GpsCallbacks now [c] h = nmea_reader_addc sizeof_GpsCallbacks now c h.
Proof.
  cbn [feed]. unfold mbind, cm_bind. by destruct (nmea_reader_addc _ now c h) as [[[] h']|].
Qed.

(** The newline of a dropped line ends the overflow. *)
Lemma addc_overflow_nl now h :
  truthy (overflow (reader h)) = true ->
  nmea_reader_addc sizeof_GpsCallbacks now 10 h
  = Some (tt, h ⟨ reader $= fun r => r ⟨ overflow := 0 ⟩ ⟩).
Proof. intros Ho. unfold nmea_reader_addc. by rewrite run_gets, Ho. Qed.

(** A character that does not fit starts the overflow. *)
Lemma addc_full now s c h :
  overflow (reader h) = 0 -> Z.of_nat (length s) = NMEA_MAX_SIZE ->
  nmea_reader_addc sizeof_GpsCallbacks now c (typed s h) = Some (tt, dropped 1 s h).
Proof.
  intros Ho Hs. unfold nmea_reader_addc. rewrite run_gets.
  change (overflow (reader (typed s h))) with (overflow (reader h)).
  change (pos (reader (typed s h))) with (Z.of_nat (length s)).
  by rewrite Ho, Z.geb_leb, (proj2 (Z.leb_le _ _)) by (unfold NMEA_MAX_SIZE in *; lia).
Qed.

(** The newline of a line that fits. *)
Lemma addc_newline now s h :
  idle h -> overflow (reader h) = 0 -> Z.of_nat (length s) < NMEA_MAX_SIZE ->
  nmea_reader_addc sizeof_GpsCallbacks now 10 (typed s h)
  = (_ ← nmea_reader_parse sizeof_GpsCallbacks now;
     r ← cgets reader;
     _ ← emit (NmeaCb (timestamp (fix_ r)) (in_ r) (pos r));
     on_reader (cmodify (fun r => r ⟨ pos := 0 ⟩))) (typed (s ++ [10]) h).
Proof.
  intros [Hl Hp] Ho Hs. unfold NMEA_MAX_SIZE in *. unfold nmea_reader_addc. rewrite run_gets.
  change (overflow (reader (typed s h))) with (overflow (reader h)).
  change (pos (reader (typed s h))) with (Z.of_nat (length s)).
  change (in_ (reader (typed s h))) with (overlay s (in_ (reader h))).
  rewrite Ho. cbn [truthy negb Z.eqb].
  rewrite Z.geb_leb, (proj2 (Z.leb_gt _ _)), (proj2 (Z.ltb_ge _ _)) by (unfold NMEA_MAX_SIZE; lia).
  cbn [orb]. erewrite run_lift
    by (apply array_set_Some; unfold overlay; rewrite length_app, length_drop; lia).
  rewrite Nat2Z.id, overlay_snoc by lia. unfold typed at 2. rewrite length_app, Nat2Z.inj_add. done.
Qed.

(** C10 (state_machine): how characters become sentences.  A line (without its
    newline) fed to an idle reader: while the reader is in overflow the line is
    dropped; a line of at most 127 characters is parsed exactly once, with the
    newline, then handed to [nmea_cb]; a longer line is dropped; and a line of
    exactly 128 characters also makes the reader drop the line after it. *)
Theorem nmea_framing (now : Z) (line : list Z) (h : hal) :
  idle h -> 10 ∉ line ->
  feed sizeof_GpsCallbacks now (line ++ [10]) h
  = (if truthy (overflow (reader h)) then
       Some (tt, h ⟨ reader $= fun r => r ⟨ overflow := 0 ⟩ ⟩)
     else if Z.of_nat (length line) <=? 127 then
       (_ ← nmea_reader_parse sizeof_GpsCallbacks now;
        r ← cgets reader;
        _ ← emit (NmeaCb (timestamp (fix_ r)) (in_ r) (pos r));
        on_reader (cmodify (fun r => r ⟨ pos := 0 ⟩))) (typed (line ++ [10]) h)
     else
       Some (tt, dropped (cbool (Z.of_nat (length line) =? 128)) (take 128 line) h)).
Proof.
  intros Hi Hn. rewrite feed_app.
  destruct (truthy (overflow (reader h))) eqn:Ho.
  { erewrite run_bind by (by apply feed_overflow). rewrite feed_one.
    rewrite addc_overflow_nl; by destruct line. }
  assert (overflow (reader h) = 0) as Ho' by (unfold truthy in Ho; zbool; done).
  rewrite <-(typed_nil h Hi) at 1.
  destruct (Z.leb_spec (Z.of_nat (length line)) 127) as [Hl|Hl].
  { erewrite run_bind by (apply (feed_fits _ []); unfold NMEA_MAX_SIZE; done || (cbn; lia)).
    rewrite feed_one. apply addc_newline; unfold NMEA_MAX_SIZE; done || lia. }
  rewrite <-(take_drop 128 line) in Hn. apply not_elem_of_app in Hn as [Hn1 Hn2].
  assert (Z.of_nat (length (take 128 line)) = 128) as Hlen by (rewrite length_take; lia).
  rewrite <-(take_drop 128 line) at 1. rewrite <-feed_app, <-app_assoc, feed_app.
  erewrite run_bind by (apply (feed_fits _ []); unfold NMEA_MAX_SIZE; done || (cbn; lia)).
  rewrite app_nil_l. destruct (drop 128 line) as [|c rest] eqn:Hd; cbn [app].
  - apply (f_equal length) in Hd. rewrite length_drop in Hd. cbn in Hd.
    rewrite (proj2 (Z.eqb_eq _ _)) by lia. rewrite feed_one. by apply addc_full.
  - assert (length line <> 128%nat).
    { intros E. apply (f_equal length) in Hd. rewrite length_drop, E in Hd. done. }
    rewrite (proj2 (Z.eqb_neq _ _)) by lia. apply not_elem_of_cons in Hn2 as [_ Hn2].
    cbn [feed]. erewrite run_bind by (by apply addc_full). rewrite feed_app.
    erewrite run_bind by (by apply feed_overflow).
    rewrite feed_one, addc_overflow_nl; by destruct rest.
Qed.
End Framing.

Definition idle_hal : hal :=
  MkHal (MkNmeaReader 0 0 (-1) (-1) (-1) 0 fix_zero 0 0 0 (MkGpsSvStatus 0 [] 0 0 0)
           (MkGnssSvStatus 0 []) (zeros 129)) (zeros 256) 0 0 0 [] [].

(** The line after a line of 128 characters is lost. *)
Lemma nmea_framing_witness :
  let tz := fixed_zone 0 in
  exists h, @feed aosp_gps_h tz 100 0 (replicate 128 44 ++ [10]) idle_hal = Some (tt, h)
    /\ overflow (reader h) = 1
    /\ exists h', @feed aosp_gps_h tz 100 0 (zs "$GPGGA,1,2" ++ [10]) h = Some (tt, h')
              /\ trace h' = [].
Proof.
  intros tz.
  assert (Hi : idle idle_hal) by (split; reflexivity).
  assert (Hn : 10 ∉ replicate 128 44) by by_decide.
  assert (Hn' : 10 ∉ zs "$GPGGA,1,2") by by_decide.
  exists (dropped 1 (replicate 128 44) idle_hal).
  assert (Hi' : idle (dropped 1 (replicate 128 44) idle_hal)) by (split; reflexivity).
  split; [exact (@nmea_framing aosp_gps_h tz 100 0 _ _ Hi Hn)|]. split; [reflexivity|].
  eexists. split; [exact (@nmea_framing aosp_gps_h tz 100 0 _ _ Hi' Hn')|reflexivity].
Defined.

(** ** Reports to the framework *)

Section Reports.
Context `{GpsHeader} `{TimeZone} (sizeof_GpsCallbacks : Z).

(** [h'] is [h] but for the reader and the used-in-fix table. *)
Definition same_env (h h' : hal) : Prop :=
  trace h' = trace h /\ gps_nmea_end_tag h' = gps_nmea_end_tag h /\ started h' = started h
  /\ cb_size h' = cb_size h /\ mnl_prop h' = mnl_prop h.

(** Computations without events. *)
Definition quiet {A} (f : CM hal A) : Prop :=
  forall h x h', f h = Some (x, h') -> same_env h h'.

Lemma quiet_bind {A B} (f : CM hal A) (k : A -> CM hal B) :
  quiet f -> (forall x, quiet (k x)) -> quiet (x ← f; k x).
Proof.
  intros Hf Hk h y h'. unfold mbind, cm_bind. destruct (f h) as [[x h1]|] eqn:E; [|done].
  intros E'. apply Hf in E as (? & ? & ? & ? & ?). apply Hk in E' as (? & ? & ? & ? & ?).
  repeat split; congruence.
Qed.

Lemma quiet_ret {A} (x : A) : quiet (mret x).
Proof. by intros h y h' [= <- <-]. Qed.

Lemma quiet_gets {A} (f : hal -> A) : quiet (cgets f).
Proof. by intros h y h' [= <- <-]. Qed.

Lemma quiet_lift {A} (o : option A) : quiet (clift o).
Proof. intros h y h'. unfold clift. destruct o; [|done]. by intros [= <- <-]. Qed.

Lemma quiet_reader {A} (f : CM NmeaReader A) : quiet (on_reader f).
Proof.
  intros h y h'. unfold on_reader, on_part. destruct (f (reader h)) as [[x r]|]; [|done].
  by intros [= <- <-].
Qed.

Lemma quiet_when b (f : CM hal unit) : quiet f -> quiet (cwhen b f).
Proof. destruct b; [done|]. intros _. apply quiet_ret. Qed.

Lemma quiet_if {A} (b : bool) (f g : CM hal A) : quiet f -> quiet g -> quiet (if b then f else g).
Proof. by destruct b. Qed.

Lemma quiet_used v : quiet (cmodify (fun h => h ⟨ sv_used_in_fix := v ⟩)).
Proof. by intros h y h' [= <- <-]. Qed.
End Reports.

Ltac quiet_step :=
  lazymatch goal with
  | |- quiet (mbind _ _) => apply quiet_bind; [|intros ?]
  | |- quiet (mret _) => apply quiet_ret
  | |- quiet (cgets _) => apply quiet_gets
  | |- quiet (clift _) => apply quiet_lift
  | |- quiet (on_reader _) => apply quiet_reader
  | |- quiet (cwhen _ _) => apply quiet_when
  | |- quiet (if _ then _ else _) => apply quiet_if
  | |- quiet (cmodify _) => apply quiet_used
  | |- quiet (tok_int _) => unfold tok_int, in_mem
  | |- quiet (tok_char _) => unfold tok_char, in_mem
  | |- quiet (memcmp_eq _ _) => unfold memcmp_eq, in_mem
  | |- quiet (set_used_in_fix _ _) => unfold set_used_in_fix
  | |- quiet (let '(_, _) := ?x in _) => destruct x
  end.
Ltac quiets := repeat (quiet_step; cbv beta zeta).

Section ReportProps.
Context `{GpsHeader} `{TimeZone} (sizeof_GpsCallbacks : Z).

Lemma quiet_memcmp_any t l : quiet (memcmp_any t l).
Proof. induction l as [|s l IH]; cbn [memcmp_any]; quiets; done. Qed.

Lemma quiet_gsa_loop sat tz idx n : (forall t, quiet (sat t)) -> quiet (gsa_loop sat tz idx n).
Proof. intros Hs. revert idx. induction n; intros; cbn [gsa_loop]; quiets; auto. Qed.

Lemma quiet_gsv_loop upd bds tz idx n :
  (forall id e a s, quiet (upd id e a s)) -> quiet (gsv_loop upd bds tz idx n).
Proof. intros Hs. revert idx. induction n; intros; cbn [gsv_loop]; quiets; auto. Qed.

Lemma quiet_update_gnss id e a s : quiet (nmea_reader_update_sv_status_gnss id e a s).
Proof. unfold nmea_reader_update_sv_status_gnss. quiets. Qed.

Lemma quiet_gsv upd commit reject bds tz :
  (forall id e a s, quiet (upd id e a s)) -> quiet commit -> quiet reject ->
  quiet (parse_gsv upd commit reject bds tz).
Proof. intros. unfold parse_gsv. quiets; try done. by apply quiet_gsv_loop. Qed.

Lemma quiet_sentence now tz t : quiet (parse_sentence sizeof_GpsCallbacks now tz t).
Proof.
  unfold parse_sentence. quiets; try apply quiet_memcmp_any.
  - unfold parse_gga. quiets.
  - unfold parse_gsa_mtk. quiets. apply quiet_gsa_loop. intros tk.
    unfold gsa_satellite. quiets.
  - unfold parse_gsa_base. quiets. apply quiet_gsa_loop. intros tk.
    unfold gsa_satellite_base. quiets.
  - unfold parse_rmc. quiets.
  - apply quiet_gsv; [apply quiet_update_gnss|quiets..].
  - apply quiet_gsv; intros; quiets.
  - unfold parse_accuracy. quiets.
Qed.
(** What report_location does, with the position log off. *)
Definition location_due (h : hal) : bool :=
  LOC_FIXED (reader h) && negb (flags (fix_ (reader h)) =? 0) && truthy (gps_nmea_end_tag h).

Definition location_reported (h : hal) : hal :=
  h ⟨ trace $= fun t => t ++ [LocationCb (fix_ (reader h));
                              WriteLocation (nlp_of_fix (fix_ (reader h)) (u8 (started h)))] ⟩
    ⟨ reader $= fun r => r ⟨ fix_ $= fun f => f ⟨ flags := 0 ⟩ ⟩ ⟩.

Lemma run_report_location h :
  get_prop (mnl_prop h) = 0 ->
  report_location h = Some (tt, if location_due h then location_reported h else h).
Proof.
  intros Hp. unfold report_location, location_due. rewrite run_gets. cbn [id].
  destruct (_ && _ && _); [|done]. cbn [cwhen]. rewrite Hp.
  erewrite run_bind by reflexivity. unfold location_reported. unfold emit.
  rewrite !run_modify. unfold on_reader, upd_fix, on_part.
  cbv [cmodify mbind option_bind field_update]. cbn. by rewrite <-(app_assoc (trace h) [_] [_]).
Qed.

(** What report_svs does for the callbacks that mtk_gps_init accepts. *)
Definition svs_due (h : hal) : bool :=
  negb (num_svs (sv_status_gnss (reader h)) =? 0) && truthy (gps_nmea_end_tag h).

Definition svs_reported (h : hal) : hal :=
  h ⟨ trace $= fun t => t ++ [GnssSvStatusCb (sv_status_gnss (reader h))] ⟩
    ⟨ reader $= fun r => r ⟨ sv_count := 0 ⟩ ⟨ sv_status_gnss $= fun s => s ⟨ num_svs := 0 ⟩ ⟩ ⟩
    ⟨ sv_used_in_fix := zeros 256 ⟩.

Lemma run_report_svs h :
  cb_size h = sizeof_GpsCallbacks ->
  report_svs sizeof_GpsCallbacks h = Some (tt, if svs_due h then svs_reported h else h).
Proof.
  intros Hc. unfold report_svs, svs_due. rewrite run_gets. cbn [id].
  unfold sizeof_GpsCallbacks_mtk. rewrite Hc, Z.eqb_refl.
  destruct (_ && _); done.
Qed.

(** The reports that end a sentence. *)
Definition reported (h : hal) : hal :=
  let h := if location_due h then location_reported h else h in
  if svs_due h then svs_reported h else h.

(** A sentence without a first field of five characters is dropped. *)
Definition ignored (h : hal) : Prop :=
  pos (reader h) < 9
  \/ exists tz, nmea_tokenizer_init (in_ (reader h)) 0 (pos (reader h)) = Some tz
     /\ end_ (nmea_tokenizer_get tz 0) < p (nmea_tokenizer_get tz 0) + 5.

(** [h1] is the state when the fields of the sentence have been read. *)
Definition fields_read (now : Z) (h h1 : hal) : Prop :=
  exists tz, nmea_tokenizer_init (in_ (reader h)) 0 (pos (reader h)) = Some tz
  /\ parse_sentence sizeof_GpsCallbacks now tz (nmea_tokenizer_get tz 0) h = Some (tt, h1).

Lemma parse_reported now h h' :
  cb_size h = sizeof_GpsCallbacks -> get_prop (mnl_prop h) = 0 ->
  nmea_reader_parse sizeof_GpsCallbacks now h = Some (tt, h') ->
  ignored h /\ h' = h \/ ~ ignored h /\ exists h1, fields_read now h h1 /\ same_env h h1 /\ h' = reported h1.
Proof.
  intros Hc Hp. unfold nmea_reader_parse, ignored, fields_read. rewrite run_gets.
  destruct (Z.ltb_spec (pos (reader h)) 9) as [Hs|Hs]; [intros [= <-]; left; by split; [left|]|].
  unfold clift at 1. unfold mbind at 1, cm_bind at 1.
  destruct (nmea_tokenizer_init _ _ _) as [tz|] eqn:Etz; [|done]. obind. rewrite Z.gtb_ltb.
  destruct (Z.ltb_spec (end_ (nmea_tokenizer_get tz 0)) (p (nmea_tokenizer_get tz 0) + 5)) as [Hf|Hf];
    [intros [= <-]; left; split; [by right; exists tz|done]|].
  unfold mbind at 1, cm_bind at 1.
  destruct (parse_sentence _ _ _ _ h) as [[[] h1]|] eqn:E; [|done].
  apply quiet_sentence in E as Henv. pose proof Henv as (_ & _ & _ & E4 & E5).
  erewrite run_bind by (apply run_report_location; congruence).
  rewrite run_report_svs.
  - intros [= <-]. right. split; [intros [?|(tz' & [= <-] & ?)]; lia|]. eauto 10.
  - destruct (location_due h1); [change (cb_size (location_reported h1)) with (cb_size h1)|];
      congruence.
Qed.

(** When a location, and the satellites, are to be reported. *)
Definition location_wanted (h : hal) : Prop :=
  (fix_mode (reader h) = 2 \/ fix_mode (reader h) = 3) /\ flags (fix_ (reader h)) <> 0 /\ gps_nmea_end_tag h <> 0.
Definition svs_wanted (h : hal) : Prop :=
  num_svs (sv_status_gnss (reader h)) <> 0 /\ gps_nmea_end_tag h <> 0.

#[export] Instance location_wanted_dec h : Decision (location_wanted h).
Proof. unfold location_wanted. apply _. Defined.
#[export] Instance svs_wanted_dec h : Decision (svs_wanted h).
Proof. unfold svs_wanted. apply _. Defined.

Lemma location_due_spec h : location_due h = bool_decide (location_wanted h).
Proof.
  unfold location_due, location_wanted, LOC_FIXED, truthy. apply eq_true_iff_eq.
  rewrite bool_decide_eq_true, !andb_true_iff, orb_true_iff, !negb_true_iff, !Z.eqb_eq, !Z.eqb_neq. tauto.
Qed.

Lemma svs_due_spec h : svs_due h = bool_decide (svs_wanted h).
Proof.
  unfold svs_due, svs_wanted, truthy. apply eq_true_iff_eq.
  rewrite bool_decide_eq_true, !andb_true_iff, !negb_true_iff, !Z.eqb_neq. tauto.
Qed.

(** The state after the reports. *)
Lemma reported_state h :
  reader (reported h)
  = (reader h) ⟨ fix_ $= fun f => f ⟨ flags := if location_due h then 0 else flags f ⟩ ⟩
      ⟨ sv_count := if svs_due h then 0 else sv_count (reader h) ⟩
      ⟨ sv_status_gnss $= fun s => s ⟨ num_svs := if svs_due h then 0 else num_svs s ⟩ ⟩
  /\ sv_used_in_fix (reported h) = (if svs_due h then zeros 256 else sv_used_in_fix h)
  /\ trace (reported h) = trace h
     ++ (if location_due h then [LocationCb (fix_ (reader h));
           WriteLocation (nlp_of_fix (fix_ (reader h)) (u8 (started h)))] else [])
     ++ (if svs_due h then [GnssSvStatusCb (sv_status_gnss (reader h))] else []).
Proof.
  unfold reported. destruct (location_due h) eqn:Hl.
  - change (svs_due (location_reported h)) with (svs_due h).
    destruct (svs_due h); cbn; repeat split; try (by rewrite ?app_nil_r, <-?app_assoc);
      by destruct h as [[?????? [] ??? [] [] ?] ??????].
  - destruct (svs_due h); cbn; repeat split; try (by rewrite ?app_nil_r);
      by destruct h as [[?????? [] ??? [] [] ?] ??????].
Qed.

(** C9 (functional): what one sentence makes the framework see, with callbacks
    of MediaTek's size and the position log off.  A sentence that is too short
    changes nothing.  For every other one let [h1] be the state when its fields
    have been read, in which nothing has been reported yet.  The location of
    [h1] is reported, and written to the NLP file, exactly if there the fix is
    2D or 3D, the location has new data and the end tag is set; its flags are
    cleared then, and kept otherwise.  After that the satellites of [h1] are
    reported exactly if some wait and the end tag is set; then the table and the
    used-in-fix marks are emptied, and kept otherwise.  Nothing else is reported
    and nothing else of the reader changes; in the middle of a burst (end tag
    clear) the framework sees nothing. *)
Theorem nmea_reports (now : Z) (h h' : hal) :
  cb_size h = sizeof_GpsCallbacks -> get_prop (mnl_prop h) = 0 ->
  nmea_reader_parse sizeof_GpsCallbacks now h = Some (tt, h') ->
  (ignored h /\ h' = h)
  \/ (~ ignored h /\ exists h1, fields_read now h h1 /\ same_env h h1
      /\ let L := bool_decide (location_wanted h1) in
         let V := bool_decide (svs_wanted h1) in
         trace h' = trace h
           ++ (if L then [LocationCb (fix_ (reader h1));
                          WriteLocation (nlp_of_fix (fix_ (reader h1)) (u8 (started h)))] else [])
           ++ (if V then [GnssSvStatusCb (sv_status_gnss (reader h1))] else [])
         /\ reader h' = (reader h1) ⟨ fix_ $= fun f => f ⟨ flags := if L then 0 else flags f ⟩ ⟩
              ⟨ sv_count := if V then 0 else sv_count (reader h1) ⟩
              ⟨ sv_status_gnss $= fun s => s ⟨ num_svs := if V then 0 else num_svs s ⟩ ⟩
         /\ sv_used_in_fix h' = (if V then zeros 256 else sv_used_in_fix h1)
         /\ (gps_nmea_end_tag h = 0 -> trace h' = trace h)
         /\ (gps_nmea_end_tag h <> 0 ->
             (LOC_FIXED (reader h') = true -> flags (fix_ (reader h')) = 0)
             /\ num_svs (sv_status_gnss (reader h')) = 0)).
Proof.
  intros Hc Hp Hrun.
  destruct (parse_reported _ _ _ Hc Hp Hrun) as [[? ->]|(Hi & h1 & Hf & Henv & ->)]; [by left|].
  right. split; [done|]. exists h1. split; [done|]. split; [done|]. cbv zeta.
  destruct Henv as (E1 & E2 & E3 & _). rewrite <-E1, <-E2, <-E3, <-location_due_spec, <-svs_due_spec.
  destruct (reported_state h1) as (S1 & S2 & S3). rewrite S1, S2, S3.
  split_and!; [done..| |]; unfold location_due, svs_due, truthy.
  - intros ->. by rewrite !andb_false_r, !app_nil_r.
  - intros Ht. rewrite (proj2 (Z.eqb_neq _ _) Ht), !andb_true_r. cbn [fix_ flags fix_mode sv_status_gnss num_svs field_update].
    unfold LOC_FIXED. cbn [fix_mode field_update]. split.
    + intros ->. cbn [andb]. by destruct (Z.eqb_spec (flags (fix_ (reader h1))) 0).
    + by destruct (Z.eqb_spec (num_svs (sv_status_gnss (reader h1))) 0).
Qed.
End ReportProps.

(** The RMC sentence that ends a burst, with a fix and one satellite. *)
Definition rmc_state : hal :=
  let tz := fixed_zone 0 in
  let s := zs "$GPRMC,061830.00,A,2503.7100,N,12138.7400,W,000.5,054.7,070419,020.3,E*68" ++ [13; 10] in
  MkHal (MkNmeaReader (Z.of_nat (length s)) 0 (-1) (-1) (-1) 0 fix_zero 3 0 1
           (MkGpsSvStatus 0 [] 0 0 0) (MkGnssSvStatus 1 (replicate 64 sv_zero))
           (overlay s (zeros 129))) (zeros 256) 1 1 100 [] [].

Definition rmc_result : hal :=
  match @nmea_reader_parse aosp_gps_h (fixed_zone 0) 100 0 rmc_state with
  | Some (_, h) => h
  | None => rmc_state
  end.

Lemma nmea_reports_witness :
  length (trace rmc_result) = 3%nat /\
  exists h1, @fields_read aosp_gps_h (fixed_zone 0) 100 0 rmc_state h1
    /\ trace rmc_result
       = (if bool_decide (location_wanted h1)
          then [LocationCb (fix_ (reader h1)); WriteLocation (nlp_of_fix (fix_ (reader h1)) 1)] else [])
         ++ (if bool_decide (svs_wanted h1) then [GnssSvStatusCb (sv_status_gnss (reader h1))] else []).
Proof.
  split; [vm_compute; reflexivity|].
  destruct (@nmea_reports aosp_gps_h (fixed_zone 0) 100 0 rmc_state rmc_result)
    as [[_ E]|(_ & h1 & Hf & _ & Ht & _)]; [reflexivity|reflexivity|vm_compute; reflexivity|..].
  - apply (f_equal (fun h => length (trace h))) in E. vm_compute in E. discriminate E.
  - exists h1. split; [exact Hf|]. exact Ht.
Defined.
