(* ===== verification/NmeaTime.v ===== *)
(** * The time stamp of a fix

    nmea_reader_update_date and nmea_reader_update_time turn the UTC date and
    time of an RMC sentence into milliseconds since the Epoch by way of the
    local time functions of the C library. *)

From S2P Require Import Prelude CFloat Calendar HalBuff NmeaToken NmeaReader NmeaParse.

(** ** The decimal fields *)

Definition two (n : Z) : list Z := [48 + n / 10; 48 + n mod 10].

(** All strings of [n] digits. *)
Fixpoint digit_strings (n : nat) : list (list Z) :=
  match n with
  | O => [[]]
  | S n' => flat_map (fun s => map (fun d => d :: s) (seqZ 48 10)) (digit_strings n')
  end.

(** The decimals of the seconds: none, or a point and at most two digits. *)
Definition fractions : list (list Z) :=
  [] :: map (cons 46) (digit_strings 0 ++ digit_strings 1 ++ digit_strings 2).

Lemma digit_strings_complete ds :
  forallb is_digit ds = true -> ds ∈ digit_strings (length ds).
Proof.
  induction ds as [|d ds IH]; cbn [length digit_strings forallb]; [by left|].
  intros [Hd Hds]%andb_prop. apply list_elem_of_In, in_flat_map.
  exists ds. split; [by apply list_elem_of_In, IH|]. apply in_map_iff. exists d. split; [done|].
  apply list_elem_of_In, elem_of_seqZ. unfold is_digit in Hd. zbool; lia || done.
Qed.

Lemma fractions_complete ds :
  forallb is_digit ds = true -> (length ds <= 2)%nat -> (46 :: ds) ∈ fractions.
Proof.
  intros Hd Hl. apply digit_strings_complete in Hd. right. apply list_elem_of_In, in_map.
  rewrite <-list_elem_of_In, !elem_of_app.
  destruct ds as [|? [|? [|? ?]]]; cbn [length] in *; [tauto..|lia].
Qed.

(** A property of the two-digit numbers below [k], by enumeration. *)
Lemma below_enum (P : Z -> bool) k :
  forallb P (seqZ 0 k) = true -> forall n, 0 <= n < k -> P n = true.
Proof.
  intros HP n Hn. rewrite forallb_forall in HP. apply HP, list_elem_of_In, elem_of_seqZ. lia.
Qed.

Lemma field_int_two n : 0 <= n < 100 -> field_int (two n) = n.
Proof.
  intros Hn. apply Z.eqb_eq. revert n Hn. apply (below_enum (fun n => field_int (two n) =? n)).
  vm_compute. reflexivity.
Qed.

Lemma seconds_value s f :
  0 <= s < 60 -> f ∈ fractions -> d_to_int (field_float (two s ++ f)) = s.
Proof.
  intros Hs Hf.
  assert (forallb (fun f => forallb (fun s => d_to_int (field_float (two s ++ f)) =? s)
            (seqZ 0 60)) fractions = true) as Hall by (vm_compute; reflexivity).
  rewrite forallb_forall in Hall. apply list_elem_of_In, Hall in Hf.
  apply Z.eqb_eq. by apply (below_enum (fun s => d_to_int (field_float (two s ++ f)) =? s) 60).
Qed.

Lemma slice_all (s : list Z) n : n = Z.of_nat (length s) -> slice s 0 n = s.
Proof. intros ->. unfold slice. rewrite Z.sub_0_r, Nat2Z.id. apply take_ge. cbn. lia. Qed.

(** ** The property *)

(** What the reader makes of a well-formed date and time. *)
Definition rmc_date (r : NmeaReader) (d mo y : Z) : NmeaReader :=
  r ⟨ utc_year := 2000 + y ⟩ ⟨ utc_mon := mo ⟩ ⟨ utc_day := d ⟩.

Lemma dated_two r d mo y :
  0 <= d < 100 -> 0 <= mo < 100 -> 0 <= y < 100 ->
  dated r (two d ++ two mo ++ two y) = rmc_date r d mo y
  /\ date_bad (two d ++ two mo ++ two y) = false.
Proof.
  intros. unfold dated, date_bad, rmc_date.
  change (slice (two d ++ two mo ++ two y) 0 2) with (two d).
  change (slice (two d ++ two mo ++ two y) 2 4) with (two mo).
  change (slice (two d ++ two mo ++ two y) 4 6) with (two y).
  rewrite !field_int_two by lia. split; [by rewrite Z.add_comm|].
  apply Z.ltb_ge. rewrite !Z.lor_nonneg. lia.
Qed.

Lemma tod_two r h mi s f :
  0 <= h < 100 -> 0 <= mi < 100 -> 0 <= s < 60 -> f ∈ fractions ->
  tod r (two h ++ two mi ++ two s ++ f)
  = Tm s mi h (utc_day r) (utc_mon r - 1) (utc_year r - 1900) (-1).
Proof.
  intros. unfold tod.
  change (slice (two h ++ two mi ++ two s ++ f) 0 2) with (two h).
  change (slice (two h ++ two mi ++ two s ++ f) 2 4) with (two mi).
  change (drop 4 (two h ++ two mi ++ two s ++ f)) with (two s ++ f).
  by rewrite !field_int_two, seconds_value by (done || lia).
Qed.

Section TimeStamp.
Context `{GpsHeader} `{TimeZone}.

(** C11 (functional): for a well-formed RMC date (ddmmyy) and time
    (hhmmss, with up to two decimals), nmea_reader_update_date succeeds, and
    the time stamp is the UTC time of the sentence in milliseconds, whatever
    the time zone, as long as the C library's local time of that clock reading
    exists ([mktime] finds a time whose local time it is).  A clock reading
    that the local zone skips (the hour lost when summer time starts) gives a
    wrong time stamp. *)
Theorem rmc_timestamp (now : Z) (r : NmeaReader) (date time : Token) (d mo y h mi s : Z)
    (f : list Z) :
  mem_ok (in_ r) -> tok_ok (in_ r) date -> tok_ok (in_ r) time ->
  token_text (in_ r) date = two d ++ two mo ++ two y ->
  token_text (in_ r) time = two h ++ two mi ++ two s ++ f ->
  0 <= d < 100 -> 0 <= mo < 100 -> 0 <= y < 100 ->
  0 <= h < 100 -> 0 <= mi < 100 -> 0 <= s < 60 -> f ∈ fractions ->
  let t := Tm s mi h d (mo - 1) (2000 + y - 1900) (-1) in
  is_s32 (timegm t) ->
  let u := fst (mktime (snd (mktime t))) in
  is_s32 (u + gmtoff u) ->
  exists r', nmea_reader_update_date now date time r = Some (0, r')
    /\ (utc_year r', utc_mon r', utc_day r') = (2000 + y, mo, d)
    /\ (u + gmtoff u = timegm t -> timestamp (fix_ r') = 1000 * timegm t)
    /\ ((forall v, v + gmtoff v <> timegm t) -> timestamp (fix_ r') <> 1000 * timegm t).
Proof.
  intros Hm Hd Ht Etd Ett Rd Rmo Ry Rh Rmi Rs Hf t Hgm u Hu.
  assert (wp (nmea_reader_update_date now date time)
    (fun v r' => v = 0 /\ (utc_year r', utc_mon r', utc_day r') = (2000 + y, mo, d)
                 /\ timestamp (fix_ r') = s32 (u + gmtoff u) * 1000) r) as Hwp.
  { destruct (dated_two r d mo y) as [Hdated Hbad]; [done..|].
    apply wp_update_date; [done..|]. cbv zeta. rewrite Etd, Hdated, Hbad.
    apply wp_update_time; [done..|]. cbv zeta.
    change (in_ (rmc_date r d mo y)) with (in_ r). rewrite Ett.
    rewrite (proj2 (Z.leb_le _ _)) by (cbn; lia).
    assert (date_known now (rmc_date r d mo y) = rmc_date r d mo y) as ->.
    { unfold date_known. cbn [utc_year rmc_date field_update].
      by rewrite (proj2 (Z.ltb_ge _ _)) by lia. }
    rewrite tod_two by done. done. }
  apply wp_Some in Hwp as (v & r' & Hrun & -> & Hdate & Hts).
  rewrite s32_id in Hts by done. exists r'. rewrite Hts. split_and!; [done|done|intros ->; lia|].
  intros Hgap E. apply (Hgap u). lia.
Qed.
End TimeStamp.

(** 7 April 2019, 06:18:30.25 UTC, read in a zone eight hours east. *)
Definition rmc_reader : NmeaReader :=
  MkNmeaReader 0 0 (-1) (-1) (-1) 0 fix_zero 3 0 0 (MkGpsSvStatus 0 [] 0 0 0) (MkGnssSvStatus 0 [])
    (zs "061830.25,070419" ++ zeros 113).

Lemma rmc_timestamp_witness :
  let tz := fixed_zone 28800 in
  exists r', @nmea_reader_update_date tz 0 (MkToken IN 10 16) (MkToken IN 0 9) rmc_reader = Some (0, r')
    /\ timestamp (fix_ r') = 1554617910000.
Proof.
  intros tz.
  destruct (@rmc_timestamp tz 0 rmc_reader (MkToken IN 10 16) (MkToken IN 0 9) 7 4 19 6 18 30
              (zs ".25")) as (r' & Hr & _ & Hts & _);
    [by_decide..|reflexivity|reflexivity|lia|lia|lia|lia|lia|lia|by_decide|by_decide|by_decide|].
  exists r'. split; [exact Hr|]. rewrite Hts; vm_compute; reflexivity.
Defined.
