(* ===== verification/NmeaSats.v ===== *)
(** * The table of satellites in view

    The GSV sentences of a group fill the table the framework is shown.  Seen
    abstractly the table is a list: the satellites that wait to be reported,
    followed by those of the group being received. *)

From S2P Require Import Prelude CFloat Calendar HalBuff NmeaToken NmeaReader NmeaParse.

Section Satellites.
Context `{HL : GpsHeaderLaws}.

(** ** The abstract table *)

Definition waiting (h : hal) : list SvInfo :=
  take (Z.to_nat (num_svs (sv_status_gnss (reader h)))) (sv_list (sv_status_gnss (reader h))).

Definition visible (h : hal) : list SvInfo :=
  take (Z.to_nat (num_svs (sv_status_gnss (reader h)) + sv_count (reader h)))
       (sv_list (sv_status_gnss (reader h))).

(** One satellite of a GSV sentence, as its four fields say; an identifier the
    table does not take yields nothing. *)
Definition sat_of (used : list Z) (id : Z) (ele azi sn : list Z) : list SvInfo :=
  if gnss_ignored id then []
  else [MkSvInfo id (f_of_d (field_float sn)) (f_of_Z (field_int ele)) (f_of_Z (field_int azi))
          (1 =? default 0 (array_get used id))].

(** The satellites [idx .. idx + n - 1] of a sentence given by its fields. *)
Fixpoint sats_of (used : list Z) (bds : bool) (fld : Z -> list Z) (idx : Z) (n : nat) : list SvInfo :=
  match n with
  | O => []
  | S n' =>
      let b := 4 * (idx + 1) in
      let id := field_int (fld (b + 0)) in
      sat_of used (if bds then s32 (id + 200) else id) (fld (b + 1)) (fld (b + 2)) (fld (b + 3))
      ++ sats_of used bds fld (idx + 1) n'
  end.

(** ** Lemmas *)

Lemma take_take_app {A} n (l b : list A) : take n (take n l ++ b) = take n (l ++ b).
Proof.
  destruct (decide (length l <= n)%nat) as [Hl|Hl].
  - by rewrite (take_ge l) by done.
  - rewrite take_app_le by (rewrite length_take; lia).
    rewrite take_take, (take_app_le l) by lia. by rewrite Nat.min_id.
Qed.

(** The table while the satellites of a sentence are added. *)
Record sat_inv (mem used : list Z) (n : Z) (h : hal) : Prop := {
  si_mem : in_ (reader h) = mem;
  si_used : sv_used_in_fix h = used;
  si_num : num_svs (sv_status_gnss (reader h)) = n;
  si_len : Z.of_nat (length (sv_list (sv_status_gnss (reader h)))) = GNSS_MAX_SVS;
  si_count : 0 <= n /\ 0 <= sv_count (reader h) /\ n + sv_count (reader h) <= GNSS_MAX_SVS;
}.

Lemma length_visible mem used n h :
  sat_inv mem used n h -> Z.of_nat (length (visible h)) = n + sv_count (reader h).
Proof. intros []. unfold visible. rewrite length_take, si_num0. lia. Qed.

Lemma waiting_visible mem used n h :
  sat_inv mem used n h -> waiting h = take (Z.to_nat n) (visible h).
Proof.
  intros []. unfold waiting, visible. rewrite si_num0, take_take. f_equal. lia.
Qed.

Lemma visible_full mem used n h v :
  sat_inv mem used n h -> n + sv_count (reader h) = GNSS_MAX_SVS ->
  take (Z.to_nat GNSS_MAX_SVS) (visible h ++ v) = visible h.
Proof.
  intros Hs Hf. pose proof (length_visible _ _ _ _ Hs).
  apply take_app_length'. lia.
Qed.

Lemma wp_update_gnss mem used n h id ele azi sn :
  mem_ok mem -> length used = 256%nat -> tok_ok mem ele -> tok_ok mem azi -> tok_ok mem sn ->
  sat_inv mem used n h ->
  wp (nmea_reader_update_sv_status_gnss id ele azi sn)
     (fun _ h' => sat_inv mem used n h' /\ (sv_count (reader h) <= sv_count (reader h')) /\
        visible h' = take (Z.to_nat GNSS_MAX_SVS) (visible h ++
          sat_of used id (token_text mem ele) (token_text mem azi) (token_text mem sn))) h.
Proof using HL.
  intros Hm Hu He Ha Hs Hinv. unfold nmea_reader_update_sv_status_gnss, sat_of.
  pose proof gnss_max_range. pose proof gps_max_range. pose proof (length_visible _ _ _ _ Hinv) as Hvis.
  assert (forall v, n + sv_count (reader h) = GNSS_MAX_SVS ->
    take (Z.to_nat GNSS_MAX_SVS) (visible h ++ v) = visible h) as Hfull
    by (intros; by eapply visible_full).
  pose proof Hinv as [Hmem Hused Hnum Hlen Hcount].
  apply wp_bind, wp_on_part, wp_gets, wp_if; intros Hig.
  { wps. split; [by split|]. split; [cbn; lia|]. destruct (gnss_ignored id).
    - rewrite app_nil_r, take_ge by lia. done.
    - rewrite Hfull; [done|]. cbn [orb] in Hig. rewrite Z.geb_leb in Hig. zbool; done || lia. }
  apply orb_false_elim in Hig as [Hid Hc]. rewrite Hid, Z.geb_leb in *.
  apply wp_bind, wp_on_part, wp_gets. cbn [reader field_update] in *. rewrite Hnum.
  rewrite s32_id by (unfold is_s32; lia).
  apply wp_if; intros Hidx.
  { wps. split; [by split|]. split; [cbn; lia|]. rewrite Hfull; [done|]. zbool; done || lia. }
  rewrite <-Hmem in Hm, He, Ha, Hs.
  apply wp_bind, wp_on_part, wp_sv_fields; [exact Hm|exact He|exact Ha|exact Hs|].
  apply wp_bind, wp_gets. cbn [sv_used_in_fix field_update reader].
  destruct (array_get_Some (sv_used_in_fix h) id) as (u & Hu' & _).
  { rewrite Hused, Hu. unfold gnss_ignored in Hid. zbool; lia || done. }
  apply wp_bind. eapply wp_lift; [exact Hu'|].
  apply wp_bind, wp_on_part, wp_gets, wp_bind. cbn [sv_used_in_fix field_update reader].
  eapply wp_lift; [apply array_set_Some; zbool; lia|].
  apply wp_bind, wp_on_part, wp_modify, wp_on_part, wp_modify.
  rewrite Hused in Hu'. rewrite Hu', Hmem. cbn [default].
  split; [split; cbn; rewrite ?length_insert; done || (zbool; lia)|].
  split; [cbn; lia|]. rewrite take_ge by (rewrite length_app; cbn [length]; zbool; lia).
  unfold visible. cbn [reader field_update sv_status_gnss num_svs sv_list sv_count].
  rewrite Hnum. replace (Z.to_nat (n + (sv_count (reader h) + 1)))
    with (S (Z.to_nat (sv_count (reader h) + n))) by lia.
  erewrite take_S_r by (apply list_lookup_insert_eq; zbool; lia).
  rewrite take_insert_ge by lia. by replace (sv_count (reader h) + n) with (n + sv_count (reader h)) by lia.
Qed.

Lemma wp_gsv_loop mem used n bds tz idx k h :
  mem_ok mem -> length used = 256%nat -> tz_ok mem tz -> sat_inv mem used n h ->
  wp (gsv_loop nmea_reader_update_sv_status_gnss bds tz idx k)
     (fun _ h' => sat_inv mem used n h' /\
        visible h' = take (Z.to_nat GNSS_MAX_SVS) (visible h ++
          sats_of used bds (fun i => token_text mem (nmea_tokenizer_get tz i)) idx k)) h.
Proof using HL.
  intros Hm Hu Htz. revert idx h. induction k as [|k IH]; intros idx h Hinv; cbn [gsv_loop sats_of].
  { wps. split; [done|]. rewrite app_nil_r, take_ge; [done|].
    pose proof (length_visible _ _ _ _ Hinv). destruct Hinv. lia. }
  unfold tok_int, in_mem. wps. rewrite (si_mem _ _ _ _ Hinv).
  eapply wp_lift; [apply tok2int_field; [apply Hm|apply Htz]|]. wps.
  eapply wp_mono; [apply (wp_update_gnss mem used n); try done; apply Htz|].
  intros ? h1 (Hinv1 & _ & Hv). eapply wp_mono; [by apply IH|].
  intros ? h2 [Hinv2 Hv2]. split; [done|]. by rewrite Hv2, Hv, take_take_app, app_assoc.
Qed.

(** C8 (refinement): one GSV sentence (message [seq] of [num] of a group that
    announces [cnt] satellites) on the abstract table.  The first message of a
    group starts it afresh; each message appends its satellites, as far as the
    table goes; the last one makes the group wait for the report together with
    those of the other constellations, unless the group has more satellites
    than announced, in which case everything waiting is thrown away. *)
Theorem gsv_refines_table (bds : bool) (mem : list Z) (tz : NmeaTokenizer) (h : hal) (num seq cnt : Z) :
  let fld i := token_text mem (nmea_tokenizer_get tz i) in
  mem_ok mem -> tz_ok mem tz ->
  num = field_int (fld 1) -> seq = field_int (fld 2) -> cnt = field_int (fld 3) ->
  let start := if seq =? 1 then h ⟨ reader $= fun r => r ⟨ sv_count := 0 ⟩ ⟩ else h in
  length (sv_used_in_fix h) = 256%nat ->
  sat_inv mem (sv_used_in_fix h) (num_svs (sv_status_gnss (reader h))) start ->
  exists h', parse_gsv_gnss bds tz h = Some (tt, h') /\
    let table := take (Z.to_nat GNSS_MAX_SVS)
      (visible start ++ sats_of (sv_used_in_fix h) bds fld 0 (Z.to_nat (gsv_sv_num seq cnt))) in
    let group := Z.of_nat (length table) - num_svs (sv_status_gnss (reader h)) in
    if seq =? num then
      if group <=? cnt then waiting h' = table else waiting h' = [] /\ sv_count (reader h') = 0
    else visible h' = table /\ waiting h' = waiting h.
Proof using HL.
  intros fld Hm Htz Enum Eseq Ecnt start Hused Hinv.
  set (used := sv_used_in_fix h) in *. set (n := num_svs (sv_status_gnss (reader h))) in *.
  set (table := take _ _).
  assert (in_ (reader h) = mem) as Hmem.
  { rewrite <-(si_mem _ _ _ _ Hinv). subst start. by destruct (seq =? 1). }
  enough (wp (parse_gsv_gnss bds tz) (fun _ h' =>
    if seq =? num then
      if Z.of_nat (length table) - n <=? cnt then waiting h' = table
      else waiting h' = [] /\ sv_count (reader h') = 0
    else visible h' = table /\ waiting h' = waiting h) h) as Hwp.
  { apply wp_Some in Hwp as ([] & h' & Hrun & HQ). eauto. }
  pose proof gnss_max_range.
  assert (forall i, tok2int mem (nmea_tokenizer_get tz i) = Some (field_int (fld i))) as Hint
    by (intros; apply tok2int_field; [apply Hm|apply Htz]).
  unfold parse_gsv_gnss, parse_gsv, tok_int, in_mem.
  do 3 (wps; rewrite Hmem; eapply wp_lift; [apply Hint|]).
  rewrite <-Enum, <-Eseq, <-Ecnt.
  apply wp_bind, (wp_mono _ (fun _ h' => h' = start)).
  { subst start. apply wp_when; intros ->; [by wps|done]. }
  intros ? ? ->. apply wp_bind.
  eapply wp_mono; [by eapply (wp_gsv_loop mem used n)|]. intros ? h1 [Hinv1 Hv]. change (visible h1 = table) in Hv.
  pose proof (length_visible _ _ _ _ Hinv1) as Hlen. rewrite Hv in Hlen.
  destruct (seq =? num); cbn [cwhen].
  - apply wp_bind, wp_on_part, wp_gets. rewrite Hlen, Z.add_simpl_l. cbn [reader field_update].
    destruct (sv_count (reader h1) <=? cnt); wps; [|done].
    rewrite <-Hv. unfold waiting, visible. cbn. destruct Hinv1.
    rewrite s32_id by (unfold is_s32; lia). done.
  - apply wp_ret. split; [done|].
    rewrite (waiting_visible _ _ _ _ Hinv1), Hv. subst table.
    rewrite take_take, Nat.min_l by (destruct Hinv; lia).
    rewrite take_app_le by (pose proof (length_visible _ _ _ _ Hinv); destruct Hinv; lia).
    rewrite <-(waiting_visible _ _ _ _ Hinv). subst start. by destruct (seq =? 1).
Qed.
End Satellites.

(** Two messages of a group of five satellites; number 45 of no constellation
    is not taken. *)
Definition gsv_memory : list Z :=
  zs "GPGSV,2,1,05,04,75,001,42,45,40,083,46,16,17,308,41,12,07,344,39" ++ zeros 65.

Definition gsv_tokens : NmeaTokenizer :=
  default (MkTokenizer 0 []) (nmea_tokenizer_init gsv_memory 0 64).

Definition gsv_hal : hal :=
  MkHal (MkNmeaReader 64 0 (-1) (-1) (-1) 0 fix_zero 3 0 9
           (MkGpsSvStatus 0 [] 0 0 0) (MkGnssSvStatus 7 (replicate 64 sv_zero))
           gsv_memory) (<[4%nat := 1]> (zeros 256)) 1 1 100 [] [].

Lemma gsv_refines_table_witness :
  exists h', @parse_gsv_gnss aosp_gps_h false gsv_tokens gsv_hal = Some (tt, h') /\
    (fun s => (prn s, used_in_fix s)) <$> drop 7 (visible h') = [(4, true); (16, false); (12, false)].
Proof.
  assert (Hwf : tokenizer_wf 0 64 gsv_tokens /\ 64 < Z.of_nat (length gsv_memory)).
  { split; [|vm_compute; reflexivity].
    split; [reflexivity|]. split; [vm_compute; discriminate|]. by_decide. }
  destruct (@gsv_refines_table aosp_gps_h aosp_gps_h_laws false gsv_memory gsv_tokens gsv_hal 2 1 5)
    as (h' & Hrun & Hv).
  - by_decide.
  - intros i. eapply tokenizer_get_ok; [|apply Hwf|apply Hwf]. lia.
  - vm_compute; reflexivity.
  - vm_compute; reflexivity.
  - vm_compute; reflexivity.
  - reflexivity.
  - split; [reflexivity..|]. cbn. lia.
  - exists h'. split; [exact Hrun|]. change (1 =? 2) with false in Hv. destruct Hv as [-> _].
    vm_compute. reflexivity.
Defined.

(** ** Two corners of the code, on concrete input

    The last message of a group, repeated, is counted again each time: the
    number reported can exceed the table. *)
Fixpoint times {A} (n : nat) (l : list A) : list A :=
  match n with O => [] | S n' => l ++ times n' l end.

Lemma gsv_repeat_overruns :
  let s := times 6 (zs "$GPGSV,2,2,64,01,01,01,01,02,01,01,01,03,01,01,01,04,01,01,01" ++ [10]) in
  match nmea_reader_init (H := aosp_gps_h) (H0 := fixed_zone 0) 0 (gmtime 0) with
  | Some r =>
      match gps_device_data (H := aosp_gps_h) (H0 := fixed_zone 0) 100 0 s (MkHal r (zeros 256) 0 1 100 [] []) with
      | Some (_, h) => exists st, GnssSvStatusCb st ∈ trace h /\ num_svs st = 80
      | None => False
      end
  | None => False
  end.
Proof.
  vm_compute. eexists. split; [do 5 right; left|reflexivity].
Qed.

(** With the position log enabled, a latitude in exponent notation overruns
    the 64-byte text. *)
Lemma position_log_overruns :
  let s := zs "$GPGGA,061830.00,1e+300,N,12138.7400,W,1,8,1.0,12.3,M,,M,,*47" ++ [10] in
  match nmea_reader_init (H := aosp_gps_h) (H0 := fixed_zone 0) 0 (gmtime 0) with
  | Some r =>
      gps_device_data (H := aosp_gps_h) (H0 := fixed_zone 0) 100 0 s
        (MkHal (r ⟨ fix_mode := 3 ⟩) (zeros 256) 0 1 100 (zs "0000001") []) = None
  | None => False
  end.
Proof. vm_compute. reflexivity. Qed.
