(* ===== verification/EpoTime.v ===== *)
(** * EPO files: times and expiry (gps_mtk_aosp.c: GpsToUtcTime,
      mtk_gps_sys_epo_period_*, mtk_gps_epo_file_time_hal, mtk_epo_is_expired)

    An EPO (extended prediction orbit) file is a sequence of 72-byte records
    that start with a GPS time in hours.  The HAL converts the times of the
    first and last record to [time_t] and decides whether to download again. *)

From stdpp Require Import gmap.
From S2P Require Import Prelude Calendar.

(** ** GPS time *)

(** The [doy] table, with the leap year correction. *)
Definition doy (leap : bool) (i : nat) : Z :=
  nth i [0; 31; 59; 90; 120; 151; 181; 212; 243; 273; 304; 334] 0
  + (if leap && (2 <=? Z.of_nat i) then 1 else 0).

(** The year 1980 + [y] is a leap year, as the code decides it. *)
Definition leap_1980 (y : Z) : bool :=
  if Z.rem y 100 =? 20 then Z.rem y 400 =? 20 else Z.rem y 4 =? 0.

(** The loop that decides the year; it ends since every round takes 365 days. *)
Fixpoint year_loop (fuel : nat) (y d : Z) : Z * Z :=
  match fuel with
  | O => (y, d)
  | S fuel' =>
      if 365 <=? d then
        if Z.rem y 100 =? 20 then
          if Z.rem y 400 =? 20 then
            if 366 <=? d then year_loop fuel' (y + 1) (d - 366) else (y, d)
          else year_loop fuel' (y + 1) (d - 365)
        else if Z.rem y 4 =? 0 then
          if 366 <=? d then year_loop fuel' (y + 1) (d - 366) else (y, d)
        else year_loop fuel' (y + 1) (d - 365)
      else (y, d)
  end.

Fixpoint month_loop (leap : bool) (d : Z) (i n : nat) : nat :=
  match n with
  | O => i
  | S n' => if d <? doy leap i then i else month_loop leap d (S i) n'
  end.

(** [GpsToUtcTime(i2Wn, dfTow)] up to the call of [mktime].  The callers pass
    an unsigned time of week: the doubles of the code hold integers exactly. *)
Definition GpsToUtcTm (i2Wn dfTow : Z) : tm :=
  let iDaysElapsed := u32 (i2Wn * 7 + Z.quot dfTow 86400 + 5) in
  let dfSecElapsed := dfTow - Z.quot dfTow 86400 * 86400 in
  let '(iYearsElapsed, iDaysElapsed) := year_loop (S (Z.to_nat iDaysElapsed)) 0 iDaysElapsed in
  let pi2Yr := 1980 + iYearsElapsed in
  let fgLeapYear := leap_1980 iYearsElapsed in
  let i := month_loop fgLeapYear iDaysElapsed 0 12 in
  let pi2Mo := Z.of_nat i in
  let pi2Day := if 0 <? Z.of_nat i then iDaysElapsed - doy fgLeapYear (i - 1) + 1 else 0 in
  let pi2Hr := Z.quot dfSecElapsed 3600 in
  let pi2Min := Z.quot (Z.rem dfSecElapsed 3600) 60 in
  let pdfSec := dfSecElapsed - Z.quot dfSecElapsed 60 * 60 in
  Tm pdfSec pi2Min pi2Hr pi2Day (pi2Mo - 1) (pi2Yr - 1900) (-1).

Definition GpsToUtcTime `{TimeZone} (i2Wn dfTow : Z) : Z := fst (mktime (GpsToUtcTm i2Wn dfTow)).

(** ** Files

    The file system the EPO code works on: the files with their bytes and
    modification time; opening or locking may be refused. *)

Record file := MkFile {
  content : list Z;
  st_mtime : Z;
  can_open : bool;
  can_lock : bool;
}.

Definition fs := gmap string file.

Definition EPO_FILE : string := "/data/misc/gps/EPO.DAT".
Definition EPO_FILE_HAL : string := "/data/misc/gps/EPOHAL.DAT".
Definition MTK_EPO_ONE_SV_SIZE : Z := 72.

Definition file_size (f : file) : Z := Z.of_nat (length (content f)).

(** [access(name, F_OK) == 0] *)
Definition access_ok (s : fs) (name : string) : bool :=
  match s !! name with Some _ => true | None => false end.

(** The file the EPO functions look at: EPOHAL.DAT if there, else EPO.DAT. *)
Definition epo_file (s : fs) : option string :=
  if access_ok s EPO_FILE_HAL then Some EPO_FILE_HAL
  else if access_ok s EPO_FILE then Some EPO_FILE else None.

Definition mtk_gps_sys_get_file_size (s : fs) : Z :=
  match epo_file s with
  | None => u32 (-1)
  | Some name => match s !! name with Some f => u32 (file_size f) | None => 0 end
  end.

(** [read(fd, szBuf, 72)] at an offset: all 72 bytes, or failure. *)
Definition read_record (f : file) (off : Z) : option (list Z) :=
  buf_read (content f) off MTK_EPO_ONE_SV_SIZE.

(** The 24-bit hour count at the start of a record, in seconds. *)
Definition record_secs (szBuf : list Z) : Z :=
  u32 (Z.land (le_val (take 4 szBuf)) 16777215 * 3600).

Definition secs_to_time `{TimeZone} (u4GpsSecs : Z) : Z :=
  GpsToUtcTime (s32 (u4GpsSecs / 604800)) (u4GpsSecs mod 604800).

Definition mtk_gps_sys_epo_period_start `{TimeZone} (f : file) : option Z :=
  szBuf ← read_record f 0;
  Some (secs_to_time (record_secs szBuf)).

Definition mtk_gps_sys_epo_period_end `{TimeZone} (s : fs) (f : file) : option Z :=
  let fileSize := s32 (mtk_gps_sys_get_file_size s) in
  if fileSize <? MTK_EPO_ONE_SV_SIZE then None
  else
    szBuf ← read_record f (fileSize - MTK_EPO_ONE_SV_SIZE);
    Some (secs_to_time (u32 (record_secs szBuf + 21600))).

(** uTime[0 .. 2]: start, download and expiry time. *)
Record epo_times := MkTimes { t_start : Z; t_download : Z; t_expire : Z }.

#[export] Instance epo_times_rebuild : Rebuild epo_times := fun r =>
  MkTimes (t_start r) (t_download r) (t_expire r).

(** The result code and the array, which may be filled in part. *)
Definition mtk_gps_epo_file_time_hal `{TimeZone} (s : fs) (uTime : epo_times) : Z * epo_times :=
  match epo_file s with
  | None => (-1, uTime)
  | Some name =>
      match s !! name with
      | None => (-1, uTime)
      | Some f =>
          if negb (can_open f) then (-1, uTime)
          else if negb (can_lock f) then (-1, uTime)
          else
            match mtk_gps_sys_epo_period_start f with
            | None => (-1, uTime)
            | Some st =>
                let uTime := uTime ⟨ t_start := st ⟩ ⟨ t_download := st_mtime f ⟩ in
                match mtk_gps_sys_epo_period_end s f with
                | None => (-1, uTime)
                | Some ex => (0, uTime ⟨ t_expire := ex ⟩)
                end
            end
      end
  end.

(** The settings of gps.conf that the expiry depends on. *)
Record epo_conf := MkConf {
  gps_epo_period : Z;
  wifi_epo_period : Z;
  gps_epo_download_days : Z;
  gps_epo_enable : Z;
  gps_epo_wifi_trigger : Z;
}.

#[export] Instance epo_conf_rebuild : Rebuild epo_conf := fun r =>
  MkConf (gps_epo_period r) (wifi_epo_period r) (gps_epo_download_days r) (gps_epo_enable r)
         (gps_epo_wifi_trigger r).

Definition day : Z := 24 * 60 * 60.

(** The age at which the file is to be replaced. *)
Definition expired_set (wifi : bool) (c : epo_conf) (u : epo_times) : Z :=
  let etime := s32 (gps_epo_period c * 24 * 60 * 60) in
  if wifi then wifi_epo_period c * 24 * 60 * 60
  else if t_expire u - t_start u <? etime then
    let download_day := s32 (Z.quot (t_expire u - t_start u) day) in
    if download_day <? 3 then 0
    else if download_day <? 6 then 2 * day
    else if (6 <=? download_day) && (download_day <? 9) then 5 * day
    else if (9 <=? download_day) && (download_day <? 12) then 7 * day
    else if (12 <=? download_day) && (download_day <? 15) then 7 * day
    else if (15 <=? download_day) && (download_day <? 18) then 7 * day
    else if 18 <=? download_day then 7 * day else 0
  else etime.

(** 1 if expired; the caller's file counter is reset then. *)
Definition mtk_epo_is_expired `{TimeZone} (wifi_tragger : bool) (now : Z) (c : epo_conf) (s : fs)
  : Z :=
  let time_utc := u32 (fst (mktime (gmtime now))) in
  let '(_, uTime) := mtk_gps_epo_file_time_hal s (MkTimes 0 0 0) in
  if time_utc >=? expired_set wifi_tragger c uTime + t_start uTime then 1 else 0.

(** ** Lemmas *)

Lemma leap_1980_is_leap y : 0 <= y -> leap_1980 y = is_leap (1980 + y).
Proof.
  intros Hy. unfold leap_1980, is_leap. rewrite !Z.rem_mod_nonneg by lia.
  assert ((1980 + y) mod 100 = 0 <-> y mod 100 = 20) as H1 by zdiv.
  assert ((1980 + y) mod 400 = 0 <-> y mod 400 = 20) as H2 by zdiv.
  assert ((1980 + y) mod 4 = 0 <-> y mod 4 = 0) as H3 by zdiv.
  destruct (Z.eqb_spec (y mod 100) 20), (Z.eqb_spec ((1980 + y) mod 100) 0); try tauto;
  destruct (Z.eqb_spec (y mod 400) 20), (Z.eqb_spec ((1980 + y) mod 400) 0); try tauto;
  destruct (Z.eqb_spec (y mod 4) 0), (Z.eqb_spec ((1980 + y) mod 4) 0); try tauto; cbn; try done.
  all: exfalso; zdiv.
Qed.

(** The loop takes whole years off. *)
Lemma year_loop_step fuel y d :
  0 <= y ->
  year_loop (S fuel) y d
  = if year_len (1980 + y) <=? d then year_loop fuel (y + 1) (d - year_len (1980 + y)) else (y, d).
Proof.
  intros Hy. cbn [year_loop]. unfold year_len. rewrite <-leap_1980_is_leap by done.
  unfold leap_1980.
  destruct (Z.leb_spec 365 d), (Z.rem y 100 =? 20), (Z.rem y 400 =? 20), (Z.rem y 4 =? 0);
    repeat match goal with |- context [?a <=? ?b] => destruct (Z.leb_spec a b) end;
    try done; lia.
Qed.

Lemma year_loop_spec fuel y d :
  0 <= y -> 0 <= d -> (Z.to_nat d < fuel)%nat ->
  let '(y', d') := year_loop fuel y d in
  days_before_year (1980 + y') + d' = days_before_year (1980 + y) + d
  /\ 0 <= y' /\ 0 <= d' < year_len (1980 + y').
Proof.
  revert y d. induction fuel as [|fuel IH]; intros y d Hy Hd Hf; [lia|].
  rewrite year_loop_step by done. pose proof (year_len_bounds (1980 + y)).
  destruct (Z.leb_spec (year_len (1980 + y)) d); [|cbn; lia].
  specialize (IH (y + 1) (d - year_len (1980 + y))).
  replace (1980 + (y + 1)) with (1980 + y + 1) in IH by lia.
  rewrite days_before_year_succ in IH. destruct (year_loop _ _ _).
  destruct IH as (? & ? & ?); lia.
Qed.

(** The table search finds the month, for each day of a year. *)
Definition month_ok (leap : bool) (d : Z) : bool :=
  let i := month_loop leap d 0 12 in
  (1 <=? Z.of_nat i) && (Z.of_nat i <=? 12) && (doy leap (i - 1) <=? d)
  && (d <? (if Z.of_nat i =? 12 then (if leap then 366 else 365) else doy leap i)).

Lemma month_ok_all (leap : bool) (d : Z) : 0 <= d < (if leap then 366 else 365) -> month_ok leap d = true.
Proof.
  intros Hd.
  assert (forallb (month_ok leap) (seqZ 0 (if leap then 366 else 365)) = true) as Hall
    by (destruct leap; vm_compute; reflexivity).
  rewrite forallb_forall in Hall. apply Hall, list_elem_of_In, elem_of_seqZ. lia.
Qed.

Lemma doy_spec y m :
  (m < 12)%nat -> days_before_month y m = doy (is_leap y) m
  /\ month_len y (Z.of_nat m)
     = (if (Z.of_nat m =? 11) then year_len y else doy (is_leap y) (S m)) - doy (is_leap y) m.
Proof.
  intros Hm. unfold year_len, month_len.
  do 12 (destruct m as [|m];
    [cbn [days_before_month]; unfold month_len; destruct (is_leap y); split; reflexivity|]). lia.
Qed.

(** The broken-down time is the civil UTC time (without leap seconds) of the
    GPS time: valid, and the right number of seconds after the Epoch; the GPS
    epoch is 1980-01-06, 315964800. *)
Lemma GpsToUtcTm_spec wn tow :
  0 <= wn -> 7 * wn + 12 < 2 ^ 32 -> 0 <= tow < 604800 ->
  timegm (GpsToUtcTm wn tow) = 315964800 + 604800 * wn + tow /\ tm_valid (GpsToUtcTm wn tow).
Proof.
  intros Hwn Hmax Htow. unfold GpsToUtcTm. rewrite !Z.quot_div_nonneg by lia.
  assert (0 <= tow / 86400 < 7) as Hq by zdiv.
  rewrite uwrap_id by lia.
  set (D := wn * 7 + tow / 86400 + 5).
  pose proof (year_loop_spec (S (Z.to_nat D)) 0 D) as Hy.
  destruct (year_loop _ _ _) as [y d]. destruct Hy as (Hd & Hy & Hdy); [lia..|].
  rewrite leap_1980_is_leap by done.
  pose proof (month_ok_all (is_leap (1980 + y)) d) as Hm. fold (year_len (1980 + y)) in Hm.
  specialize (Hm Hdy). unfold month_ok in Hm. set (i := month_loop _ d 0 12) in *.
  rewrite !andb_true_iff, !Z.leb_le, Z.ltb_lt in Hm. destruct Hm as (((Hi1 & Hi2) & Hlo) & Hhi).
  rewrite (proj2 (Z.ltb_lt 0 _)) by lia.
  set (r := tow - tow / 86400 * 86400). assert (0 <= r < 86400) as Hr by (subst r; zdiv).
  rewrite Z.quot_div_nonneg, Z.rem_mod_nonneg, !Z.quot_div_nonneg by (lia || zdiv).
  destruct (doy_spec (1980 + y) (i - 1)) as [Hdm Hml]; [lia|].
  replace (Z.of_nat (i - 1)) with (Z.of_nat i - 1) in Hml by lia.
  unfold timegm, tm_valid. cbn [tm_sec tm_min tm_hour tm_mday tm_mon tm_year].
  replace (1900 + (1980 + y - 1900)) with (1980 + y) by lia.
  rewrite day_number_in_year by lia.
  replace (Z.to_nat (Z.of_nat i - 1)) with (i - 1)%nat by lia. rewrite Hdm, Hml.
  change (days_before_year (1980 + 0)) with 3652 in Hd.
  assert (3600 * (r / 3600) + 60 * (r mod 3600 / 60) + (r - r / 60 * 60) = r
    /\ 0 <= r / 3600 < 24 /\ 0 <= r mod 3600 / 60 < 60 /\ 0 <= r - r / 60 * 60 < 60) as Hs by zdiv.
  replace (S (i - 1)) with i by lia.
  split; [subst r D; lia|].
  split; [lia|]. split; [|lia].
  destruct (Z.eqb_spec (Z.of_nat i) 12); [rewrite (proj2 (Z.eqb_eq _ 11)) by lia; unfold year_len; lia|].
  rewrite (proj2 (Z.eqb_neq _ 11)) by lia. lia.
Qed.

Lemma record_secs_range r : 0 <= record_secs r < 2 ^ 32.
Proof. apply uwrap_range. lia. Qed.

Lemma week_split s :
  0 <= s < 2 ^ 32 ->
  s32 (s / 604800) = s / 604800 /\ 0 <= s / 604800 /\ 7 * (s / 604800) + 12 < 2 ^ 32
  /\ 0 <= s mod 604800 < 604800 /\ 604800 * (s / 604800) + s mod 604800 = s.
Proof.
  intros Hs. assert (0 <= s / 604800 <= 7101) by zdiv.
  rewrite s32_id by (unfold is_s32; lia). pose proof (Z.mod_pos_bound s 604800).
  pose proof (Z.div_mod s 604800). lia.
Qed.

(** The age limit as a table over the span of the data in seconds: over WiFi
    the period of the WiFi setting; otherwise the period of the GPS setting if
    the data span it, and a part of the span if they do not. *)
Definition age_limit (wifi : bool) (c : epo_conf) (span : Z) : Z :=
  if wifi then 86400 * wifi_epo_period c
  else if 86400 * gps_epo_period c <=? span then 86400 * gps_epo_period c
  else if span <? 259200 then 0           (* three days *)
  else if span <? 518400 then 172800      (* six days: two *)
  else if span <? 777600 then 432000      (* nine days: five *)
  else 604800.                            (* seven *)

Lemma expired_set_limit wifi c u :
  0 <= gps_epo_period c <= 30 -> Z.abs (t_expire u - t_start u) < 2 ^ 40 ->
  expired_set wifi c u = age_limit wifi c (t_expire u - t_start u).
Proof.
  intros Hc Hu. unfold expired_set, age_limit, day. set (span := t_expire u - t_start u) in *.
  destruct wifi; [lia|]. rewrite (s32_id (gps_epo_period c * 24 * 60 * 60)) by (unfold is_s32; lia).
  change (24 * 60 * 60) with 86400.
  destruct (Z.ltb_spec span (gps_epo_period c * 24 * 60 * 60)), (Z.leb_spec (86400 * gps_epo_period c) span); try lia.
  rewrite s32_id by (unfold is_s32; zdiv). generalize (Z.quot span 86400) as q, (Z.quot_rem' span 86400).
  intros q Hq. pose proof (Z.rem_bound_abs span 86400 ltac:(lia)). pose proof (Z.rem_sign_mul span 86400 ltac:(lia)).
  repeat (case_match; zbool); lia || nia.
Qed.

(** The age limit never exceeds what the data covers. *)
Lemma age_limit_le_span c span : 0 <= span -> age_limit false c span <= span.
Proof. intros. unfold age_limit. repeat case_match; zbool; lia. Qed.

(** ** Properties *)

(** C15 (functional): the conversion of an EPO record's GPS time: for every
    32-bit count of seconds since the GPS epoch, GpsToUtcTime hands mktime a
    valid calendar date whose UTC time is exactly that many seconds after
    1980-01-06 00:00:00; leap years, centuries and month ends included. *)
Theorem gps_to_utc_exact (secs : Z) :
  is_u32 secs ->
  let t := GpsToUtcTm (s32 (secs / 604800)) (secs mod 604800) in
  timegm t = 315964800 + secs /\ tm_valid t.
Proof.
  intros Hs t. destruct (week_split secs Hs) as (Hw & Hw0 & Hmax & Hm & Hsum).
  subst t. rewrite Hw. destruct (GpsToUtcTm_spec (secs / 604800) (secs mod 604800)) as [Ht Hv]; [lia..|].
  split; [lia|done].
Qed.

Lemma gps_to_utc_exact_witness :
  timegm (GpsToUtcTm (s32 (1266214728 / 604800)) (1266214728 mod 604800)) = 1582179528
  /\ GpsToUtcTm (s32 (1266214728 / 604800)) (1266214728 mod 604800) = Tm 48 18 6 20 1 120 (-1).
Proof.
  split; [|vm_compute; reflexivity].
  refine (proj1 (gps_to_utc_exact 1266214728 _)). by_decide.
Defined.

(** A zone at a constant distance from UTC, on valid dates. *)
Definition constant_zone `{TimeZone} (off : Z) : Prop :=
  forall t, tm_valid t -> fst (mktime t) = timegm t - off.

Lemma secs_to_time_spec `{TimeZone} off secs :
  constant_zone off -> is_u32 secs -> secs_to_time secs = 315964800 + secs - off.
Proof.
  intros Hz Hs. unfold secs_to_time, GpsToUtcTime.
  destruct (week_split secs Hs) as (-> & Hw0 & Hmax & Hm & Hsum).
  destruct (GpsToUtcTm_spec (secs / 604800) (secs mod 604800)) as [Ht Hv]; [lia..|].
  rewrite Hz by done. lia.
Qed.

(** C16 (functional): mtk_epo_is_expired on a readable EPO file, in a zone at a
    constant distance from UTC and with a period of at most thirty days, as the
    settings give it.  All times are taken in "local seconds", and
    the distance cancels: the file is expired exactly when now is at least the
    age limit of the table [age_limit] after the UTC start of its data.
    Without the WiFi trigger the limit is within the data, so that a file that
    is still valid has not reached its end.  In a zone with daylight saving time the
    answer can be an hour off: [summer_expires_early]. *)
Theorem epo_expiry `{TimeZone} (off now : Z) (wifi : bool) (c : epo_conf) (s : fs)
    (name : string) (f : file) (first last : list Z) :
  constant_zone off ->
  epo_file s = Some name -> s !! name = Some f -> can_open f = true -> can_lock f = true ->
  file_size f < 2 ^ 31 -> read_record f 0 = Some first ->
  read_record f (file_size f - MTK_EPO_ONE_SV_SIZE) = Some last ->
  record_secs last + 21600 < 2 ^ 32 -> is_u32 (now - off) -> 0 <= gps_epo_period c <= 30 ->
  let start := 315964800 + record_secs first in
  let expire := 315964800 + record_secs last + 21600 in
  let limit := age_limit wifi c (expire - start) in
  mtk_epo_is_expired wifi now c s = (if start + limit <=? now then 1 else 0)
  /\ (wifi = false -> start <= expire -> mtk_epo_is_expired wifi now c s = 0 -> now < expire).
Proof.
  intros Hz Hname Hf Hopen Hlock Hsize Hfirst Hlast Hlim Hnow Hperiod start expire limit.
  pose proof (record_secs_range first). pose proof (record_secs_range last).
  assert (mtk_epo_is_expired wifi now c s = (if start + limit <=? now then 1 else 0)) as Heq.
  { unfold mtk_epo_is_expired, mtk_gps_epo_file_time_hal, mtk_gps_sys_epo_period_start,
      mtk_gps_sys_epo_period_end, mtk_gps_sys_get_file_size.
    rewrite Hname, Hf, Hopen, Hlock, Hfirst. cbn [negb]. obind.
    apply buf_read_Some_inv in Hfirst as Hlen. fold (file_size f) in Hlen.
    unfold MTK_EPO_ONE_SV_SIZE in *.
    rewrite u32_id, s32_id by (unfold is_u32, is_s32; lia).
    rewrite (proj2 (Z.ltb_ge _ _)) by lia. rewrite Hlast. obind.
    rewrite (u32_id (_ + 21600)) by (unfold is_u32; lia).
    rewrite !(secs_to_time_spec off) by (done || (unfold is_u32; lia)).
    destruct (gmtime_timegm now) as [Hg Hv]. rewrite Hz, Hg, u32_id by done.
    cbn [t_start t_expire field_update].
    rewrite expired_set_limit by (cbn [t_start t_expire field_update]; lia). cbn [t_start t_expire field_update].
    replace (315964800 + (record_secs last + 21600) - off - (315964800 + record_secs first - off))
      with (expire - start) by (subst start expire; lia). fold limit. rewrite Z.geb_leb.
    destruct (Z.leb_spec (limit + (315964800 + record_secs first - off)) (now - off)),
      (Z.leb_spec (start + limit) now); done || (subst start; lia). }
  split; [done|]. intros -> Hle E. rewrite Heq in E.
  pose proof (age_limit_le_span c (expire - start) ltac:(lia)) as Hspan. fold limit in Hspan.
  destruct (Z.leb_spec (start + limit) now); [done|]. subst start expire. lia.
Qed.

(** One record every six hours from GPS hour 351720 on, for three days. *)
Definition sample_epo : list Z :=
  concat (map (fun k => le_bytes 4 (351720 + 6 * Z.of_nat k) ++ replicate 68 0) (seq 0 12)).

Definition sample_fs : fs := {[ EPO_FILE := MkFile sample_epo 0 true true ]}.
Definition default_conf : epo_conf := MkConf 3 1 30 1 0.

Lemma epo_expiry_witness :
  let tz := fixed_zone 28800 in
  let start := 315964800 + 351720 * 3600 in
  @mtk_epo_is_expired tz false (start + 100) default_conf sample_fs = 0
  /\ @mtk_epo_is_expired tz false (start + 3 * 86400) default_conf sample_fs = 1
  /\ @mtk_epo_is_expired tz true (start + 86399) default_conf sample_fs = 0.
Proof.
  intros tz start.
  assert (Hz : @constant_zone tz 28800) by (intros t Ht; reflexivity).
  split; [|split].
  - refine (eq_trans (proj1 (@epo_expiry tz 28800 _ false default_conf sample_fs EPO_FILE
      (MkFile sample_epo 0 true true) (take 72 sample_epo) (drop 792 sample_epo) Hz _ _ _ _ _ _ _ _ _ _)) _);
      try reflexivity; by_decide.
  - refine (eq_trans (proj1 (@epo_expiry tz 28800 _ false default_conf sample_fs EPO_FILE
      (MkFile sample_epo 0 true true) (take 72 sample_epo) (drop 792 sample_epo) Hz _ _ _ _ _ _ _ _ _ _)) _);
      try reflexivity; by_decide.
  - refine (eq_trans (proj1 (@epo_expiry tz 28800 _ true default_conf sample_fs EPO_FILE
      (MkFile sample_epo 0 true true) (take 72 sample_epo) (drop 792 sample_epo) Hz _ _ _ _ _ _ _ _ _ _)) _);
      try reflexivity; by_decide.
Defined.

(** A zone in summer, one hour ahead of its standard time [off]: GpsToUtcTime
    leaves it to mktime whether a time is in summer (tm_isdst is -1), and
    gmtime says that the current time is not (0). *)
Definition summer_zone (off : Z) : TimeZone := {|
  mktime t := (timegm t - off - (if tm_isdst t =? 0 then 0 else 3600), gmtime (timegm t));
  gmtoff _ := off + 3600;
|}.

(** The condition of a constant distance is needed: in summer the data of
    three days are expired an hour before the three days are over. *)
Lemma summer_expires_early :
  let start := 315964800 + 351720 * 3600 in
  @mtk_epo_is_expired (summer_zone 3600) false (start + 3 * 86400 - 3600) default_conf sample_fs = 1
  /\ @mtk_epo_is_expired (fixed_zone 3600) false (start + 3 * 86400 - 3600) default_conf sample_fs = 0.
Proof. by vm_compute. Qed.
