(* ===== verification/EpoConf.v ===== *)
(** * EPO settings (gps_mtk_aosp.c: get_val, gps_download_epo_enable, read_prop,
      gps_download_epo_file_name)

    The configuration files are read line by line into a 100-byte array that
    get_val cuts into key and value in place. *)

From stdpp Require Import gmap.
From S2P Require Import Prelude NmeaToken Calendar EpoTime.

Definition GPS_CONF_FILE_SIZE : Z := 100.
Definition IS_SPACE (c : Z) : bool := (c =? 32) || (c =? 9) || (c =? 10).

(** What get_val returns: failure (-1), no pair (a comment), or the offsets of
    the key and value strings in the array. *)
Inductive gv_result := GvFail | GvNone | GvPair (key val : Z).

(** [while (go( *pStr ) && (pStr < end)) pStr++;] *)
Fixpoint scan (go : Z -> bool) (m : list Z) (p e : Z) (fuel : nat) : option Z :=
  match fuel with
  | O => None
  | S fuel' => b ← rd m p; if go b && (p <? e) then scan go m (p + 1) e fuel' else Some p
  end.

Definition scan_to (go : Z -> bool) (m : list Z) (p e : Z) : option Z :=
  scan go m p e (S (Z.to_nat (e - p))).

Definition get_val (m : list Z) : option (gv_result * list Z) :=
  len ← strlen m;
  if len =? 0 then Some (GvFail, m)
  else
    c0 ← rd m 0;
    if c0 =? ch "#" then Some (GvNone, m)
    else
      cl ← rd m (len - 1);
      if negb (cl =? 10) && (len >=? GPS_CONF_FILE_SIZE - 1) then Some (GvFail, m)
      else
        m ← (if negb (cl =? 10) then array_set m len 10 else Some m);
        pStr ← scan_to (fun c => negb (c =? ch "=")) m 0 len;
        if pStr >=? len then Some (GvFail, m)
        else
          m ← array_set m pStr 0;
          val ← scan_to IS_SPACE m (pStr + 1) len;
          pEnd ← scan_to (fun c => negb (IS_SPACE c)) m val len;
          m ← array_set m pEnd 0;
          Some (GvPair 0 val, m).

(** [fgets(result, 100, fp)]: the next line, at most 99 bytes, into the array;
    the rest of the file is returned. *)
Fixpoint line_of (content : list Z) (n : nat) : list Z * list Z :=
  match n, content with
  | S n', c :: content' =>
      if c =? 10 then ([c], content')
      else let '(l, rest) := line_of content' n' in (c :: l, rest)
  | _, _ => ([], content)
  end.

Definition fgets (m content : list Z) : option (option (list Z * list Z)) :=
  match content with
  | [] => Some None
  | _ =>
      let '(l, rest) := line_of content (Z.to_nat GPS_CONF_FILE_SIZE - 1) in
      m ← buf_write m 0 (l ++ [0]);
      Some (Some (m, rest))
  end.

Definition cstr_at (m : list Z) (p : Z) : option (list Z) := cstr (drop (Z.to_nat p) m).

(** [int len = strlen(val)-1; str2int(val, val+len)] *)
Definition val_int (m : list Z) (val : Z) : option Z :=
  v ← cstr_at m val;
  let len := Z.of_nat (length v) - 1 in
  str2int m IN val (val + len).

Definition one_of (v : Z) (l : list Z) (dflt : Z) : Z := if existsb (Z.eqb v) l then v else dflt.

(** The settings one key and value change. *)
Definition conf_pair (key : list Z) (m : list Z) (val : Z) (c : epo_conf) : option epo_conf :=
  c ← (if bytes_eqb key (zs "EPO_ENABLE") then
         v ← val_int m val; Some (c ⟨ gps_epo_enable := one_of v [1; 0] 1 ⟩) else Some c);
  c ← (if bytes_eqb key (zs "DW_DAYS") then
         v ← val_int m val;
         Some (c ⟨ gps_epo_download_days := if (v >? 30) || (v <? 0) then 30 else v ⟩) else Some c);
  c ← (if bytes_eqb key (zs "GPS_EPO_PERIOD") then
         v ← val_int m val; Some (c ⟨ gps_epo_period := one_of v [30; 3; 15] 3 ⟩) else Some c);
  c ← (if bytes_eqb key (zs "WIFI_EPO_PERIOD") then
         v ← val_int m val; Some (c ⟨ wifi_epo_period := one_of v [30; 3; 15] 1 ⟩) else Some c);
  if bytes_eqb key (zs "EPO_WIFI_TRIGGER") then
    v ← val_int m val; Some (c ⟨ gps_epo_wifi_trigger := one_of v [1; 0] 1 ⟩)
  else Some c.

(** The loop over the lines, each of which takes at least one byte. *)
Fixpoint conf_loop (fuel : nat) (m content : list Z) (c : epo_conf) : option (Z * epo_conf) :=
  match fuel with
  | O => None
  | S fuel' =>
      r ← fgets m content;
      match r with
      | None => Some (gps_epo_enable c, c)
      | Some (m, content) =>
          '(g, m) ← get_val m;
          match g with
          | GvFail => Some (1, c)
          | GvNone => conf_loop fuel' m content c
          | GvPair k v =>
              key ← cstr_at m k;
              c ← conf_pair key m v c;
              conf_loop fuel' m content c
          end
      end
  end.

(** [None] for a file that cannot be opened. *)
Definition gps_download_epo_enable (conf_file : option (list Z)) (c : epo_conf)
  : option (Z * epo_conf) :=
  match conf_file with
  | None => Some (1, c)
  | Some content => conf_loop (S (length content)) (zeros GPS_CONF_FILE_SIZE) content c
  end.

(** read_prop: only GNSS_MODE is taken, with [atoi]. *)
Fixpoint prop_loop (fuel : nat) (m content : list Z) (gnss_mode : Z) : option (Z * Z) :=
  match fuel with
  | O => None
  | S fuel' =>
      r ← fgets m content;
      match r with
      | None => Some (0, gnss_mode)
      | Some (m, content) =>
          '(g, m) ← get_val m;
          match g with
          | GvFail => Some (-1, gnss_mode)
          | GvNone => prop_loop fuel' m content gnss_mode
          | GvPair k v =>
              key ← cstr_at m k;
              gnss_mode ← (if bytes_eqb key (zs "GNSS_MODE")
                           then s ← cstr_at m v; Some (atoi s) else Some gnss_mode);
              prop_loop fuel' m content gnss_mode
          end
      end
  end.

Definition read_prop (prop_file : option (list Z)) (gnss_mode : Z) : option (Z * Z) :=
  match prop_file with
  | None => Some (-1, gnss_mode)
  | Some content => prop_loop (S (length content)) (zeros GPS_CONF_FILE_SIZE) content gnss_mode
  end.

(** ** File names *)

(** The names for a piece: gps_epo_file_name and gps_epo_md_file_name; other
    counts and types keep the old names. *)
Definition gps_download_epo_file_name (gps_epo_type count : Z) (old : string * string)
  : string * string :=
  let name (stem : string) := (stem +:+ ".DAT", stem +:+ ".MD5")%string in
  if gps_epo_type =? 1 then
    match count with
    | 0 => name "EPO_GPS_3_1"%string | 1 => name "EPO_GPS_3_2"%string
    | 2 => name "EPO_GPS_3_3"%string | 3 => name "EPO_GPS_3_4"%string
    | 4 => name "EPO_GPS_3_5"%string | 5 => name "EPO_GPS_3_6"%string
    | 6 => name "EPO_GPS_3_7"%string | 7 => name "EPO_GPS_3_8"%string
    | 8 => name "EPO_GPS_3_9"%string | 9 => name "EPO_GPS_3_10"%string
    | _ => old
    end
  else if gps_epo_type =? 0 then
    match count with
    | 0 => name "EPO_GR_3_1"%string | 1 => name "EPO_GR_3_2"%string
    | 2 => name "EPO_GR_3_3"%string | 3 => name "EPO_GR_3_4"%string
    | 4 => name "EPO_GR_3_5"%string | 5 => name "EPO_GR_3_6"%string
    | 6 => name "EPO_GR_3_7"%string | 7 => name "EPO_GR_3_8"%string
    | 8 => name "EPO_GR_3_9"%string | 9 => name "EPO_GR_3_10"%string
    | _ => old
    end
  else old.

Example conf_lf :
  gps_download_epo_enable (Some (zs "#comment" ++ [10] ++ zs "EPO_ENABLE=1" ++ [10] ++ zs "DW_DAYS=30" ++ [10]))
    (MkConf 3 1 30 1 0) = Some (0, MkConf 3 1 3 0 0).
Proof. vm_compute. reflexivity. Qed.

Example conf_crlf :
  gps_download_epo_enable (Some (zs "EPO_ENABLE= 1" ++ [13; 10] ++ zs "DW_DAYS=15" ++ [13; 10]))
    (MkConf 3 1 30 0 0) = Some (1, MkConf 3 1 15 1 0).
Proof. vm_compute. reflexivity. Qed.

(** ** Lemmas *)

Fixpoint take_while (go : Z -> bool) (s : list Z) : list Z :=
  match s with
  | c :: s' => if go c then c :: take_while go s' else []
  | [] => []
  end.

Lemma take_while_prefix go s : exists r, s = take_while go s ++ r /\
  match r with c :: _ => go c = false | [] => True end.
Proof.
  induction s as [|c s (r & E & Hr)]; [by exists []|]. cbn [take_while].
  destruct (go c) eqn:Hc; [|by exists (c :: s)]. exists r. cbn. by rewrite <-E.
Qed.

Lemma length_take_while go s : (length (take_while go s) <= length s)%nat.
Proof. induction s as [|c s IH]; cbn; [lia|]. destruct (go c); cbn; lia. Qed.

Lemma scan_S go m p e n :
  scan go m p e (S n) = (b ← rd m p; if go b && (p <? e) then scan go m (p + 1) e n else Some p).
Proof. done. Qed.

Lemma scan_to_spec go m p e :
  0 <= p <= e -> e < Z.of_nat (length m) ->
  scan_to go m p e = Some (p + Z.of_nat (length (take_while go (slice m p e)))).
Proof.
  intros Hp He. unfold scan_to. remember (Z.to_nat (e - p)) as n eqn:Hn.
  revert p Hp Hn. induction n as [|n IH]; intros p Hp Hn; rewrite scan_S;
    destruct (rd_Some m p) as (b & -> & Hb); try lia; obind.
  - rewrite (proj2 (Z.ltb_ge p e)), andb_false_r, slice_nil by lia. cbn. f_equal. lia.
  - rewrite (proj2 (Z.ltb_lt p e)), andb_true_r, (slice_cons m p e b) by (done || lia).
    cbn [take_while]. destruct (go b); [|cbn; f_equal; lia].
    rewrite IH by lia. cbn [length]. f_equal. lia.
Qed.

Lemma slice_set m a b i x m' :
  array_set m i x = Some m' -> 0 <= a -> i < a \/ b <= i -> slice m' a b = slice m a b.
Proof.
  unfold array_set. case_match eqn:E; [|done]. intros [= <-] Ha Hi.
  apply andb_prop in E as [E1 E2]. rewrite Z.leb_le, Z.ltb_lt in *. unfold slice.
  apply list_eq. intros k. destruct (decide (k < Z.to_nat (b - a))%nat) as [Hk|Hk].
  - rewrite !lookup_take_lt, !lookup_drop, list_lookup_insert_ne by lia. done.
  - rewrite !lookup_take_ge by lia. done.
Qed.

Lemma length_array_set {A} (m m' : list A) i x : array_set m i x = Some m' -> length m' = length m.
Proof. unfold array_set. case_match; [|done]. intros [= <-]. apply length_insert. Qed.

Lemma rd_set m i x m' : array_set m i x = Some m' -> rd m' i = Some x.
Proof.
  unfold array_set, rd. case_match eqn:E; [|done]. intros [= <-].
  apply andb_prop in E as [E1 E2]. rewrite E1. apply Z.leb_le in E1. apply Z.ltb_lt in E2.
  apply list_lookup_insert_eq. lia.
Qed.

(** A C string in the array: its characters, then a zero. *)
Lemma cstr_at_slice m a b :
  0 <= a <= b -> no_nul (slice m a b) -> rd m b = Some 0 ->
  cstr_at m a = Some (slice m a b).
Proof.
  intros Ha Hn Hz. unfold cstr_at, rd in *. rewrite (proj2 (Z.leb_le _ _)) in Hz by lia.
  assert (drop (Z.to_nat a) m = slice m a b ++ 0 :: drop (S (Z.to_nat b)) m) as ->.
  { unfold slice. apply drop_S in Hz. rewrite <-Hz.
    replace (drop (Z.to_nat b) m) with (drop (Z.to_nat (b - a)) (drop (Z.to_nat a) m))
      by (rewrite drop_drop; f_equal; lia).
    by rewrite take_drop. }
  by apply cstr_app.
Qed.

(** ** The line, as text *)

Inductive line_result := LineFail | LineNone | LinePair (key val : list Z).

(** What a line means: a comment, or a key up to the first equals sign and the
    first word after it. *)
Definition parse_line (s : list Z) : line_result :=
  match s with
  | [] => LineFail
  | c :: _ =>
      if c =? ch "#" then LineNone
      else if negb (bool_decide (last s = Some 10)) && (99 <=? Z.of_nat (length s)) then LineFail
      else
        let key := take_while (fun c => negb (c =? ch "=")) s in
        match drop (length key) s with
        | [] => LineFail
        | _ :: rest =>
            let sp := take_while IS_SPACE rest in
            LinePair key (take_while (fun c => negb (IS_SPACE c)) (drop (length sp) rest))
        end
  end.

Lemma drop_slice m a b k :
  0 <= a <= b -> drop k (slice m a b) = slice m (a + Z.of_nat k) b.
Proof.
  intros Ha. unfold slice. rewrite skipn_firstn_comm, drop_drop. f_equal; [lia|]. f_equal. lia.
Qed.

Lemma strlen_slice m n :
  0 <= n < Z.of_nat (length m) -> no_nul (slice m 0 n) -> rd m n = Some 0 -> strlen m = Some n.
Proof.
  intros Hn Hs Hz. unfold rd in Hz. rewrite (proj2 (Z.leb_le _ _)) in Hz by lia.
  assert (m = slice m 0 n ++ 0 :: drop (S (Z.to_nat n)) m) as ->.
  { unfold slice. apply drop_S in Hz. rewrite <-Hz, Z.sub_0_r. by rewrite take_drop. }
  rewrite strlen_app by done. f_equal. rewrite length_slice by lia. lia.
Qed.

Lemma Forall_take_while P go s : Forall P s -> Forall P (take_while go s).
Proof. induction 1; cbn; [done|]. destruct (go _); by constructor. Qed.

Lemma slice_take m a b k :
  0 <= a -> (k <= Z.to_nat (b - a))%nat -> take k (slice m a b) = slice m a (a + Z.of_nat k).
Proof. intros Ha Hk. unfold slice. rewrite take_take. f_equal. lia. Qed.

Lemma take_while_take go s : take_while go s = take (length (take_while go s)) s.
Proof.
  destruct (take_while_prefix go s) as (r & E & _).
  pose proof (f_equal (take (length (take_while go s))) E) as E'. by rewrite take_app_length in E'.
Qed.

Lemma rd_set_ne m i j x m' : array_set m i x = Some m' -> i <> j -> 0 <= i -> rd m' j = rd m j.
Proof.
  unfold array_set, rd. case_match; [|done]. intros [= <-] Hne Hi. destruct (Z.leb_spec 0 j); [|done].
  apply list_lookup_insert_ne. lia.
Qed.

(** The two strings that get_val leaves in the array. *)
Lemma pair_strings m1 m2 m3 n key val v :
  length m1 = 100%nat -> 0 <= n < 100 -> no_nul (slice m1 0 n) ->
  let q := Z.of_nat (length key) in
  let e := v + Z.of_nat (length val) in
  key = take (length key) (slice m1 0 n) -> val = take (length val) (slice m2 v n) -> no_nul val ->
  array_set m1 q 0 = Some m2 -> array_set m2 e 0 = Some m3 -> q < v -> e <= n ->
  cstr_at m3 0 = Some key /\ cstr_at m3 v = Some val /\ val = slice m3 v e.
Proof.
  intros Hl Hn Hs q e Hkey Hval Hnv E2 E3 Hqv Hen.
  rewrite slice_take in Hkey by lia. rewrite slice_take in Hval by lia.
  rewrite Z.add_0_l in Hkey. fold q in Hkey. fold e in Hval.
  assert (slice m3 0 q = key) as Hk3.
  { rewrite (slice_set m2 0 q e 0 m3 E3), (slice_set m1 0 q q 0 m2 E2) by lia. done. }
  assert (slice m3 v e = val) as Hv3 by (rewrite (slice_set m2 v e e 0 m3 E3) by lia; done).
  split_and!; [| |done].
  - rewrite <-Hk3. apply cstr_at_slice; [lia| |].
    + rewrite Hk3, Hkey. rewrite (slice_app m1 0 q n) in Hs by lia.
      by apply Forall_app in Hs as [? _].
    + rewrite (rd_set_ne _ _ q _ _ E3) by lia. by eapply rd_set.
  - rewrite <-Hv3. apply cstr_at_slice; [lia|by rewrite Hv3|]. by eapply rd_set.
Qed.

Ltac gv_done := eexists _, _; split; [reflexivity|]; split; [done|]; done.

(** get_val on an array that holds a line: the result is the meaning of the
    line, and the key and value are strings in the array. *)
Lemma get_val_spec m n :
  length m = 100%nat -> 0 <= n < 100 -> no_nul (slice m 0 n) -> rd m n = Some 0 ->
  exists g m', get_val m = Some (g, m') /\ length m' = 100%nat /\
    match parse_line (slice m 0 n) with
    | LineFail => g = GvFail
    | LineNone => g = GvNone
    | LinePair key val =>
        exists v, g = GvPair 0 v /\ 0 <= v /\ cstr_at m' 0 = Some key /\ cstr_at m' v = Some val
             /\ val = slice m' v (v + Z.of_nat (length val)) /\ v + Z.of_nat (length val) < 100
    end.
Proof.
  intros Hl Hn Hs Hz. unfold get_val. rewrite (strlen_slice m n) by (done || lia). obind.
  assert (Z.of_nat (length (slice m 0 n)) = n) as Hlen by (rewrite length_slice by lia; lia).
  destruct (Z.eqb_spec n 0) as [->|Hn0].
  { rewrite slice_nil by lia. gv_done. }
  destruct (rd_Some m 0) as (c0 & -> & Hc0); [lia|]. obind.
  pose proof (slice_cons m 0 n c0 ltac:(lia) Hc0) as Hcons.
  unfold parse_line. rewrite Hcons, <-Hcons. clear Hcons Hc0.
  destruct (c0 =? ch "#"); [gv_done|].
  rewrite last_slice by lia.
  destruct (rd_Some m (n - 1)) as (cl & -> & ->); [lia|]. obind. rewrite Hlen.
  replace (bool_decide (Some cl = Some 10)) with (cl =? 10)
    by (case_bool_decide; [apply Z.eqb_eq|apply Z.eqb_neq]; congruence).
  change (GPS_CONF_FILE_SIZE - 1) with 99. rewrite Z.geb_leb.
  destruct (negb (cl =? 10) && (99 <=? n)) eqn:Hbuf; [gv_done|].
  assert (exists m1, (if negb (cl =? 10) then array_set m n 10 else Some m) = Some m1
    /\ length m1 = 100%nat /\ slice m1 0 n = slice m 0 n) as (m1 & -> & Hl1 & Hs1).
  { destruct (negb (cl =? 10)); [|eauto]. cbn [andb] in Hbuf. apply Z.leb_gt in Hbuf.
    destruct (array_set m n 10) as [m1|] eqn:E.
    - exists m1. split; [done|]. split; [by erewrite length_array_set by done|].
      by eapply slice_set; [done|lia|lia].
    - by rewrite array_set_Some in E by lia. }
  obind. rewrite scan_to_spec, Hs1 by lia. obind. rewrite Z.add_0_l, Z.geb_leb.
  set (s := slice m 0 n) in *. set (key := take_while _ s).
  pose proof (length_take_while (fun c => negb (c =? ch "=")) s) as Hk. fold key in Hk.
  destruct (drop (length key) s) as [|eq rest] eqn:Hd.
  { apply (f_equal length) in Hd. rewrite length_drop in Hd. cbn in Hd.
    rewrite (proj2 (Z.leb_le _ _)) by lia. gv_done. }
  assert (Z.of_nat (length key) < n) as Hkn.
  { apply (f_equal length) in Hd. rewrite length_drop in Hd. cbn in Hd. lia. }
  rewrite (proj2 (Z.leb_gt _ _)) by lia. set (q := Z.of_nat (length key)) in *.
  destruct (array_set m1 q 0) as [m2|] eqn:E2; [|by rewrite array_set_Some in E2 by lia]. obind.
  assert (slice m1 (q + 1) n = rest) as Hrest.
  { assert (drop (S (length key)) s = rest) as <-.
    { replace (S (length key)) with (length key + 1)%nat by lia. by rewrite <-drop_drop, Hd. }
    rewrite <-Hs1, drop_slice by lia. f_equal. lia. }
  pose proof (slice_set _ (q + 1) n _ _ _ E2 ltac:(lia) ltac:(lia)) as Hs2. rewrite Hrest in Hs2.
  pose proof (length_array_set _ _ _ _ E2) as Hl2.
  rewrite scan_to_spec, Hs2 by lia. obind. set (sp := take_while IS_SPACE rest).
  assert (Z.of_nat (length rest) = n - (q + 1)) as Hlr.
  { rewrite <-Hrest, length_slice by lia. lia. }
  pose proof (length_take_while IS_SPACE rest) as Hsp. fold sp in Hsp.
  set (v := q + 1 + Z.of_nat (length sp)).
  assert (slice m2 v n = drop (length sp) rest) as Hv by (rewrite <-Hs2, drop_slice by lia; done).
  rewrite scan_to_spec, Hv by lia. obind.
  set (val := take_while _ (drop (length sp) rest)).
  pose proof (length_take_while (fun c => negb (IS_SPACE c)) (drop (length sp) rest)) as Hvl.
  fold val in Hvl. rewrite length_drop in Hvl.
  set (e := v + Z.of_nat (length val)).
  destruct (array_set m2 e 0) as [m3|] eqn:E3; [|rewrite array_set_Some in E3 by lia; done]. obind.
  destruct (pair_strings m1 m2 m3 n key val v) as (Hkey & Hval & Hvs); try done; try lia.
  - by rewrite Hs1.
  - rewrite Hs1. apply take_while_take.
  - rewrite Hv. apply take_while_take.
  - apply Forall_take_while, Forall_drop. rewrite <-Hrest.
    replace (slice m1 (q + 1) n) with (drop (Z.to_nat (q + 1)) s); [by apply Forall_drop|].
    rewrite <-Hs1, drop_slice by lia. f_equal. lia.
  - eexists _, _. split; [reflexivity|]. split; [by rewrite (length_array_set _ _ _ _ E3), Hl2|].
    exists v. split; [done|]. split; [lia|]. split; [done|]. split; [done|]. split; [done|lia].
Qed.

(** ** The whole file *)

Lemma Forall_array_set m m' i x :
  array_set m i x = Some m' -> is_byte x -> Forall is_byte m -> Forall is_byte m'.
Proof. unfold array_set. case_match; [|done]. intros [= <-] Hx Hm. by apply Forall_insert. Qed.

Lemma get_val_bytes m g m' : get_val m = Some (g, m') -> Forall is_byte m -> Forall is_byte m'.
Proof.
  intros H Hm. assert (is_byte 0 /\ is_byte 10) as [H0 H10] by (unfold is_byte; lia).
  revert H. unfold get_val. destruct (strlen m) as [len|]; obind; [|done].
  destruct (len =? 0); [by intros [= <- <-]|].
  destruct (rd m 0) as [c0|]; obind; [|done]. destruct (c0 =? _); [by intros [= <- <-]|].
  destruct (rd m (len - 1)) as [cl|]; obind; [|done].
  destruct (negb (cl =? 10) && _); [by intros [= <- <-]|].
  destruct (if negb (cl =? 10) then _ else _) as [m1|] eqn:E1; obind; [|done].
  assert (Forall is_byte m1) as Hm1.
  { destruct (negb (cl =? 10)); [by eapply Forall_array_set|by injection E1 as <-]. }
  destruct (scan_to _ m1 0 len) as [q|]; obind; [|done]. destruct (q >=? len); [by intros [= <- <-]|].
  destruct (array_set m1 q 0) as [m2|] eqn:E2; obind; [|done].
  destruct (scan_to _ m2 (q + 1) len) as [v|]; obind; [|done].
  destruct (scan_to _ m2 v len) as [e|]; obind; [|done].
  destruct (array_set m2 e 0) as [m3|] eqn:E3; obind; [|done]. intros [= <- <-].
  eauto using Forall_array_set.
Qed.

Lemma str2int_below m p e : 0 <= p < Z.of_nat (length m) -> e <= p -> str2int m IN p e = Some 0.
Proof.
  intros Hp He. unfold str2int. cbn [peek]. destruct (rd_Some m p) as (b & -> & _); [lia|]. obind.
  destruct (b =? ch "-"); replace (Z.to_nat _) with O by lia; done.
Qed.

(** The value loses its last character. *)
Lemma val_int_spec m v val :
  length m = 100%nat -> Forall is_byte m -> 0 <= v -> cstr_at m v = Some val ->
  val = slice m v (v + Z.of_nat (length val)) -> v + Z.of_nat (length val) < 100 ->
  val_int m v = Some (field_int (drop_last 1 val)).
Proof.
  intros Hl Hb Hv Hs Hval Hlen. unfold val_int. rewrite Hs. obind.
  destruct val as [|c val'].
  - rewrite str2int_below by (cbn; lia). done.
  - set (val := c :: val') in *. assert (1 <= Z.of_nat (length val)) by (cbn; lia).
    rewrite str2int_field by (done || lia). f_equal. f_equal.
    rewrite Hval at 2. rewrite drop_last_slice by lia. f_equal. lia.
Qed.

(** What a setting means. *)
Definition apply_setting (key : list Z) (v : Z) (c : epo_conf) : epo_conf :=
  let c := if bytes_eqb key (zs "EPO_ENABLE") then c ⟨ gps_epo_enable := one_of v [1; 0] 1 ⟩ else c in
  let c := if bytes_eqb key (zs "DW_DAYS")
           then c ⟨ gps_epo_download_days := if (v >? 30) || (v <? 0) then 30 else v ⟩ else c in
  let c := if bytes_eqb key (zs "GPS_EPO_PERIOD")
           then c ⟨ gps_epo_period := one_of v [30; 3; 15] 3 ⟩ else c in
  let c := if bytes_eqb key (zs "WIFI_EPO_PERIOD")
           then c ⟨ wifi_epo_period := one_of v [30; 3; 15] 1 ⟩ else c in
  if bytes_eqb key (zs "EPO_WIFI_TRIGGER") then c ⟨ gps_epo_wifi_trigger := one_of v [1; 0] 1 ⟩ else c.

Lemma conf_pair_spec key m v x c :
  val_int m v = Some x -> conf_pair key m v c = Some (apply_setting key x c).
Proof.
  intros Hv. unfold conf_pair, apply_setting. rewrite Hv. obind.
  do 5 (match goal with |- context [bytes_eqb key ?k] => destruct (bytes_eqb key k) end; obind); done.
Qed.

(** The lines of the file, as strings. *)
Definition nonzero (c : Z) : bool := negb (c =? 0).

Fixpoint conf_lines (fuel : nat) (content : list Z) : list (list Z) :=
  match fuel, content with
  | S fuel', _ :: _ =>
      let '(l, rest) := line_of content 99 in take_while nonzero l :: conf_lines fuel' rest
  | _, _ => []
  end.

Fixpoint conf_spec (lines : list (list Z)) (c : epo_conf) : Z * epo_conf :=
  match lines with
  | [] => (gps_epo_enable c, c)
  | l :: ls =>
      match parse_line l with
      | LineFail => (1, c)
      | LineNone => conf_spec ls c
      | LinePair k v => conf_spec ls (apply_setting k (field_int (drop_last 1 v)) c)
      end
  end.

Lemma line_of_spec content n :
  let '(l, rest) := line_of content n in
  content = l ++ rest /\ (length l <= n)%nat /\ (content <> [] -> n <> O -> l <> []).
Proof.
  revert content. induction n as [|n IH]; intros [|c content]; cbn [line_of]; try by split_and!.
  - split_and!; cbn; done || lia.
  - destruct (c =? 10); [split_and!; cbn; done || lia|].
    specialize (IH content). destruct (line_of content n) as [l rest].
    destruct IH as (-> & Hl & _). split_and!; cbn; done || lia.
Qed.

(** The array after fgets: a string of the line, cut at a zero byte. *)
Lemma array_line m l m' :
  length m = 100%nat -> (length l <= 99)%nat -> buf_write m 0 (l ++ [0]) = Some m' ->
  let t := take_while nonzero l in
  slice m' 0 (Z.of_nat (length t)) = t /\ rd m' (Z.of_nat (length t)) = Some 0.
Proof.
  intros Hm Hl Hw t. rewrite buf_write_Some in Hw by (rewrite ?length_app; cbn; lia).
  injection Hw as <-. cbn [Z.to_nat take app]. rewrite <-app_assoc.
  destruct (take_while_prefix nonzero l) as (r & E & Hr). fold t in E. rewrite E, <-app_assoc.
  split.
  - unfold slice. rewrite Z.sub_0_r, Nat2Z.id. apply take_app_length'. done.
  - unfold rd. rewrite (proj2 (Z.leb_le _ _)), Nat2Z.id, lookup_app_r, Nat.sub_diag by lia.
    destruct r as [|c r]; [done|]. cbn in *. unfold nonzero in Hr. f_equal.
    by apply negb_false_iff, Z.eqb_eq in Hr.
Qed.

Lemma take_while_no_nul s : no_nul (take_while nonzero s).
Proof.
  induction s as [|c s IH]; cbn [take_while]; [constructor|].
  destruct (nonzero c) eqn:E; [|constructor]. constructor; [|done].
  unfold nonzero in E. by apply negb_true_iff, Z.eqb_neq in E.
Qed.

(** One line of a file, read and parsed. *)
Lemma next_line m content :
  length m = 100%nat -> Forall is_byte m -> Forall is_byte content -> content <> [] ->
  let '(l, rest) := line_of content 99 in
  exists m1 g m2, fgets m content = Some (Some (m1, rest)) /\ get_val m1 = Some (g, m2)
    /\ length m2 = 100%nat /\ Forall is_byte m2 /\ Forall is_byte rest /\ (length rest < length content)%nat
    /\ match parse_line (take_while nonzero l) with
       | LineFail => g = GvFail
       | LineNone => g = GvNone
       | LinePair key val =>
           exists v, g = GvPair 0 v /\ 0 <= v /\ cstr_at m2 0 = Some key /\ cstr_at m2 v = Some val
                /\ val = slice m2 v (v + Z.of_nat (length val)) /\ v + Z.of_nat (length val) < 100
       end.
Proof.
  intros Hm Hb Hc Hnil. pose proof (line_of_spec content 99) as Hline.
  destruct content as [|c0 content0]; [done|]. unfold fgets.
  change (Z.to_nat GPS_CONF_FILE_SIZE - 1)%nat with 99%nat.
  destruct (line_of (c0 :: content0) 99) as [l rest]. destruct Hline as (E & Hl & Hne).
  destruct (buf_write m 0 (l ++ [0])) as [m1|] eqn:Hw;
    [|rewrite buf_write_Some in Hw by (rewrite ?length_app; cbn; lia); done].
  destruct (array_line m l m1 Hm Hl Hw) as [Hs Hz].
  pose proof (length_take_while nonzero l) as Htl. set (t := take_while nonzero l) in *.
  pose proof (length_buf_write _ _ _ _ Hw) as Hm1. rewrite E in Hc. apply Forall_app in Hc as [Hcl Hcr].
  assert (Forall is_byte m1) as Hb1.
  { rewrite buf_write_Some in Hw by (rewrite ?length_app; cbn; lia). injection Hw as <-.
    repeat apply Forall_app_2; try done; [by repeat constructor|by apply Forall_drop]. }
  destruct (get_val_spec m1 (Z.of_nat (length t))) as (g & m2 & Hg & Hm2 & Hcase);
    [lia|lia|rewrite Hs; apply take_while_no_nul|done|].
  rewrite Hs in Hcase. apply get_val_bytes in Hg as Hb2; [|done].
  apply (f_equal length) in E. rewrite length_app in E. cbn [length] in *.
  assert (length l <> O) by (destruct l; [by destruct (Hne ltac:(done) ltac:(lia))|done]).
  exists m1, g, m2. obind. split_and!; done || lia.
Qed.

Lemma conf_loop_spec fuel m content c :
  length m = 100%nat -> Forall is_byte m -> Forall is_byte content -> (length content < fuel)%nat ->
  conf_loop fuel m content c = Some (conf_spec (conf_lines fuel content) c).
Proof.
  revert m content c. induction fuel as [|fuel IH]; intros m content c Hm Hb Hc Hf; [lia|].
  cbn [conf_loop conf_lines]. destruct content as [|c0 content0]; [done|].
  pose proof (next_line m (c0 :: content0) Hm Hb Hc ltac:(done)) as Hn.
  destruct (line_of (c0 :: content0) 99) as [l rest].
  destruct Hn as (m1 & g & m2 & -> & Hg & Hm2 & Hb2 & Hr & Hlen & Hcase). obind. rewrite Hg. obind.
  cbn [conf_spec]. destruct (parse_line (take_while nonzero l)) as [| |k v]; [by subst g| |].
  - subst g. apply IH; done || lia.
  - destruct Hcase as (x & -> & Hx & Hk & Hv & Hvs & Hvl). rewrite Hk. obind.
    erewrite conf_pair_spec by (by apply val_int_spec). obind. apply IH; done || lia.
Qed.

(** What read_prop takes from the lines: whether they were read to the end,
    and the last GNSS_MODE. *)
Fixpoint prop_spec (lines : list (list Z)) (gnss_mode : Z) : Z * Z :=
  match lines with
  | [] => (0, gnss_mode)
  | l :: ls =>
      match parse_line l with
      | LineFail => (-1, gnss_mode)
      | LineNone => prop_spec ls gnss_mode
      | LinePair k v => prop_spec ls (if bytes_eqb k (zs "GNSS_MODE") then atoi v else gnss_mode)
      end
  end.

Lemma prop_loop_spec fuel m content mode :
  length m = 100%nat -> Forall is_byte m -> Forall is_byte content -> (length content < fuel)%nat ->
  prop_loop fuel m content mode = Some (prop_spec (conf_lines fuel content) mode).
Proof.
  revert m content mode. induction fuel as [|fuel IH]; intros m content mode Hm Hb Hc Hf; [lia|].
  cbn [prop_loop conf_lines]. destruct content as [|c0 content0]; [done|].
  pose proof (next_line m (c0 :: content0) Hm Hb Hc ltac:(done)) as Hn.
  destruct (line_of (c0 :: content0) 99) as [l rest].
  destruct Hn as (m1 & g & m2 & -> & Hg & Hm2 & Hb2 & Hr & Hlen & Hcase). obind. rewrite Hg. obind.
  cbn [prop_spec]. destruct (parse_line (take_while nonzero l)) as [| |k v]; [by subst g| |].
  - subst g. apply IH; done || lia.
  - destruct Hcase as (x & -> & Hx & Hk & Hv & _). rewrite Hk. obind. rewrite Hv.
    destruct (bytes_eqb k (zs "GNSS_MODE")); obind; apply IH; done || lia.
Qed.

Definition prop_file_spec (f : option (list Z)) (mode : Z) : Z * Z :=
  match f with
  | None => (-1, mode)
  | Some content => prop_spec (conf_lines (S (length content)) content) mode
  end.

Lemma read_prop_spec f mode :
  (forall content, f = Some content -> Forall is_byte content) ->
  read_prop f mode = Some (prop_file_spec f mode).
Proof.
  intros Hf. destruct f as [content|]; [|done]. apply prop_loop_spec; [done|by_decide|by apply Hf|lia].
Qed.

(** ** Properties *)

(** The values the settings can have. *)
Definition conf_ok (c : epo_conf) : Prop :=
  gps_epo_enable c ∈ [0; 1] /\ 0 <= gps_epo_download_days c <= 30
  /\ gps_epo_period c ∈ [3; 15; 30] /\ wifi_epo_period c ∈ [1; 3; 15; 30]
  /\ gps_epo_wifi_trigger c ∈ [0; 1].

#[export] Instance conf_ok_dec c : Decision (conf_ok c).
Proof. unfold conf_ok. apply _. Defined.

Lemma one_of_in v (l : list Z) d (l' : list Z) :
  forallb (fun x => bool_decide (x ∈ l')) l = true -> d ∈ l' -> one_of v l d ∈ l'.
Proof.
  intros Hl Hd. unfold one_of. destruct (existsb (Z.eqb v) l) eqn:E; [|done].
  apply existsb_exists in E as (x & Hx & ->%Z.eqb_eq). rewrite forallb_forall in Hl.
  apply Hl in Hx. by apply bool_decide_eq_true in Hx.
Qed.

Ltac setting_ok := intros (?&?&?&?&?); split_and!; cbn; try (done || lia); apply one_of_in; by_decide.

Lemma conf_ok_enable c v : conf_ok c -> conf_ok (c ⟨ gps_epo_enable := one_of v [1; 0] 1 ⟩).
Proof. setting_ok. Qed.
Lemma conf_ok_period c v : conf_ok c -> conf_ok (c ⟨ gps_epo_period := one_of v [30; 3; 15] 3 ⟩).
Proof. setting_ok. Qed.
Lemma conf_ok_wifi c v : conf_ok c -> conf_ok (c ⟨ wifi_epo_period := one_of v [30; 3; 15] 1 ⟩).
Proof. setting_ok. Qed.
Lemma conf_ok_trigger c v : conf_ok c -> conf_ok (c ⟨ gps_epo_wifi_trigger := one_of v [1; 0] 1 ⟩).
Proof. setting_ok. Qed.
Lemma conf_ok_days c v :
  conf_ok c -> conf_ok (c ⟨ gps_epo_download_days := if (v >? 30) || (v <? 0) then 30 else v ⟩).
Proof.
  intros (?&?&?&?&?); split_and!; cbn; try done; rewrite Z.gtb_ltb;
    destruct (Z.ltb_spec 30 v), (Z.ltb_spec v 0); cbn; lia.
Qed.

Lemma apply_setting_ok k v c : conf_ok c -> conf_ok (apply_setting k v c).
Proof.
  intros Hc. unfold apply_setting. cbv zeta.
  do 5 (match goal with |- context [bytes_eqb k ?s] => destruct (bytes_eqb k s) end);
    auto 10 using conf_ok_enable, conf_ok_period, conf_ok_wifi, conf_ok_trigger, conf_ok_days.
Qed.

Lemma conf_spec_ok lines c : conf_ok c -> conf_ok (snd (conf_spec lines c)).
Proof.
  revert c. induction lines as [|l lines IH]; intros c Hc; cbn [conf_spec]; [done|].
  destruct (parse_line l); [done|by apply IH|]. by apply IH, apply_setting_ok.
Qed.

(** The reading never fails, and keeps the settings legal. *)
Lemma conf_total content c : Forall is_byte content ->
  exists r c', gps_download_epo_enable (Some content) c = Some (r, c') /\ (conf_ok c -> conf_ok c').
Proof.
  intros Hb. do 2 eexists. split; [|apply conf_spec_ok].
  rewrite <-surjective_pairing. apply conf_loop_spec; [done|by_decide|done|lia].
Qed.

(** C17 (refinement): reading gps.conf.  For every file content the parser
    terminates, stays inside its 100-byte array and computes what the lines
    mean: comments are skipped, a malformed or too long line ends the reading
    with 1, each known key changes its setting; and the settings keep to their
    legal values. *)
Theorem conf_refines (content : list Z) (c : epo_conf) :
  Forall is_byte content ->
  gps_download_epo_enable (Some content) c
  = Some (conf_spec (conf_lines (S (length content)) content) c)
  /\ (conf_ok c -> conf_ok (snd (conf_spec (conf_lines (S (length content)) content) c))).
Proof.
  intros Hb. split.
  - apply conf_loop_spec; [done|by_decide|done|lia].
  - apply conf_spec_ok.
Qed.

Definition sample_conf : list Z :=
  zs "# EPO" ++ [10] ++ zs "EPO_ENABLE=1" ++ [13; 10] ++ zs "GPS_EPO_PERIOD= 15" ++ [13; 10].

Lemma conf_refines_witness :
  gps_download_epo_enable (Some sample_conf) default_conf = Some (1, MkConf 15 1 30 1 0).
Proof.
  refine (eq_trans (proj1 (conf_refines sample_conf default_conf _)) _);
    [by_decide|vm_compute; reflexivity].
Defined.

Lemma take_while_app go s c r :
  forallb go s = true -> go c = false -> take_while go (s ++ c :: r) = s.
Proof.
  intros Hs Hc. induction s as [|x s IH]; cbn in *; [by rewrite Hc|].
  apply andb_prop in Hs as [-> Hs]. by rewrite IH.
Qed.

Lemma take_while_all go s : forallb go s = true -> take_while go s = s.
Proof.
  induction s as [|x s IH]; cbn; [done|]. intros [-> Hs]%andb_prop. by rewrite IH.
Qed.

Lemma line_of_newline s rest n :
  10 ∉ s -> (length s < n)%nat -> line_of (s ++ 10 :: rest) n = (s ++ [10], rest).
Proof.
  revert n. induction s as [|c s IH]; intros [|n] Hs Hn; cbn in *; try lia; [done|].
  apply not_elem_of_cons in Hs as [Hc Hs]. rewrite (proj2 (Z.eqb_neq c 10)) by congruence.
  by rewrite IH by (done || lia).
Qed.

(** The end of a line: LF, or CR LF. *)
Definition eol (crlf : bool) : list Z := (if crlf then [13] else []) ++ [10].

(** The characters of a settings line: digits, with a carriage return. *)
Lemma digits_chars crlf ds :
  forallb is_digit ds = true ->
  let v := ds ++ (if crlf : bool then [13] else []) in
  10 ∉ v /\ forallb nonzero v = true /\ forallb (fun c => negb (IS_SPACE c)) v = true
  /\ Forall is_byte v.
Proof.
  intros Hd v.
  assert (Forall (fun c => 13 = c \/ 48 <= c <= 57) v) as Hv.
  { apply Forall_app_2; [|destruct crlf; repeat constructor].
    apply Forall_forall. intros c Hc. right. rewrite forallb_forall in Hd.
    apply list_elem_of_In, Hd in Hc. unfold is_digit in Hc. zbool; lia || done. }
  rewrite !forallb_forall. rewrite Forall_forall in Hv. split_and!.
  - intros Hin. apply Hv in Hin. lia.
  - intros c Hc%list_elem_of_In%Hv. unfold nonzero. zbool; lia || done.
  - intros c Hc%list_elem_of_In%Hv. unfold IS_SPACE. zbool; lia || done.
  - apply Forall_forall. intros c Hc%Hv. unfold is_byte. lia.
Qed.

Lemma conf_lines_nil n : conf_lines n [] = [].
Proof. by destruct n. Qed.

(** One line setting DW_DAYS. *)
Lemma days_line crlf ds c :
  forallb is_digit ds = true -> (1 <= length ds <= 9)%nat ->
  gps_download_epo_enable (Some (zs "DW_DAYS=" ++ ds ++ eol crlf)) c
  = Some (gps_epo_enable c,
          apply_setting (zs "DW_DAYS") (field_int (drop_last 1 (ds ++ if crlf then [13] else []))) c).
Proof.
  intros Hd Hl. destruct (digits_chars crlf ds Hd) as (Hnl & Hnz & Hsp & Hb).
  set (v := ds ++ _) in *.
  assert (1 <= length v <= 10)%nat as Hlv
    by (subst v; rewrite length_app; destruct crlf; cbn; lia).
  replace (ds ++ eol crlf) with (v ++ [10]) by (subst v; unfold eol; by rewrite <-app_assoc).
  unfold gps_download_epo_enable. rewrite conf_loop_spec;
    [|done|by_decide|apply Forall_app_2; [by_decide|apply Forall_app_2; [done|by_decide]]|lia].
  rewrite app_assoc. change (zs "DW_DAYS=" ++ v) with (68 :: (zs "W_DAYS=" ++ v)).
  cbn [app length conf_lines]. change (68 :: (zs "W_DAYS=" ++ v) ++ [10]) with ((zs "DW_DAYS=" ++ v) ++ 10 :: []).
  rewrite line_of_newline; cycle 1.
  { apply not_elem_of_app. split; [by_decide|done]. }
  { rewrite length_app. change (length (zs "DW_DAYS=")) with 8%nat. lia. }
  rewrite take_while_all by (rewrite !forallb_app, Hnz; reflexivity).
  assert (parse_line ((zs "DW_DAYS=" ++ v) ++ [10]) = LinePair (zs "DW_DAYS") v) as Hline.
  { rewrite <-app_assoc. unfold parse_line. change (zs "DW_DAYS=" ++ v ++ [10])
      with (zs "DW_DAYS" ++ 61 :: (v ++ [10])).
    rewrite take_while_app by reflexivity. rewrite drop_app_length.
    replace (bool_decide _) with true
      by (symmetry; apply bool_decide_eq_true; rewrite app_comm_cons, app_assoc; apply last_snoc).
    change (zs "DW_DAYS" ++ 61 :: v ++ [10]) with (68 :: (zs "W_DAYS" ++ 61 :: v ++ [10])).
    change (68 =? ch "#") with false. cbn [negb andb]. f_equal.
    destruct v as [|x v'] eqn:Ev; [cbn in Hlv; lia|]. cbn [app take_while].
    cbn [forallb] in Hsp. apply andb_prop in Hsp as [Hx Hsp]. apply negb_true_iff in Hx.
    rewrite Hx. cbn [length drop take_while negb]. rewrite Hx. cbn [negb].
    by rewrite take_while_app by done. }
  cbn [conf_spec]. rewrite Hline.
  reflexivity.
Qed.

(** The value of a setting is cut.  The parser converts one
    character less than the value has; a line that ends in CR LF leaves the
    carriage return in the value, so that the number is read in full, but a
    line that ends in LF, as a text file on the device has, loses the last
    digit: DW_DAYS=30 sets 3 days. *)
Theorem conf_value_cut (ds : list Z) (c : epo_conf) :
  forallb is_digit ds = true -> (1 <= length ds <= 9)%nat ->
  let days n := if 30 <? n then 30 else n in
  let set n := Some (gps_epo_enable c, c ⟨ gps_epo_download_days := days n ⟩) in
  gps_download_epo_enable (Some (zs "DW_DAYS=" ++ ds ++ [13; 10])) c = set (fst (digits 0 ds))
  /\ gps_download_epo_enable (Some (zs "DW_DAYS=" ++ ds ++ [10])) c
     = set (fst (digits 0 (drop_last 1 ds))).
Proof.
  intros Hd Hl days set.
  assert (forall s, forallb is_digit s = true -> (length s <= 9)%nat ->
    Some (gps_epo_enable c, apply_setting (zs "DW_DAYS") (field_int s) c) = set (fst (digits 0 s))) as Hset.
  { intros s Hs Hls. pose proof (digits_bound s Hs Hls) as Hb.
    rewrite field_int_digits by done. subst set days. unfold apply_setting. cbn [bytes_eqb].
    rewrite Z.gtb_ltb, (proj2 (Z.ltb_ge _ 0)), orb_false_r by lia. done. }
  pose proof (days_line true ds c Hd Hl) as H1. pose proof (days_line false ds c Hd Hl) as H2.
  cbn [eol app] in H1, H2. rewrite H1, H2. rewrite app_nil_r.
  rewrite drop_last_app by done. split; apply Hset; try done; try lia.
  - unfold drop_last. rewrite <-(take_drop (length ds - 1) ds), forallb_app in Hd.
    by apply andb_prop in Hd as [? _].
  - unfold drop_last. rewrite length_take. lia.
Qed.

Lemma conf_value_cut_witness :
  gps_download_epo_enable (Some (zs "DW_DAYS=" ++ zs "30" ++ [10])) default_conf
  = Some (1, default_conf ⟨ gps_epo_download_days := 3 ⟩).
Proof. refine (proj2 (conf_value_cut (zs "30") default_conf _ _)); [reflexivity|cbn; lia]. Defined.
