(* ===== verification/EpoDownload.v ===== *)
(** * EPO download (gps_mtk_aosp.c: curl_easy_download_epo,
      mtk_gps_epo_file_update, thread_epo_file_update)

    The EPO data comes in pieces of three days that are downloaded one by one
    and appended to EPOHAL.DAT.  The URL of a piece (getEpoUrl, from a binary
    library) and the answers of the server are parameters. *)

From stdpp Require Import gmap.
From S2P Require Import Prelude NmeaToken Calendar EpoTime EpoConf HalBuff.

(** ** State *)

Record epo := MkEpo {
  files : fs;
  conf : epo_conf;
  counter : Z;                       (* failed attempts, sent to the server *)
  gps_epo_type : Z;
  gps_epo_file_count : Z;
  gps_epo_file_name : string;
  gps_epo_md_file_name : string;
  epo_data_updated : Z;
  epo_download_failed : Z;
  epo_download_retry : Z;
  started : Z;
  nw_connected : Z;
  nw_type : Z;
  file_retrying : Z;
  retry_time : Z;
  requests : nat;                    (* download attempts so far *)
  sent : list (list Z);              (* datagrams to the daemon *)
  alarms : list Z;                   (* retry alarms set *)
}.

#[export] Instance epo_rebuild : Rebuild epo := fun r =>
  MkEpo (files r) (conf r) (counter r) (gps_epo_type r) (gps_epo_file_count r)
    (gps_epo_file_name r) (gps_epo_md_file_name r) (epo_data_updated r) (epo_download_failed r)
    (epo_download_retry r) (started r) (nw_connected r) (nw_type r) (file_retrying r)
    (retry_time r) (requests r) (sent r) (alarms r).

(** The static initialisers. *)
Definition epo_boot : epo :=
  MkEpo ∅ (MkConf 3 1 30 1 0) 1 0 0 EmptyString EmptyString 0 0 1 0 0 0 50 0 0 [] [].

(** The answer to a download: curl could not be set up; or the result code,
    with the bytes written to the file. *)
Inductive dl_answer := DlInit | DlDone (code : Z) (data : list Z).

Definition CURLE_OK : Z := 0.
Definition CURLE_FAILED_INIT : Z := 2.
Definition MNL_CMD_UPDATE_EPO_FILE : Z := 52.
Definition nw_wifi : Z := 1.

Section Download.
Context `{TimeZone}.
Variable getEpoUrl : string -> list Z -> option (list Z).
Variable server : nat -> list Z -> dl_answer.
(* the result of mtk_daemon_send for a datagram *)
Variable daemon_send : list Z -> Z.

(** ** Files *)

Definition path (name : string) : string := "/data/misc/gps/" +:+ name.

Definition unlink (name : string) : CM epo unit :=
  cmodify (fun s => s ⟨ files $= fun f => delete name f ⟩).

(** [fopen] for reading: the content. *)
Definition open_read (name : string) : CM epo (option (list Z)) :=
  cgets (fun s => match files s !! name with
                  | Some f => if can_open f then Some (content f) else None
                  | None => None
                  end).

(** [fopen] with truncation or for appending; the new content, with [now] as
    the modification time.  An existing file may refuse to be opened. *)
Definition writable (name : string) : CM epo bool :=
  cgets (fun s => match files s !! name with Some f => can_open f | None => true end).

Definition put_file (name : string) (data : list Z) : CM epo unit :=
  cmodify (fun s => s ⟨ files $= fun f => <[name := MkFile data 0 true true]> f ⟩).

Definition append_file (name : string) (data : list Z) : CM epo unit :=
  cmodify (fun s => s ⟨ files $= fun f =>
    <[name := MkFile (match f !! name with Some o => content o | None => [] end ++ data) 0 true true]> f ⟩).

(** ** One piece *)

Definition curl_easy_download (url : list Z) (filename : string) : CM epo Z :=
  n ← cgets requests;
  _ ← cmodify (fun s => s ⟨ requests $= S ⟩);
  match server n url with
  | DlInit => mret CURLE_FAILED_INIT
  | DlDone code data =>
      w ← writable filename;
      if (w : bool) then
        _ ← put_file filename data;
        mret code
      else mret CURLE_FAILED_INIT
  end.

(** [char count_str[5]; sprintf(count_str, "%d", counter)], then the key text. *)
Definition key_with_counter (key : list Z) : CM epo (list Z) :=
  c ← cgets counter;
  _ ← clift (buf_write (zeros 5) 0 (dec c ++ [0]));
  let k := key ++ zs "&counter=" ++ dec c in
  _ ← clift (buf_write (zeros 70) 0 (k ++ [0]));
  mret k.

Definition no_key : list Z := zs "0000000000000000".

(** The key in a downloaded MD5 file: bytes 32 to 47 of the first 48, moved to
    the front of the zeroed 70-byte array and terminated. *)
Definition md_key (md : list Z) : list Z :=
  let buf := take 48 md ++ zeros (70 - Z.of_nat (length (take 48 md))) in
  default [] (cstr (take 16 (drop 32 buf) ++ [0])).

Definition download_md : CM epo (option (list Z)) :=
  md ← cgets gps_epo_md_file_name;
  key ← key_with_counter no_key;
  match getEpoUrl md key with
  | None => mret None
  | Some md_url =>
      res ← curl_easy_download md_url (path md);
      if res =? 0 then
        c ← open_read (path md);
        _ ← cwhen (match c with Some _ => true | None => false end) (unlink (path md));
        _ ← cmodify (fun s => s ⟨ counter := 1 ⟩);
        mret (Some (match c with Some data => md_key data | None => no_key end))
      else
        _ ← cmodify (fun s => s ⟨ counter $= fun n => n + 1 ⟩);
        mret (Some no_key)
  end.

Definition merge_piece (data_file : string) : CM epo unit :=
  n ← cgets gps_epo_file_count;
  _ ← cwhen (n =? 0) (unlink EPO_FILE_HAL);
  w ← writable EPO_FILE_HAL;
  cwhen (w : bool)
    (d ← open_read data_file;
     append_file EPO_FILE_HAL (match d with Some data => data | None => [] end)).

Definition curl_easy_download_epo : CM epo Z :=
  k ← download_md;
  match k with
  | None => mret CURLE_FAILED_INIT
  | Some key =>
      key ← key_with_counter key;
      name ← cgets gps_epo_file_name;
      match getEpoUrl name key with
      | None => mret CURLE_FAILED_INIT
      | Some url =>
          res ← curl_easy_download url (path name);
          if res =? CURLE_OK then
            _ ← cmodify (fun s => s ⟨ counter := 1 ⟩);
            _ ← merge_piece (path name);
            mret res
          else
            _ ← unlink (path name);
            _ ← cmodify (fun s => s ⟨ counter $= fun n => n + 1 ⟩);
            mret res
      end
  end.

Definition mtk_gps_epo_file_update_hal : CM epo Z :=
  res ← curl_easy_download_epo;
  if negb (res =? CURLE_OK) then
    _ ← cmodify (fun s => s ⟨ epo_download_failed := 1 ⟩);
    mret (-1)
  else mret 0.

(** ** Consistency of the pieces *)

Definition set_file_name (count : Z) : CM epo unit :=
  cmodify (fun s =>
    let '(d, m) := gps_download_epo_file_name (gps_epo_type s) count
                     (gps_epo_file_name s, gps_epo_md_file_name s) in
    s ⟨ gps_epo_file_name := d ⟩ ⟨ gps_epo_md_file_name := m ⟩).

(** mtk_gps_epo_get_piece_file_size: [stat] of the named piece. *)
Definition mtk_gps_epo_get_piece_file_size (s : epo) : Z :=
  match files s !! path (gps_epo_file_name s) with Some f => u32 (file_size f) | None => 0 end.

Definition mtk_gps_epo_piece_data_start (f : file) : option Z :=
  szBuf ← read_record f 0;
  Some (secs_to_time (record_secs szBuf)).

Definition mtk_gps_epo_piece_data_end (s : epo) (f : file) : option Z :=
  let fileSize := s32 (mtk_gps_epo_get_piece_file_size s) in
  if fileSize <? MTK_EPO_ONE_SV_SIZE then None
  else
    szBuf ← read_record f (fileSize - MTK_EPO_ONE_SV_SIZE);
    Some (secs_to_time (u32 (record_secs szBuf + 21600))).

(** The time of a piece, and whether it was unreadable ([ret = 1]); a file that
    cannot be opened leaves the time 0. *)
Definition piece_time (time : epo -> file -> option Z) : CM epo (Z * bool) :=
  s ← cgets id;
  match files s !! path (gps_epo_file_name s) with
  | Some f =>
      if can_open f then
        match time s f with
        | Some t => mret (t, false)
        | None => _ ← cmodify (fun s => s ⟨ epo_download_failed := 1 ⟩); mret (0, true)
        end
      else mret (0, false)
  | None => mret (0, false)
  end.

(** [for (i = gps_epo_file_count; 0 <= i; i--)] *)
Fixpoint unlink_pieces_down (n : nat) : CM epo unit :=
  _ ← set_file_name (Z.of_nat n);
  name ← cgets gps_epo_file_name;
  _ ← unlink (path name);
  match n with O => mret tt | S n' => unlink_pieces_down n' end.

Definition mtk_gps_epo_server_data_is_changed : CM epo Z :=
  '(uTime_start, bad_start) ← piece_time (fun _ f => mtk_gps_epo_piece_data_start f);
  n ← cgets gps_epo_file_count;
  '(uTime_end, bad_end) ←
    (if n >? 0 then _ ← set_file_name (n - 1); piece_time mtk_gps_epo_piece_data_end
     else if n =? 0 then mret (uTime_start, false) else mret (0, false));
  if uTime_start - uTime_end >=? 24 * 60 * 60 then
    _ ← cwhen (0 <=? n) (unlink_pieces_down (Z.to_nat n));
    _ ← unlink EPO_FILE_HAL;
    _ ← cmodify (fun s => s ⟨ gps_epo_file_count := 0 ⟩);
    mret 1
  else mret (if (bad_start || bad_end : bool) then 1 else 0).

(** [for (i = 0; i < count_temp; i++)] *)
Fixpoint unlink_pieces (i : Z) (n : nat) : CM epo unit :=
  match n with
  | O => mret tt
  | S n' =>
      _ ← set_file_name i;
      name ← cgets gps_epo_file_name;
      _ ← unlink (path name);
      unlink_pieces (i + 1) n'
  end.

(** The number of pieces for the configured days. *)
Definition count_temp (c : epo_conf) : Z :=
  let days := gps_epo_download_days c in
  Z.quot days 3 + (if Z.rem days 3 >? 0 then 1 else 0).

Definition send_update : CM epo Z :=
  m ← clift (buff_put_int MNL_CMD_UPDATE_EPO_FILE (msg_init 1024));
  _ ← cmodify (fun s => s ⟨ sent $= fun l => l ++ [mb_data m] ⟩);
  mret (daemon_send (mb_data m)).

Definition download_complete (n : Z) (ret : Z) : CM epo Z :=
  _ ← unlink_pieces 0 (Z.to_nat n);
  _ ← cmodify (fun s => s ⟨ epo_data_updated := 0 ⟩ ⟨ gps_epo_file_count := 0 ⟩);
  f ← cgets epo_download_failed;
  _ ← cwhen (f =? 1) (cmodify (fun s => s ⟨ epo_download_failed := 0 ⟩));
  st ← cgets started;
  if truthy st then
    _ ← unlink EPO_FILE;
    send_update
  else mret ret.

Definition mtk_gps_epo_file_update : CM epo Z :=
  ret ← mtk_gps_epo_file_update_hal;
  if ret <? 0 then mret (-1)
  else
    is_changed ← mtk_gps_epo_server_data_is_changed;
    if is_changed =? 1 then mret (-1)
    else
      _ ← cmodify (fun s => s ⟨ gps_epo_file_count $= fun n => n + 1 ⟩);
      n ← cgets gps_epo_file_count;
      c ← cgets conf;
      if (n <? 10) && (n <? count_temp c) then mret 0
      else download_complete (count_temp c) ret.

(** ** The thread *)

(** The download in progress. *)
Definition step_download : CM epo unit :=
  u ← cgets epo_data_updated;
  cwhen (u =? 1)
    (_ ← cmodify (fun s => s ⟨ epo_download_failed := 0 ⟩);
     n ← cgets gps_epo_file_count;
     _ ← set_file_name n;
     _ ← mtk_gps_epo_file_update;
     f ← cgets epo_download_failed;
     cwhen (f =? 1) (cmodify (fun s => s ⟨ epo_data_updated := 0 ⟩))).

(** A failed download is taken up again after an alarm, ten times at most. *)
Definition retry_bookkeeping (file_count_temp : Z) : CM epo unit :=
  n ← cgets gps_epo_file_count;
  cwhen (file_count_temp =? n)
    (r ← cgets file_retrying;
     _ ← (if r =? n then cmodify (fun s => s ⟨ retry_time $= fun k => k + 1 ⟩)
          else cmodify (fun s => s ⟨ file_retrying := n ⟩ ⟨ retry_time := 0 ⟩));
     k ← cgets retry_time;
     if k <? 10 then
       cmodify (fun s => s ⟨ epo_download_retry := 0 ⟩ ⟨ alarms $= fun l => l ++ [15] ⟩)
     else
       cmodify (fun s => s ⟨ epo_download_failed := 0 ⟩ ⟨ retry_time := 0 ⟩ ⟨ file_retrying := 50 ⟩)).

Definition step_retry (now : Z) : CM epo unit :=
  s ← cgets id;
  cwhen ((truthy (started s) || (nw_type s =? nw_wifi))
         && (truthy (nw_connected s) && truthy (epo_download_failed s) && truthy (epo_download_retry s)))
    (_ ← cwhen (file_retrying s =? 50) (cmodify (fun s => s ⟨ file_retrying := gps_epo_file_count s ⟩));
     let time_utc := u32 (fst (mktime (gmtime now))) in
     let uTime := snd (mtk_gps_epo_file_time_hal (files s) (MkTimes 0 0 0)) in
     _ ← (if time_utc >=? t_start uTime + 24 * 60 * 60 then
            _ ← cmodify (fun s => s ⟨ epo_download_failed := 0 ⟩ ⟨ gps_epo_file_count := 0 ⟩
                                    ⟨ epo_data_updated := 1 ⟩);
            unlink EPO_FILE_HAL
          else
            _ ← set_file_name (gps_epo_file_count s);
            _ ← mtk_gps_epo_file_update;
            mret tt);
     retry_bookkeeping (gps_epo_file_count s)).

(** gps_download_epo *)
Definition gps_download_epo : CM epo unit :=
  cmodify (fun s => s ⟨ epo_data_updated := 1 ⟩ ⟨ gps_epo_file_count := 0 ⟩).

(** Over WiFi an old file triggers a download. *)
Definition step_wifi (now : Z) : CM epo unit :=
  s ← cgets id;
  cwhen ((epo_data_updated s =? 0) && truthy (gps_epo_wifi_trigger (conf s))
         && truthy (gps_epo_enable (conf s))
         && ((epo_download_failed s =? 0) && truthy (nw_connected s) && (nw_type s =? nw_wifi)))
    (cwhen (truthy (mtk_epo_is_expired true now (conf s) (files s)))
       (_ ← cmodify (fun s => s ⟨ gps_epo_file_count := 0 ⟩);
        _ ← gps_download_epo;
        unlink EPO_FILE_HAL)).

(** One round of thread_epo_file_update; the result is the next delay in ms. *)
Definition epo_thread_round (now : Z) (conf_file : option (list Z)) : CM epo Z :=
  c ← cgets conf;
  '(_, c) ← clift (gps_download_epo_enable conf_file c);
  _ ← cmodify (fun s => s ⟨ conf := c ⟩);
  _ ← step_download;
  _ ← step_retry now;
  _ ← step_wifi now;
  s ← cgets id;
  mret (if (epo_data_updated s =? 0) && (epo_download_failed s =? 0) then 2000 else 100).
End Download.

(** ** Names *)

Definition dname (ty i : Z) : string := fst (gps_download_epo_file_name ty i (EmptyString, EmptyString)).
Definition mname (ty i : Z) : string := snd (gps_download_epo_file_name ty i (EmptyString, EmptyString)).

Definition type_ok (ty : Z) : Prop := ty ∈ [0; 1].

(** Checking a statement for both types and all ten pieces. *)
Lemma names_enum (P : Z -> Z -> Z -> bool) :
  forallb (fun ty => forallb (fun i => forallb (P ty i) (seqZ 0 10)) (seqZ 0 10)) [0; 1] = true ->
  forall ty i j, type_ok ty -> 0 <= i < 10 -> 0 <= j < 10 -> P ty i j = true.
Proof.
  intros HP ty i j Hty Hi Hj. rewrite forallb_forall in HP.
  apply list_elem_of_In, HP in Hty. rewrite forallb_forall in Hty.
  specialize (Hty i). rewrite forallb_forall in Hty.
  apply Hty; apply list_elem_of_In, elem_of_seqZ; lia.
Qed.

Lemma names_distinct ty i j :
  type_ok ty -> 0 <= i < 10 -> 0 <= j < 10 ->
  path (mname ty i) <> path (dname ty j) /\ path (mname ty i) <> EPO_FILE_HAL
  /\ path (dname ty i) <> EPO_FILE_HAL /\ path (dname ty i) <> EPO_FILE
  /\ (i <> j -> path (dname ty i) <> path (dname ty j))
  /\ dname ty i <> mname ty j.
Proof.
  intros Hty Hi Hj.
  pose (P := fun ty i j => bool_decide (path (mname ty i) <> path (dname ty j)
    /\ path (mname ty i) <> EPO_FILE_HAL /\ path (dname ty i) <> EPO_FILE_HAL
    /\ path (dname ty i) <> EPO_FILE /\ (i <> j -> path (dname ty i) <> path (dname ty j))
    /\ dname ty i <> mname ty j)).
  apply (bool_decide_eq_true (path (mname ty i) <> path (dname ty j) /\ _)).
  revert ty i j Hty Hi Hj. apply (names_enum P). vm_compute. reflexivity.
Qed.

Lemma file_name_eq ty i old :
  type_ok ty -> 0 <= i < 10 -> gps_download_epo_file_name ty i old = (dname ty i, mname ty i).
Proof.
  intros Hty Hi. unfold dname, mname.
  assert (i ∈ seqZ 0 10) as Hin by (apply elem_of_seqZ; lia).
  assert (forall l : list Z, i ∈ l -> Forall (fun i => gps_download_epo_file_name ty i old
    = (fst (gps_download_epo_file_name ty i (EmptyString, EmptyString)),
       snd (gps_download_epo_file_name ty i (EmptyString, EmptyString)))) l ->
    gps_download_epo_file_name ty i old
    = (fst (gps_download_epo_file_name ty i (EmptyString, EmptyString)),
       snd (gps_download_epo_file_name ty i (EmptyString, EmptyString)))) as Hf
    by (intros l Hl HF; rewrite Forall_forall in HF; by apply HF).
  apply (Hf _ Hin). apply list_elem_of_In in Hty. cbn [In] in Hty.
  destruct Hty as [<-|[<-|[]]]; repeat constructor.
Qed.

(** The text of the counter fits as long as it has four digits. *)
Lemma length_dec c : 0 <= c < 10000 -> (length (dec c) <= 4)%nat.
Proof.
  intros Hc. apply Nat.leb_le. revert c Hc.
  assert (forallb (fun c => (length (dec c) <=? 4)%nat) (seqZ 0 10000) = true) as Hall
    by (vm_compute; reflexivity).
  intros c Hc. rewrite forallb_forall in Hall. apply Hall, list_elem_of_In, elem_of_seqZ. lia.
Qed.

Lemma wp_key key s (Q : list Z -> epo -> Prop) :
  0 <= counter s < 10000 -> (length key <= 16)%nat ->
  (forall k, Q k s) -> wp (key_with_counter key) Q s.
Proof.
  intros Hc Hk HQ. unfold key_with_counter. pose proof (length_dec _ Hc).
  apply wp_bind, wp_gets, wp_bind.
  change (zeros 5) with (replicate 5 0). change (zeros 70) with (replicate 70 0).
  eapply wp_lift; [apply buf_write_Some; autorewrite with blen; cbn [length]; lia|].
  apply wp_bind. eapply wp_lift; [apply buf_write_Some|apply wp_ret, HQ]; [lia|].
  autorewrite with blen. change (length (zs "&counter=")) with 9%nat. cbn [length]. lia.
Qed.

Lemma length_md_key md : (length (md_key md) <= 16)%nat.
Proof.
  unfold md_key. set (t := take 16 _). destruct (cstr_total t) as [x Hx]. rewrite Hx.
  assert (forall s y, cstr (s ++ [0]) = Some y -> (length y <= length s)%nat) as Hl.
  { clear. induction s as [|c s IH]; intros y Hy; cbn in Hy; [by injection Hy as <-|].
    destruct (c =? 0); [injection Hy as <-; cbn; lia|].
    destruct (cstr (s ++ [0])) as [z|]; [|done]. injection Hy as <-. cbn. specialize (IH z eq_refl). lia. }
  apply Hl in Hx. change (length x <= 16)%nat.
  assert (length t <= 16)%nat by (subst t; rewrite length_take; lia). lia.
Qed.

(** ** Lookups in the file store *)

Lemma fs_insert_eq (f : fs) n x : <[n := x]> f !! n = Some x.
Proof. apply lookup_insert_eq. Qed.

Lemma fs_insert_ne (f : fs) n m x : n <> m -> <[n := x]> f !! m = f !! m.
Proof. apply lookup_insert_ne. Qed.

Lemma fs_delete_eq (f : fs) n : delete n f !! n = None.
Proof. apply lookup_delete_eq. Qed.

Lemma fs_delete_ne (f : fs) n m : n <> m -> delete n f !! m = f !! m.
Proof. apply lookup_delete_ne. Qed.

(** ** A complete download

    The server delivers piece [i] for its file name, whatever the key; the MD5
    files may be missing. *)

Section Complete.
Context `{TimeZone}.
Variable getEpoUrl : string -> list Z -> option (list Z).
Variable server : nat -> list Z -> dl_answer.
Variable daemon_send : list Z -> Z.
Variable ty : Z.
Variable piece : Z -> list Z.
Variable times : Z -> Z * Z.

Definition piece_file (i : Z) : file := MkFile (piece i) 0 true true.

Definition start_of (i : Z) : option Z := mtk_gps_epo_piece_data_start (piece_file i).
Definition end_of (i : Z) : option Z :=
  szBuf ← read_record (piece_file i) (Z.of_nat (length (piece i)) - MTK_EPO_ONE_SV_SIZE);
  Some (secs_to_time (u32 (record_secs szBuf + 21600))).

(** Every URL can be built, and the one of a data file delivers its piece. *)
Definition serves : Prop :=
  forall name key, exists u, getEpoUrl name key = Some u
  /\ forall i n, 0 <= i < 10 -> name = dname ty i -> server n u = DlDone CURLE_OK (piece i).

(** The times of the pieces are readable and follow each other without a gap
    of a day or more. *)
Definition consecutive : Prop :=
  forall i, 0 <= i < 10 ->
  start_of i = Some (fst (times i)) /\ end_of i = Some (snd (times i))
  /\ MTK_EPO_ONE_SV_SIZE <= Z.of_nat (length (piece i)) < 2 ^ 31
  /\ (0 < i -> fst (times i) - snd (times (i - 1)) < 86400).

Hypothesis Hty : type_ok ty.
Hypothesis Hurl : serves.
Hypothesis Htimes : consecutive.

Definition all_open (f : fs) : Prop := map_Forall (fun _ x => can_open x = true) f.

(** The pieces merged so far. *)
Fixpoint merged (n : nat) : list Z :=
  match n with O => [] | S n' => merged n' ++ piece (Z.of_nat n') end.

(** [i] pieces are merged, the counter says [c]. *)
Record progress (s0 : epo) (c i : Z) (s : epo) : Prop := {
  pr_conf : conf s = conf s0;
  pr_type : gps_epo_type s = ty;
  pr_count : gps_epo_file_count s = c;
  pr_updated : epo_data_updated s = 1;
  pr_failed : epo_download_failed s = 0;
  pr_started : started s = started s0;
  pr_sent : sent s = sent s0;
  pr_open : all_open (files s);
  pr_hal : 0 < i -> files s !! EPO_FILE_HAL = Some (MkFile (merged (Z.to_nat i)) 0 true true);
  pr_prev : forall j, 0 <= j < i -> files s !! path (dname ty j) = Some (piece_file j);
}.

Definition named (i : Z) (s : epo) : Prop :=
  gps_epo_file_name s = dname ty i /\ gps_epo_md_file_name s = mname ty i.

Lemma all_open_insert f name d :
  all_open f -> all_open (<[name := MkFile d 0 true true]> f).
Proof. intros Hf. by apply map_Forall_insert_2. Qed.

Lemma all_open_delete f name : all_open f -> all_open (delete name f).
Proof. apply map_Forall_delete. Qed.

(** A change that keeps EPOHAL.DAT and the pieces. *)
Lemma progress_ext s0 c i s s' :
  progress s0 c i s ->
  (conf s', gps_epo_type s', gps_epo_file_count s', epo_data_updated s', epo_download_failed s',
   started s', sent s')
  = (conf s, gps_epo_type s, gps_epo_file_count s, epo_data_updated s, epo_download_failed s,
     started s, sent s) ->
  all_open (files s') ->
  (0 < i -> files s' !! EPO_FILE_HAL = files s !! EPO_FILE_HAL) ->
  (forall j, 0 <= j < i -> files s' !! path (dname ty j) = files s !! path (dname ty j)) ->
  progress s0 c i s'.
Proof.
  intros [] Heq Ho Hh Hp. injection Heq as ? ? ? ? ? ? ?.
  split; [congruence..|exact Ho| |]; [intros Hi; rewrite Hh|intros j Hi; rewrite Hp]; auto.
Qed.

Lemma wp_curl_download url name s (Q : Z -> epo -> Prop) :
  all_open (files s) ->
  (match server (requests s) url with
   | DlInit => Q CURLE_FAILED_INIT (s ⟨ requests $= S ⟩)
   | DlDone code data =>
       Q code (s ⟨ requests $= S ⟩ ⟨ files $= fun f => <[name := MkFile data 0 true true]> f ⟩)
   end) ->
  wp (curl_easy_download server url name) Q s.
Proof.
  intros Ho HQ. unfold curl_easy_download. apply wp_bind, wp_gets, wp_bind, wp_modify.
  destruct (server (requests s) url); [done|].
  unfold writable. apply wp_bind, wp_gets. cbn [files field_update].
  replace (match files s !! name with Some f => can_open f | None => true end) with true.
  - apply wp_bind, wp_modify, wp_ret. done.
  - destruct (files s !! name) as [f|] eqn:E; [|done]. symmetry. by apply (Ho name).
Qed.

(** The MD5 part changes nothing that matters, and gives a short key. *)
Lemma wp_download_md s0 i s :
  0 <= i < 10 -> progress s0 i i s -> named i s -> 0 <= counter s < 9000 ->
  wp (download_md getEpoUrl server)
     (fun k s' => (exists key, k = Some key /\ (length key <= 16)%nat)
        /\ 0 <= counter s' < 9001 /\ progress s0 i i s' /\ named i s') s.
Proof using Hty Hurl.
  intros Hi Hp [Hn Hm] Hc. unfold download_md, open_read, unlink. pose proof (pr_open _ _ _ _ Hp) as Ho.
  apply wp_bind, wp_gets. rewrite Hm.
  apply wp_bind, wp_key; [lia|done|]. intros k.
  destruct (Hurl (mname ty i) k) as (u & -> & _).
  apply wp_bind, wp_curl_download; [done|].
  destruct (names_distinct ty i 0 Hty) as (_ & Hmh & _); [lia..|].
  assert (forall j, 0 <= j < i -> path (mname ty i) <> path (dname ty j)) as Hmd
    by (intros j Hj; apply (names_distinct ty i j); [done|lia|lia]).
  destruct (server (requests s) u) as [|code data].
  { apply wp_if; [done|intros _]. apply wp_bind, wp_modify, wp_ret.
    split; [by exists no_key|]. split; [cbn; lia|]. split; [|done].
    by eapply progress_ext. }
  apply wp_if; intros Hcode.
  - apply wp_bind, wp_gets. cbn [files field_update].
    rewrite fs_insert_eq. apply wp_bind, wp_modify, wp_bind, wp_modify, wp_ret.
    split; [eexists; split; [done|apply length_md_key]|]. split; [cbn; lia|]. split; [|done].
    eapply progress_ext; try done; cbn [files field_update].
    + by apply all_open_delete, all_open_insert.
    + intros. by rewrite fs_delete_ne, fs_insert_ne.
    + intros. by rewrite fs_delete_ne, fs_insert_ne by auto.
  - apply wp_bind, wp_modify, wp_ret.
    split; [by exists no_key|]. split; [cbn; lia|]. split; [|done].
    eapply progress_ext; try done; cbn [files field_update].
    + by apply all_open_insert.
    + intros. by rewrite fs_insert_ne.
    + intros. by rewrite fs_insert_ne by auto.
Qed.

(** Appending the piece: the first one replaces an old EPOHAL.DAT. *)
Lemma wp_merge_piece s0 i s :
  0 <= i < 10 -> progress s0 i i s -> files s !! path (dname ty i) = Some (piece_file i) ->
  wp (merge_piece (path (dname ty i)))
     (fun _ s' => progress s0 i (i + 1) s' /\ counter s' = counter s
        /\ gps_epo_file_name s' = gps_epo_file_name s
        /\ gps_epo_md_file_name s' = gps_epo_md_file_name s) s.
Proof using Hty.
  intros Hi [] Hf. unfold merge_piece, unlink, writable, open_read, append_file.
  destruct (names_distinct ty i 0 Hty) as (_ & _ & Hd & _); [lia..|].
  apply wp_bind, wp_gets, wp_bind. rewrite pr_count0.
  eapply (wp_mono _ (fun _ s' => s' = s ⟨ files := if i =? 0 then delete EPO_FILE_HAL (files s) else files s ⟩)).
  { apply wp_when; intros ->; [by apply wp_modify|by destruct s]. }
  intros _ s' ->. apply wp_bind, wp_gets. cbn [files field_update].
  set (f := if i =? 0 then _ else _).
  assert (all_open f) as Ho by (unfold f; destruct (i =? 0); [by apply all_open_delete|done]).
  assert (f !! path (dname ty i) = Some (piece_file i)) as Hpc
    by (unfold f; destruct (i =? 0); [by rewrite fs_delete_ne|done]).
  assert (match f !! EPO_FILE_HAL with Some o => content o | None => [] end = merged (Z.to_nat i)) as Hm.
  { unfold f. destruct (Z.eqb_spec i 0) as [->|]; [by rewrite fs_delete_eq|].
    by rewrite pr_hal0 by lia. }
  replace (match f !! EPO_FILE_HAL with Some f => can_open f | None => true end) with true
    by (destruct (f !! EPO_FILE_HAL) as [o|] eqn:E; [symmetry; by apply (Ho EPO_FILE_HAL)|done]).
  cbn [cwhen]. apply wp_bind, wp_gets. cbn [files field_update]. rewrite Hpc. cbn [can_open piece_file].
  apply wp_modify. cbn [content piece_file]. split; [|done].
  split; cbn; try done; fold f.
  - by apply all_open_insert.
  - intros _. rewrite fs_insert_eq, Hm, Z2Nat.inj_add by lia. rewrite Nat.add_1_r. cbn [merged].
    by rewrite Z2Nat.id by lia.
  - intros j Hj. rewrite fs_insert_ne by (intros E; symmetry in E; revert E; apply names_distinct with (j := 0); [done|lia|lia]).
    destruct (Z.eq_dec j i) as [->|]; [done|].
    unfold f. destruct (Z.eqb_spec i 0); [lia|]. apply pr_prev0. lia.
Qed.

(** One piece: downloaded and merged. *)
Lemma wp_download_epo s0 i s :
  0 <= i < 10 -> progress s0 i i s -> named i s -> 0 <= counter s < 9000 ->
  wp (curl_easy_download_epo getEpoUrl server)
     (fun res s' => res = CURLE_OK /\ counter s' = 1 /\ progress s0 i (i + 1) s' /\ named i s') s.
Proof using Hty Hurl.
  intros Hi Hp Hn Hc. unfold curl_easy_download_epo.
  apply wp_bind. eapply wp_mono; [by eapply wp_download_md|]. cbn beta.
  clear s Hp Hn Hc. intros ? s ((key & -> & Hk) & Hc & Hp & [Hn Hm]).
  apply wp_bind, wp_key; [lia|lia|]. intros key'. apply wp_bind, wp_gets. rewrite Hn.
  destruct (Hurl (dname ty i) key') as (u & -> & Hs).
  apply wp_bind, wp_curl_download; [apply Hp|]. rewrite (Hs i) by done.
  destruct (names_distinct ty i 0 Hty) as (_ & _ & Hd & _); [lia..|].
  apply wp_if; [intros _|done]. apply wp_bind, wp_modify, wp_bind.
  eapply wp_mono; [apply (wp_merge_piece s0 i); [done| |]|].
  - eapply progress_ext; [exact Hp|done|apply all_open_insert, Hp| |]; intros; cbn [files field_update].
    + by rewrite fs_insert_ne.
    + rewrite fs_insert_ne; [done|]. apply (names_distinct ty i j); [done|lia..].
  - cbn. by rewrite fs_insert_eq.
  - cbn beta. intros _ s' (Hp' & Hc' & Hn' & Hm'). apply wp_ret.
    split; [done|]. split; [done|]. split; [done|].
    split; [by rewrite Hn'|by rewrite Hm'].
Qed.

Lemma wp_set_file_name i s (Q : unit -> epo -> Prop) :
  gps_epo_type s = ty -> 0 <= i < 10 ->
  Q tt (s ⟨ gps_epo_file_name := dname ty i ⟩ ⟨ gps_epo_md_file_name := mname ty i ⟩) ->
  wp (set_file_name i) Q s.
Proof using Hty. intros He Hi HQ. apply wp_modify. rewrite He, file_name_eq by done. exact HQ. Qed.

Lemma piece_size s i :
  0 <= i < 10 -> gps_epo_file_name s = dname ty i ->
  files s !! path (dname ty i) = Some (piece_file i) ->
  s32 (mtk_gps_epo_get_piece_file_size s) = Z.of_nat (length (piece i)).
Proof using Htimes.
  intros Hi Hn Hf. unfold mtk_gps_epo_get_piece_file_size. rewrite Hn, Hf.
  destruct (Htimes i Hi) as (_ & _ & Hl & _). unfold file_size, MTK_EPO_ONE_SV_SIZE in *. cbn [content piece_file].
  rewrite u32_id, s32_id; [done| |]; unfold is_s32, is_u32; lia.
Qed.

(** The pieces fit, so nothing is thrown away. *)
Lemma wp_is_changed s0 i s :
  0 <= i < 10 -> progress s0 i (i + 1) s -> named i s ->
  wp mtk_gps_epo_server_data_is_changed
     (fun r s' => r = 0 /\ progress s0 i (i + 1) s' /\ counter s' = counter s) s.
Proof using Hty Htimes.
  intros Hi Hp [Hn Hm]. unfold mtk_gps_epo_server_data_is_changed, piece_time.
  destruct (Htimes i Hi) as (Hs & _ & _ & _).
  apply wp_bind, wp_bind, wp_gets. cbn [id]. rewrite Hn, (pr_prev _ _ _ _ Hp) by lia.
  cbn [can_open piece_file]. unfold start_of in Hs. fold (piece_file i). rewrite Hs. apply wp_ret.
  apply wp_bind, wp_gets, wp_bind. rewrite (pr_count _ _ _ _ Hp).
  eapply (wp_mono _ (fun r s' => fst (times i) - fst r < 86400 /\ snd r = false
    /\ progress s0 i (i + 1) s' /\ counter s' = counter s)).
  - apply wp_if; intros Hi0.
    + apply wp_bind, wp_set_file_name; [apply Hp|lia|].
      set (s' := s ⟨ _ := _ ⟩ ⟨ _ := _ ⟩). destruct (Htimes (i - 1)) as (_ & He & Hl & _); [lia|].
      destruct (Htimes i Hi) as (_ & _ & _ & Hg).
      assert (files s' !! path (gps_epo_file_name s') = Some (piece_file (i - 1))) as Hf
        by (apply (pr_prev _ _ _ _ Hp); lia).
      apply wp_bind, wp_gets. cbn [id]. rewrite Hf. cbn [can_open piece_file]. fold (piece_file (i - 1)).
      unfold mtk_gps_epo_piece_data_end. rewrite (piece_size s' (i - 1)) by first [done|lia].
      destruct (Z.ltb_spec (Z.of_nat (length (piece (i - 1)))) MTK_EPO_ONE_SV_SIZE); [lia|].
      unfold end_of in He. rewrite He. apply wp_ret. cbn [fst snd].
      split; [apply Hg; lia|]. split; [done|]. split; [|done]. by eapply progress_ext; [exact Hp|..]; try apply Hp.
    + apply wp_if; intros; [|lia]. apply wp_ret. cbn. split; [lia|]. done.
  - intros [t b] s' (Ht & Hb & Hp' & Hc'). cbn in Ht, Hb. subst b.
    apply wp_if; intros; [lia|]. by apply wp_ret.
Qed.
(** Unlinking the pieces, from [i] on, keeps the other files. *)
Lemma wp_unlink_pieces n : forall i s, gps_epo_type s = ty -> 0 <= i -> i + Z.of_nat n <= 10 ->
  wp (unlink_pieces i n)
     (fun _ s' => (exists f d m, s' = s ⟨ files := f ⟩ ⟨ gps_epo_file_name := d ⟩ ⟨ gps_epo_md_file_name := m ⟩)
        /\ (forall j, i <= j < i + Z.of_nat n -> files s' !! path (dname ty j) = None)
        /\ (forall j, files s !! j = None -> files s' !! j = None)
        /\ files s' !! EPO_FILE_HAL = files s !! EPO_FILE_HAL) s.
Proof using Hty.
  induction n as [|n IH]; intros i s Hs Hi Hn; cbn [unlink_pieces].
  - apply wp_ret. split; [by exists (files s), (gps_epo_file_name s), (gps_epo_md_file_name s); destruct s|].
    split; [lia|done].
  - destruct (names_distinct ty i 0 Hty) as (_ & _ & Hd & _); [lia..|].
    apply wp_bind, wp_set_file_name; [done|lia|]. apply wp_bind, wp_gets, wp_bind, wp_modify.
    eapply wp_mono; [apply IH; [done|lia|lia]|]. cbn beta.
    intros _ s' ((f & d & m & ->) & Hj & Hk & Hh).
    split; [by exists f, d, m|]. cbn [files field_update gps_epo_file_name] in *.
    split; [|split].
    + intros j Hij. destruct (Z.eq_dec j i) as [->|]; [|apply Hj; lia].
      apply Hk, fs_delete_eq.
    + intros j Hj0. apply Hk. destruct (decide (path (dname ty i) = j)) as [<-|].
      * apply fs_delete_eq.
      * by rewrite fs_delete_ne.
    + by rewrite Hh, fs_delete_ne.
Qed.

(** What is there after a complete download of [n] pieces. *)
Definition completed (s0 : epo) (n : Z) (s : epo) : Prop :=
  files s !! EPO_FILE_HAL = Some (MkFile (merged (Z.to_nat n)) 0 true true)
  /\ (forall j, 0 <= j < n -> files s !! path (dname ty j) = None)
  /\ (truthy (started s0) = true -> files s !! EPO_FILE = None)
  /\ gps_epo_file_count s = 0 /\ epo_data_updated s = 0 /\ epo_download_failed s = 0
  /\ counter s = 1
  /\ sent s = sent s0 ++ (if truthy (started s0) then [enc_int MNL_CMD_UPDATE_EPO_FILE ++ zeros 1020] else []).

Lemma wp_complete s0 c n r s :
  1 <= n <= 10 -> progress s0 c n s -> counter s = 1 ->
  wp (download_complete daemon_send n r) (fun _ s' => completed s0 n s') s.
Proof using Hty.
  intros Hn Hp Hc. unfold download_complete. apply wp_bind.
  eapply wp_mono; [apply (wp_unlink_pieces (Z.to_nat n) 0); [apply Hp|lia|lia]|]. cbn beta.
  intros _ s' ((f & d & m & ->) & Hj & _ & Hh). cbn [files field_update] in *.
  rewrite (pr_hal _ _ _ _ Hp) in Hh by lia.
  assert (forall j, 0 <= j < n -> f !! path (dname ty j) = None) as Hj' by (intros; apply Hj; lia).
  apply wp_bind, wp_modify, wp_bind, wp_gets. cbn [epo_download_failed field_update].
  rewrite (pr_failed _ _ _ _ Hp). cbn [Z.eqb cwhen]. apply wp_bind, wp_ret, wp_bind, wp_gets.
  cbn [started field_update id]. rewrite (pr_started _ _ _ _ Hp).
  unfold completed. destruct (truthy (started s0)) eqn:Hst.
  - unfold unlink, send_update. apply wp_bind, wp_modify, wp_bind.
    change (msg_init 1024) with (msg_of 1024 []).
    eapply wp_lift; [apply buff_put_int_of; cbn; lia|]. apply wp_bind, wp_modify, wp_ret.
    cbn. split; [by rewrite fs_delete_ne|]. split; [|split; [by rewrite fs_delete_eq|]].
    + intros j Hj0. destruct (decide (EPO_FILE = path (dname ty j))) as [E|]; [rewrite <- E; apply fs_delete_eq|].
      rewrite fs_delete_ne by done. by apply Hj'.
    + repeat (split; [done || apply Hp|]). by rewrite (pr_sent _ _ _ _ Hp).
  - apply wp_ret. cbn. split; [done|]. split; [done|]. split; [done|].
    repeat (split; [done || apply Hp|]). by rewrite (pr_sent _ _ _ _ Hp), app_nil_r.
Qed.
(** One round of the thread: the piece is added, or the download completed. *)
Lemma wp_step_download s0 i s :
  0 <= i < count_temp (conf s0) -> count_temp (conf s0) <= 10 -> progress s0 i i s ->
  0 <= counter s < 9000 ->
  wp (step_download getEpoUrl server daemon_send)
     (fun _ s' => if i + 1 <? count_temp (conf s0) then progress s0 (i + 1) (i + 1) s' /\ counter s' = 1
                  else completed s0 (count_temp (conf s0)) s') s.
Proof using Hty Hurl Htimes.
  intros Hi Hn Hp Hc. unfold step_download.
  apply wp_bind, wp_gets. rewrite (pr_updated _ _ _ _ Hp). cbn [Z.eqb Pos.eqb cwhen].
  apply wp_bind, wp_modify, wp_bind, wp_gets, wp_bind. cbn [gps_epo_file_count field_update].
  rewrite (pr_count _ _ _ _ Hp). apply wp_set_file_name; [apply Hp|lia|].
  set (s1 := s ⟨ _ := _ ⟩ ⟨ _ := _ ⟩ ⟨ _ := _ ⟩).
  assert (progress s0 i i s1) as Hp1.
  { eapply progress_ext; [exact Hp| |apply Hp|done|done]. cbn. by rewrite (pr_failed _ _ _ _ Hp). }
  unfold mtk_gps_epo_file_update, mtk_gps_epo_file_update_hal. apply wp_bind, wp_bind, wp_bind.
  eapply wp_mono; [eapply (wp_download_epo s0 i s1); [lia|done|done|done]|]. cbn beta.
  intros res s2 (-> & Hc2 & Hp2 & Hn2). apply wp_ret. cbn [Z.ltb Z.compare].
  apply wp_bind. eapply wp_mono; [by apply (wp_is_changed s0 i s2); [lia| |]|]. cbn beta.
  intros ? s3 (-> & Hp3 & Hc3). cbn [Z.eqb]. apply wp_bind, wp_modify, wp_bind, wp_gets, wp_bind, wp_gets.
  cbn [gps_epo_file_count conf field_update]. rewrite (pr_count _ _ _ _ Hp3), (pr_conf _ _ _ _ Hp3).
  set (s4 := s3 ⟨ _ $= _ ⟩).
  assert (progress s0 (i + 1) (i + 1) s4) as Hp4.
  { destruct Hp3. split; try done. cbn. by rewrite pr_count0. }
  assert (((i + 1 <? 10) && (i + 1 <? count_temp (conf s0))) = (i + 1 <? count_temp (conf s0))) as ->
    by (destruct (Z.ltb_spec (i + 1) 10), (Z.ltb_spec (i + 1) (count_temp (conf s0))); cbn; lia).
  destruct (Z.ltb_spec (i + 1) (count_temp (conf s0))).
  - apply wp_ret, wp_bind, wp_gets. rewrite (pr_failed _ _ _ _ Hp4). cbn [Z.eqb cwhen]. apply wp_ret.
    split; [done|]. subst s4. cbn. by rewrite Hc3.
  - replace (count_temp (conf s0)) with (i + 1) by lia.
    eapply wp_mono; [eapply wp_complete; [|exact Hp4|]; [lia|subst s4; cbn; by rewrite Hc3]|]. cbn beta.
    intros _ s5 Hs5. apply wp_bind, wp_gets. destruct (Hs5) as (_ & _ & _ & _ & _ & -> & _).
    by apply wp_ret.
Qed.

(** The thread's rounds. *)
Fixpoint rounds (n : nat) : CM epo unit :=
  match n with
  | O => mret tt
  | S n' => _ ← step_download getEpoUrl server daemon_send; rounds n'
  end.

Lemma wp_rounds s0 n : forall i s,
  i + Z.of_nat n = count_temp (conf s0) -> 0 <= i -> (0 < n)%nat -> count_temp (conf s0) <= 10 ->
  progress s0 i i s -> 0 <= counter s < 9000 ->
  wp (rounds n) (fun _ s' => completed s0 (count_temp (conf s0)) s') s.
Proof using Hty Hurl Htimes.
  induction n as [|n IH]; intros i s Hn Hi H0 Hc Hp Hco; [lia|]. cbn [rounds].
  apply wp_bind. eapply wp_mono; [apply (wp_step_download s0 i); [lia|done..]|]. cbn beta.
  intros _ s' Hs'. destruct (Z.ltb_spec (i + 1) (count_temp (conf s0))).
  - destruct Hs' as [Hp' Hc']. apply (IH (i + 1)); [lia|lia|lia|done|done|lia].
  - assert (n = 0)%nat as -> by lia. by apply wp_ret.
Qed.
End Complete.

Lemma count_temp_range c : 1 <= gps_epo_download_days c <= 30 -> 1 <= count_temp c <= 10.
Proof.
  intros Hd. unfold count_temp.
  rewrite Z.quot_div_nonneg, Z.rem_mod_nonneg by lia.
  pose proof (Z.div_mod (gps_epo_download_days c) 3). pose proof (Z.mod_pos_bound (gps_epo_download_days c) 3).
  destruct (Z.gtb_spec (gps_epo_download_days c mod 3) 0); lia.
Qed.

(** C14 (functional): a complete download.  When every URL can be built, the
    server delivers the data pieces (the MD5 files may fail) and the pieces
    follow each other without a gap of a day, then, for 1 to 30 configured
    days, a requested download ends after exactly one round of
    thread_epo_file_update per piece: EPOHAL.DAT is the concatenation of the
    pieces in order, whatever it was before, the piece files are gone, the
    state is idle again, and the daemon is told once if the GPS is running
    (and its old EPO.DAT is removed). *)
Theorem epo_download_complete `{TimeZone} getEpoUrl server daemon_send ty piece times s :
  type_ok ty -> serves getEpoUrl server ty piece -> consecutive piece times ->
  gps_epo_type s = ty -> 1 <= gps_epo_download_days (conf s) <= 30 ->
  gps_epo_file_count s = 0 -> epo_data_updated s = 1 -> epo_download_failed s = 0 ->
  all_open (files s) -> 0 <= counter s < 9000 ->
  exists s', rounds getEpoUrl server daemon_send (Z.to_nat (count_temp (conf s))) s = Some (tt, s')
  /\ completed ty piece s (count_temp (conf s)) s'.
Proof.
  intros Hty Hurl Htimes He Hd Hc Hu Hf Ho Hco. pose proof (count_temp_range _ Hd) as Hr.
  assert (progress ty piece s 0 0 s) as Hp by (split; try done; lia).
  pose proof (wp_rounds getEpoUrl server daemon_send ty piece times Hty Hurl Htimes s
    (Z.to_nat (count_temp (conf s))) 0 s ltac:(lia) ltac:(lia) ltac:(lia) ltac:(lia) Hp Hco) as Hw.
  apply wp_Some in Hw as ([] & s' & Hs' & Hq). eauto.
Qed.

(** A server with pieces of two records each. *)
Definition sample_piece (i : Z) : list Z :=
  le_bytes 4 (100000 + 72 * i) ++ zeros 68 ++ le_bytes 4 (100066 + 72 * i) ++ zeros 68.

Definition sample_url (name : string) (_ : list Z) : option (list Z) := Some (zs name).

Definition sample_server (_ : nat) (url : list Z) : dl_answer :=
  match list_find (fun i => url = zs (dname 0 i)) (seqZ 0 10) with
  | Some (_, i) => DlDone CURLE_OK (sample_piece i)
  | None => DlDone 22 []
  end.

Definition sample_state : epo :=
  epo_boot ⟨ conf := default_conf ⟨ gps_epo_download_days := 6 ⟩ ⟩ ⟨ epo_data_updated := 1 ⟩ ⟨ started := 1 ⟩
    ⟨ counter := 1 ⟩.

Definition sample_times `{TimeZone} (i : Z) : Z * Z :=
  (default 0 (start_of sample_piece i), default 0 (end_of sample_piece i)).

Lemma ten_cases (P : Z -> Prop) :
  Forall P (seqZ 0 10) -> forall i, 0 <= i < 10 -> P i.
Proof. intros HP i Hi. rewrite Forall_forall in HP. apply HP, elem_of_seqZ. lia. Qed.

Theorem epo_download_complete_witness :
  let tz := fixed_zone 28800 in
  exists s', @rounds tz sample_url sample_server (fun _ => 0) 2 sample_state = Some (tt, s')
  /\ completed 0 sample_piece sample_state 2 s'.
Proof.
  intros tz.
  refine (@epo_download_complete tz sample_url sample_server (fun _ => 0) 0 sample_piece
    (@sample_times tz) sample_state _ _ _ eq_refl _ eq_refl eq_refl eq_refl _ _).
  - unfold type_ok. set_solver.
  - intros name key. exists (zs name). split; [reflexivity|]. intros i n Hi ->.
    revert i Hi. apply ten_cases. repeat constructor.
  - intros i Hi. revert i Hi. apply ten_cases. 
    repeat (constructor; [split; [vm_compute; reflexivity|split; [vm_compute; reflexivity|
      split; [vm_compute; split; [discriminate|reflexivity]|intros _; vm_compute; reflexivity]]]|]).
    constructor.
  - vm_compute. split; discriminate.
  - intros k x Hx. discriminate Hx.
  - vm_compute. split; [discriminate|reflexivity].
Defined.
