(* ===== verification/Daemon.v ===== *)
(** * Talking to the GPS daemon (gps_mtk_aosp.c: safe_read, mtk_daemon_send,
      mtk_start, get_condition, release_condition)

    The loops around the system calls.  A call is answered by the kernel; the
    answers are a list, and a loop that asks for more answers than there are
    has not returned yet ([None]). *)

From S2P Require Import Prelude.

(** The answer to a system call: a count, or -1 with an error number. *)
Inductive answer := AOk (n : Z) | AErr (e : Z).

#[export] Instance answer_eq_dec : EqDecision answer.
Proof. solve_decision. Defined.

Definition EINTR : Z := 4.
Definition EAGAIN : Z := 11.
Definition EPIPE : Z := 32.

(** ** mtk_daemon_send *)

(** What a send loop leaves: its result, [errno], the pauses of 100 ms, and
    the answers not asked for. *)
Record sending := Sending { result : Z; errno : Z; pauses : nat; unread : list answer }.

Fixpoint send_loop (retry err : Z) (slept : nat) (answers : list answer) : option sending :=
  match answers with
  | [] => None
  | AOk _ :: rest => Some (Sending 0 err slept rest)
  | AErr e :: rest =>
      if e =? EINTR then send_loop retry e slept rest
      else if (e =? EAGAIN) && (retry >? 0) then send_loop (retry - 1) e (S slept) rest
      else Some (Sending (-1) e slept rest)
  end.

Definition mtk_daemon_send (err : Z) (answers : list answer) : option sending :=
  send_loop 10 err 0 answers.

(** ** mtk_start: a broken pipe means the daemon is being restarted *)

(** What mtk_start leaves: its result, the sends, and the answers left. *)
Record starting := Starting { start_result : Z; sends : nat; start_unread : list answer }.

Fixpoint start_loop (fuel : nat) (idx : nat) (answers : list answer) (err : Z) : option starting :=
  match fuel with
  | O => None
  | S fuel' =>
      s ← mtk_daemon_send err answers;
      if truthy (result s) && (errno s =? EPIPE) && (idx <? 5)%nat
      then start_loop fuel' (S idx) (unread s) (errno s)
      else Some (Starting (result s) (S idx) (unread s))
  end.

(** The first send and five more at most. *)
Definition mtk_start (err : Z) (answers : list answer) : option starting :=
  start_loop 6 0 answers err.

(** ** safe_read *)

(** [read] returning 0 leaves [errno] as it was. *)
Fixpoint read_loop (retry err : Z) (slept : nat) (answers : list answer) : option sending :=
  match answers with
  | [] => None
  | a :: rest =>
      let '(n, err) := match a with AOk n => (n, err) | AErr e => (-1, e) end in
      if 0 <? n then Some (Sending n err slept rest)
      else if err =? EINTR then read_loop retry err slept rest
      else if (err =? EAGAIN) && (retry >? 0) then read_loop (retry - 1) err (S slept) rest
      else Some (Sending (-1) err slept rest)
  end.

(** [buf_null]: the buffer is NULL. *)
Definition safe_read (fd len : Z) (buf_null : bool) (err : Z) (answers : list answer) : option sending :=
  if (fd <? 0) || buf_null || (len <? 0) then Some (Sending (-1) err 0 answers)
  else if len =? 0 then Some (Sending 0 err 0 answers)
  else read_loop 10 err 0 answers.

(** ** What counts

    Interrupted calls do not count; of the others the first that is not "try
    again" decides, and the eleventh "try again" is a failure. *)

Definition counted (answers : list answer) : list answer :=
  filter (fun a => a <> AErr EINTR) answers.

Fixpoint leading_eagain (l : list answer) : nat :=
  match l with
  | AErr e :: l' => if e =? EAGAIN then S (leading_eagain l') else O
  | _ => O
  end.

(** The outcome: the result, [errno] where it failed, and the pauses; [ok]
    gives the result of a successful call. *)
Definition first_counted (ok : Z -> Z) (answers : list answer) : option (Z * option Z * nat) :=
  let l := counted answers in
  let k := leading_eagain l in
  if (11 <=? k)%nat then Some (-1, Some EAGAIN, 10%nat)
  else match l !! k with
       | Some (AOk n) => Some (ok n, None, k)
       | Some (AErr e) => Some (-1, Some e, k)
       | None => None
       end.

Definition outcome (s : sending) : Z * option Z * nat :=
  (result s, if result s =? -1 then Some (errno s) else None, pauses s).

(** A [read] of no bytes counts as the error that happened last. *)
Fixpoint zero_as_error (err : Z) (answers : list answer) : list answer :=
  match answers with
  | [] => []
  | AOk n :: rest => (if 0 <? n then AOk n else AErr err) :: zero_as_error err rest
  | AErr e :: rest => AErr e :: zero_as_error e rest
  end.

(** ** Lemmas *)

Lemma counted_eintr l : counted (AErr EINTR :: l) = counted l.
Proof. unfold counted. by rewrite filter_cons_False by auto. Qed.

Lemma counted_other a l : a <> AErr EINTR -> counted (a :: l) = a :: counted l.
Proof. intros. unfold counted. by rewrite filter_cons_True. Qed.

Lemma send_loop_spec answers : forall retry err slept, 0 <= retry ->
  outcome <$> send_loop retry err slept answers
  = let l := counted answers in
    let k := leading_eagain l in
    if (S (Z.to_nat retry) <=? k)%nat then Some (-1, Some EAGAIN, (slept + Z.to_nat retry)%nat)
    else match l !! k with
         | Some (AOk _) => Some (0, None, (slept + k)%nat)
         | Some (AErr e) => Some (-1, Some e, (slept + k)%nat)
         | None => None
         end.
Proof.
  induction answers as [|a rest IH]; intros retry err slept Hr; [done|].
  destruct a as [n|e]; cbn [send_loop].
  { rewrite counted_other by done. cbn. by rewrite Nat.add_0_r. }
  destruct (Z.eqb_spec e EINTR) as [->|He]; [by rewrite IH, counted_eintr|].
  rewrite counted_other by congruence. cbn [leading_eagain].
  destruct (Z.eqb_spec e EAGAIN) as [->|Ha]; cbn [andb].
  2:{ cbn. by rewrite Nat.add_0_r. }
  destruct (Z.gtb_spec retry 0) as [Hp|Hp].
  - rewrite IH by lia. cbv zeta. set (k := leading_eagain _). cbn [lookup list_lookup].
    replace (Z.to_nat retry) with (S (Z.to_nat (retry - 1))) by lia.
    change (S (S (Z.to_nat (retry - 1))) <=? S k)%nat with (S (Z.to_nat (retry - 1)) <=? k)%nat.
    by rewrite !Nat.add_succ_l, !Nat.add_succ_r.
  - replace retry with 0 by lia. cbn. by rewrite Nat.add_0_r.
Qed.

(** Once eleven answers count, the loop is over. *)
Lemma send_returns err answers :
  (11 <= length (counted answers))%nat -> exists s, mtk_daemon_send err answers = Some s.
Proof.
  intros Hl. pose proof (send_loop_spec answers 10 err 0 ltac:(lia)) as Hs. cbv zeta in Hs.
  change (S (Z.to_nat 10)) with 11%nat in Hs. unfold mtk_daemon_send.
  destruct (send_loop 10 err 0 answers); [eauto|]. cbn [fmap option_fmap option_map] in Hs.
  destruct (Nat.leb_spec 11 (leading_eagain (counted answers))); [done|].
  destruct (counted answers !! leading_eagain (counted answers)) as [[]|] eqn:E; [done..|].
  apply lookup_ge_None in E. lia.
Qed.

Lemma read_loop_spec answers : forall retry err slept, 0 <= retry ->
  outcome <$> read_loop retry err slept answers
  = let l := counted (zero_as_error err answers) in
    let k := leading_eagain l in
    if (S (Z.to_nat retry) <=? k)%nat then Some (-1, Some EAGAIN, (slept + Z.to_nat retry)%nat)
    else match l !! k with
         | Some (AOk n) => Some (n, None, (slept + k)%nat)
         | Some (AErr e) => Some (-1, Some e, (slept + k)%nat)
         | None => None
         end.
Proof.
  induction answers as [|a rest IH]; intros retry err slept Hr; [done|].
  assert (forall n, 0 < n -> outcome <$> read_loop retry err slept (AOk n :: rest)
     = Some (n, None, (slept + 0)%nat)) as Hok.
  { intros n Hn. cbn [read_loop]. destruct (Z.ltb_spec 0 n); [|lia]. cbn. unfold outcome. cbn.
    destruct (Z.eqb_spec n (-1)); [lia|]. by rewrite Nat.add_0_r. }
  assert (forall e, outcome <$> read_loop retry err slept (AErr e :: rest)
    = let l := counted (AErr e :: zero_as_error e rest) in
      let k := leading_eagain l in
      if (S (Z.to_nat retry) <=? k)%nat then Some (-1, Some EAGAIN, (slept + Z.to_nat retry)%nat)
      else match l !! k with
           | Some (AOk n) => Some (n, None, (slept + k)%nat)
           | Some (AErr e) => Some (-1, Some e, (slept + k)%nat)
           | None => None
           end) as Herr.
  { intros e. cbn [read_loop]. change (0 <? -1) with false. cbv iota.
    destruct (Z.eqb_spec e EINTR) as [->|He]; [by rewrite IH, counted_eintr|].
    rewrite counted_other by congruence. cbn [leading_eagain].
    destruct (Z.eqb_spec e EAGAIN) as [->|Ha]; cbn [andb].
    2:{ cbn. by rewrite Nat.add_0_r. }
    destruct (Z.gtb_spec retry 0) as [Hp|Hp].
    - rewrite IH by lia. cbv zeta. set (k := leading_eagain _). cbn [lookup list_lookup].
      replace (Z.to_nat retry) with (S (Z.to_nat (retry - 1))) by lia.
      change (S (S (Z.to_nat (retry - 1))) <=? S k)%nat with (S (Z.to_nat (retry - 1)) <=? k)%nat.
      by rewrite !Nat.add_succ_l, !Nat.add_succ_r.
    - replace retry with 0 by lia. cbn. by rewrite Nat.add_0_r. }
  destruct a as [n|e]; [|apply Herr]. cbn [zero_as_error].
  destruct (Z.ltb_spec 0 n) as [Hn|Hn].
  - rewrite Hok by done. rewrite counted_other by done. done.
  - rewrite <-Herr. cbn [read_loop]. destruct (Z.ltb_spec 0 n); [lia|]. done.
Qed.

(** mtk_daemon_send.  Whatever the kernel answers, the loop
    ignores interrupted calls, waits 100 ms after each of the first ten "try
    again", and otherwise takes the first answer: success gives 0, an error or
    an eleventh "try again" gives -1.  So it returns once eleven answers are
    not interruptions. *)
Theorem daemon_send_spec err answers :
  outcome <$> mtk_daemon_send err answers = first_counted (fun _ => 0) answers
  /\ ((11 <= length (counted answers))%nat -> exists s, mtk_daemon_send err answers = Some s).
Proof.
  split; [unfold mtk_daemon_send; by rewrite send_loop_spec by lia|apply send_returns].
Qed.

Theorem daemon_send_spec_witness :
  outcome <$> mtk_daemon_send 0 ([AErr EINTR; AErr EAGAIN; AErr EINTR; AOk 1024])
    = Some (0, None, 1%nat)
  /\ (exists s, mtk_daemon_send 0 (replicate 20 (AErr EAGAIN)) = Some s).
Proof.
  split.
  - apply (eq_trans (proj1 (daemon_send_spec 0 _))). reflexivity.
  - apply (proj2 (daemon_send_spec 0 (replicate 20 (AErr EAGAIN)))). vm_compute. lia.
Defined.

(** safe_read.  Bad arguments give -1 and no call, an empty
    buffer 0; otherwise the loop behaves like the one of mtk_daemon_send, with
    the number of bytes as the result, except that a [read] of no bytes counts
    as the error that happened last, whatever call that was: after an
    interruption it never returns on an endless row of them. *)
Theorem safe_read_spec fd len buf_null err answers :
  outcome <$> safe_read fd len buf_null err answers
  = (if (fd <? 0) || buf_null || (len <? 0) then Some (-1, Some err, O)
     else if len =? 0 then Some (0, None, O)
     else first_counted id (zero_as_error err answers))
  /\ (0 <= fd -> 0 < len -> forall n, safe_read fd len false EINTR (replicate n (AOk 0)) = None).
Proof.
  split.
  - unfold safe_read. destruct ((fd <? 0) || buf_null || (len <? 0)); [done|].
    destruct (len =? 0); [done|]. by rewrite read_loop_spec by lia.
  - intros Hfd Hlen. unfold safe_read. rewrite !(proj2 (Z.ltb_ge _ _)), (proj2 (Z.eqb_neq _ _)) by lia.
    cbn [orb]. induction n as [|n IH]; [done|]. exact IH.
Qed.

Theorem safe_read_spec_witness : safe_read 7 9000 false EINTR (replicate 100 (AOk 0)) = None.
Proof. apply (proj2 (safe_read_spec 7 9000 false EINTR [])); lia. Defined.

(** [k] sends that fail with a broken pipe. *)
Inductive broken : nat -> Z -> list answer -> Z -> list answer -> Prop :=
  | broken_0 err l : broken 0 err l err l
  | broken_S k err l s err' l' :
      mtk_daemon_send err l = Some s -> result s = -1 -> errno s = EPIPE ->
      broken k (errno s) (unread s) err' l' -> broken (S k) err l err' l'.

Lemma send_result err l s : mtk_daemon_send err l = Some s -> result s = 0 \/ result s = -1.
Proof.
  unfold mtk_daemon_send. generalize 10, O, err. induction l as [|[n|e] l IH]; intros r sl er; cbn; [done| |].
  - intros [= <-]. auto.
  - destruct (e =? EINTR); [apply IH|]. destruct ((e =? EAGAIN) && (r >? 0)); [apply IH|].
    intros [= <-]. auto.
Qed.

(** A send asks for eleven counted answers at most. *)
Lemma send_unread err l s :
  mtk_daemon_send err l = Some s -> (length (counted l) <= 11 + length (counted (unread s)))%nat.
Proof.
  unfold mtk_daemon_send.
  assert (forall r er sl, 0 <= r -> send_loop r er sl l = Some s ->
    (length (counted l) <= S (Z.to_nat r) + length (counted (unread s)))%nat) as Hl.
  { induction l as [|[n|e] l IH]; intros r er sl Hr; cbn [send_loop]; [done| |].
    - intros [= <-]. rewrite counted_other by done. cbn [length unread]. lia.
    - destruct (Z.eqb_spec e EINTR) as [->|He]; [rewrite counted_eintr; by apply IH|].
      rewrite counted_other by congruence. cbn [length].
      destruct ((e =? EAGAIN) && (r >? 0)) eqn:E; [|intros [= <-]; cbn [unread]; lia].
      apply andb_true_iff in E as [_ E%Z.gtb_lt]. intros Hs. apply IH in Hs; [|lia]. lia. }
  apply (Hl 10). lia.
Qed.

Lemma start_loop_spec n : forall idx l err st, (idx + n = 6)%nat ->
  start_loop n idx l err = Some st ->
  exists k err' l' s, (idx + k <= 5)%nat /\ broken k err l err' l'
    /\ mtk_daemon_send err' l' = Some s /\ start_result st = result s /\ start_unread st = unread s
    /\ sends st = S (idx + k)
    /\ (result s = -1 -> errno s = EPIPE -> (idx + k = 5)%nat).
Proof.
  induction n as [|n IH]; intros idx l err st Hn; [done|]. cbn [start_loop].
  destruct (mtk_daemon_send err l) as [s|] eqn:Hs; [|done]. cbn.
  destruct (truthy (result s) && (errno s =? EPIPE) && (idx <=? 4)%nat) eqn:E.
  - intros (k & err' & l' & s' & Hk & Hb & Hs' & Hr & Hu & Ht & He)%IH; [|lia].
    rewrite !andb_true_iff, Nat.leb_le, Z.eqb_eq in E. destruct E as [[E1 E2] E3].
    exists (S k), err', l', s'. rewrite Nat.add_succ_r. repeat (split; [done || lia|]).
    split; [|repeat (split; [done|]); done].
    econstructor; [done| |done|done]. destruct (send_result _ _ _ Hs) as [Z|]; [|done]. by rewrite Z in E1.
  - intros [= <-]. exists O, err, l, s. rewrite Nat.add_0_r. cbn.
    repeat (split; [done || lia || constructor|]). intros Hr1 Hr2. rewrite Hr1, Hr2 in E. cbn in E.
    apply Nat.leb_gt in E. lia.
Qed.

Lemma start_loop_returns n : forall idx l err, (idx + n = 6)%nat -> (idx < 6)%nat ->
  (11 * n <= length (counted l))%nat -> exists st, start_loop n idx l err = Some st.
Proof.
  induction n as [|n IH]; intros idx l err Hn Hi Hl; [lia|]. cbn [start_loop].
  destruct (send_returns err l) as [s Hs]; [lia|]. rewrite Hs. cbn.
  destruct (truthy (result s) && (errno s =? EPIPE) && (idx <=? 4)%nat) eqn:E; [|eauto].
  rewrite !andb_true_iff, Nat.leb_le in E. apply IH; [lia..|].
  pose proof (send_unread _ _ _ Hs). lia.
Qed.

(** C21 (termination): mtk_start.  The command is sent again only while the
    sends fail with a broken pipe, six times in all at most; the result is
    that of the last send, so that a failure with a broken pipe means that six
    sends failed.  66 answers that are not interruptions are enough for it to
    return. *)
Theorem mtk_start_retries err answers :
  (forall st, mtk_start err answers = Some st ->
    exists k err' rest s, (k <= 5)%nat /\ broken k err answers err' rest
    /\ mtk_daemon_send err' rest = Some s
    /\ st = Starting (result s) (S k) (unread s)
    /\ (result s = -1 -> errno s = EPIPE -> k = 5%nat))
  /\ ((66 <= length (counted answers))%nat -> exists st, mtk_start err answers = Some st).
Proof.
  split.
  - intros st (k & err' & l' & s & Hk & Hb & Hs & Hr & Hu & Ht & He)%start_loop_spec; [|lia].
    exists k, err', l', s. destruct st; cbn in *. subst. done.
  - intros Hl. apply (start_loop_returns 6); lia.
Qed.

Theorem mtk_start_retries_witness :
  (exists k err' rest s, (k <= 5)%nat
    /\ broken k 0 [AErr EPIPE; AErr EINTR; AErr EPIPE; AOk 1] err' rest
    /\ mtk_daemon_send err' rest = Some s
    /\ Starting 0 3 [] = Starting (result s) (S k) (unread s)
    /\ (result s = -1 -> errno s = EPIPE -> k = 5%nat))
  /\ exists st, mtk_start 0 (replicate 70 (AErr EPIPE)) = Some st.
Proof.
  split.
  - refine (proj1 (mtk_start_retries 0 _) (Starting 0 3 []) _). reflexivity.
  - apply (proj2 (mtk_start_retries 0 (replicate 70 (AErr EPIPE)))). vm_compute. lia.
Defined.
