(* ===== verification/Layout.v ===== *)
(** * C structures as bytes

    The layout of a structure is the list of its members; [pack] is the largest
    alignment (#pragma pack), 8 where there is none.  Numbers are kept as the
    integers of their width, floating-point members as their bit patterns,
    character arrays as bytes. *)

From S2P Require Import Prelude.

Inductive ctype :=
  | UInt (size : nat)
  | SInt (size : nat)
  | Real (size : nat)
  | Chars (n : nat).

Inductive cval := Num (z : Z) | Raw (bs : list Z).

Definition csize (t : ctype) : nat := match t with UInt n | SInt n | Real n | Chars n => n end.

(** A scalar is aligned to its size. *)
Definition calign (pack : nat) (t : ctype) : nat :=
  match t with UInt n | SInt n | Real n => n `min` pack | Chars _ => 1 end.

(** The first multiple of [a] from [off] on. *)
Definition align_up (a off : nat) : nat := off + (a - off mod a) mod a.

Abbreviation layout := (list (string * ctype)).

Definition enc_val (t : ctype) (v : cval) : list Z :=
  match t, v with
  | Chars n, Raw bs => bs
  | _, Num z => le_bytes (csize t) (z mod 2 ^ (8 * Z.of_nat (csize t)))
  | _, _ => replicate (csize t) 0
  end.

Definition dec_val (t : ctype) (bs : list Z) : cval :=
  match t with
  | Chars _ => Raw bs
  | SInt n => Num (swrap (8 * Z.of_nat n) (le_val bs))
  | UInt _ | Real _ => Num (le_val bs)
  end.

(** The values that a member can hold. *)
Definition val_ok (t : ctype) (v : cval) : Prop :=
  match t, v with
  | Chars n, Raw bs => length bs = n
  | SInt n, Num z => (0 < n)%nat /\ - 2 ^ (8 * Z.of_nat n - 1) <= z < 2 ^ (8 * Z.of_nat n - 1)
  | (UInt n | Real n), Num z => 0 <= z < 2 ^ (8 * Z.of_nat n)
  | _, _ => False
  end.

Abbreviation fields := (list (string * cval)).

(** The members from offset [off] on. *)
Fixpoint enc_from (pack : nat) (l : layout) (vs : list cval) (off : nat) : list Z :=
  match l, vs with
  | (_, t) :: l', v :: vs' =>
      let o := align_up (calign pack t) off in
      replicate (o - off) 0 ++ enc_val t v ++ enc_from pack l' vs' (o + csize t)
  | _, _ => []
  end.

Fixpoint dec_from (pack : nat) (l : layout) (bs : list Z) (off : nat) : option fields :=
  match l with
  | [] => Some []
  | (name, t) :: l' =>
      let o := align_up (calign pack t) off in
      b ← buf_read bs (Z.of_nat o) (Z.of_nat (csize t));
      r ← dec_from pack l' bs (o + csize t);
      Some ((name, dec_val t b) :: r)
  end.

Fixpoint end_from (pack : nat) (l : layout) (off : nat) : nat :=
  match l with
  | [] => off
  | (_, t) :: l' => end_from pack l' (align_up (calign pack t) off + csize t)
  end.

Definition struct_align (pack : nat) (l : layout) : nat :=
  foldr Nat.max 1%nat ((fun m => calign pack (snd m)) <$> l).

(** [sizeof]: the end of the last member, aligned. *)
Definition sizeof (pack : nat) (l : layout) : nat :=
  align_up (struct_align pack l) (end_from pack l 0).

Definition enc_struct (pack : nat) (l : layout) (vs : list cval) : list Z :=
  let e := enc_from pack l vs 0 in e ++ replicate (sizeof pack l - length e) 0.

Definition dec_struct (pack : nat) (l : layout) (bs : list Z) : option fields := dec_from pack l bs 0.

(** Member access. *)
Fixpoint member (name : string) (vs : fields) : option cval :=
  match vs with
  | [] => None
  | (n, v) :: vs' => if String.eqb n name then Some v else member name vs'
  end.

Definition member_num (name : string) (vs : fields) : option Z :=
  match member name vs with Some (Num z) => Some z | _ => None end.

(** ** Lemmas *)

Lemma align_up_ge a off : (off <= align_up a off)%nat.
Proof. unfold align_up. lia. Qed.

Lemma length_enc_val t v : val_ok t v -> length (enc_val t v) = csize t.
Proof.
  destruct t, v; cbn; try done; intros _; apply length_le_bytes.
Qed.

Lemma dec_enc_val t v : val_ok t v -> dec_val t (enc_val t v) = v.
Proof.
  destruct t as [n|n|n|n], v as [z|bs]; cbn; try done; intros Hv; rewrite le_val_le_bytes, Z.mod_mod by lia.
  - by rewrite Z.mod_small by lia.
  - f_equal. change (z mod 2 ^ (8 * Z.of_nat n)) with (uwrap (8 * Z.of_nat n) z).
    rewrite swrap_uwrap by lia. apply swrap_id; [lia|]. tauto.
  - by rewrite Z.mod_small by lia.
Qed.

Lemma length_enc_from pack l : forall vs off,
  Forall2 (fun m v => val_ok (snd m) v) l vs -> length (enc_from pack l vs off) = (end_from pack l off - off)%nat
  /\ (off <= end_from pack l off)%nat.
Proof.
  induction l as [|[n t] l IH]; intros vs off Hv; inversion Hv as [|? v ? vs' Hv1 Hv2]; subst; cbn; [lia|].
  destruct (IH vs' (align_up (calign pack t) off + csize t)%nat Hv2) as [H1 H2].
  pose proof (align_up_ge (calign pack t) off).
  rewrite !length_app, H1, length_replicate, (length_enc_val t v Hv1). lia.
Qed.

Lemma dec_enc_from pack l : forall vs off pre post,
  Forall2 (fun m v => val_ok (snd m) v) l vs -> length pre = off ->
  dec_from pack l (pre ++ enc_from pack l vs off ++ post) off = Some (zip (fst <$> l) vs).
Proof.
  induction l as [|[n t] l IH]; intros vs off pre post Hv Hp;
    inversion Hv as [|? v ? vs' Hv1 Hv2]; subst; [done|].
  cbn [enc_from dec_from]. set (o := align_up _ _). pose proof (align_up_ge (calign pack t) (length pre)) as Ho.
  fold o in Ho. rewrite <-!app_assoc.
  assert (buf_read (pre ++ replicate (o - length pre) 0 ++ enc_val t v
    ++ enc_from pack l vs' (o + csize t) ++ post) (Z.of_nat o) (Z.of_nat (csize t)) = Some (enc_val t v)) as Hr.
  { rewrite app_assoc. apply buf_read_app; [rewrite length_app, length_replicate; lia|].
    by rewrite (length_enc_val t v Hv1). }
  rewrite Hr. cbn [mbind option_bind snd] in *.
  rewrite (app_assoc pre), (app_assoc _ (enc_val t v)), IH; [|done|].
  - cbn. by rewrite dec_enc_val.
  - rewrite !length_app, length_replicate, (length_enc_val t v Hv1). lia.
Qed.

Lemma length_enc_struct pack l vs :
  Forall2 (fun m v => val_ok (snd m) v) l vs -> length (enc_struct pack l vs) = sizeof pack l.
Proof.
  intros Hv. unfold enc_struct. destruct (length_enc_from pack l vs 0 Hv) as [H _].
  rewrite length_app, length_replicate, H, Nat.sub_0_r. unfold sizeof.
  pose proof (align_up_ge (struct_align pack l) (end_from pack l 0)). lia.
Qed.

(** What was stored in a structure is read from its bytes. *)
Lemma dec_enc_struct pack l vs post :
  Forall2 (fun m v => val_ok (snd m) v) l vs ->
  dec_struct pack l (enc_struct pack l vs ++ post) = Some (zip (fst <$> l) vs).
Proof.
  intros Hv. unfold dec_struct, enc_struct. rewrite <-app_assoc.
  by apply (dec_enc_from pack l vs 0 []).
Qed.
