(* ===== verification/Hal.v ===== *)
(** * The GPS HAL: global state, daemon commands and small entry points
      (gps_mtk_aosp.c)

    The globals that the framework's calls, the HAL thread and the EPO thread
    share, the datagrams to the daemon, the calls to the framework, and the
    entry points that need no waiting.  The EPO globals, the network state and
    [started] are the record of EpoDownload.v. *)

From stdpp Require Import gmap.
From S2P Require Import Prelude HalBuff Layout Calendar EpoTime EpoConf EpoDownload Daemon.

(** ** The daemon *)

(** What the callers rely on: the [n]-th send tells success (0) or failure
    (-1), and leaves an [errno]. *)
Class DaemonLink := {
  send_answer : nat -> Z -> list Z -> Z;
  send_errno : nat -> Z -> list Z -> Z;
  send_answer_spec n fd d : send_answer n fd d = 0 \/ send_answer n fd d = -1;
}.

(** mtk_daemon_send keeps the promise if the kernel answers at all. *)
Section KernelLink.
Variable answers : nat -> Z -> list Z -> list answer.
Hypothesis answers_enough : forall n fd d, (11 <= length (counted (answers n fd d)))%nat.

Definition kernel_send (n : nat) (fd : Z) (d : list Z) : sending :=
  default (Sending 0 0 0 []) (mtk_daemon_send 0 (answers n fd d)).

Lemma kernel_send_result n fd d :
  result (kernel_send n fd d) = 0 \/ result (kernel_send n fd d) = -1.
Proof using answers_enough.
  unfold kernel_send. destruct (send_returns 0 _ (answers_enough n fd d)) as [s Hs].
  rewrite Hs. by eapply send_result.
Qed.

Definition kernel_link : DaemonLink := {|
  send_answer n fd d := result (kernel_send n fd d);
  send_errno n fd d := errno (kernel_send n fd d);
  send_answer_spec := kernel_send_result;
|}.
End KernelLink.

(** ** State *)

(** GpsNiNotification, as far as the HAL fills it in. *)
Record ni_notification := MkNi {
  notification_id : Z;
  ni_type : Z;
  notify_flags : Z;
  ni_timeout : Z;
  default_response : Z;
  requestor_id : list Z;
  ni_text : list Z;
  requestor_id_encoding : Z;
  text_encoding : Z;
}.

(** Calls to the framework. *)
Inductive upcall :=
  | CbSetCapabilities (capabilities : Z)
  | CbStatus (status : Z)
  | CbAcquireWakelock
  | CbReleaseWakelock
  | CbUtcTime
  | CbLocation (flags : Z) (values : fields)
  | CbNotify (n : ni_notification)
  | CbAgpsStatus (type status : Z) (addr : list Z)
  | CbSetId (flags : Z)
  | CbRefLoc (flags : Z)
  | CbMeasurement (count : Z) (measurement clock : fields)
  | CbNavigation (message : fields) (data : list Z).

Definition M_START : nat := 0.
Definition M_STOP : nat := 1.
Definition M_CLEANUP : nat := 2.
Definition M_INIT : nat := 3.
Definition M_THREAD_EXIT : nat := 4.
Definition M_MNLDIE : nat := 5.

Record gps := MkGps {
  g_epo : epo;
  init : Z;
  start_flag : Z;
  flag_unlock : Z;
  sta_status : Z;
  conditions : list Z;                (* lock_for_sync[].condtion *)
  gpsmeasurement_init_flag : Z;
  gpsnavigation_init_flag : Z;
  send_fd : Z;
  base_callbacks : bool;              (* the pointers that are not NULL *)
  agps_callbacks : bool;
  gps_ni_callbacks : bool;
  agps_ril_callbacks : bool;
  sock : Z;
  control : list Z;                   (* bytes in the control socket *)
  upcalls : list upcall;
  datagrams : list (Z * list Z);      (* descriptor and bytes *)
}.

#[export] Instance gps_rebuild : Rebuild gps := fun r =>
  MkGps (g_epo r) (init r) (start_flag r) (flag_unlock r) (sta_status r) (conditions r)
    (gpsmeasurement_init_flag r) (gpsnavigation_init_flag r) (send_fd r)
    (base_callbacks r) (agps_callbacks r) (gps_ni_callbacks r) (agps_ril_callbacks r) (sock r) (control r)
    (upcalls r) (datagrams r).

(** The static initialisers. *)
Definition gps_boot : gps := MkGps epo_boot 0 0 0 0 (replicate 6 0) 0 0 0 false false false false (-1) [] [] [].

Definition on_epo {A} (m : CM epo A) : CM gps A :=
  on_part g_epo (fun e s => s ⟨ g_epo := e ⟩) m.

Definition upcall_cb (u : upcall) : CM gps unit := cmodify (fun s => s ⟨ upcalls $= fun l => l ++ [u] ⟩).

(** ** Daemon commands *)

Definition MNL_CMD_INIT : Z := 0.
Definition MNL_CMD_CLEANUP : Z := 1.
Definition MNL_CMD_STOP : Z := 2.
Definition MNL_CMD_START : Z := 3.
Definition MNL_CMD_RESTART_HOT : Z := 5.
Definition MNL_CMD_RESTART_WARM : Z := 6.
Definition MNL_CMD_RESTART_COLD : Z := 7.
Definition MNL_CMD_RESTART_FULL : Z := 8.
Definition MNL_CMD_RESTART_AGPS : Z := 9.
Definition MNL_CMD_GPSMEASUREMENT_INIT : Z := 21.
Definition MNL_CMD_GPSMEASUREMENT_CLOSE : Z := 22.
Definition MNL_CMD_GPSNAVIGATION_INIT : Z := 23.
Definition MNL_CMD_GPSNAVIGATION_CLOSE : Z := 24.
Definition MNL_CMD_GPS_INJECT_TIME : Z := 70.
Definition MNL_CMD_GPS_INJECT_LOCATION : Z := 71.
Definition MNL_CMD_GPS_NLP_LOCATION_REQ : Z := 74.

Definition CMD_QUIT : Z := 0.
Definition CMD_START : Z := 1.
Definition CMD_STOP : Z := 2.
Definition CMD_RESTART : Z := 3.

Section Ops.
Context `{DaemonLink} `{TimeZone}.

(** mtk_daemon_send: the result, and [errno]. *)
Definition send_errno_too (fd : Z) (d : list Z) : CM gps (Z * Z) :=
  n ← cgets (fun s => length (datagrams s));
  _ ← cmodify (fun s => s ⟨ datagrams $= fun l => l ++ [(fd, d)] ⟩);
  mret (send_answer n fd d, send_errno n fd d).

Definition daemon_send (fd : Z) (d : list Z) : CM gps Z :=
  '(err, _) ← send_errno_too fd d;
  mret err.

(** The one-byte commands of mtk_init .. mtk_navigation_close. *)
Definition send_command (cmd : Z) : CM gps Z :=
  fd ← cgets sock;
  daemon_send fd [u8 cmd].

Definition mtk_init : CM gps Z := send_command MNL_CMD_INIT.
Definition mtk_stop : CM gps Z := send_command MNL_CMD_STOP.
Definition mtk_restart (cmd : Z) : CM gps Z := send_command cmd.

(** While the daemon is being restarted the pipe is broken. *)
Fixpoint start_retry (n : nat) : CM gps Z :=
  fd ← cgets sock;
  '(err, e) ← send_errno_too fd [MNL_CMD_START];
  match n with
  | O => mret err
  | S n' => if truthy err && (e =? EPIPE) then start_retry n' else mret err
  end.

Definition mtk_start : CM gps Z := start_retry 5.

(** A failed send is only logged. *)
Definition mtk_cleanup : CM gps Z :=
  _ ← send_command MNL_CMD_CLEANUP;
  mret 0.

(** A 1024-byte message of the given parts. *)
Definition put_msg (parts : msgbuf -> option msgbuf) : CM gps (list Z) :=
  m ← clift (parts (msg_init 1024));
  mret (mb_data m).

(** ** The control socket *)

Definition write_control (cmd : Z) : CM gps unit := cmodify (fun s => s ⟨ control $= fun l => l ++ [cmd] ⟩).

Definition gps_state_start : CM gps unit := write_control CMD_START.
Definition gps_state_stop : CM gps unit := write_control CMD_STOP.
Definition gps_state_restart : CM gps unit := write_control CMD_RESTART.

(** ** Measurement and navigation interfaces *)

Definition mtk_gps_measurement_init : CM gps Z :=
  err ← send_command MNL_CMD_GPSMEASUREMENT_INIT;
  if truthy err then mret (-1)
  else
    _ ← cmodify (fun s => s ⟨ gpsmeasurement_init_flag := 1 ⟩);
    mret 0.

Definition mtk_gps_measurement_close : CM gps unit :=
  _ ← send_command MNL_CMD_GPSMEASUREMENT_CLOSE;
  cmodify (fun s => s ⟨ gpsmeasurement_init_flag := 0 ⟩).

Definition mtk_gps_navigation_init : CM gps Z :=
  err ← send_command MNL_CMD_GPSNAVIGATION_INIT;
  if truthy err then mret (-1)
  else
    _ ← cmodify (fun s => s ⟨ gpsnavigation_init_flag := 1 ⟩);
    mret 0.

Definition mtk_gps_navigation_close : CM gps unit :=
  _ ← send_command MNL_CMD_GPSNAVIGATION_CLOSE;
  cmodify (fun s => s ⟨ gpsnavigation_init_flag := 0 ⟩).

(** ** Time and location *)

(** The structures of the messages: ntp_context and nlp_context. *)
Definition ntp_layout : layout :=
  [("time", SInt 8); ("timeReference", SInt 8); ("uncertainty", SInt 4)]%string.

Definition nlp_layout : layout :=
  [("latitude", Real 8); ("longitude", Real 8); ("accuracy", Real 4); ("tv_sec", SInt 4);
   ("tv_nsec", SInt 4); ("type", UInt 1); ("started", UInt 1)]%string.

Definition LOCATION_NLP_FIX : string := "/data/misc/gps/LOCATION.DAT".

(** A message is sent if the socket was made. *)
Definition send_if_ready (d : list Z) : CM gps unit :=
  fd ← cgets send_fd;
  cwhen (fd >=? 0) (_ ← daemon_send fd d; mret tt).

Definition inject_msg (code : Z) (body : list Z) (m : msgbuf) : option msgbuf :=
  m ← buff_put_int code m;
  buff_put_struct body (Z.of_nat (length body)) m.

Definition mtk_gps_inject_time (time timeReference uncertainty : Z) : CM gps Z :=
  let inject_ntp := enc_struct 8 ntp_layout [Num time; Num timeReference; Num uncertainty] in
  d ← put_msg (inject_msg MNL_CMD_GPS_INJECT_TIME inject_ntp);
  _ ← send_if_ready d;
  mret 0.

(** [fopen(LOCATION_NLP_FIX, "w")] and one [fwrite]. *)
Definition mtk_gps_update_location (location : list Z) : CM epo unit :=
  w ← writable LOCATION_NLP_FIX;
  cwhen (w : bool) (put_file LOCATION_NLP_FIX location).

(** [latitude], [longitude] and [accuracy] are the bit patterns; [ts] is the
    answer of clock_gettime. *)
Definition mtk_gps_inject_location (latitude longitude accuracy : Z) (ts : option (Z * Z)) : CM gps Z :=
  match ts with
  | None => mret (-1)
  | Some (tv_sec, tv_nsec) =>
      st ← cgets (fun s => started (g_epo s));
      let nlp_location := enc_struct 8 nlp_layout
        [Num latitude; Num longitude; Num accuracy; Num tv_sec; Num tv_nsec; Num 0; Num (u8 st)] in
      _ ← on_epo (mtk_gps_update_location nlp_location);
      d ← put_msg (inject_msg MNL_CMD_GPS_INJECT_LOCATION nlp_location);
      _ ← send_if_ready d;
      mret 0
  end.

(** The offset of nlp_context.started. *)
Definition started_offset : nat := end_from 8 nlp_layout 0 - 1.

(** A short file leaves the rest of the zeroed structure. *)
Definition mtk_gps_send_location_to_mnl : CM gps unit :=
  c ← on_epo (open_read LOCATION_NLP_FIX);
  match c with
  | None => mret tt
  | Some data =>
      let size := sizeof 8 nlp_layout in
      let read := take size data in
      let nlp_location := read ++ replicate (size - length read) 0 in
      st ← cgets (fun s => started (g_epo s));
      d ← put_msg (inject_msg MNL_CMD_GPS_INJECT_LOCATION (<[started_offset := u8 st]> nlp_location));
      send_if_ready d
  end.

(** ** EPO at the start of a session *)

Definition EPO_UPDATE (m : msgbuf) : option msgbuf := buff_put_int MNL_CMD_UPDATE_EPO_FILE m.

(** mtk_epo_is_expired with its side effect on the file counter. *)
Definition epo_is_expired (now : Z) : CM epo bool :=
  s ← cgets id;
  let expired := truthy (mtk_epo_is_expired false now (conf s) (files s)) in
  _ ← cwhen expired (cmodify (fun s => s ⟨ gps_epo_file_count := 0 ⟩));
  mret expired.

Definition request_download_if_expired (now : Z) : CM epo bool :=
  x ← epo_is_expired now;
  _ ← cwhen (x : bool) gps_download_epo;
  mret x.

(** mtk_gps_start, the part under EPO_SUPPORT; [conf_file] is the content of
    the settings file. *)
Definition start_epo (now : Z) (conf_file : option (list Z)) : CM gps unit :=
  c ← cgets (fun s => conf (g_epo s));
  '(_, c) ← clift (gps_download_epo_enable conf_file c);
  _ ← on_epo (cmodify (fun e => e ⟨ conf := c ⟩));
  e ← cgets g_epo;
  if truthy (gps_epo_enable c) then
    if negb (access_ok (files e) EPO_FILE_HAL) then
      if negb (access_ok (files e) EPO_FILE) then on_epo gps_download_epo
      else _ ← on_epo (request_download_if_expired now); mret tt
    else
      let failed := truthy (epo_download_failed e) in
      if ((nw_type e =? 0) && (nw_connected e =? 1) && failed) || ((nw_connected e =? 0) && failed)
         || (epo_download_failed e =? 0) then
        x ← on_epo (epo_is_expired now);
        if (x : bool) then
          _ ← on_epo (unlink EPO_FILE_HAL);
          on_epo gps_download_epo
        else
          _ ← on_epo (unlink EPO_FILE);
          d ← put_msg EPO_UPDATE;
          fd ← cgets sock;
          _ ← daemon_send fd d;
          mret tt
      else mret tt
  else mret tt.

(** ** Restarts *)

(** The GPS_DELETE_ flags of hardware/gps.h. *)
Record aiding_flags := MkAiding {
  GPS_DELETE_EPHEMERIS : Z;
  GPS_DELETE_ALMANAC : Z;
  GPS_DELETE_POSITION : Z;
  GPS_DELETE_TIME : Z;
  GPS_DELETE_IONO : Z;
  GPS_DELETE_UTC : Z;
  GPS_DELETE_HEALTH : Z;
  GPS_DELETE_RTI : Z;
  GPS_DELETE_ALL : Z;
}.

Definition ors (l : list Z) : Z := foldr Z.lor 0 l.

Definition FLAG_HOT_START (a : aiding_flags) : Z := GPS_DELETE_RTI a.
Definition FLAG_WARM_START (a : aiding_flags) : Z := GPS_DELETE_EPHEMERIS a.
Definition FLAG_COLD_START (a : aiding_flags) : Z :=
  ors [GPS_DELETE_EPHEMERIS a; GPS_DELETE_POSITION a; GPS_DELETE_TIME a; GPS_DELETE_IONO a;
       GPS_DELETE_UTC a; GPS_DELETE_HEALTH a].
Definition FLAG_FULL_START (a : aiding_flags) : Z := GPS_DELETE_ALL a.
Definition FLAG_AGPS_START (a : aiding_flags) : Z :=
  ors [GPS_DELETE_EPHEMERIS a; GPS_DELETE_ALMANAC a; GPS_DELETE_POSITION a; GPS_DELETE_TIME a;
       GPS_DELETE_IONO a; GPS_DELETE_UTC a].

Definition mtk_gps_delete_aiding_data (a : aiding_flags) (flags : Z) : CM gps unit :=
  _ ← gps_state_restart;
  let restart cmd := _ ← mtk_restart cmd; mret tt in
  if flags =? FLAG_HOT_START a then restart MNL_CMD_RESTART_HOT
  else if flags =? FLAG_WARM_START a then restart MNL_CMD_RESTART_WARM
  else if flags =? FLAG_COLD_START a then restart MNL_CMD_RESTART_COLD
  else if flags =? FLAG_FULL_START a then restart MNL_CMD_RESTART_FULL
  else if flags =? FLAG_AGPS_START a then restart MNL_CMD_RESTART_AGPS
  else mret tt.

(** ** Extensions *)

Inductive extension :=
  | XtraInterface | AGpsInterface | NiInterface | RilInterface | SuplCertificateInterface
  | MeasurementInterface | NavigationMessageInterface.

(** The names given in hardware/gps.h. *)
Record extension_names := MkNames {
  GPS_XTRA_INTERFACE : list Z;
  GPS_MEASUREMENT_INTERFACE : list Z;
  GPS_NAVIGATION_MESSAGE_INTERFACE : list Z;
}.

(** [strncmp(name, key, strlen(name)) == 0] *)
Definition starts (name key : list Z) : bool := strncmp_eq name key (length name).

Definition mtk_gps_get_extension (x : extension_names) (name : list Z) : option extension :=
  if bytes_eqb name (GPS_XTRA_INTERFACE x) then Some XtraInterface
  else if starts name (zs "agps") then Some AGpsInterface
  else if starts name (zs "gps-ni") then Some NiInterface
  else if starts name (zs "agps_ril") then Some RilInterface
  else if starts name (zs "supl-certificate") then Some SuplCertificateInterface
  else if starts name (GPS_MEASUREMENT_INTERFACE x) then Some MeasurementInterface
  else if starts name (GPS_NAVIGATION_MESSAGE_INTERFACE x) then Some NavigationMessageInterface
  else None.
End Ops.
