(* ===== verification/HalProps.v ===== *)
(** * The small entry points of the GPS HAL: what they do *)

From stdpp Require Import gmap.
From S2P Require Import Prelude HalBuff Layout Calendar EpoTime EpoConf EpoDownload Daemon Hal.

(** ** Messages *)

Lemma wp_put_msg parts m s (Q : list Z -> gps -> Prop) :
  parts (msg_init 1024) = Some m -> Q (mb_data m) s -> wp (put_msg parts) Q s.
Proof. intros Hp HQ. apply wp_bind. by eapply wp_lift; [|apply wp_ret]. Qed.

(** A code and a structure, as a 1024-byte datagram. *)
Definition code_msg (code : Z) (body : list Z) : list Z := mb_data (msg_of 1024 (enc_int code ++ body)).

Lemma inject_msg_of code body :
  (length body <= 1020)%nat -> inject_msg code body (msg_init 1024) = Some (msg_of 1024 (enc_int code ++ body)).
Proof.
  intros Hl. unfold inject_msg. rewrite msg_init_of, buff_put_int_of by (cbn; lia). obind.
  rewrite buff_put_struct_of; [done|done|]. blen. cbn [length]. lia.
Qed.

(** What the receiver finds in such a datagram. *)
Lemma code_msg_read code l vs :
  is_s32 code -> Forall2 (fun m v => val_ok (snd m) v) l vs ->
  exists m, buff_get_int (MsgBuf (code_msg code (enc_struct 8 l vs)) 0) = Some (code, m)
  /\ dec_struct 8 l (drop (Z.to_nat (mb_off m)) (mb_data m)) = Some (zip (fst <$> l) vs).
Proof.
  intros Hc Hv. unfold code_msg, msg_of. cbn [mb_data].
  set (z := zeros _). rewrite <-app_assoc.
  pose proof (buff_get_int_at [] code (enc_struct 8 l vs ++ z)) as H. cbn [app] in H.
  exists (msg_at (enc_int code) (enc_struct 8 l vs ++ z)). split.
  - rewrite s32_id in H by done. exact H.
  - unfold msg_at. cbn [mb_data mb_off]. rewrite Nat2Z.id, drop_app_length. by apply dec_enc_struct.
Qed.

Lemma wp_daemon_send `{DaemonLink} fd d s (Q : Z -> gps -> Prop) :
  (forall e, e = 0 \/ e = -1 -> Q e (s ⟨ datagrams $= fun l => l ++ [(fd, d)] ⟩)) ->
  wp (daemon_send fd d) Q s.
Proof.
  intros HQ. unfold daemon_send, send_errno_too. apply wp_bind, wp_bind, wp_gets, wp_bind, wp_modify, wp_ret.
  apply wp_ret, HQ, send_answer_spec.
Qed.

(** ** Locations *)

Definition nlp_values (lat lon acc sec nsec ty st : Z) : list cval :=
  [Num lat; Num lon; Num acc; Num sec; Num nsec; Num ty; Num st].

Definition nlp_ok (lat lon acc sec nsec : Z) : Prop :=
  0 <= lat < 2 ^ 64 /\ 0 <= lon < 2 ^ 64 /\ 0 <= acc < 2 ^ 32 /\ is_s32 sec /\ is_s32 nsec.

Lemma nlp_val_ok lat lon acc sec nsec st :
  nlp_ok lat lon acc sec nsec -> 
  Forall2 (fun m v => val_ok (snd m) v) nlp_layout (nlp_values lat lon acc sec nsec 0 (u8 st)).
Proof.
  intros (H1 & H2 & H3 & H4 & H5). unfold nlp_layout, nlp_values, is_s32 in *.
  pose proof (uwrap_range 8 st ltac:(lia)).
  repeat constructor; cbn; lia.
Qed.

(** Only the last member changes. *)
Lemma set_started lat lon acc sec nsec ty st st' :
  <[started_offset := u8 st']> (enc_struct 8 nlp_layout (nlp_values lat lon acc sec nsec ty st))
  = enc_struct 8 nlp_layout (nlp_values lat lon acc sec nsec ty (u8 st')).
Proof.
  unfold enc_struct, nlp_layout, nlp_values, enc_from, enc_val, csize.
  change started_offset with 29%nat. unfold le_bytes. cbn -[Z.modulo Z.pow Z.div Z.mul uwrap].
  do 30 f_equal. change (2 ^ _) with 256. unfold uwrap. change (2 ^ 8) with 256.
  by rewrite !Zmod_mod.
Qed.

Definition location_bytes (lat lon acc sec nsec st : Z) : list Z :=
  enc_struct 8 nlp_layout (nlp_values lat lon acc sec nsec 0 (u8 st)).

Definition location_msg (lat lon acc sec nsec st : Z) : list Z :=
  code_msg MNL_CMD_GPS_INJECT_LOCATION (location_bytes lat lon acc sec nsec st).

Section Location.
Context `{DaemonLink}.
Variables lat lon acc sec nsec : Z.
Hypothesis Hok : nlp_ok lat lon acc sec nsec.

Lemma length_location st : length (location_bytes lat lon acc sec nsec st) = 32%nat.
Proof using Hok. by apply length_enc_struct, nlp_val_ok. Qed.

Lemma put_location st :
  inject_msg MNL_CMD_GPS_INJECT_LOCATION (location_bytes lat lon acc sec nsec st) (msg_init 1024)
  = Some (msg_of 1024 (enc_int MNL_CMD_GPS_INJECT_LOCATION ++ location_bytes lat lon acc sec nsec st)).
Proof using Hok. apply inject_msg_of. rewrite length_location. lia. Qed.

Lemma wp_inject_location s :
  all_open (files (g_epo s)) -> 0 <= send_fd s ->
  let st := started (g_epo s) in
  wp (mtk_gps_inject_location lat lon acc (Some (sec, nsec)))
    (fun r s1 => r = 0
       /\ datagrams s1 = datagrams s ++ [(send_fd s, location_msg lat lon acc sec nsec st)]
       /\ files (g_epo s1) !! LOCATION_NLP_FIX
          = Some (MkFile (location_bytes lat lon acc sec nsec st) 0 true true)) s.
Proof using Hok.
  intros Ho Hfd st. unfold mtk_gps_inject_location. apply wp_bind, wp_gets, wp_bind, wp_on_part.
  unfold mtk_gps_update_location, writable. apply wp_bind, wp_gets.
  replace (match files (g_epo s) !! LOCATION_NLP_FIX with Some f => can_open f | None => true end)
    with true by (destruct (files (g_epo s) !! LOCATION_NLP_FIX) eqn:E; [symmetry; by eapply Ho|done]).
  apply wp_modify, wp_bind. eapply wp_put_msg; [apply put_location|].
  unfold send_if_ready. apply wp_bind, wp_bind, wp_gets, wp_when; cbn [send_fd field_update]; intros; [|lia].
  apply wp_bind, wp_daemon_send. intros e _. apply wp_ret, wp_ret. cbn.
  split; [done|]. split; [done|]. apply fs_insert_eq.
Qed.

Lemma wp_send_location st f s :
  files (g_epo s) !! LOCATION_NLP_FIX = Some f -> can_open f = true ->
  content f = location_bytes lat lon acc sec nsec st -> 0 <= send_fd s ->
  wp mtk_gps_send_location_to_mnl (fun _ s1 =>
    datagrams s1 = datagrams s ++ [(send_fd s, location_msg lat lon acc sec nsec (started (g_epo s)))]) s.
Proof using Hok.
  intros Hf Hop Hc Hfd. unfold mtk_gps_send_location_to_mnl, open_read. apply wp_bind, wp_on_part, wp_gets.
  rewrite Hf, Hop, Hc. apply wp_bind, wp_gets. cbn [g_epo field_update].
  change (sizeof 8 nlp_layout) with 32%nat. rewrite take_ge by (by rewrite length_location).
  rewrite length_location. cbn [replicate Nat.sub]. rewrite app_nil_r. unfold location_bytes.
  rewrite set_started. apply wp_bind. eapply wp_put_msg; [apply put_location|].
  unfold send_if_ready. apply wp_bind, wp_gets, wp_when; cbn [send_fd field_update]; intros; [|lia].
  apply wp_bind, wp_daemon_send. intros e _. by apply wp_ret.
Qed.
End Location.

(** The injected location.  mtk_gps_inject_location sends the
    daemon the given location with the time stamp and the current [started];
    and when the daemon asks for a location later on, it gets the same one
    again, from LOCATION.DAT, with the [started] of that moment. *)
Theorem location_replayed `{DaemonLink} lat lon acc sec nsec s :
  nlp_ok lat lon acc sec nsec -> all_open (files (g_epo s)) -> 0 <= send_fd s ->
  let msg := location_msg lat lon acc sec nsec in
  exists s1,
    mtk_gps_inject_location lat lon acc (Some (sec, nsec)) s = Some (0, s1)
    /\ datagrams s1 = datagrams s ++ [(send_fd s, msg (started (g_epo s)))]
    /\ (forall s2, files (g_epo s2) !! LOCATION_NLP_FIX = files (g_epo s1) !! LOCATION_NLP_FIX ->
        0 <= send_fd s2 ->
        exists s3, mtk_gps_send_location_to_mnl s2 = Some (tt, s3)
        /\ datagrams s3 = datagrams s2 ++ [(send_fd s2, msg (started (g_epo s2)))])
    /\ (forall st, exists m, buff_get_int (MsgBuf (msg st) 0) = Some (MNL_CMD_GPS_INJECT_LOCATION, m)
        /\ dec_struct 8 nlp_layout (drop (Z.to_nat (mb_off m)) (mb_data m))
           = Some (zip (fst <$> nlp_layout) (nlp_values lat lon acc sec nsec 0 (u8 st)))).
Proof.
  intros Hok Ho Hfd msg.
  pose proof (wp_inject_location _ _ _ _ _ Hok s Ho Hfd) as Hw.
  apply wp_Some in Hw as (r & s1 & Hrun & -> & Hd & Hf).
  exists s1. split; [done|]. split; [done|]. split.
  - intros s2 Hf2 Hfd2. rewrite Hf in Hf2.
    pose proof (wp_send_location _ _ _ _ _ Hok _ _ s2 Hf2 eq_refl eq_refl Hfd2) as Hw.
    apply wp_Some in Hw as ([] & s3 & ? & ?). eauto.
  - intros st. apply code_msg_read; [by_decide|by apply nlp_val_ok].
Qed.

Definition quiet_link : DaemonLink := {|
  send_answer _ _ _ := 0; send_errno _ _ _ := 0; send_answer_spec _ _ _ := or_introl eq_refl |}.

Theorem location_replayed_witness :
  let d := quiet_link in
  exists s1, @mtk_gps_inject_location d 4631107791820423168 4635329916471083008 1092616192
               (Some (100, 5)) gps_boot = Some (0, s1)
  /\ length (datagrams s1) = 1%nat.
Proof.
  intros d.
  destruct (@location_replayed d 4631107791820423168 4635329916471083008 1092616192 100 5 gps_boot)
    as (s1 & H1 & H2 & _).
  - unfold nlp_ok, is_s32. lia.
  - intros k x Hx. discriminate Hx.
  - vm_compute. discriminate.
  - exists s1. split; [exact H1|]. rewrite H2. reflexivity.
Defined.

(** ** Extensions *)

Lemma starts_prefix name key : starts name key = bool_decide (name `prefix_of` key).
Proof.
  apply eq_true_iff_eq. rewrite bool_decide_eq_true. unfold starts.
  rewrite strncmp_eq_spec, take_ge by lia. split.
  - intros ->. apply prefix_take.
  - intros [k ->]. by rewrite take_app_length.
Qed.

(** The interfaces in the order of the tests. *)
Definition extension_table (x : extension_names) : list (list Z * extension) :=
  [(zs "agps", AGpsInterface); (zs "gps-ni", NiInterface); (zs "agps_ril", RilInterface);
   (zs "supl-certificate", SuplCertificateInterface);
   (GPS_MEASUREMENT_INTERFACE x, MeasurementInterface);
   (GPS_NAVIGATION_MESSAGE_INTERFACE x, NavigationMessageInterface)].

(** The first entry whose key begins with the name. *)
Fixpoint first_prefix (name : list Z) (l : list (list Z * extension)) : option extension :=
  match l with
  | [] => None
  | (key, e) :: l' => if bool_decide (name `prefix_of` key) then Some e else first_prefix name l'
  end.

(** mtk_gps_get_extension.  Apart from the XTRA interface,
    which needs its exact name, a name gets the first interface whose name it
    is a prefix of: the interfaces are all found under their own names where
    no name is a prefix of an earlier one, but every prefix, even the empty
    name, is answered as well, where an unknown extension should give NULL. *)
Theorem get_extension_spec x name :
  mtk_gps_get_extension x name
  = (if bool_decide (name = GPS_XTRA_INTERFACE x) then Some XtraInterface
     else first_prefix name (extension_table x))
  /\ (GPS_XTRA_INTERFACE x <> [] -> mtk_gps_get_extension x [] = Some AGpsInterface).
Proof.
  split.
  - unfold mtk_gps_get_extension. by rewrite !starts_prefix.
  - intros Hx. unfold mtk_gps_get_extension, bytes_eqb. by rewrite bool_decide_eq_false_2 by done.
Qed.

(** The names of the Android release. *)
Definition aosp_names : extension_names :=
  MkNames (zs "gps-xtra") (zs "gps_measurement") (zs "gps_navigation_message").

Theorem get_extension_spec_witness :
  mtk_gps_get_extension aosp_names [] = Some AGpsInterface.
Proof. apply (proj2 (get_extension_spec aosp_names [])). discriminate. Defined.

(** ** Restarts *)

(** The restart command for each combination of flags. *)
Definition restart_table (a : aiding_flags) : list (Z * Z) :=
  [(FLAG_HOT_START a, MNL_CMD_RESTART_HOT); (FLAG_WARM_START a, MNL_CMD_RESTART_WARM);
   (FLAG_COLD_START a, MNL_CMD_RESTART_COLD); (FLAG_FULL_START a, MNL_CMD_RESTART_FULL);
   (FLAG_AGPS_START a, MNL_CMD_RESTART_AGPS)].

(** mtk_gps_delete_aiding_data.  The HAL thread is always told
    to restart; the daemon gets exactly the restart command of the combination
    of flags when it is one of the five, and nothing for any other one. *)
Theorem restart_commands `{DaemonLink} a flags s :
  NoDup (fst <$> restart_table a) ->
  exists s', mtk_gps_delete_aiding_data a flags s = Some (tt, s')
  /\ control s' = control s ++ [CMD_RESTART]
  /\ (forall cmd, (flags, cmd) ∈ restart_table a -> datagrams s' = datagrams s ++ [(sock s, [cmd])])
  /\ (flags ∉ fst <$> restart_table a -> datagrams s' = datagrams s).
Proof.
  intros Hnd. unfold mtk_gps_delete_aiding_data.
  enough (forall cmd, (flags, cmd) ∈ restart_table a ->
    exists i, list_find (fun e => flags = e.1) (restart_table a) = Some (i, (flags, cmd))) as Hin.
  { unfold restart_table in *. cbn [list_find fst fmap list_fmap] in *.
    repeat match goal with
    | |- context [flags =? ?f] =>
        destruct (Z.eqb_spec flags f) as [->|];
        [eexists; split; [reflexivity|]; split; [reflexivity|]; split;
           [intros cmd [i Hi]%Hin; repeat (rewrite decide_False in Hi by done);
            rewrite decide_True in Hi by done; cbn in Hi; by injection Hi as _ <-
           |intros []; set_solver]|]
    end.
    eexists; split; [reflexivity|]. split; [reflexivity|]. split; [|done].
    intros cmd [i Hi]%Hin. repeat (rewrite decide_False in Hi by done). done. }
  intros cmd Hc. apply list_elem_of_lookup in Hc as [i Hi]. exists i. apply list_find_Some.
  split; [done|]. split; [done|]. intros j [f c] Hj Hlt Hf. cbn in Hf. subst f.
  eapply (NoDup_lookup _ j i flags) in Hnd; [lia| |]; rewrite list_lookup_fmap; [by rewrite Hj|by rewrite Hi].
Qed.

(** The flags of the Android release. *)
Definition aosp_aiding : aiding_flags := MkAiding 1 2 4 8 16 32 64 1024 65535.

Theorem restart_commands_witness :
  let d := quiet_link in
  exists s', @mtk_gps_delete_aiding_data d aosp_aiding 65535 gps_boot = Some (tt, s')
  /\ datagrams s' = [(-1, [MNL_CMD_RESTART_FULL])].
Proof.
  intros d. destruct (@restart_commands d aosp_aiding 65535 gps_boot) as (s' & H1 & _ & H2 & _).
  - by_decide.
  - exists s'. split; [exact H1|]. apply (H2 MNL_CMD_RESTART_FULL). by_decide.
Defined.

(** ** EPO at the start of a session *)

(** With EPOHAL.DAT there, EPO.DAT does not matter. *)
Lemma expired_delete `{TimeZone} now c (f : fs) :
  access_ok f EPO_FILE_HAL = true ->
  epo_file (delete EPO_FILE f) = Some EPO_FILE_HAL
  /\ mtk_epo_is_expired false now c (delete EPO_FILE f) = mtk_epo_is_expired false now c f.
Proof.
  intros Ha.
  assert (delete EPO_FILE f !! EPO_FILE_HAL = f !! EPO_FILE_HAL) as He by (by apply fs_delete_ne).
  assert (epo_file f = Some EPO_FILE_HAL) as Hf by (unfold epo_file; by rewrite Ha).
  assert (epo_file (delete EPO_FILE f) = Some EPO_FILE_HAL) as Hf'
    by (unfold epo_file, access_ok in *; by rewrite He, Ha).
  split; [done|]. unfold mtk_epo_is_expired, mtk_gps_epo_file_time_hal, mtk_gps_sys_epo_period_end,
    mtk_gps_sys_get_file_size. by rewrite Hf, Hf', He.
Qed.

(** What starting a session leaves of the EPO data. *)
Definition epo_ready `{TimeZone} (now : Z) (s s' : gps) : Prop :=
  let e := g_epo s' in
  (epo_data_updated e = 1 /\ gps_epo_file_count e = 0 /\ datagrams s' = datagrams s)
  \/ (exists name, epo_file (files e) = Some name
      /\ mtk_epo_is_expired false now (conf e) (files e) = 0
      /\ (name = EPO_FILE_HAL -> files e !! EPO_FILE = None
          /\ datagrams s' = datagrams s
               ++ [(sock s, enc_int MNL_CMD_UPDATE_EPO_FILE ++ zeros 1020)])
      /\ (name = EPO_FILE -> datagrams s' = datagrams s)).

Lemma wp_epo_is_expired `{TimeZone} now e (Q : bool -> epo -> Prop) :
  (mtk_epo_is_expired false now (conf e) (files e) <> 0 -> Q true (e ⟨ gps_epo_file_count := 0 ⟩)) ->
  (mtk_epo_is_expired false now (conf e) (files e) = 0 -> Q false e) ->
  wp (epo_is_expired now) Q e.
Proof.
  intros H1 H2. unfold epo_is_expired. apply wp_bind, wp_gets, wp_bind. cbn [id].
  unfold truthy. apply wp_when; intros Hx.
  - apply wp_modify, wp_ret. rewrite Hx. apply H1. by destruct (Z.eqb_spec (mtk_epo_is_expired false now (conf e) (files e)) 0).
  - apply wp_ret. rewrite Hx. apply H2. by destruct (Z.eqb_spec (mtk_epo_is_expired false now (conf e) (files e)) 0).
Qed.

(** Starting a session takes care of the EPO data.  With EPO
    enabled and no failed download pending, either a complete download is
    requested, from the first piece on, or the EPO file in use is not expired;
    if that is a downloaded EPOHAL.DAT, the daemon is told to take it over and
    its old EPO.DAT is removed. *)
Theorem start_epo_ready `{DaemonLink} `{TimeZone} now conf_file s :
  Forall is_byte conf_file -> epo_download_failed (g_epo s) = 0 ->
  exists s', start_epo now (Some conf_file) s = Some (tt, s')
  /\ (gps_epo_enable (conf (g_epo s')) <> 0 -> epo_ready now s s').
Proof.
  intros Hb Hfail. destruct (conf_total conf_file (conf (g_epo s)) Hb) as (r & c & Hc & _).
  enough (wp (start_epo now (Some conf_file)) (fun _ s' =>
    gps_epo_enable (conf (g_epo s')) <> 0 -> epo_ready now s s') s) as Hw
    by (apply wp_Some in Hw as ([] & s' & ? & ?); eauto).
  unfold start_epo. apply wp_bind, wp_gets, wp_bind. eapply wp_lift; [exact Hc|].
  apply wp_bind, wp_on_part, wp_modify, wp_bind, wp_gets. cbn [g_epo field_update].
  set (e := (g_epo s) ⟨ conf := c ⟩).
  apply wp_if; [intros _|intros He; apply wp_ret; cbn; unfold truthy in He;
    by destruct (Z.eqb_spec (gps_epo_enable c) 0)].
  apply wp_if; intros Hhal; [apply wp_if; intros Hdat|].
  - apply wp_on_part, wp_modify. intros _. by left.
  - apply wp_bind, wp_on_part. unfold request_download_if_expired.
    apply wp_bind, wp_epo_is_expired; intros Hx; apply wp_bind; cbn [cwhen].
    + apply wp_modify, wp_ret, wp_ret. intros _. by left.
    + apply wp_ret, wp_ret, wp_ret. intros _. right. exists EPO_FILE.
      apply negb_true_iff in Hhal. apply negb_false_iff in Hdat.
      cbn [g_epo field_update]. unfold epo_file. rewrite Hhal, Hdat. done.
  - apply negb_false_iff in Hhal. apply wp_if; [intros _|].
    + apply wp_bind, wp_on_part, wp_epo_is_expired; cbn [g_epo field_update]; intros Hx.
      * apply wp_bind, wp_on_part, wp_modify, wp_on_part, wp_modify. intros _. by left.
      * destruct (expired_delete now c (files e) Hhal) as [H1 H2].
        apply wp_bind, wp_on_part, wp_modify, wp_bind.
        eapply wp_put_msg; [by apply (buff_put_int_of 1024 [])|].
        apply wp_bind, wp_gets, wp_bind, wp_daemon_send. intros err _. apply wp_ret. intros _. right.
        exists EPO_FILE_HAL. cbn [g_epo field_update files conf].
        split; [exact H1|]. split; [exact (eq_trans H2 Hx)|]. split; [|done]. intros _. split; [apply fs_delete_eq|done].
    + cbn [epo_download_failed]. subst e. cbn. rewrite Hfail. cbn. rewrite !orb_true_r. done.
Qed.

Theorem start_epo_ready_witness :
  let d := quiet_link in
  let tz := fixed_zone 28800 in
  exists s', @start_epo d tz 0 (Some (zs "EPO_ENABLE=1")) gps_boot = Some (tt, s')
  /\ (gps_epo_enable (conf (g_epo s')) <> 0 -> @epo_ready tz 0 gps_boot s').
Proof.
  intros d tz. apply (@start_epo_ready d tz).
  - by_decide.
  - reflexivity.
Defined.
