(* ===== verification/Agps.v ===== *)
(** * The AGPS, NI and RIL interfaces of the GPS HAL (gps_mtk_aosp.c)

    Each call of the framework becomes one message to the daemon: a code and
    the arguments, in a zeroed buffer of 1024 bytes that is sent as a whole.  A
    message that does not fit is undefined behaviour.  Strings are given by
    their bytes; the ones that may be NULL are options. *)

From stdpp Require Import gmap.
From S2P Require Import Prelude HalBuff EpoDownload Hal HalProps.

Definition AGPS_FRAMEWORK_INFO_DATA_CONN_OPEN : Z := 125.
Definition AGPS_FRAMEWORK_INFO_DATA_CONN_FAILED : Z := 126.
Definition AGPS_FRAMEWORK_INFO_DATA_CONN_CLOSED : Z := 127.
Definition AGPS_FRAMEWORK_INFO_NI_MESSAGE : Z := 128.
Definition AGPS_FRAMEWORK_INFO_NI_RESPOND : Z := 129.
Definition AGPS_FRAMEWORK_INFO_SET_REF_LOC : Z := 130.
Definition AGPS_FRAMEWORK_INFO_SET_SET_ID : Z := 131.
Definition AGPS_FRAMEWORK_INFO_SET_SERVER : Z := 132.
Definition AGPS_FRAMEWORK_INFO_UPDATE_NETWORK_STATE : Z := 133.
Definition AGPS_FRAMEWORK_INFO_UPDATE_NETWORK_AVAILABILITY : Z := 134.
Definition AGPS_FRAMEWORK_INFO_DATA_CONN_OPEN_IP_TYPE : Z := 135.
Definition AGPS_FRAMEWORK_INFO_INSTALL_CERTIFICATES : Z := 136.
Definition AGPS_FRAMEWORK_INFO_REVOKE_CERTIFICATES : Z := 137.

Section Ops.
Context `{DaemonLink}.

(** [char buff[1024] = {0}; ...; mtk_daemon_send(g_agps_ctx.send_fd, ...)] *)
Definition agps_send (parts : msgbuf -> option msgbuf) : CM gps Z :=
  d ← put_msg parts;
  fd ← cgets send_fd;
  daemon_send fd d.

(** A string that may be NULL. *)
Definition or_empty (s : option (list Z)) : list Z := match s with Some s => s | None => [] end.

Definition agps_init : CM gps unit := cmodify (fun s => s ⟨ agps_callbacks := true ⟩).
Definition gps_ni_init : CM gps unit := cmodify (fun s => s ⟨ gps_ni_callbacks := true ⟩).
Definition agps_ril_init : CM gps unit := cmodify (fun s => s ⟨ agps_ril_callbacks := true ⟩).

Definition agps_data_conn_open (apn : list Z) : CM gps Z :=
  _ ← agps_send (fun m =>
    m ← buff_put_int AGPS_FRAMEWORK_INFO_DATA_CONN_OPEN m;
    buff_put_string apn m);
  mret 0.

Definition agps_data_conn_open_with_apn_ip_type (apn : list Z) (apnIpType : Z) : CM gps Z :=
  _ ← agps_send (fun m =>
    m ← buff_put_int AGPS_FRAMEWORK_INFO_DATA_CONN_OPEN_IP_TYPE m;
    m ← buff_put_string apn m;
    buff_put_int apnIpType m);
  mret 0.

Definition agps_data_conn_closed : CM gps Z :=
  _ ← agps_send (buff_put_int AGPS_FRAMEWORK_INFO_DATA_CONN_CLOSED);
  mret 0.

Definition agps_data_conn_failed : CM gps Z :=
  _ ← agps_send (buff_put_int AGPS_FRAMEWORK_INFO_DATA_CONN_FAILED);
  mret 0.

Definition agps_set_server (type : Z) (hostname : list Z) (port : Z) : CM gps Z :=
  agps_send (fun m =>
    m ← buff_put_int AGPS_FRAMEWORK_INFO_SET_SERVER m;
    m ← buff_put_int type m;
    m ← buff_put_string hostname m;
    buff_put_int port m).

(** [certificates]: the bytes at the pointer, an array of structures of which
    [length] is the number; the code copies that many bytes. *)
Definition agps_install_certificates (certificates : list Z) (length : Z) : CM gps Z :=
  agps_send (fun m =>
    m ← buff_put_int AGPS_FRAMEWORK_INFO_INSTALL_CERTIFICATES m;
    m ← buff_put_int length m;
    buff_put_struct certificates length m).

Definition agps_revoke_certificates (fingerprints : list Z) (length : Z) : CM gps Z :=
  agps_send (fun m =>
    m ← buff_put_int AGPS_FRAMEWORK_INFO_REVOKE_CERTIFICATES m;
    m ← buff_put_int length m;
    buff_put_struct fingerprints length m).

Definition gps_ni_respond (notif_id user_response : Z) : CM gps Z :=
  agps_send (fun m =>
    m ← buff_put_int AGPS_FRAMEWORK_INFO_NI_RESPOND m;
    m ← buff_put_int notif_id m;
    buff_put_int user_response m).

(** [agps_reflocation]: the bytes of the structure. *)
Definition agps_ril_set_ref_location (agps_reflocation : list Z) (sz_struct : Z) : CM gps Z :=
  agps_send (fun m =>
    m ← buff_put_int AGPS_FRAMEWORK_INFO_SET_REF_LOC m;
    m ← buff_put_struct agps_reflocation (Z.of_nat (length agps_reflocation)) m;
    buff_put_int sz_struct m).

Definition agps_ril_set_set_id (type : Z) (setid : list Z) : CM gps Z :=
  agps_send (fun m =>
    m ← buff_put_int AGPS_FRAMEWORK_INFO_SET_SET_ID m;
    m ← buff_put_int type m;
    buff_put_string setid m).

Definition agps_ril_ni_message (msg : list Z) (len : Z) : CM gps Z :=
  agps_send (fun m =>
    m ← buff_put_int AGPS_FRAMEWORK_INFO_NI_MESSAGE m;
    buff_put_binary msg len m).

Definition agps_network_connected_wifi_tragger_nlp : CM gps Z :=
  agps_send (buff_put_int MNL_CMD_GPS_NLP_LOCATION_REQ).

Definition set_network (connected type : Z) : CM gps unit :=
  on_epo (cmodify (fun e => e ⟨ nw_connected := connected ⟩ ⟨ nw_type := type ⟩)).

Definition agps_ril_update_network_state (connected type roaming : Z) (extra_info : option (list Z))
  : CM gps Z :=
  nw ← cgets (fun s => nw_connected (g_epo s));
  _ ← cwhen ((nw =? 0) && (connected =? 1) && (type =? nw_wifi))
        (_ ← agps_network_connected_wifi_tragger_nlp; mret tt);
  _ ← set_network connected type;
  agps_send (fun m =>
    m ← buff_put_int AGPS_FRAMEWORK_INFO_UPDATE_NETWORK_STATE m;
    m ← buff_put_int connected m;
    m ← buff_put_int type m;
    m ← buff_put_int roaming m;
    buff_put_string (or_empty extra_info) m).

Definition agps_ril_update_network_availability (avaiable : Z) (apn : option (list Z)) : CM gps Z :=
  agps_send (fun m =>
    m ← buff_put_int AGPS_FRAMEWORK_INFO_UPDATE_NETWORK_AVAILABILITY m;
    m ← buff_put_int avaiable m;
    buff_put_string (or_empty apn) m).

(** ** Calls and what they mean *)

(** The calls of the three interfaces. *)
Inductive agps_call :=
  | DataConnOpen (apn : list Z)
  | DataConnOpenIpType (apn : list Z) (ip_type : Z)
  | DataConnClosed
  | DataConnFailed
  | SetServer (type : Z) (hostname : list Z) (port : Z)
  | InstallCertificates (certificates : list Z) (length : Z)
  | RevokeCertificates (fingerprints : list Z) (length : Z)
  | NiRespond (notif_id response : Z)
  | SetRefLocation (loc : list Z) (sz : Z)
  | SetSetId (type : Z) (setid : list Z)
  | NiMessage (msg : list Z)
  | UpdateNetworkState (connected type roaming : Z) (extra : option (list Z))
  | UpdateNetworkAvailability (available : Z) (apn : option (list Z)).

Definition run_call (c : agps_call) : CM gps Z :=
  match c with
  | DataConnOpen apn => agps_data_conn_open apn
  | DataConnOpenIpType apn t => agps_data_conn_open_with_apn_ip_type apn t
  | DataConnClosed => agps_data_conn_closed
  | DataConnFailed => agps_data_conn_failed
  | SetServer t h p => agps_set_server t h p
  | InstallCertificates cs n => agps_install_certificates cs n
  | RevokeCertificates fs n => agps_revoke_certificates fs n
  | NiRespond i r => gps_ni_respond i r
  | SetRefLocation l sz => agps_ril_set_ref_location l sz
  | SetSetId t i => agps_ril_set_set_id t i
  | NiMessage m => agps_ril_ni_message m (Z.of_nat (length m))
  | UpdateNetworkState c t r x => agps_ril_update_network_state c t r x
  | UpdateNetworkAvailability a apn => agps_ril_update_network_availability a apn
  end.

(** The fields of its message. *)
Definition call_fields (c : agps_call) : list field :=
  match c with
  | DataConnOpen apn => [FInt AGPS_FRAMEWORK_INFO_DATA_CONN_OPEN; FString apn]
  | DataConnOpenIpType apn t => [FInt AGPS_FRAMEWORK_INFO_DATA_CONN_OPEN_IP_TYPE; FString apn; FInt t]
  | DataConnClosed => [FInt AGPS_FRAMEWORK_INFO_DATA_CONN_CLOSED]
  | DataConnFailed => [FInt AGPS_FRAMEWORK_INFO_DATA_CONN_FAILED]
  | SetServer t h p => [FInt AGPS_FRAMEWORK_INFO_SET_SERVER; FInt t; FString h; FInt p]
  | InstallCertificates cs n =>
      [FInt AGPS_FRAMEWORK_INFO_INSTALL_CERTIFICATES; FInt n; FStruct (take (Z.to_nat n) cs)]
  | RevokeCertificates fs n =>
      [FInt AGPS_FRAMEWORK_INFO_REVOKE_CERTIFICATES; FInt n; FStruct (take (Z.to_nat n) fs)]
  | NiRespond i r => [FInt AGPS_FRAMEWORK_INFO_NI_RESPOND; FInt i; FInt r]
  | SetRefLocation l sz => [FInt AGPS_FRAMEWORK_INFO_SET_REF_LOC; FStruct l; FInt sz]
  | SetSetId t i => [FInt AGPS_FRAMEWORK_INFO_SET_SET_ID; FInt t; FString i]
  | NiMessage m => [FInt AGPS_FRAMEWORK_INFO_NI_MESSAGE; FBinary m]
  | UpdateNetworkState c t r x =>
      [FInt AGPS_FRAMEWORK_INFO_UPDATE_NETWORK_STATE; FInt c; FInt t; FInt r; FString (or_empty x)]
  | UpdateNetworkAvailability a apn =>
      [FInt AGPS_FRAMEWORK_INFO_UPDATE_NETWORK_AVAILABILITY; FInt a; FString (or_empty apn)]
  end.

(** The memory behind the pointer has the bytes that are copied. *)
Definition call_valid (c : agps_call) : Prop :=
  match c with
  | InstallCertificates bs n | RevokeCertificates bs n => 0 <= n <= Z.of_nat (length bs)
  | _ => True
  end.

(** WiFi has just been connected. *)
Definition wifi_now (c : agps_call) (s : gps) : bool :=
  match c with
  | UpdateNetworkState c t _ _ => (nw_connected (g_epo s) =? 0) && (c =? 1) && (t =? nw_wifi)
  | _ => false
  end.

(** The network state after the call. *)
Definition network_after (c : agps_call) (s : gps) : Z * Z :=
  match c with
  | UpdateNetworkState c t _ _ => (c, t)
  | _ => (nw_connected (g_epo s), nw_type (g_epo s))
  end.
End Ops.

(** ** Lemmas *)

Lemma put_struct_take bs n m :
  0 <= n <= Z.of_nat (length bs) ->
  buff_put_struct bs n m = buff_put_struct (take (Z.to_nat n) bs) (Z.of_nat (length (take (Z.to_nat n) bs))) m.
Proof.
  intros Hn. unfold buff_put_struct.
  assert (length (take (Z.to_nat n) bs) = Z.to_nat n) as Hl by (rewrite length_take; lia).
  rewrite (buf_read_all (take (Z.to_nat n) bs)) by done.
  pose proof (buf_read_app [] (take (Z.to_nat n) bs) (drop (Z.to_nat n) bs) 0 n) as Hr.
  cbn [app length] in Hr. rewrite take_drop in Hr. by rewrite Hr by lia.
Qed.

(** The writers of a call are those of its fields. *)
Ltac same_parts :=
  intros m; cbn [put_fields put_field];
  repeat match goal with
  | |- context [mbind _ ?x] => destruct x; cbn [mbind option_bind]; try reflexivity
  end.

Lemma wp_agps_send `{DaemonLink} parts fs s (Q : Z -> gps -> Prop) :
  (forall m, parts m = put_fields fs m) -> (length (enc_fields fs) <= 1024)%nat ->
  (forall e, Q e (s ⟨ datagrams $= fun l => l ++ [(send_fd s, mb_data (msg_of 1024 (enc_fields fs)))] ⟩)) ->
  wp (agps_send parts) Q s.
Proof.
  intros Hp Hl HQ. unfold agps_send. apply wp_bind. eapply wp_put_msg.
  { rewrite Hp, msg_init_of by lia. apply (put_fields_of 1024 fs []). cbn. lia. }
  apply wp_bind, wp_gets, wp_daemon_send. intros e _. apply HQ.
Qed.

Lemma agps_send_overflow `{DaemonLink} parts fs s :
  (forall m, parts m = put_fields fs m) -> (1024 < length (enc_fields fs))%nat ->
  agps_send parts s = None.
Proof.
  intros Hp Hl. unfold agps_send, put_msg.
  rewrite Hp, msg_init_of, put_fields_overflow by (cbn; lia). done.
Qed.

Definition fields_msg (fs : list field) : list Z := mb_data (msg_of 1024 (enc_fields fs)).

Definition sends_call (c : agps_call) (s s' : gps) : Prop :=
  datagrams s' = datagrams s
    ++ (if wifi_now c s then [(send_fd s, fields_msg [FInt MNL_CMD_GPS_NLP_LOCATION_REQ])] else [])
    ++ [(send_fd s, fields_msg (call_fields c))]
  /\ (nw_connected (g_epo s'), nw_type (g_epo s')) = network_after c s.

Lemma put_certificates code bs n m :
  0 <= n <= Z.of_nat (length bs) ->
  (m ← buff_put_int code m; m ← buff_put_int n m; buff_put_struct bs n m)
  = put_fields [FInt code; FInt n; FStruct (take (Z.to_nat n) bs)] m.
Proof.
  intros Hn. cbn [put_fields put_field].
  destruct (buff_put_int code m) as [m1|]; [|done]. obind.
  destruct (buff_put_int n m1) as [m2|]; [|done]. obind. rewrite put_struct_take by done.
  by destruct (buff_put_struct _ _ m2).
Qed.

Lemma wp_call `{DaemonLink} c s :
  call_valid c -> (length (enc_fields (call_fields c)) <= 1024)%nat ->
  wp (run_call c) (fun _ s' => sends_call c s s') s.
Proof.
  intros Hv Hl. unfold sends_call.
  destruct c; cbn [run_call call_fields] in *;
    unfold agps_data_conn_open, agps_data_conn_open_with_apn_ip_type, agps_data_conn_closed,
      agps_data_conn_failed, agps_set_server, agps_install_certificates, agps_revoke_certificates,
      gps_ni_respond, agps_ril_set_ref_location, agps_ril_set_set_id, agps_ril_ni_message,
      agps_ril_update_network_availability;
    try (first [eapply wp_agps_send | apply wp_bind; eapply wp_agps_send];
         [|exact Hl|intros e; by cbn]; same_parts; done).
  1,2: eapply wp_agps_send; [|exact Hl|intros e; by cbn]; intros m; by apply put_certificates.
  unfold agps_ril_update_network_state. apply wp_bind, wp_gets, wp_bind.
  cbn [wifi_now network_after].
  eapply (wp_mono _ (fun _ s1 => send_fd s1 = send_fd s /\ datagrams s1 = datagrams s
    ++ (if (nw_connected (g_epo s) =? 0) && (connected =? 1) && (type =? nw_wifi)
        then [(send_fd s, fields_msg [FInt MNL_CMD_GPS_NLP_LOCATION_REQ])] else []))).
  - apply wp_when; intros ->; [|by rewrite app_nil_r].
    apply wp_bind, (wp_agps_send _ [FInt MNL_CMD_GPS_NLP_LOCATION_REQ]); [same_parts; done|vm_compute; lia|].
    intros e. by apply wp_ret.
  - intros _ s1 [Hf Hd]. apply wp_bind, wp_on_part, wp_modify.
    eapply wp_agps_send; [|exact Hl|]; [same_parts; done|].
    intros e. cbn. by rewrite Hd, Hf, <-app_assoc.
Qed.

Lemma run_bind_None {S A B} (m : CM S A) (k : A -> CM S B) s : m s = None -> (x ← m; k x) s = None.
Proof. unfold mbind, cm_bind. by intros ->. Qed.

Lemma call_overflow `{DaemonLink} c s :
  call_valid c -> (1024 < length (enc_fields (call_fields c)))%nat -> run_call c s = None.
Proof.
  intros Hv Hl.
  destruct c; cbn [run_call call_fields] in *;
    unfold agps_data_conn_open, agps_data_conn_open_with_apn_ip_type, agps_data_conn_closed,
      agps_data_conn_failed, agps_set_server, agps_install_certificates, agps_revoke_certificates,
      gps_ni_respond, agps_ril_set_ref_location, agps_ril_set_set_id, agps_ril_ni_message,
      agps_ril_update_network_availability;
    try (first [eapply agps_send_overflow | apply run_bind_None; eapply agps_send_overflow];
         [|exact Hl]; same_parts; done).
  1,2: eapply agps_send_overflow; [|exact Hl]; intros m; by apply put_certificates.
  assert (forall s1, agps_send (fun m =>
      m ← buff_put_int AGPS_FRAMEWORK_INFO_UPDATE_NETWORK_STATE m;
      m ← buff_put_int connected m; m ← buff_put_int type m; m ← buff_put_int roaming m;
      buff_put_string (or_empty extra) m) s1 = None) as Hs
    by (intros s1; eapply agps_send_overflow; [|exact Hl]; same_parts; done).
  unfold agps_ril_update_network_state. rewrite run_gets. unfold mbind, cm_bind.
  destruct (cwhen _ _ s) as [[x s1]|]; [|done].
  destruct (set_network connected type s1) as [[y s2]|]; [|done]. apply Hs.
Qed.

(** C19 (functional): the AGPS, NI and RIL calls.  Every call whose fields fit
    into 1024 bytes sends the daemon one datagram of 1024 bytes from which the
    code and all arguments can be read back; a longer one writes past the
    buffer.  A network update that reports WiFi for the first time asks the
    daemon for a network location first; only network updates change the
    network state. *)
Theorem agps_calls `{DaemonLink} c s :
  call_valid c -> Forall (field_ok 1024) (call_fields c) ->
  ((length (enc_fields (call_fields c)) <= 1024)%nat ->
    exists r s', run_call c s = Some (r, s') /\ sends_call c s s'
    /\ length (fields_msg (call_fields c)) = 1024%nat
    /\ get_fields 1024 (call_fields c) (MsgBuf (fields_msg (call_fields c)) 0) = Some (call_fields c))
  /\ ((1024 < length (enc_fields (call_fields c)))%nat -> run_call c s = None).
Proof.
  intros Hv Hf. split; intros Hl.
  - pose proof (wp_call c s Hv Hl) as Hw. apply wp_Some in Hw as (r & s' & Hr & Hs).
    exists r, s'. split; [done|]. split; [done|]. unfold fields_msg, msg_of. cbn [mb_data]. split.
    + unfold zeros. blen. lia.
    + by apply (get_fields_at 1024 (call_fields c) [] (zeros _)); [lia|].
  - by apply call_overflow.
Qed.

Theorem agps_calls_witness :
  let d := quiet_link in
  let c := UpdateNetworkState 1 1 0 (Some (zs "internet")) in
  (exists r s', @run_call d c gps_boot = Some (r, s') /\ sends_call c gps_boot s')
  /\ @run_call d (SetServer 1 (replicate 1010 65) 7275) gps_boot = None.
Proof.
  intros d c. split.
  - destruct (proj1 (@agps_calls d c gps_boot I ltac:(by_decide)) ltac:(vm_compute; lia)) as (r & s' & H1 & H2 & _).
    exists r, s'. exact (conj H1 H2).
  - apply (proj2 (@agps_calls d (SetServer 1 (replicate 1010 65) 7275) gps_boot I ltac:(by_decide))).
    vm_compute. lia.
Defined.
