(* ===== verification/MnldHandler.v ===== *)
(** * Messages from the GPS daemon (gps_mtk_aosp.c: mnld_to_gps_handler)

    The handler decodes a datagram and calls the framework.  Reads and writes
    past an array are undefined behaviour, and so is a call through a table of
    callbacks that was not given.  The constants of hardware/gps.h are a class. *)

From stdpp Require Import gmap.
From S2P Require Import Prelude NmeaReader HalBuff Layout EpoTime EpoDownload Hal.

Class NiHeader := {
  GPS_NI_TYPE_UMTS_SUPL : Z;
  GPS_NI_NEED_NOTIFY : Z;
  GPS_NI_NEED_VERIFY : Z;
  GPS_NI_PRIVACY_OVERRIDE : Z;
  GPS_NI_RESPONSE_NORESP : Z;
  GPS_ENC_SUPL_UCS2 : Z;
  GPS_NI_SHORT_STRING_MAXLEN : Z;    (* of notify.requestor_id *)
  GPS_NI_LONG_STRING_MAXLEN : Z;     (* of notify.text *)
  AGPS_TYPE_SUPL : Z;
  GPS_REQUEST_AGPS_DATA_CONN : Z;
  GPS_RELEASE_AGPS_DATA_CONN : Z;
  GPS_STATUS_SESSION_BEGIN : Z;
  GPS_STATUS_SESSION_END : Z;
  GPS_STATUS_ENGINE_ON : Z;
  GPS_STATUS_ENGINE_OFF : Z;
}.

Definition MNL_AGPS_CMD_NOTIFICATION : Z := 230.
Definition MNL_AGPS_CMD_DATA_CONN_REQ : Z := 231.
Definition MNL_AGPS_CMD_DATA_CONN_RELEASE : Z := 232.
Definition MNL_AGPS_CMD_REQUEST_SET_ID : Z := 233.
Definition MNL_AGPS_CMD_REQUEST_REFLOC : Z := 234.
Definition MNL_AGPS_CMD_AGPS_LOC : Z := 235.
Definition MNL_AGPS_CMD_NOTIFICATION_2 : Z := 236.
Definition MNL_AGPS_CMD_DATA_CONN_REQ2 : Z := 237.
Definition HAL_CMD_UPDATE_EPO_FILE_DONE : Z := 54.
Definition HAL_CMD_MNL_DIE : Z := 65.
Definition HAL_CMD_GPS_ICON : Z := 66.
Definition MNL_CMD_GPS_INJECT_TIME_REQ : Z := 72.
Definition MNL_CMD_GPS_INJECT_LOCATION_REQ : Z := 73.
Definition HAL_CMD_MEASUREMENT : Z := 118.
Definition HAL_CMD_NAVIGATION : Z := 119.

(** ** Structures *)

Definition measurement_layout : layout :=
  [("size", UInt 4); ("flag", UInt 4); ("PRN", SInt 1); ("TimeOffsetInNs", Real 8); ("state", UInt 2);
   ("ReGpsTowInNs", SInt 8); ("ReGpsTowUnInNs", SInt 8); ("Cn0InDbHz", Real 8);
   ("PRRateInMeterPreSec", Real 8); ("PRRateUnInMeterPreSec", Real 8); ("AcDRState10", UInt 2);
   ("AcDRInMeters", Real 8); ("AcDRUnInMeters", Real 8); ("PRInMeters", Real 8); ("PRUnInMeters", Real 8);
   ("CPInChips", Real 8); ("CPUnInChips", Real 8); ("CFInhZ", Real 4); ("CarrierCycle", SInt 8);
   ("CarrierPhase", Real 8); ("CarrierPhaseUn", Real 8); ("LossOfLock", UInt 1); ("BitNumber", SInt 4);
   ("TimeFromLastBitInMs", SInt 2); ("DopperShiftInHz", Real 8); ("DopperShiftUnInHz", Real 8);
   ("MultipathIndicater", UInt 1); ("SnrInDb", Real 8); ("ElInDeg", Real 8); ("ElUnInDeg", Real 8);
   ("AzInDeg", Real 8); ("AzUnInDeg", Real 8); ("UsedInFix", UInt 1)]%string.

Definition clock_layout : layout :=
  [("size", UInt 4); ("flag", UInt 2); ("leapsecond", SInt 2); ("type", UInt 1); ("TimeInNs", SInt 8);
   ("TimeUncertaintyInNs", Real 8); ("FullBiasInNs", SInt 8); ("BiasInNs", Real 8);
   ("BiasUncertaintyInNs", Real 8); ("DriftInNsPerSec", Real 8); ("DriftUncertaintyInNsPerSec", Real 8)]%string.

Definition navigation_layout : layout :=
  [("size", UInt 4); ("type", SInt 1); ("prn", UInt 1); ("messageID", SInt 2); ("submessageID", SInt 2);
   ("length", UInt 4); ("data", Chars 40)]%string.

(** mnl_agps_agps_location, with the natural alignment. *)
Definition agps_location_layout : layout :=
  [("latitude", Real 8); ("longitude", Real 8); ("altitude_used", UInt 1); ("altitude", Real 8);
   ("speed_used", UInt 1); ("speed", Real 4); ("bearing_used", UInt 1); ("bearing", Real 4);
   ("accuracy_used", UInt 1); ("accuracy", Real 4); ("timestamp_used", UInt 1); ("timestamp", SInt 8)]%string.

Definition PACK : nat := 4.

(** The member of the framework's structure for each member of the daemon's. *)
Definition measurement_map : list (string * string) :=
  [("accumulated_delta_range_m", "AcDRInMeters"); ("accumulated_delta_range_state", "AcDRState10");
   ("accumulated_delta_range_uncertainty_m", "AcDRUnInMeters"); ("azimuth_deg", "AzInDeg");
   ("azimuth_uncertainty_deg", "AzUnInDeg"); ("bit_number", "BitNumber"); ("carrier_cycles", "CarrierCycle");
   ("carrier_phase", "CarrierPhase"); ("carrier_phase_uncertainty", "CarrierPhaseUn");
   ("carrier_frequency_hz", "CFInhZ"); ("c_n0_dbhz", "Cn0InDbHz"); ("code_phase_chips", "CPInChips");
   ("code_phase_uncertainty_chips", "CPUnInChips"); ("doppler_shift_hz", "DopperShiftInHz");
   ("doppler_shift_uncertainty_hz", "DopperShiftUnInHz"); ("elevation_deg", "ElInDeg");
   ("elevation_uncertainty_deg", "ElUnInDeg"); ("flags", "flag"); ("loss_of_lock", "LossOfLock");
   ("multipath_indicator", "MultipathIndicater"); ("pseudorange_m", "PRInMeters"); ("prn", "PRN");
   ("pseudorange_rate_mps", "PRRateInMeterPreSec");
   ("pseudorange_rate_uncertainty_mps", "PRRateUnInMeterPreSec");
   ("pseudorange_uncertainty_m", "PRUnInMeters"); ("received_gps_tow_ns", "ReGpsTowInNs");
   ("received_gps_tow_uncertainty_ns", "ReGpsTowUnInNs"); ("snr_db", "SnrInDb"); ("state", "state");
   ("time_from_last_bit_ms", "TimeFromLastBitInMs"); ("time_offset_ns", "TimeOffsetInNs");
   ("used_in_fix", "UsedInFix")]%string.

Definition clock_map : list (string * string) :=
  [("bias_ns", "BiasInNs"); ("bias_uncertainty_ns", "BiasUncertaintyInNs"); ("drift_nsps", "DriftInNsPerSec");
   ("flags", "flag"); ("leap_second", "leapsecond"); ("time_ns", "TimeInNs");
   ("time_uncertainty_ns", "TimeUncertaintyInNs"); ("type", "type"); ("full_bias_ns", "FullBiasInNs");
   ("drift_uncertainty_nsps", "DriftUncertaintyInNsPerSec")]%string.

Definition navigation_map : list (string * string) :=
  [("prn", "prn"); ("type", "type"); ("message_id", "messageID"); ("submessage_id", "submessageID");
   ("data_length", "length")]%string.

(** The assignments, member by member. *)
Fixpoint assign (table : list (string * string)) (v : fields) : option fields :=
  match table with
  | [] => Some []
  | (dst, src) :: table' =>
      x ← member src v;
      r ← assign table' v;
      Some ((dst, x) :: r)
  end.

(** Which of the two malloc calls for a navigation message succeed: that of the
    event, and that of gpsnavigation.data. *)
Record allocations := MkAllocations { event_allocated : bool; data_allocated : bool }.

Definition memory_left : allocations := MkAllocations true true.

Section Handler.
Context `{GpsHeader} `{NiHeader} `{DaemonLink}.

(** The uninitialised arrays requestor_id and client_name. *)
Variable junk : list Z.

(** A call through a table of callbacks. *)
Definition call_back (given : gps -> bool) (u : upcall) : CM gps unit :=
  g ← cgets given;
  if (g : bool) then upcall_cb u else clift None.

Definition notify_flags_of (type : Z) : Z :=
  match type with
  | 1 => GPS_NI_NEED_NOTIFY
  | 2 | 3 => Z.lor GPS_NI_NEED_NOTIFY GPS_NI_NEED_VERIFY
  | 4 => GPS_NI_PRIVACY_OVERRIDE
  | _ => 0
  end.

(** ASCII to the hexadecimal text of UCS-2, into a zeroed array. *)
Definition ucs2_hex (size : Z) (ascii : list Z) : option (list Z) :=
  '(ucs2_buff, usc2_len) ← asc_str_to_usc2_str (zeros 1024) ascii;
  raw_data_to_hex_string (zeros size) ucs2_buff usc2_len.

Definition notification (m : msgbuf) : CM gps unit :=
  '(id, m) ← clift (buff_get_int m);
  '(type, m) ← clift (buff_get_int m);
  '(_, requestor, m) ← clift (buff_get_string junk m);
  '(_, client_name, m) ← clift (buff_get_string junk m);
  requestor_hex ← clift (ucs2_hex GPS_NI_SHORT_STRING_MAXLEN requestor);
  text_hex ← clift (ucs2_hex GPS_NI_LONG_STRING_MAXLEN client_name);
  call_back gps_ni_callbacks (CbNotify
    (MkNi id GPS_NI_TYPE_UMTS_SUPL (notify_flags_of type) 8 GPS_NI_RESPONSE_NORESP
       requestor_hex text_hex GPS_ENC_SUPL_UCS2 GPS_ENC_SUPL_UCS2)).

Definition notification_2 (m : msgbuf) : CM gps unit :=
  '(id, m) ← clift (buff_get_int m);
  '(type, m) ← clift (buff_get_int m);
  '(_, requestor, m) ← clift (buff_get_string (zeros GPS_NI_SHORT_STRING_MAXLEN) m);
  '(_, text, m) ← clift (buff_get_string (zeros GPS_NI_LONG_STRING_MAXLEN) m);
  '(requestor_enc, m) ← clift (buff_get_int m);
  '(text_enc, m) ← clift (buff_get_int m);
  call_back gps_ni_callbacks (CbNotify
    (MkNi id GPS_NI_TYPE_UMTS_SUPL (notify_flags_of type) 8 GPS_NI_RESPONSE_NORESP
       requestor text requestor_enc text_enc)).

Definition data_conn_req (m : msgbuf) : CM gps unit :=
  '(ipaddr, m) ← clift (buff_get_int m);
  '(_, m) ← clift (buff_get_int m);
  call_back agps_callbacks (CbAgpsStatus AGPS_TYPE_SUPL GPS_REQUEST_AGPS_DATA_CONN (enc_int ipaddr)).

(** [sizeof(struct sockaddr_storage)] is 128. *)
Definition data_conn_req2 (m : msgbuf) : CM gps unit :=
  '(addr, m) ← clift (buff_get_struct (zeros 128) 128 m);
  '(_, m) ← clift (buff_get_int m);
  call_back agps_callbacks (CbAgpsStatus AGPS_TYPE_SUPL GPS_REQUEST_AGPS_DATA_CONN addr).

Definition data_conn_release : CM gps unit :=
  call_back agps_callbacks (CbAgpsStatus AGPS_TYPE_SUPL GPS_RELEASE_AGPS_DATA_CONN []).

Definition request_set_id (m : msgbuf) : CM gps unit :=
  '(flags, m) ← clift (buff_get_int m);
  call_back agps_ril_callbacks (CbSetId flags).

Definition request_refloc (m : msgbuf) : CM gps unit :=
  '(flags, m) ← clift (buff_get_int m);
  call_back agps_ril_callbacks (CbRefLoc flags).

(** A member that counts only if its [_used] byte is set: its flag and its
    assignment. *)
Definition optional (used name : string) (flag : Z) (v : fields) : option (Z * fields) :=
  u ← member_num used v;
  x ← member name v;
  Some (if truthy u then (flag, [(name, x)]) else (0, [])).

Definition agps_location_of (v : fields) : option (Z * fields) :=
  lat ← member "latitude" v;
  lon ← member "longitude" v;
  '(f1, a1) ← optional "altitude_used" "altitude" GPS_LOCATION_HAS_ALTITUDE v;
  '(f2, a2) ← optional "speed_used" "speed" GPS_LOCATION_HAS_SPEED v;
  '(f3, a3) ← optional "bearing_used" "bearing" GPS_LOCATION_HAS_BEARING v;
  '(f4, a4) ← optional "accuracy_used" "accuracy" GPS_LOCATION_HAS_ACCURACY v;
  '(_, a5) ← optional "timestamp_used" "timestamp" 0 v;
  Some (Z.lor (Z.lor (Z.lor (Z.lor GPS_LOCATION_HAS_LAT_LONG f1) f2) f3) f4,
        [("latitude"%string, lat); ("longitude"%string, lon)] ++ a1 ++ a2 ++ a3 ++ a4 ++ a5).

Definition agps_location (m : msgbuf) : CM gps unit :=
  let size := Z.of_nat (sizeof 8 agps_location_layout) in
  '(location, m) ← clift (buff_get_struct (zeros size) size m);
  v ← clift (dec_struct 8 agps_location_layout location);
  '(flags, values) ← clift (agps_location_of v);
  g ← cgets base_callbacks;
  cwhen (g : bool) (upcall_cb (CbLocation flags values)).

(** MTK_GPS_MEASUREMENT[32] and MTK_GPS_CLOCK; the loop [for (i = 0; i < 1;
    i++)] looks at the first measurement only. *)
Definition measurement (m : msgbuf) : CM gps unit :=
  let size := Z.of_nat (sizeof PACK measurement_layout) in
  let clock_size := Z.of_nat (sizeof PACK clock_layout) in
  '(ms, m) ← clift (buff_get_struct (zeros (32 * size)) (32 * size) m);
  '(clk, m) ← clift (buff_get_struct (zeros clock_size) clock_size m);
  cv ← clift (dec_struct PACK clock_layout clk);
  gpsclock ← clift (assign clock_map cv);
  mv ← clift (dec_struct PACK measurement_layout ms);
  gpsm ← clift (assign measurement_map mv);
  prn ← clift (member_num "prn" gpsm);
  let measurement_count := if truthy prn then 1 else 0 in
  cwhen (measurement_count >? 0) (upcall_cb (CbMeasurement measurement_count gpsm gpsclock)).

(** The result of the first malloc is checked, that of the second one is the
    destination of the memcpy. *)
Definition navigation (mem : allocations) (m : msgbuf) : CM gps unit :=
  cwhen (event_allocated mem)
    (let size := Z.of_nat (sizeof PACK navigation_layout) in
     '(event, m) ← clift (buff_get_struct (zeros size) size m);
     v ← clift (dec_struct PACK navigation_layout event);
     msg ← clift (assign navigation_map v);
     len ← clift (member_num "length" v);
     data ← clift (match member "data" v with Some (Raw bs) => Some bs | _ => None end);
     (* memcpy out of gps_navigation_event->data into gpsnavigation.data *)
     copy ← clift (if data_allocated mem then buf_read data 0 len else None);
     upcall_cb (CbNavigation msg copy)).

(** ** State changes *)

Definition release_condition (i : nat) : CM gps unit :=
  cmodify (fun s => s ⟨ conditions $= fun l => <[i := 1]> l ⟩).

Definition report_status (st : Z) : CM gps unit :=
  _ ← cmodify (fun s => s ⟨ sta_status := st ⟩);
  call_back base_callbacks (CbStatus st).

Definition mnl_die : CM gps unit :=
  _ ← cmodify (fun s => s ⟨ flag_unlock := 0 ⟩);
  _ ← report_status GPS_STATUS_SESSION_END;
  _ ← report_status GPS_STATUS_ENGINE_OFF;
  _ ← release_condition M_STOP;
  _ ← call_back base_callbacks CbReleaseWakelock;
  cmodify (fun s => s ⟨ start_flag := 0 ⟩).

Definition gps_icon (m : msgbuf) : CM gps unit :=
  '(status, m) ← clift (buff_get_int m);
  st ← cgets (fun s => started (g_epo s));
  if status =? 1 then
    cwhen (st =? 0)
      (_ ← report_status GPS_STATUS_ENGINE_ON;
       report_status GPS_STATUS_SESSION_BEGIN)
  else if status =? 0 then
    cwhen (st =? 0)
      (_ ← report_status GPS_STATUS_ENGINE_OFF;
       report_status GPS_STATUS_SESSION_END)
  else mret tt.

Definition update_epo_done : CM epo unit :=
  s ← cgets id;
  cwhen ((epo_download_failed s =? 0) && (gps_epo_file_count s =? 0)) (unlink EPO_FILE_HAL).

Definition inject_time_req : CM gps unit :=
  g ← cgets base_callbacks;
  cwhen (g : bool) (upcall_cb CbUtcTime).

(** ** The handler *)

(** safe_read into the zeroed buffer of 9000 bytes; [None]: it failed. *)
Definition received (d : option (list Z)) : msgbuf :=
  let data := take (Z.to_nat 9000) (default [] d) in
  MsgBuf (data ++ zeros (9000 - Z.of_nat (length data))) 0.

Definition mnld_to_gps_handler (mem : allocations) (d : option (list Z)) : CM gps unit :=
  '(type, m) ← clift (buff_get_int (received d));
  if type =? MNL_AGPS_CMD_NOTIFICATION then notification m
  else if type =? MNL_AGPS_CMD_NOTIFICATION_2 then notification_2 m
  else if type =? MNL_AGPS_CMD_DATA_CONN_REQ then data_conn_req m
  else if type =? MNL_AGPS_CMD_DATA_CONN_REQ2 then data_conn_req2 m
  else if type =? MNL_AGPS_CMD_DATA_CONN_RELEASE then data_conn_release
  else if type =? MNL_AGPS_CMD_REQUEST_SET_ID then request_set_id m
  else if type =? MNL_AGPS_CMD_REQUEST_REFLOC then request_refloc m
  else if type =? MNL_AGPS_CMD_AGPS_LOC then agps_location m
  else if type =? HAL_CMD_UPDATE_EPO_FILE_DONE then on_epo update_epo_done
  else if type =? MNL_CMD_GPS_INJECT_TIME_REQ then inject_time_req
  else if type =? MNL_CMD_GPS_INJECT_LOCATION_REQ then mtk_gps_send_location_to_mnl
  else if type =? HAL_CMD_MNL_DIE then mnl_die
  else if type =? HAL_CMD_GPS_ICON then gps_icon m
  else if type =? HAL_CMD_MEASUREMENT then
    f ← cgets gpsmeasurement_init_flag;
    cwhen (f =? 1) (measurement m)
  else if type =? HAL_CMD_NAVIGATION then
    f ← cgets gpsnavigation_init_flag;
    cwhen (f =? 1) (navigation mem m)
  else mret tt.
End Handler.
