(* ===== verification/MnldProps.v ===== *)
(** * Messages from the GPS daemon: what the framework is told *)

From stdpp Require Import gmap.
From S2P Require Import Prelude NmeaReader NmeaParse HalBuff Layout EpoTime EpoDownload Daemon Hal HalProps Agps MnldHandler.

(** ** Text *)

Lemma Forall_usc2 s : no_nul s -> length (usc2_of s) = (2 * length s + 2)%nat.
Proof.
  intros _. unfold usc2_of. cbn [length]. rewrite length_usc2_chars. lia.
Qed.

(** The hexadecimal text needs four digits for each character and for the
    byte order mark. *)
Lemma ucs2_hex_val size s rest :
  no_nul s -> (length s <= 509)%nat -> 0 <= size ->
  ucs2_hex size (s ++ 0 :: rest)
  = if 4 * Z.of_nat (length s) + 4 <=? size
    then Some (hex_of (usc2_of s) ++ zeros (size - (4 * Z.of_nat (length s) + 4))) else None.
Proof.
  intros Hs Hl Hsz. unfold ucs2_hex. change (zeros 1024) with (replicate 1024 0).
  rewrite (usc2_val _ s rest 0) by (done || (rewrite length_replicate; lia) || (apply lookup_replicate_2; lia)).
  obind. unfold raw_data_to_hex_string.
  replace (Z.to_nat (2 * Z.of_nat (length s) + 2)) with (length (usc2_of s))
    by (rewrite Forall_usc2 by done; lia).
  pose proof (Forall_usc2 s Hs) as Hu.
  destruct (Z.leb_spec (4 * Z.of_nat (length s) + 4) size) as [Hle|Hgt].
  - pose proof (raw_data_to_hex_loop_spec [] (usc2_of s)
      (0 :: 0 :: 0 :: drop (2 * length s + 5) (replicate 1024 0)) [] (zeros size)) as H.
    cbn [app length] in H. change (Z.of_nat 0) with 0 in H. rewrite H by (unfold zeros; blen; lia). do 2 f_equal.
    unfold zeros. rewrite drop_replicate, Hu. f_equal. lia.
  - apply (raw_data_to_hex_loop_overflow [] (usc2_of s)
      (0 :: 0 :: 0 :: drop (2 * length s + 5) (replicate 1024 0)) [] (zeros size));
      [unfold zeros; blen; lia|done].
Qed.

(** ** Messages *)

Lemma run_get_int {B} pre z rest (k : Z * msgbuf -> CM gps B) s :
  is_s32 z ->
  (x ← clift (buff_get_int (msg_at pre (enc_int z ++ rest))); k x) s
  = k (z, msg_at (pre ++ enc_int z) rest) s.
Proof. intros Hz. apply run_lift. by rewrite buff_get_int_at, s32_id. Qed.

Lemma run_get_string {B} pre str rest out (k : Z * list Z * msgbuf -> CM gps B) s :
  Z.of_nat (length str) < 2 ^ 31 - 1 -> (length str < length out)%nat ->
  (x ← clift (buff_get_string out (msg_at pre (enc_string str ++ rest))); k x) s
  = k (Z.of_nat (length str) + 1, str ++ 0 :: drop (length str + 1) out,
       msg_at (pre ++ enc_string str) rest) s.
Proof. intros Hz Ho. apply run_lift, buff_get_string_at; [unfold is_s32; lia|done]. Qed.

Lemma run_get_struct {B} pre bs rest out size (k : list Z * msgbuf -> CM gps B) s :
  size = Z.of_nat (length bs) -> (length bs <= length out)%nat ->
  (x ← clift (buff_get_struct out size (msg_at pre (bs ++ rest))); k x) s
  = k (bs ++ drop (length bs) out, msg_at (pre ++ bs) rest) s.
Proof. intros -> Ho. by apply run_lift, buff_get_struct_at. Qed.

Section Handled.
Context `{GpsHeader} `{NiHeader} `{DaemonLink}.
Variable junk : list Z.

(** A message starts with its code. *)
Lemma received_code code body :
  is_s32 code -> Z.of_nat (length body) <= 8996 ->
  exists rest, buff_get_int (received (Some (enc_int code ++ body)))
    = Some (code, msg_at (enc_int code) (body ++ rest)).
Proof.
  intros Hc Hl. unfold received. cbv zeta.
  change (default [] (Some (enc_int code ++ body))) with (enc_int code ++ body).
  rewrite take_ge by (rewrite length_app, length_enc_int; lia). set (z := zeros _). exists z.
  rewrite <-app_assoc. pose proof (buff_get_int_at [] code (body ++ z)) as Hr.
  rewrite s32_id in Hr by done. exact Hr.
Qed.

Definition notification_body (id type : Z) (requestor client : list Z) : list Z :=
  enc_int id ++ enc_int type ++ enc_string requestor ++ enc_string client.

Lemma notification_run id type requestor client pre rest s :
  is_s32 id -> is_s32 type -> length junk = 1024%nat ->
  no_nul requestor -> no_nul client -> (length requestor <= 509)%nat -> (length client <= 509)%nat ->
  notification junk (msg_at pre (notification_body id type requestor client ++ rest)) s
  = (r ← clift (ucs2_hex GPS_NI_SHORT_STRING_MAXLEN (requestor ++ 0 :: drop (length requestor + 1) junk));
     t ← clift (ucs2_hex GPS_NI_LONG_STRING_MAXLEN (client ++ 0 :: drop (length client + 1) junk));
     call_back gps_ni_callbacks (CbNotify
       (MkNi id GPS_NI_TYPE_UMTS_SUPL (notify_flags_of type) 8 GPS_NI_RESPONSE_NORESP r t
          GPS_ENC_SUPL_UCS2 GPS_ENC_SUPL_UCS2))) s.
Proof.
  intros Hid Hty Hj Hr Hc Hlr Hlc. unfold notification, notification_body. rewrite <-!app_assoc.
  rewrite run_get_int by done. rewrite run_get_int by done.
  rewrite run_get_string by lia. rewrite run_get_string by lia. done.
Qed.
End Handled.

(** C20 (functional): a network-initiated request.  A notification with an
    ASCII requestor and client reaches the framework with the flags of its
    type and both texts as hexadecimal UCS-2, byte order mark first, provided
    that the texts fit into the arrays of GpsNiNotification; a longer
    requestor makes the handler write past its array. *)
Theorem notification_delivered `{GpsHeader} `{NiHeader} `{DaemonLink} junk id type requestor client ok s :
  is_s32 id -> is_s32 type -> length junk = 1024%nat ->
  no_nul requestor -> no_nul client -> (length requestor <= 509)%nat -> (length client <= 509)%nat ->
  0 <= GPS_NI_SHORT_STRING_MAXLEN -> 0 <= GPS_NI_LONG_STRING_MAXLEN -> gps_ni_callbacks s = true ->
  let d := enc_int MNL_AGPS_CMD_NOTIFICATION ++ notification_body id type requestor client in
  (4 * Z.of_nat (length requestor) + 4 <= GPS_NI_SHORT_STRING_MAXLEN ->
   4 * Z.of_nat (length client) + 4 <= GPS_NI_LONG_STRING_MAXLEN ->
   exists r t, mnld_to_gps_handler junk ok (Some d) s
     = Some (tt, s ⟨ upcalls $= fun l => l ++ [CbNotify
         (MkNi id GPS_NI_TYPE_UMTS_SUPL (notify_flags_of type) 8 GPS_NI_RESPONSE_NORESP
            r t GPS_ENC_SUPL_UCS2 GPS_ENC_SUPL_UCS2)] ⟩)
   /\ r = hex_of (usc2_of requestor)
          ++ zeros (GPS_NI_SHORT_STRING_MAXLEN - (4 * Z.of_nat (length requestor) + 4))
   /\ t = hex_of (usc2_of client)
          ++ zeros (GPS_NI_LONG_STRING_MAXLEN - (4 * Z.of_nat (length client) + 4)))
  /\ (GPS_NI_SHORT_STRING_MAXLEN < 4 * Z.of_nat (length requestor) + 4 ->
      mnld_to_gps_handler junk ok (Some d) s = None).
Proof.
  intros Hid Hty Hj Hr Hc Hlr Hlc Hs Hl Hni d.
  destruct (received_code MNL_AGPS_CMD_NOTIFICATION (notification_body id type requestor client))
    as [rest Hrec]; [by_decide| |].
  { unfold notification_body, enc_string. blen. cbn [length]. lia. }
  assert (mnld_to_gps_handler junk ok (Some d) s
    = notification junk (msg_at (enc_int MNL_AGPS_CMD_NOTIFICATION)
        (notification_body id type requestor client ++ rest)) s) as ->
    by (unfold mnld_to_gps_handler; by rewrite (run_lift _ _ _ _ Hrec)).
  rewrite notification_run by done. split.
  - intros Hf1 Hf2. eexists _, _. split; [|done].
    erewrite run_lift; [|rewrite ucs2_hex_val, (proj2 (Z.leb_le _ _)) by done; reflexivity].
    erewrite run_lift; [|rewrite ucs2_hex_val, (proj2 (Z.leb_le _ _)) by done; reflexivity].
    unfold call_back. rewrite run_gets, Hni. done.
  - intros Hf. rewrite (ucs2_hex_val GPS_NI_SHORT_STRING_MAXLEN) by done.
    by destruct (Z.leb_spec (4 * Z.of_nat (length requestor) + 4) GPS_NI_SHORT_STRING_MAXLEN); [lia|].
Qed.

(** The constants of the Android release. *)
Definition aosp_ni : NiHeader := {|
  GPS_NI_TYPE_UMTS_SUPL := 1; GPS_NI_NEED_NOTIFY := 1; GPS_NI_NEED_VERIFY := 2;
  GPS_NI_PRIVACY_OVERRIDE := 4; GPS_NI_RESPONSE_NORESP := 3; GPS_ENC_SUPL_UCS2 := 3;
  GPS_NI_SHORT_STRING_MAXLEN := 256; GPS_NI_LONG_STRING_MAXLEN := 2048;
  AGPS_TYPE_SUPL := 1; GPS_REQUEST_AGPS_DATA_CONN := 1; GPS_RELEASE_AGPS_DATA_CONN := 2;
  GPS_STATUS_SESSION_BEGIN := 1; GPS_STATUS_SESSION_END := 2; GPS_STATUS_ENGINE_ON := 3;
  GPS_STATUS_ENGINE_OFF := 4;
|}.

Definition ready_state : gps :=
  gps_boot ⟨ base_callbacks := true ⟩ ⟨ agps_callbacks := true ⟩ ⟨ gps_ni_callbacks := true ⟩
    ⟨ agps_ril_callbacks := true ⟩ ⟨ init := 1 ⟩.

Theorem notification_delivered_witness :
  (exists r s', @mnld_to_gps_handler aosp_gps_h aosp_ni quiet_link (zeros 1024) memory_left
     (Some (enc_int 230 ++ notification_body 7 2 (zs "operator") (zs "client"))) ready_state = Some (r, s')
     /\ length (upcalls s') = 1%nat)
  /\ @mnld_to_gps_handler aosp_gps_h aosp_ni quiet_link (zeros 1024) memory_left
     (Some (enc_int 230 ++ notification_body 7 2 (replicate 64 65) (zs "client"))) ready_state = None.
Proof.
  split.
  - destruct (proj1 (@notification_delivered aosp_gps_h aosp_ni quiet_link (zeros 1024) 7 2 (zs "operator")
      (zs "client") memory_left ready_state ltac:(by_decide) ltac:(by_decide) eq_refl ltac:(by_decide) ltac:(by_decide)
      ltac:(vm_compute; lia) ltac:(vm_compute; lia) ltac:(vm_compute; discriminate)
      ltac:(vm_compute; discriminate) eq_refl)
      ltac:(vm_compute; discriminate) ltac:(vm_compute; discriminate)) as (r & t & Hh & _).
    eexists _, _. split; [exact Hh|reflexivity].
  - apply (proj2 (@notification_delivered aosp_gps_h aosp_ni quiet_link (zeros 1024) 7 2 (replicate 64 65)
      (zs "client") memory_left ready_state ltac:(by_decide) ltac:(by_decide) eq_refl ltac:(by_decide) ltac:(by_decide)
      ltac:(vm_compute; lia) ltac:(vm_compute; lia) ltac:(vm_compute; discriminate)
      ltac:(vm_compute; discriminate) eq_refl)).
    reflexivity.
Defined.

(** ** Structures *)

(** A member of a structure is the value at its place. *)
Lemma member_zip names : forall vs i name,
  NoDup names -> names !! i = Some name -> member name (zip names vs) = vs !! i.
Proof.
  induction names as [|n names IH]; intros vs i name Hd Hi; [done|].
  apply NoDup_cons in Hd as [Hn Hd]. destruct vs as [|v vs]; [by destruct i|].
  destruct i as [|i]; cbn [member zip lookup list_lookup] in *.
  - injection Hi as ->. by rewrite String.eqb_refl.
  - destruct (String.eqb_spec n name) as [->|]; [|by apply IH].
    exfalso. apply Hn. by eapply list_elem_of_lookup_2.
Qed.

Lemma assign_total names vs table :
  NoDup names -> length names = length vs -> Forall (fun e => e.2 ∈ names) table ->
  exists r, assign table (zip names vs) = Some r.
Proof.
  intros Hd Hl. induction table as [|[dst src] table IH]; intros Ht; [by exists []|].
  apply Forall_cons in Ht as [H1 H2]. destruct (IH H2) as [r Hr]. cbn [assign].
  cbn in H1. apply list_elem_of_lookup in H1 as [i Hi].
  rewrite (member_zip names vs i src Hd Hi).
  destruct (vs !! i) as [v|] eqn:E.
  - obind. rewrite Hr. eauto.
  - apply lookup_ge_None in E. apply lookup_lt_Some in Hi. lia.
Qed.

Lemma assign_member table v : forall r i dst src,
  NoDup (fst <$> table) -> table !! i = Some (dst, src) -> assign table v = Some r ->
  member dst r = member src v.
Proof.
  induction table as [|[d s] table IH]; intros r i dst src Hd Hi Hr; [done|].
  cbn [assign] in Hr. destruct (member s v) as [x|] eqn:Hx; [|done].
  destruct (assign table v) as [r'|] eqn:Hr'; [|done]. injection Hr as <-.
  cbn [fmap list_fmap fst] in Hd. apply NoDup_cons in Hd as [Hn Hd].
  destruct i as [|i]; cbn [lookup list_lookup] in Hi.
  - injection Hi as -> ->. cbn [member]. by rewrite String.eqb_refl, Hx.
  - cbn [member]. destruct (String.eqb_spec d dst) as [->|]; [|by eapply IH].
    exfalso. apply Hn. apply list_elem_of_fmap. exists (dst, src). split; [done|]. by eapply list_elem_of_lookup_2.
Qed.

Definition values_ok (l : layout) (vs : list cval) : Prop := Forall2 (fun m v => val_ok (snd m) v) l vs.

(** A number among the values. *)
Lemma value_num l vs i name t :
  values_ok l vs -> NoDup (fst <$> l) -> l !! i = Some (name, t) ->
  (forall bs, ~ val_ok t (Raw bs)) ->
  exists z, member name (zip (fst <$> l) vs) = Some (Num z) /\ vs !! i = Some (Num z) /\ val_ok t (Num z).
Proof.
  intros Hv Hd Hi Ht. rewrite (member_zip _ vs i) by (done || by rewrite list_lookup_fmap, Hi).
  destruct (Forall2_lookup_l _ _ _ _ _ Hv Hi) as (v & Hvi & Hok). cbn in Hok.
  destruct v as [z|bs]; [eauto|]. by apply Ht in Hok.
Qed.

Lemma values_names l vs : values_ok l vs -> length (fst <$> l) = length vs.
Proof. intros Hv. rewrite length_fmap. by eapply Forall2_length. Qed.

(** The fields that the framework gets for the given values. *)
Definition forwarded (table : list (string * string)) (l : layout) (vs : list cval) : option fields :=
  assign table (zip (fst <$> l) vs).

Definition measurement_msg (first : list cval) (others : list Z) (clock : list cval) : list Z :=
  enc_int HAL_CMD_MEASUREMENT
  ++ (enc_struct PACK measurement_layout first ++ others) ++ enc_struct PACK clock_layout clock.

(** Measurements.  Of the 32 measurements of a message the
    framework is given the first one only, with the clock, every member in its
    place, and only if measurements are switched on and its PRN is not 0; the
    other 31 are dropped. *)
Theorem measurement_first_only `{GpsHeader} `{NiHeader} `{DaemonLink} junk ok first others clock prn s :
  values_ok measurement_layout first -> values_ok clock_layout clock ->
  length others = (31 * sizeof PACK measurement_layout)%nat ->
  first !! 2%nat = Some (Num prn) ->
  exists m c, forwarded measurement_map measurement_layout first = Some m
  /\ forwarded clock_map clock_layout clock = Some c
  /\ mnld_to_gps_handler junk ok (Some (measurement_msg first others clock)) s
     = Some (tt, if (gpsmeasurement_init_flag s =? 1) && negb (prn =? 0)
                 then s ⟨ upcalls $= fun l => l ++ [CbMeasurement 1 m c] ⟩ else s).
Proof.
  intros Hf Hc Ho Hprn.
  assert (NoDup (fst <$> measurement_layout)) as Hnd by by_decide.
  destruct (assign_total _ first measurement_map Hnd (values_names _ _ Hf)) as [m Hm]; [by_decide|].
  assert (NoDup (fst <$> clock_layout)) as Hndc by by_decide.
  destruct (assign_total _ clock clock_map Hndc (values_names _ _ Hc))
    as [c Hck]; [by_decide|].
  exists m, c. split; [done|]. split; [done|].
  pose proof (length_enc_struct PACK _ _ Hf) as Hl1. pose proof (length_enc_struct PACK _ _ Hc) as Hl2.
  destruct (received_code HAL_CMD_MEASUREMENT ((enc_struct PACK measurement_layout first ++ others)
    ++ enc_struct PACK clock_layout clock)) as [rest Hrec]; [by_decide| |].
  { rewrite !length_app, Hl1, Hl2, Ho. vm_compute. discriminate. }
  assert (mnld_to_gps_handler junk ok (Some (measurement_msg first others clock)) s
    = (f ← cgets gpsmeasurement_init_flag;
       cwhen (f =? 1) (measurement (msg_at (enc_int HAL_CMD_MEASUREMENT)
         (((enc_struct PACK measurement_layout first ++ others)
           ++ enc_struct PACK clock_layout clock) ++ rest)))) s) as ->
    by (unfold mnld_to_gps_handler, measurement_msg; by rewrite (run_lift _ _ _ _ Hrec)).
  rewrite run_gets.
  destruct (gpsmeasurement_init_flag s =? 1); [|done]. cbn [cwhen andb]. unfold measurement.
  rewrite <-app_assoc, run_get_struct; [|rewrite length_app, Hl1, Ho; reflexivity|
    unfold zeros; rewrite length_app, Hl1, Ho, length_replicate; vm_compute; lia].
  rewrite run_get_struct; [|by rewrite Hl2|unfold zeros; rewrite Hl2, length_replicate; vm_compute; lia].
  rewrite (run_lift _ _ _ _ (dec_enc_struct PACK _ _ _ Hc)), (run_lift _ _ _ _ Hck), <-app_assoc,
    (run_lift _ _ _ _ (dec_enc_struct PACK _ _ _ Hf)), (run_lift _ _ _ _ Hm).
  assert (member_num "prn" m = Some prn) as Hp.
  { unfold member_num. rewrite (assign_member measurement_map _ m 21 "prn" "PRN" ltac:(by_decide) eq_refl Hm).
    by rewrite (member_zip _ first 2 "PRN" Hnd eq_refl), Hprn. }
  rewrite (run_lift _ _ _ _ Hp). unfold truthy. by destruct (prn =? 0).
Qed.

(** Values of the given layout, all numbers [z]. *)
Definition constant_values (l : layout) (z : Z) : list cval :=
  (fun m => match snd m with Chars n => Raw (replicate n 0) | _ => Num z end) <$> l.

Theorem measurement_first_only_witness :
  let s := ready_state ⟨ gpsmeasurement_init_flag := 1 ⟩ in
  exists s', @mnld_to_gps_handler aosp_gps_h aosp_ni quiet_link (zeros 1024) memory_left
    (Some (measurement_msg (constant_values measurement_layout 5)
       (replicate (31 * sizeof PACK measurement_layout) 1) (constant_values clock_layout 3))) s
    = Some (tt, s') /\ length (upcalls s') = 1%nat.
Proof.
  intros s.
  destruct (@measurement_first_only aosp_gps_h aosp_ni quiet_link (zeros 1024) memory_left
    (constant_values measurement_layout 5) (replicate (31 * sizeof PACK measurement_layout) 1)
    (constant_values clock_layout 3) 5 s) as (m & c & _ & _ & Hh).
  - repeat constructor; cbn; lia.
  - repeat constructor; cbn; lia.
  - apply length_replicate.
  - reflexivity.
  - eexists. split; [exact Hh|]. reflexivity.
Defined.

Definition navigation_msg (vs : list cval) : list Z :=
  enc_int HAL_CMD_NAVIGATION ++ enc_struct PACK navigation_layout vs.

(** Navigation messages.  With navigation messages switched
    on and memory available, the framework gets the header and the first
    [length] bytes of the data of the daemon's event; [length] is not checked,
    and a length over 40 is read past the end of the data. *)
Theorem navigation_forwarded `{GpsHeader} `{NiHeader} `{DaemonLink} junk vs len data s :
  values_ok navigation_layout vs -> gpsnavigation_init_flag s = 1 ->
  vs !! 5%nat = Some (Num len) -> vs !! 6%nat = Some (Raw data) ->
  exists h, forwarded navigation_map navigation_layout vs = Some h
  /\ member "data_length" h = Some (Num len)
  /\ mnld_to_gps_handler junk memory_left (Some (navigation_msg vs)) s
     = if len <=? 40
       then Some (tt, s ⟨ upcalls $= fun l => l ++ [CbNavigation h (take (Z.to_nat len) data)] ⟩)
       else None.
Proof.
  intros Hv Hflag Hlen Hdata.
  assert (NoDup (fst <$> navigation_layout)) as Hnd by by_decide.
  destruct (assign_total _ vs navigation_map Hnd (values_names _ _ Hv)) as [h Hh]; [by_decide|].
  exists h. split; [done|].
  assert (member "length" (zip (fst <$> navigation_layout) vs) = Some (Num len)) as Hl
    by (by rewrite (member_zip _ vs 5 "length" Hnd eq_refl)).
  assert (member "data" (zip (fst <$> navigation_layout) vs) = Some (Raw data)) as Hd
    by (by rewrite (member_zip _ vs 6 "data" Hnd eq_refl)).
  split; [by rewrite (assign_member navigation_map _ h 4 "data_length" "length" ltac:(by_decide) eq_refl Hh)|].
  pose proof (length_enc_struct PACK _ _ Hv) as Hl1.
  destruct (received_code HAL_CMD_NAVIGATION (enc_struct PACK navigation_layout vs)) as [rest Hrec];
    [by_decide|rewrite Hl1; vm_compute; discriminate|].
  assert (mnld_to_gps_handler junk memory_left (Some (navigation_msg vs)) s
    = (f ← cgets gpsnavigation_init_flag;
       cwhen (f =? 1) (navigation memory_left (msg_at (enc_int HAL_CMD_NAVIGATION)
         (enc_struct PACK navigation_layout vs ++ rest)))) s) as ->
    by (unfold mnld_to_gps_handler, navigation_msg; by rewrite (run_lift _ _ _ _ Hrec)).
  rewrite run_gets, Hflag. cbn [Z.eqb Pos.eqb cwhen]. unfold navigation. cbn [cwhen memory_left event_allocated data_allocated]. cbv zeta.
  rewrite run_get_struct; [|by rewrite Hl1|unfold zeros; rewrite Hl1, length_replicate; vm_compute; lia].
  rewrite (run_lift _ _ _ _ (dec_enc_struct PACK _ _ _ Hv)), (run_lift _ _ _ _ Hh).
  unfold member_num. rewrite Hl, Hd, !(run_lift (Some _) _ _ _ eq_refl).
  pose proof (Forall2_lookup_lr _ _ _ 5 ("length"%string, UInt 4) _ Hv eq_refl Hlen) as Hlr.
  pose proof (Forall2_lookup_lr _ _ _ 6 ("data"%string, Chars 40) _ Hv eq_refl Hdata) as Hdr.
  cbn in Hlr, Hdr. unfold buf_read. rewrite Hdr.
  destruct (Z.leb_spec 0 len), (Z.leb_spec len 40), (Z.leb_spec (0 + len) (Z.of_nat 40)); try lia; done.
Qed.

Theorem navigation_forwarded_witness :
  let s := ready_state ⟨ gpsnavigation_init_flag := 1 ⟩ in
  let event len := [Num 60; Num 1; Num 7; Num 2; Num 3; Num len; Raw (replicate 40 9)] in
  (exists s', @mnld_to_gps_handler aosp_gps_h aosp_ni quiet_link (zeros 1024) memory_left
     (Some (navigation_msg (event 40))) s = Some (tt, s') /\ length (upcalls s') = 1%nat)
  /\ @mnld_to_gps_handler aosp_gps_h aosp_ni quiet_link (zeros 1024) memory_left
     (Some (navigation_msg (event 41))) s = None.
Proof.
  intros s event. split.
  - destruct (@navigation_forwarded aosp_gps_h aosp_ni quiet_link (zeros 1024) (event 40) 40
      (replicate 40 9) s) as (h & _ & _ & Hh).
    + repeat constructor; cbn; lia.
    + reflexivity.
    + reflexivity.
    + reflexivity.
    + eexists. split; [exact Hh|]. reflexivity.
  - destruct (@navigation_forwarded aosp_gps_h aosp_ni quiet_link (zeros 1024) (event 41) 41
      (replicate 40 9) s) as (h & _ & _ & Hh).
    + repeat constructor; cbn; lia.
    + reflexivity.
    + reflexivity.
    + reflexivity.
    + exact Hh.
Defined.
