(* ===== verification/Session.v ===== *)
(** * GPS sessions: the framework's thread, the HAL thread and the daemon
      (gps_mtk_aosp.c: mtk_gps_start, mtk_gps_stop, gps_state_thread,
      mnld_to_gps_handler, get_condition, release_condition)

    The calls of the framework and the handling of the two messages that report
    a status, MNL_DIE and GPS_ICON, are
    sequences of actions; the threads interleave between any two of them.  Every
    other message is handled by the handler of MnldHandler.v in one step.  A
    wait is an action that is possible only when its condition holds. *)

From stdpp Require Import gmap.
From S2P Require Import Prelude NmeaReader NmeaParse HalBuff Calendar EpoTime EpoConf EpoDownload Daemon Hal HalProps MnldHandler.

(** ** Programs *)

Inductive act :=
  | AWaitStartFlag (v : Z)            (* while (s->start_flag == v) usleep *)
  | AGetCondition (i : nat)
  | ADo (m : CM gps bool)             (* false: return from the function *)
  | ASend (cmd : Z) (m : CM gps Z).   (* a command to the daemon; failure returns *)

Definition always (m : CM gps unit) : CM gps bool := _ ← m; mret true.

(** What the daemon is doing, and what it makes of a command. *)
Inductive daemon_state := DIdle | DRunning | DDying.

Definition on_command (cmd : Z) (d : daemon_state) : daemon_state :=
  match d with
  | DIdle => if cmd =? MNL_CMD_START then DRunning else DIdle
  | DRunning => if cmd =? MNL_CMD_STOP then DDying else DRunning
  | DDying => DDying
  end.

(** Where a thread is: before the [k]-th action of its program. *)
Inductive fpc := FIdle | FStart (now : Z) (conf_file : option (list Z)) (k : nat) | FStop (k : nat).
Inductive hpc := HIdle | HDie (k : nat) | HIcon (status : Z) (k : nat).

Section Programs.
Context `{GpsHeader} `{NiHeader} `{DaemonLink} `{TimeZone}.

Definition check_init : act := ADo (i ← cgets init; mret (truthy i)).

Definition mtk_gps_start (now : Z) (conf_file : option (list Z)) : list act :=
  [ check_init;
    AWaitStartFlag 1;
    ASend MNL_CMD_START mtk_start;
    ADo (always (start_epo now conf_file));
    AGetCondition M_START;
    ADo (always gps_state_start);
    ADo (always (report_status GPS_STATUS_ENGINE_ON));
    ADo (always (report_status GPS_STATUS_SESSION_BEGIN));
    ADo (always (call_back base_callbacks CbAcquireWakelock));
    ADo (always (c ← cgets conditions;
                 cwhen (default 0 (c !! M_STOP) =? 1)
                   (cmodify (fun s => s ⟨ conditions $= <[M_STOP := 0]> ⟩))));
    ADo (always (cmodify (fun s => s ⟨ start_flag := 1 ⟩))) ].

Definition mtk_gps_stop : list act :=
  [ check_init;
    AWaitStartFlag 0;
    ASend MNL_CMD_STOP mtk_stop;
    ADo (always gps_state_stop) ].

(** case HAL_CMD_MNL_DIE *)
Definition mnl_die_actions : list (CM gps unit) :=
  [ cmodify (fun s => s ⟨ flag_unlock := 0 ⟩);
    report_status GPS_STATUS_SESSION_END;
    report_status GPS_STATUS_ENGINE_OFF;
    release_condition M_STOP;
    call_back base_callbacks CbReleaseWakelock;
    cmodify (fun s => s ⟨ start_flag := 0 ⟩) ].

Definition run_actions (l : list (CM gps unit)) : CM gps unit :=
  foldr (fun m r => _ ← m; r) (mret tt) l.

(** Without interleaving they are the handler. *)
Lemma mnl_die_actions_ok s : run_actions mnl_die_actions s = mnl_die s.
Proof.
  unfold run_actions, mnl_die_actions, mnl_die, report_status, call_back, release_condition, upcall_cb.
  cbn. by destruct (base_callbacks s).
Qed.

(** case HAL_CMD_GPS_ICON, with [started] at 0 and a status of 1 or 0 *)
Definition icon_actions (status : Z) : list (CM gps unit) :=
  if status =? 1 then [ report_status GPS_STATUS_ENGINE_ON; report_status GPS_STATUS_SESSION_BEGIN ]
  else [ report_status GPS_STATUS_ENGINE_OFF; report_status GPS_STATUS_SESSION_END ].

(** The type of a datagram, and the status that it makes the handler report as
    an icon: nothing while [started] is set, which only this thread changes. *)
Definition message_type (d : option (list Z)) : option Z := fst <$> buff_get_int (received d).

Definition icon_report (s : gps) (d : option (list Z)) : option Z :=
  '(type, m) ← buff_get_int (received d);
  '(status, _) ← buff_get_int m;
  if (type =? HAL_CMD_GPS_ICON) && (started (g_epo s) =? 0) && ((status =? 1) || (status =? 0))
  then Some status else None.

Lemma two_actions (m1 m2 : CM gps unit) s : (_ ← m1; m2) s = run_actions [m1; m2] s.
Proof.
  unfold run_actions, mbind, cm_bind. cbn [foldr]. destruct (m1 s) as [[[] s1]|]; [|done].
  by destruct (m2 s1) as [[[] s2]|].
Qed.

(** Without interleaving they are the handler. *)
Lemma icon_actions_ok junk mem d s status :
  icon_report s d = Some status -> mnld_to_gps_handler junk mem d s = run_actions (icon_actions status) s.
Proof.
  unfold icon_report, mnld_to_gps_handler. intros E.
  destruct (buff_get_int (received d)) as [[type m]|] eqn:Em; [|done]. cbn [mbind option_bind] in E.
  destruct (buff_get_int m) as [[st m']|] eqn:Es; [|done]. cbn [mbind option_bind] in E.
  destruct (Z.eqb_spec type HAL_CMD_GPS_ICON) as [->|]; [|done]. cbn [andb] in E.
  destruct (started (g_epo s) =? 0) eqn:Est; [|done]. cbn [andb] in E.
  rewrite (run_lift _ _ _ _ eq_refl). change (gps_icon m s = run_actions (icon_actions status) s).
  unfold gps_icon. rewrite (run_lift _ _ _ _ Es), run_gets, Est.
  unfold icon_actions. destruct (st =? 1) eqn:E1.
  - cbn [orb] in E. injection E as <-. rewrite E1. cbn [cwhen foldr].
    apply two_actions.
  - cbn [orb] in E. destruct (st =? 0) eqn:E0; [|done]. injection E as <-. rewrite E1. cbn [cwhen foldr].
    apply two_actions.
Qed.

(** The HAL thread: a byte of the control socket, and data of the device. *)
Definition control_command (cmd : Z) : CM gps unit :=
  st ← cgets (fun s => started (g_epo s));
  if cmd =? CMD_START then
    cwhen (negb (truthy st)) (on_epo (cmodify (fun e => e ⟨ started := 1 ⟩)))
  else if cmd =? CMD_STOP then
    cwhen (truthy st) (on_epo (cmodify (fun e => e ⟨ started := 0 ⟩)))
  else mret tt.

Definition device_data : CM gps unit :=
  f ← cgets flag_unlock;
  cwhen (negb (truthy f))
    (_ ← release_condition M_START;
     cmodify (fun s => s ⟨ flag_unlock := 1 ⟩)).

(** ** The system *)

Record sys := MkSys {
  hal_state : gps;
  framework : fpc;
  hal_thread : hpc;
  daemon : daemon_state;
  dies : nat;                         (* MNL_DIE messages not yet handled *)
}.

(** The action at a place, and the next place. *)
Definition action_at (f : fpc) : option act :=
  match f with
  | FIdle => None
  | FStart now cf k => mtk_gps_start now cf !! k
  | FStop k => mtk_gps_stop !! k
  end.

Definition next (f : fpc) : fpc :=
  match f with
  | FIdle => FIdle
  | FStart now cf k => if (S k <? 11)%nat then FStart now cf (S k) else FIdle
  | FStop k => if (S k <? 4)%nat then FStop (S k) else FIdle
  end.

(** One action of the framework's thread. *)
Inductive act_step : act -> fpc -> gps -> daemon_state -> fpc -> gps -> daemon_state -> Prop :=
  | act_wait v f s d : start_flag s <> v -> act_step (AWaitStartFlag v) f s d (next f) s d
  | act_condition i f s d c :
      conditions s !! i = Some c -> c <> 0 ->
      act_step (AGetCondition i) f s d (next f) (s ⟨ conditions $= <[i := 0]> ⟩) d
  | act_do m f s d b s' :
      m s = Some (b, s') -> act_step (ADo m) f s d (if b : bool then next f else FIdle) s' d
  | act_send_ok cmd m f s d s' :
      m s = Some (0, s') -> act_step (ASend cmd m) f s d (next f) s' (on_command cmd d)
  | act_send_fails cmd m f s d e s' :
      m s = Some (e, s') -> e <> 0 -> act_step (ASend cmd m) f s d FIdle s' d.

(** [may_die]: when the daemon dies; [may_icon]: whether it sends a GPS_ICON
    message that is reported. *)
Inductive step (may_die : daemon_state -> Prop) (may_icon : Prop) : sys -> sys -> Prop :=
  | call_start now cf s h d n :
      step may_die may_icon (MkSys s FIdle h d n) (MkSys s (FStart now cf 0) h d n)
  | call_stop s h d n :
      step may_die may_icon (MkSys s FIdle h d n) (MkSys s (FStop 0) h d n)
  | framework_step s f h d n a f' s' d' :
      action_at f = Some a -> act_step a f s d f' s' d' ->
      step may_die may_icon (MkSys s f h d n) (MkSys s' f' h d' n)
  | daemon_dies s f h d n :
      may_die d -> step may_die may_icon (MkSys s f h d n) (MkSys s f h DIdle (S n))
  | hal_control s f d n c cs s' :
      control s = c :: cs -> control_command c (s ⟨ control := cs ⟩) = Some (tt, s') ->
      step may_die may_icon (MkSys s f HIdle d n) (MkSys s' f HIdle d n)
  | hal_data s f d n s' :
      device_data s = Some (tt, s') ->
      step may_die may_icon (MkSys s f HIdle d n) (MkSys s' f HIdle d n)
  | hal_die s f d n :
      step may_die may_icon (MkSys s f HIdle d (S n)) (MkSys s f (HDie 0) d n)
  | hal_die_step s f d n k m s' :
      mnl_die_actions !! k = Some m -> m s = Some (tt, s') ->
      step may_die may_icon (MkSys s f (HDie k) d n)
        (MkSys s' f (if (S k <? 6)%nat then HDie (S k) else HIdle) d n)
  | hal_icon s f d n data status :
      may_icon -> icon_report s data = Some status ->
      step may_die may_icon (MkSys s f HIdle d n) (MkSys s f (HIcon status 0) d n)
  | hal_icon_step s f d n status k m s' :
      icon_actions status !! k = Some m -> m s = Some (tt, s') ->
      step may_die may_icon (MkSys s f (HIcon status k) d n)
        (MkSys s' f (if (S k <? 2)%nat then HIcon status (S k) else HIdle) d n)
  | hal_message s f d n junk mem data s' :
      message_type data <> Some HAL_CMD_MNL_DIE -> icon_report s data = None ->
      mnld_to_gps_handler junk mem data s = Some (tt, s') ->
      step may_die may_icon (MkSys s f HIdle d n) (MkSys s' f HIdle d n).

(** The daemon dies only when it was told to stop; or at any time. *)
Definition polite (d : daemon_state) : Prop := d = DDying.
Definition crashing (d : daemon_state) : Prop := d <> DIdle.

(** After mtk_gps_init. *)
Definition ready (s : gps) : Prop :=
  init s = 1 /\ base_callbacks s = true /\ start_flag s = 0 /\ upcalls s = [].

Definition initial (s : gps) : sys := MkSys s FIdle HIdle DIdle 0.
End Programs.
