(* ===== verification/SessionProps.v ===== *)
(** * GPS sessions: what the framework is told

    The invariant that keeps sessions in order, the executable runs for the
    witnesses, and what goes wrong: an icon, a daemon that dies by itself, a
    stop without a session. *)

From stdpp Require Import gmap.
From S2P Require Import Prelude NmeaReader NmeaParse HalBuff Calendar EpoTime EpoConf EpoDownload Daemon Hal HalProps MnldHandler MnldProps Session.

(** ** Actions that do not matter for the session *)

(** The calls to the framework that tell it of a session. *)
Definition session_call (u : upcall) : bool :=
  match u with CbStatus _ | CbAcquireWakelock | CbReleaseWakelock => true | _ => false end.
Definition told (s : gps) : list upcall := filter (fun u => session_call u = true) (upcalls s).

Definition core (s : gps) : Z * bool * Z * list upcall :=
  (init s, base_callbacks s, start_flag s, told s).

Abbreviation keeps := (preserves core).

Lemma keeps_on_epo {A} (m : CM epo A) : keeps (on_epo m).
Proof. by apply preserves_on_part. Qed.

#[export] Hint Resolve keeps_on_epo : preserves.

Ltac keeps := preserves.

Lemma told_snoc l u :
  session_call u = true ->
  filter (fun u => session_call u = true) (l ++ [u]) = filter (fun u => session_call u = true) l ++ [u].
Proof. intros Hu. by rewrite filter_app, filter_cons_True. Qed.

Lemma keeps_upcall u : session_call u = false -> keeps (upcall_cb u).
Proof.
  intros Hu. apply preserves_modify. intros s. unfold core, told. cbn.
  by rewrite filter_app, filter_cons_False, app_nil_r by congruence.
Qed.

#[export] Hint Resolve keeps_upcall : preserves.
#[export] Hint Extern 1 (session_call _ = false) => reflexivity : preserves.

Section Keeps.
Context `{GpsHeader} `{NiHeader} `{DaemonLink} `{TimeZone}.

Lemma keeps_send fd d : keeps (send_errno_too fd d).
Proof. unfold send_errno_too. keeps. Qed.

Lemma keeps_daemon_send fd d : keeps (daemon_send fd d).
Proof. unfold daemon_send. pose proof (keeps_send fd d). keeps. Qed.

Lemma keeps_mtk_stop : keeps mtk_stop.
Proof. unfold mtk_stop, send_command. pose proof keeps_daemon_send. keeps. Qed.

Lemma keeps_mtk_start : keeps mtk_start.
Proof.
  unfold mtk_start. generalize 5%nat. induction n; cbn [start_retry]; pose proof keeps_send; keeps.
Qed.

Lemma keeps_start_epo now cf : keeps (start_epo now cf).
Proof. unfold start_epo, put_msg. pose proof keeps_daemon_send. keeps. Qed.

Lemma keeps_control cmd : keeps (control_command cmd).
Proof. unfold control_command. keeps. Qed.

Lemma keeps_device : keeps device_data.
Proof. unfold device_data, release_condition. keeps. Qed.

(** An icon that is not reported. *)
Lemma keeps_icon m s x s' :
  ('(status, _) ← buff_get_int m;
   if (started (g_epo s) =? 0) && ((status =? 1) || (status =? 0)) then Some status else None) = None ->
  gps_icon m s = Some (x, s') -> core s' = core s.
Proof.
  intros Hi. unfold gps_icon. destruct (buff_get_int m) as [[st m']|]; [|done].
  rewrite (run_lift _ _ _ _ eq_refl), run_gets. cbn [mbind option_bind] in Hi.
  destruct (started (g_epo s) =? 0), (st =? 1), (st =? 0); cbn in *; try done; by intros [= _ <-].
Qed.

(** A message that reports no status. *)
Lemma keeps_message junk mem d s x s' :
  message_type d <> Some HAL_CMD_MNL_DIE -> icon_report s d = None ->
  mnld_to_gps_handler junk mem d s = Some (x, s') -> core s' = core s.
Proof.
  intros Ht Hi Hr. pose proof keeps_daemon_send as Hsend. unfold mnld_to_gps_handler in Hr.
  apply bind_inv in Hr as ([type m] & s1 & E & Hr). unfold clift in E. unfold message_type in Ht. unfold icon_report in Hi.
  destruct (buff_get_int (received d)) as [[type' m']|]; [|done]. cbn in E. injection E as <- <- <-.
  cbn [fmap option_fmap option_map fst mbind option_bind] in Ht, Hi.
  repeat match type of Hr with (if type' =? ?c then _ else _) _ = _ =>
    destruct (Z.eqb_spec type' c) as [->|?] end; try done; revert Hr;
    try (apply keeps_icon; by destruct (buff_get_int m') as [[]|]);
    match goal with |- ?m _ = _ -> _ =>
      let H := fresh in assert (keeps m) as H; [|intros Hr; exact (H _ _ _ Hr)] end;
    unfold notification, notification_2, data_conn_req, data_conn_req2, data_conn_release, request_set_id,
      request_refloc, agps_location, inject_time_req, mtk_gps_send_location_to_mnl, send_if_ready, put_msg,
      measurement, navigation, call_back; keeps.
Qed.
End Keeps.

(** ** The invariant *)

Section Invariant.
Context `{GpsHeader} `{NiHeader} `{DaemonLink} `{TimeZone}.

(** What the framework is told in a session. *)
Definition cycle : list upcall :=
  [CbStatus GPS_STATUS_ENGINE_ON; CbStatus GPS_STATUS_SESSION_BEGIN; CbAcquireWakelock;
   CbStatus GPS_STATUS_SESSION_END; CbStatus GPS_STATUS_ENGINE_OFF; CbReleaseWakelock].

(** [n] sessions and the first [p] calls of another one. *)
Definition session_log (n p : nat) : list upcall := concat (replicate n cycle) ++ take p cycle.

Lemma session_log_S n p u : cycle !! p = Some u -> session_log n p ++ [u] = session_log n (S p).
Proof. intros Hu. unfold session_log. by rewrite <-app_assoc, <-take_S_r. Qed.

Lemma session_log_full n : session_log n 6 = session_log (S n) 0.
Proof.
  unfold session_log. rewrite (take_ge cycle) by done. change (take 0 cycle) with (@nil upcall).
  rewrite app_nil_r. replace (S n) with (n + 1)%nat by lia.
  rewrite replicate_add, concat_app. cbn. by rewrite ?app_nil_r.
Qed.

(** No session is running: the place of the framework's thread fixes the
    daemon's state and how far the session log is. *)
Definition off_phase (f : fpc) (d : daemon_state) (p : nat) : Prop :=
  match f with
  | FIdle => d = DIdle /\ p = 0%nat
  | FStart _ _ k =>
      ((k <= 2)%nat /\ d = DIdle /\ p = 0%nat)
      \/ ((3 <= k <= 10)%nat /\ d = DRunning
          /\ p = match k with 7 => 1 | 8 => 2 | 9 | 10 => 3 | _ => 0 end%nat)
  | FStop k => (k <= 3)%nat /\ d = DIdle /\ p = 0%nat
  end.

(** A session is running: only its end can be under way. *)
Definition on_framework (f : fpc) : Prop :=
  match f with
  | FIdle => True
  | FStart _ _ k => (k <= 1)%nat
  | FStop k => (k <= 3)%nat
  end.

Definition on_phase (h : hpc) (d : daemon_state) (n p : nat) : Prop :=
  match h with
  | HIdle => p = 3%nat /\ ((d <> DIdle /\ n = 0%nat) \/ (d = DIdle /\ n = 1%nat))
  | HDie k => d = DIdle /\ n = 0%nat /\ (k <= 5)%nat
      /\ p = match k with 2 => 4 | 3 | 4 => 5 | 5 => 6 | _ => 3 end%nat
  | HIcon _ _ => False
  end.

Definition inv (σ : sys) : Prop :=
  let s := hal_state σ in
  init s = 1 /\ base_callbacks s = true
  /\ exists n p, told s = session_log n p
  /\ ((start_flag s = 0 /\ hal_thread σ = HIdle /\ dies σ = 0%nat /\ off_phase (framework σ) (daemon σ) p)
      \/ (start_flag s = 1 /\ on_framework (framework σ)
          /\ on_phase (hal_thread σ) (daemon σ) (dies σ) p)).

(** Steps that keep the session's state. *)
Lemma inv_core s s' f h d n f' h' d' n' :
  core s' = core s ->
  (forall p, start_flag s = 0 -> h = HIdle -> n = 0%nat -> off_phase f d p ->
             h' = HIdle /\ n' = 0%nat /\ off_phase f' d' p) ->
  (forall p, start_flag s = 1 -> on_framework f -> on_phase h d n p ->
             on_framework f' /\ on_phase h' d' n' p) ->
  inv (MkSys s f h d n) -> inv (MkSys s' f' h' d' n').
Proof.
  unfold core. intros [= Hi Hb Hf Hu] Hoff Hon (Hi0 & Hb0 & m & p & Hl & Hp). cbn in *.
  unfold inv. cbn. rewrite Hi, Hb, Hf, Hu. split; [done|]. split; [done|]. exists m, p. split; [done|].
  destruct Hp as [(Hs & -> & -> & Ho)|(Hs & Hfr & Ho)].
  - left. split; [done|]. by apply Hoff.
  - right. split; [done|]. by apply Hon.
Qed.
(** The next call to the framework in a session that is starting or ending. *)
Lemma run_call_back given u s x s' :
  call_back given u s = Some (x, s') -> s' = s ⟨ upcalls $= fun l => l ++ [u] ⟩.
Proof. unfold call_back. rewrite run_gets. destruct (given s); [|done]. by intros [= _ <-]. Qed.

Lemma run_report_status st s x s' :
  report_status st s = Some (x, s') ->
  s' = s ⟨ sta_status := st ⟩ ⟨ upcalls $= fun l => l ++ [CbStatus st] ⟩.
Proof. unfold report_status. rewrite run_modify. intros Hr. by apply run_call_back in Hr. Qed.

Lemma run_always m s b s' : always m s = Some (b, s') -> b = true /\ exists x, m s = Some (x, s').
Proof.
  unfold always, mbind, cm_bind. destruct (m s) as [[x s1]|]; [|done]. intros [= <- <-]. eauto.
Qed.

(** A call to the framework moves the session log on. *)
Lemma inv_upcall s s' u f h d n f' h' :
  (init s', base_callbacks s', start_flag s', upcalls s')
  = (init s, base_callbacks s, start_flag s, upcalls s ++ [u]) ->
  session_call u = true ->
  (forall p, start_flag s = 0 -> h = HIdle -> n = 0%nat -> off_phase f d p ->
             cycle !! p = Some u /\ h' = HIdle /\ off_phase f' d (S p)) ->
  (forall p, start_flag s = 1 -> on_framework f -> on_phase h d n p ->
             cycle !! p = Some u /\ on_framework f' /\ on_phase h' d n (S p)) ->
  inv (MkSys s f h d n) -> inv (MkSys s' f' h' d n).
Proof.
  intros [= Hi Hb Hf Hu] Hsu Hoff Hon (Hi0 & Hb0 & m & p & Hl & Hp). cbn in *.
  assert (told s' = told s ++ [u]) as Ht by (unfold told; by rewrite Hu, told_snoc).
  unfold inv. cbn. rewrite Hi, Hb, Hf, Ht, Hl. split; [done|]. split; [done|].
  exists m, (S p). destruct Hp as [(Hs & -> & -> & Ho)|(Hs & Hfr & Ho)].
  - destruct (Hoff p Hs eq_refl eq_refl Ho) as (Hc & Hh' & Ho').
    split; [by apply session_log_S|]. left. done.
  - destruct (Hon p Hs Hfr Ho) as (Hc & Hh' & Ho').
    split; [by apply session_log_S|]. right. done.
Qed.

Ltac phase := cbn; intros; naive_solver lia.

Lemma inv_start now cf k a s h d n f' s' d' :
  mtk_gps_start now cf !! k = Some a ->
  act_step a (FStart now cf k) s d f' s' d' ->
  inv (MkSys s (FStart now cf k) h d n) -> inv (MkSys s' f' h d' n).
Proof.
  intros Ha Hs Hi.
  destruct k as [|[|[|[|[|[|[|[|[|[|[|k]]]]]]]]]]]; cbn [lookup list_lookup mtk_gps_start] in Ha;
    [injection Ha as <-; inversion Hs; subst; cbn [next Nat.ltb Nat.leb]..|done].
  all: try match goal with
    | Hr : always _ _ = Some (_, _) |- _ => apply run_always in Hr as (-> & x & Hrun)
    end.
  - match goal with Hr : _ = Some (b, _) |- _ => injection Hr as <- <- end.
    replace (truthy (Hal.init s)) with true by (destruct Hi as (Hi1 & _); cbn in Hi1; by rewrite Hi1).
    eapply inv_core; [done| | |exact Hi]; phase.
  - eapply inv_core; [done| | |exact Hi]; phase.
  - eapply inv_core; [by eapply keeps_mtk_start| | |exact Hi]; phase.
  - eapply inv_core; [by eapply keeps_mtk_start| | |exact Hi]; phase.
  - eapply inv_core; [by eapply keeps_start_epo| | |exact Hi]; phase.
  - eapply inv_core; [done| | |exact Hi]; phase.
  - injection Hrun as _ <-. eapply inv_core; [done| | |exact Hi]; phase.
  - apply run_report_status in Hrun as ->. eapply (inv_upcall s); [reflexivity|reflexivity| | |exact Hi]; phase.
  - apply run_report_status in Hrun as ->. eapply (inv_upcall s); [reflexivity|reflexivity| | |exact Hi]; phase.
  - apply run_call_back in Hrun as ->. eapply (inv_upcall s); [reflexivity|reflexivity| | |exact Hi]; phase.
  - eapply inv_core; [|shelve|shelve|exact Hi].
    rewrite run_gets in Hrun. destruct (_ =? 1) in Hrun; injection Hrun as _ <-; done.
    Unshelve. all: phase.
  - injection Hrun as _ <-. destruct Hi as (Hi0 & Hb0 & m & p & Hl & Hp). cbn in *.
    split; [done|]. split; [done|]. exists m, p. split; [done|]. right. split; [done|]. split; [done|].
    destruct Hp as [(_ & -> & -> & [Ho|(_ & -> & ->)])|(_ & Hfr & _)]; [lia| |lia].
    split; [done|]. by left.
Qed.

Lemma inv_stop k a s h d n f' s' d' :
  mtk_gps_stop !! k = Some a -> act_step a (FStop k) s d f' s' d' ->
  inv (MkSys s (FStop k) h d n) -> inv (MkSys s' f' h d' n).
Proof.
  intros Ha Hs Hi.
  destruct k as [|[|[|[|k]]]]; cbn [lookup list_lookup mtk_gps_stop] in Ha;
    [injection Ha as <-; inversion Hs; subst; cbn [next Nat.ltb Nat.leb]..|done].
  all: try match goal with
    | Hr : always _ _ = Some (_, _) |- _ => apply run_always in Hr as (-> & x & Hrun)
    end.
  - match goal with Hr : _ = Some (b, _) |- _ => injection Hr as <- <- end.
    replace (truthy (Hal.init s)) with true by (destruct Hi as (Hi1 & _); cbn in Hi1; by rewrite Hi1).
    eapply inv_core; [done| | |exact Hi]; phase.
  - eapply inv_core; [done| | |exact Hi]; phase.
  - eapply inv_core; [by eapply keeps_mtk_stop| | |exact Hi].
    + phase.
    + cbn. intros p _ _ Hp. split; [lia|]. destruct h as [|j|st j]; [|by destruct Hp as (-> & ? & ? & ?)|done].
      destruct Hp as (-> & [[Hd ->]|[-> ->]]); [|phase]. split; [done|]. left. by destruct d.
  - eapply inv_core; [by eapply keeps_mtk_stop| | |exact Hi]; phase.
  - injection Hrun as _ <-. eapply inv_core; [done| | |exact Hi]; phase.
Qed.
Lemma inv_die k m s f d n s' x :
  mnl_die_actions !! k = Some m -> m s = Some (x, s') ->
  inv (MkSys s f (HDie k) d n) ->
  inv (MkSys s' f (if (S k <? 6)%nat then HDie (S k) else HIdle) d n).
Proof.
  intros Hm Hs Hi.
  destruct k as [|[|[|[|[|[|k]]]]]]; cbn [lookup list_lookup mnl_die_actions] in Hm;
    [injection Hm as <-; cbn [Nat.ltb Nat.leb]..|done].
  - injection Hs as _ <-. eapply inv_core; [done| | |exact Hi]; phase.
  - apply run_report_status in Hs as ->. eapply (inv_upcall s); [reflexivity|reflexivity| | |exact Hi]; phase.
  - apply run_report_status in Hs as ->. eapply (inv_upcall s); [reflexivity|reflexivity| | |exact Hi]; phase.
  - injection Hs as _ <-. eapply inv_core; [done| | |exact Hi]; phase.
  - apply run_call_back in Hs as ->. eapply (inv_upcall s); [reflexivity|reflexivity| | |exact Hi]; phase.
  - injection Hs as _ <-. destruct Hi as (Hi0 & Hb0 & m & p & Hl & Hp). cbn in *.
    split; [done|]. split; [done|]. exists (S m), 0%nat.
    destruct Hp as [(_ & ? & _)|(_ & Hf & -> & -> & _ & ->)]; [done|].
    split; [transitivity (told s); [reflexivity|by rewrite Hl, session_log_full]|]. left. split; [done|]. split; [done|]. split; [done|].
    destruct f as [| |k]; cbn in *; [done| |done]. left. split; [lia|done].
Qed.

Lemma inv_step σ σ' : step polite False σ σ' -> inv σ -> inv σ'.
Proof.
  intros Hs Hi. destruct Hs as [now cf s h d n|s h d n|s f h d n a f' s' d' Ha Hs|s f h d n Hd
    |s f d n c cs s' Hc Hs|s f d n s' Hs|s f d n|s f d n k m s' Hm Hs|s f d n data st []|s f d n st k m s' Hm Hs
    |s f d n junk mem data s' Hty Hic Hs].
  - eapply inv_core; [done| | |exact Hi]; phase.
  - eapply inv_core; [done| | |exact Hi]; phase.
  - destruct f as [|now cf k|k]; [done|by eapply inv_start|by eapply inv_stop].
  - eapply inv_core; [done| | |exact Hi]; unfold polite in Hd; subst d; cbn; intros p; intros.
    + destruct f as [|now cf k|k]; cbn in *; naive_solver.
    + destruct h; naive_solver.
  - assert (core s' = core s) as Hk by (by apply keeps_control in Hs).
    eapply inv_core; [exact Hk| | |exact Hi]; phase.
  - assert (core s' = core s) as Hk by (by apply keeps_device in Hs).
    eapply inv_core; [exact Hk| | |exact Hi]; phase.
  - eapply inv_core; [done| | |exact Hi]; phase.
  - by eapply inv_die.
  - destruct Hi as (_ & _ & ? & ? & _ & [(_ & ? & _)|(_ & _ & [])]). done.
  - assert (core s' = core s) as Hk by (by eapply keeps_message).
    eapply inv_core; [exact Hk| | |exact Hi]; phase.
Qed.

Lemma inv_initial s : ready s -> inv (initial s).
Proof.
  intros (H1' & H2' & H3' & H4'). split; [done|]. split; [done|]. exists 0%nat, 0%nat.
  split; [unfold told; cbn; by rewrite H4'|]. left. done.
Qed.

Lemma inv_reachable s σ : ready s -> rtc (step polite False) (initial s) σ -> inv σ.
Proof.
  intros Hr. apply (rtc_ind_r (fun σ => inv σ)); [by apply inv_initial|].
  intros σ1 σ2 _ Hs Hi. by eapply inv_step.
Qed.
End Invariant.

(** C18 (invariant): sessions are told in order.  As long as the daemon dies
    only after it was told to stop, and sends no GPS_ICON message while the HAL
    thread's [started] is 0, then however the framework calls mtk_gps_start and
    mtk_gps_stop, whatever other messages the daemon sends and
    however the threads interleave, the calls to the framework that tell of a
    status or of the wake lock are those of
    complete sessions (engine on, session begin, wake lock taken, session end,
    engine off, wake lock released) followed by the first ones of another; and
    when no call and no message is being handled, either no session is
    running or one has begun completely, and [start_flag] tells which.  An icon
    that is reported breaks the order: [icon_breaks_order]. *)
Theorem sessions_in_order `{GpsHeader} `{NiHeader} `{DaemonLink} `{TimeZone} s σ :
  ready s -> rtc (step polite False) (initial s) σ ->
  exists n p, told (hal_state σ) = session_log n p /\ (p <= 6)%nat
  /\ (framework σ = FIdle -> hal_thread σ = HIdle ->
      (start_flag (hal_state σ) = 0 /\ p = 0%nat) \/ (start_flag (hal_state σ) = 1 /\ p = 3%nat)).
Proof.
  intros Hr Hs. destruct (inv_reachable _ _ Hr Hs) as (_ & _ & n & p & Hl & Hp).
  exists n, p. split; [done|].
  destruct Hp as [(Hf & Hh & Hn & Ho)|(Hf & Hfr & Ho)].
  - split; [destruct (framework σ) as [|now cf k|k]; cbn in Ho;
      [lia|destruct Ho as [(_ & _ & ->)|(Hk & _ & ->)];
        [lia|do 11 (destruct k as [|k]; [cbn; lia|]); lia]|lia]|].
    intros Hfw _. rewrite Hfw in Ho. left. split; [done|]. apply Ho.
  - split; [destruct (hal_thread σ) as [|k|]; cbn in Ho;
      [lia|destruct Ho as (_ & _ & _ & ->); do 6 (destruct k as [|k]; [cbn; lia|]); cbn; lia|done]|].
    intros _ Hh. rewrite Hh in Ho. right. split; [done|]. apply Ho.
Qed.

(** ** Running the system *)

(** What happens next. *)
Inductive label :=
  | LStart (now : Z) (conf_file : option (list Z))
  | LStop
  | LFramework
  | LDies
  | LControl
  | LData
  | LDie
  | LDieStep
  | LIcon (data : option (list Z))
  | LIconStep
  | LMessage (data : option (list Z)).

Section Exec.
Context `{GpsHeader} `{NiHeader} `{DaemonLink} `{TimeZone}.

Definition exec_act (a : act) (f : fpc) (s : gps) (d : daemon_state) : option (fpc * gps * daemon_state) :=
  match a with
  | AWaitStartFlag v => if start_flag s =? v then None else Some (next f, s, d)
  | AGetCondition i =>
      c ← conditions s !! i;
      if c =? 0 then None else Some (next f, s ⟨ conditions $= <[i := 0]> ⟩, d)
  | ADo m => '(b, s') ← m s; Some (if b : bool then next f else FIdle, s', d)
  | ASend cmd m =>
      '(e, s') ← m s;
      Some (if e =? 0 then (next f, s', on_command cmd d) else (FIdle, s', d))
  end.

Definition exec (dies_now : daemon_state -> bool) (icons : bool) (l : label) (σ : sys) : option sys :=
  let '(MkSys s f h d n) := σ in
  match l with
  | LStart now cf => match f with FIdle => Some (MkSys s (FStart now cf 0) h d n) | _ => None end
  | LStop => match f with FIdle => Some (MkSys s (FStop 0) h d n) | _ => None end
  | LFramework =>
      a ← action_at f;
      '(f', s', d') ← exec_act a f s d;
      Some (MkSys s' f' h d' n)
  | LDies => if dies_now d then Some (MkSys s f h DIdle (S n)) else None
  | LControl =>
      match h, control s with
      | HIdle, c :: cs => '(_, s') ← control_command c (s ⟨ control := cs ⟩); Some (MkSys s' f HIdle d n)
      | _, _ => None
      end
  | LData =>
      match h with
      | HIdle => '(_, s') ← device_data s; Some (MkSys s' f HIdle d n)
      | _ => None
      end
  | LDie => match h, n with HIdle, S n' => Some (MkSys s f (HDie 0) d n') | _, _ => None end
  | LDieStep =>
      match h with
      | HDie k =>
          m ← mnl_die_actions !! k;
          '(_, s') ← m s;
          Some (MkSys s' f (if (S k <? 6)%nat then HDie (S k) else HIdle) d n)
      | _ => None
      end
  | LIcon data =>
      match h with
      | HIdle => if icons then st ← icon_report s data; Some (MkSys s f (HIcon st 0) d n) else None
      | _ => None
      end
  | LIconStep =>
      match h with
      | HIcon st k =>
          m ← icon_actions st !! k;
          '(_, s') ← m s;
          Some (MkSys s' f (if (S k <? 2)%nat then HIcon st (S k) else HIdle) d n)
      | _ => None
      end
  | LMessage data =>
      match h, icon_report s data with
      | HIdle, None =>
          if bool_decide (message_type data = Some HAL_CMD_MNL_DIE) then None
          else '(_, s') ← mnld_to_gps_handler (replicate 1024 0) memory_left data s; Some (MkSys s' f HIdle d n)
      | _, _ => None
      end
  end.

Fixpoint exec_all (dies_now : daemon_state -> bool) (icons : bool) (ls : list label) (σ : sys) : option sys :=
  match ls with
  | [] => Some σ
  | l :: ls' => σ' ← exec dies_now icons l σ; exec_all dies_now icons ls' σ'
  end.

Lemma exec_act_sound a f s d f' s' d' :
  exec_act a f s d = Some (f', s', d') -> act_step a f s d f' s' d'.
Proof.
  destruct a as [v|i|m|cmd m]; cbn [exec_act].
  - destruct (Z.eqb_spec (start_flag s) v); [done|]. intros [= <- <- <-]. by constructor.
  - destruct (conditions s !! i) as [c|] eqn:E; [|done]. obind.
    destruct (Z.eqb_spec c 0); [done|]. intros [= <- <- <-]. by econstructor.
  - destruct (m s) as [[b s1]|] eqn:E; [|done]. intros [= <- <- <-]. by constructor.
  - destruct (m s) as [[e s1]|] eqn:E; [|done]. obind.
    destruct (Z.eqb_spec e 0) as [->|]; intros [= <- <- <-]; [by constructor|by eapply act_send_fails].
Qed.

Lemma exec_sound may_die (may_icon : Prop) dies_now (icons : bool) l σ σ' :
  (forall d, dies_now d = true -> may_die d) -> (icons = true -> may_icon) ->
  exec dies_now icons l σ = Some σ' -> step may_die may_icon σ σ'.
Proof.
  intros Hd Hicons. destruct σ as [s f h d n]. unfold exec.
  destruct l as [now cf| | | | | | | |data| |data].
  - destruct f; [intros [= <-]; constructor|done..].
  - destruct f; [intros [= <-]; constructor|done..].
  - destruct (action_at f) as [a|] eqn:Ha; [|done]. obind.
    destruct (exec_act a f s d) as [[[f' s'] d']|] eqn:He; [|done]. intros [= <-].
    econstructor; [exact Ha|by apply exec_act_sound].
  - destruct (dies_now d) eqn:E; [|done]. intros [= <-]. constructor. auto.
  - destruct h as [|k|st k]; [|done..]. destruct (control s) as [|c cs] eqn:E; [done|].
    destruct (control_command c _) as [[[] s']|] eqn:Hc; [|done]. intros [= <-]. by econstructor.
  - destruct h as [|k|st k]; [|done..].
    destruct (device_data s) as [[[] s']|] eqn:Hc; [|done]. intros [= <-]. by constructor.
  - destruct h as [|k|st k]; [|done..]. destruct n as [|n]; [done|]. intros [= <-]. constructor.
  - destruct h as [|k|st k]; [done| |done]. destruct (mnl_die_actions !! k) as [m|] eqn:Hm; [|done]. obind.
    destruct (m s) as [[[] s']|] eqn:Hc; [|done]. intros [= <-]. by econstructor.
  - destruct h as [|k|st k]; [|done..]. destruct icons; [|done].
    destruct (icon_report s data) as [st|] eqn:Hi; [|done]. intros [= <-]. eapply hal_icon; [by apply Hicons|exact Hi].
  - destruct h as [|k|st k]; [done..|]. destruct (icon_actions st !! k) as [m|] eqn:Hm; [|done]. obind.
    destruct (m s) as [[[] s']|] eqn:Hc; [|done]. intros [= <-]. by eapply hal_icon_step.
  - destruct h as [|k|st k]; [|done..]. destruct (icon_report s data) as [st|] eqn:Hi; [done|].
    case_bool_decide as Ht; [done|].
    destruct (mnld_to_gps_handler _ _ data s) as [[[] s']|] eqn:Hc; [|done]. intros [= <-]. by eapply hal_message.
Qed.

Lemma exec_all_sound may_die (may_icon : Prop) dies_now (icons : bool) ls : forall σ σ',
  (forall d, dies_now d = true -> may_die d) -> (icons = true -> may_icon) ->
  exec_all dies_now icons ls σ = Some σ' -> rtc (step may_die may_icon) σ σ'.
Proof.
  induction ls as [|l ls IH]; intros σ σ' Hd Hicons; cbn [exec_all].
  - intros [= ->]. reflexivity.
  - destruct (exec dies_now icons l σ) as [σ1|] eqn:E; [|done]. obind. intros Hx.
    eapply rtc_l; [by eapply exec_sound|by apply IH].
Qed.
End Exec.

(** The constants, time zone and daemon link of the runs below. *)
Definition run_exec : (daemon_state -> bool) -> bool -> list label -> sys -> option sys :=
  @exec_all aosp_gps_h aosp_ni quiet_link (fixed_zone 28800).

Definition start_labels : list label :=
  [LStart 0 None; LFramework; LFramework; LFramework; LFramework; LData; LFramework; LFramework; LControl;
   LFramework; LFramework; LFramework; LFramework].

Definition die_labels : list label := LDies :: LDie :: replicate 6 LDieStep.

(** Two sessions, with a message of the daemon in each. *)
Definition two_sessions : list label :=
  let session := start_labels ++ [LFramework; LMessage (Some (enc_int MNL_AGPS_CMD_REQUEST_SET_ID ++ enc_int 1))] ++ [LStop; LFramework; LFramework; LFramework; LFramework; LControl]
                 ++ die_labels in
  session ++ session.

Theorem sessions_in_order_witness :
  exists σ, run_exec (fun d => match d with DDying => true | _ => false end) false two_sessions (initial ready_state)
    = Some σ
  /\ length (upcalls (hal_state σ)) = 14%nat
  /\ exists n p, told (hal_state σ) = @session_log aosp_ni n p /\ (p <= 6)%nat
  /\ (framework σ = FIdle -> hal_thread σ = HIdle ->
      (start_flag (hal_state σ) = 0 /\ p = 0%nat) \/ (start_flag (hal_state σ) = 1 /\ p = 3%nat)).
Proof.
  destruct (run_exec (fun d => match d with DDying => true | _ => false end) false two_sessions (initial ready_state))
    as [σ|] eqn:E.
  - exists σ. split; [reflexivity|]. split; [vm_compute in E; injection E as <-; reflexivity|].
    refine (@sessions_in_order aosp_gps_h aosp_ni quiet_link (fixed_zone 28800) ready_state σ _ _).
    + split; [reflexivity|]. split; [reflexivity|]. split; reflexivity.
    + refine (@exec_all_sound aosp_gps_h aosp_ni quiet_link (fixed_zone 28800) _ _ _ false two_sessions _ _ _ _ E).
      * intros d Hd. unfold polite. destruct d; [discriminate Hd|discriminate Hd|reflexivity].
      * intros Hi. discriminate Hi.
  - vm_compute in E. discriminate E.
Defined.

(** ** An icon *)

(** The condition on GPS_ICON is needed: before any session one message of the
    daemon tells the framework of the end of an engine that was never on and
    of a session that never began, in the opposite order to MNL_DIE. *)
Lemma icon_breaks_order :
  exists σ, rtc (@step aosp_gps_h aosp_ni quiet_link (fixed_zone 28800) polite True) (initial ready_state) σ
  /\ framework σ = FIdle /\ hal_thread σ = HIdle
  /\ upcalls (hal_state σ) = [CbStatus (@GPS_STATUS_ENGINE_OFF aosp_ni); CbStatus (@GPS_STATUS_SESSION_END aosp_ni)]
  /\ forall n p, told (hal_state σ) <> @session_log aosp_ni n p.
Proof.
  destruct (run_exec (fun _ => false) true
    [LIcon (Some (enc_int HAL_CMD_GPS_ICON ++ enc_int 0)); LIconStep; LIconStep] (initial ready_state)) as [σ|] eqn:E;
    [|vm_compute in E; discriminate E].
  exists σ. split; [eapply (@exec_all_sound aosp_gps_h aosp_ni); [| |exact E]; done|].
  vm_compute in E. injection E as <-. split_and!; [done..|]. intros [|n] p; [destruct p|]; discriminate.
Qed.

(** ** A daemon that dies by itself *)

Section Dead.
Context `{GpsHeader} `{NiHeader} `{DaemonLink} `{TimeZone}.

(** [start_flag] says that a session is running, but there is no daemon. *)
Definition dead (log : list upcall) (σ : sys) : Prop :=
  start_flag (hal_state σ) = 1 /\ told (hal_state σ) = log /\ on_framework (framework σ)
  /\ hal_thread σ = HIdle /\ daemon σ = DIdle /\ dies σ = 0%nat.

Lemma dead_act log a f s d f' s' d' :
  action_at f = Some a -> act_step a f s d f' s' d' ->
  dead log (MkSys s f HIdle d 0) -> dead log (MkSys s' f' HIdle d' 0).
Proof.
  intros Ha Hs (Hf & Hu & Hfr & _ & Hd & _). cbn in Hf, Hu, Hfr, Hd. subst d.
  assert (core s' = core s /\ d' = DIdle /\ on_framework f') as (Hc & -> & Hfr').
  { destruct f as [|now cf k|k]; [done|..]; cbn [action_at] in Ha.
    - destruct k as [|[|k]]; [..|cbn in Hfr; lia]; cbn [lookup list_lookup mtk_gps_start] in Ha;
        injection Ha as <-; inversion Hs; subst; [|done].
      match goal with Hr : _ = Some (?b, _) |- _ => injection Hr as _ <-; destruct b end; (split; [done|]; split; [done|]; cbn; lia) || done.
    - destruct k as [|[|[|[|k]]]]; [..|cbn in Hfr; lia]; cbn [lookup list_lookup mtk_gps_stop] in Ha;
        injection Ha as <-; inversion Hs; subst; cbn [next Nat.ltb Nat.leb on_framework].
      + match goal with Hr : _ = Some (?b, _) |- _ => injection Hr as _ <-; destruct b end; (split; [done|]; split; [done|]; cbn; lia) || done.
      + split; [done|]. split; [done|]. cbn; lia.
      + split; [by eapply keeps_mtk_stop|]. split; [done|]. cbn; lia.
      + split; [by eapply keeps_mtk_stop|]. done.
      + match goal with Hr : always _ _ = _ |- _ => apply run_always in Hr as (-> & x & Hrun) end.
        injection Hrun as _ <-. done. }
  injection Hc as _ _ Hc1 Hc2. unfold dead. cbn. by rewrite Hc1, Hc2.
Qed.

Lemma dead_step log σ σ' : step crashing False σ σ' -> dead log σ -> dead log σ'.
Proof.
  intros Hs Hi.
  destruct Hs as [now cf s h d n|s h d n|s f h d n a f' s' d' Ha Hs|s f h d n Hd
    |s f d n c cs s' Hc Hs|s f d n s' Hs|s f d n|s f d n k m s' Hm Hs|s f d n data st []|s f d n st k m s' Hm Hs
    |s f d n junk mem data s' Hty Hic Hs];
    destruct Hi as (Hf & Hu & Hfr & Hh & Hdm & Hn); cbn in *; subst; try done.
  - repeat split; cbn; done || lia.
  - repeat split; cbn; done || lia.
  - by eapply dead_act.
  - apply keeps_control in Hs. injection Hs as _ _ H1' H2'. repeat split; cbn in *; congruence || done.
  - apply keeps_device in Hs. injection Hs as _ _ H1' H2'. repeat split; cbn in *; congruence || done.
  - apply keeps_message in Hs; [|done..]. injection Hs as _ _ H1' H2'. repeat split; cbn in *; congruence || done.
Qed.
End Dead.

(** A crash at the wrong moment.  If the daemon may also die by
    itself, there is a run in which it dies after the framework was told that
    the session began but before [start_flag] is set; the session is ended
    properly, but the flag stays set, and from then on nothing that happens,
    not even a call of mtk_gps_stop, lets mtk_gps_start leave its waiting
    loop: no session ever begins again.  (No icons are sent here.) *)
Theorem crash_blocks_sessions :
  let may_die := @step aosp_gps_h aosp_ni quiet_link (fixed_zone 28800) crashing False in
  exists σ, rtc may_die (initial ready_state) σ
  /\ framework σ = FIdle /\ hal_thread σ = HIdle /\ start_flag (hal_state σ) = 1
  /\ told (hal_state σ) = @session_log aosp_ni 1 0
  /\ forall σ', rtc may_die σ σ' ->
     told (hal_state σ') = @session_log aosp_ni 1 0
     /\ (forall now cf k, framework σ' = FStart now cf k -> (k <= 1)%nat).
Proof.
  intros may_die.
  destruct (run_exec (fun d => match d with DIdle => false | _ => true end) false
    (start_labels ++ die_labels ++ [LFramework]) (initial ready_state)) as [σ|] eqn:E;
    [|vm_compute in E; discriminate E].
  assert (rtc may_die (initial ready_state) σ) as Hr.
  { eapply (@exec_all_sound aosp_gps_h aosp_ni); [| |exact E]; [by intros []|done]. }
  vm_compute in E. injection E as <-.
  match type of Hr with rtc _ _ ?x => exists x end.
  split; [exact Hr|]. split; [done|]. split; [done|]. split; [done|]. split; [done|].
  intros σ' Hs.
  assert (dead (@session_log aosp_ni 1 0) σ') as (_ & Hu & Hfr & _).
  { revert Hs. apply (rtc_ind_r (dead (@session_log aosp_ni 1 0))); [by repeat split|].
    intros σ1 σ2 _ Hs Hd. by eapply dead_step. }
  split; [done|]. intros now cf k Hk. by rewrite Hk in Hfr.
Qed.

(** ** Stopping without a session *)

Section StopWaits.
Context `{GpsHeader} `{NiHeader} `{DaemonLink} `{TimeZone}.

Definition waiting (σ : sys) : Prop :=
  start_flag (hal_state σ) = 0 /\ init (hal_state σ) = 1
  /\ (framework σ = FStop 0 \/ framework σ = FStop 1).

Lemma die_keeps_flag k m s x s' :
  mnl_die_actions !! k = Some m -> m s = Some (x, s') -> start_flag s = 0 ->
  start_flag s' = 0 /\ init s' = init s.
Proof.
  intros Hm Hs Hf.
  destruct k as [|[|[|[|[|[|k]]]]]]; cbn [lookup list_lookup mnl_die_actions] in Hm;
    [injection Hm as <-..|done].
  - by injection Hs as _ <-.
  - by apply run_report_status in Hs as ->.
  - by apply run_report_status in Hs as ->.
  - by injection Hs as _ <-.
  - by apply run_call_back in Hs as ->.
  - by injection Hs as _ <-.
Qed.

Lemma icon_keeps_flag k st m s x s' :
  icon_actions st !! k = Some m -> m s = Some (x, s') -> start_flag s' = start_flag s /\ init s' = init s.
Proof.
  unfold icon_actions. intros Hm Hs.
  destruct (st =? 1), k as [|[|k]]; cbn [lookup list_lookup] in Hm; try done; injection Hm as <-;
    by apply run_report_status in Hs as ->.
Qed.

Lemma waiting_step may_die may_icon σ σ' : step may_die may_icon σ σ' -> waiting σ -> waiting σ'.
Proof.
  intros Hs Hi.
  destruct Hs as [now cf s h d n|s h d n|s f h d n a f' s' d' Ha Hs|s f h d n Hd
    |s f d n c cs s' Hc Hs|s f d n s' Hs|s f d n|s f d n k m s' Hm Hs|s f d n data st Hic Hr|s f d n st k m s' Hm Hs
    |s f d n junk mem data s' Hty Hic Hs];
    destruct Hi as (Hf & Hi & Hw); cbn in *; try done; try naive_solver.
  - destruct Hw as [-> | ->]; cbn in Ha; injection Ha as <-; inversion Hs; subst; [|done].
    match goal with Hr : _ = Some (?b, _) |- _ => injection Hr as <- <- end.
    rewrite Hi. cbn. split; [done|]. split; [done|]. by right.
  - apply keeps_control in Hs. injection Hs as H1' _ H2' _. split; cbn in *; [congruence|]. split; [congruence|done].
  - apply keeps_device in Hs. injection Hs as H1' _ H2' _. split; cbn in *; [congruence|]. split; [congruence|done].
  - destruct (die_keeps_flag _ _ _ _ _ Hm Hs Hf) as [H1' H2']. split; cbn; [done|]. split; [congruence|done].
  - destruct (icon_keeps_flag _ _ _ _ _ _ Hm Hs) as [H1' H2']. split; cbn; [congruence|]. split; [congruence|done].
  - apply keeps_message in Hs; [|done..]. injection Hs as H1' _ H2' _. split; cbn in *; [congruence|]. split; [congruence|done].
Qed.
End StopWaits.

(** mtk_gps_stop without a session.  When it is called while no
    session is running, the call never returns: whatever the daemon and the
    other thread do, it stays in its waiting loop, because only mtk_gps_start,
    on the same thread, would end it. *)
Theorem stop_never_returns `{GpsHeader} `{NiHeader} `{DaemonLink} `{TimeZone} may_die may_icon s h d n σ :
  init s = 1 -> start_flag s = 0 ->
  rtc (step may_die may_icon) (MkSys s (FStop 0) h d n) σ ->
  framework σ = FStop 0 \/ framework σ = FStop 1.
Proof.
  intros Hi Hf Hs.
  assert (waiting σ) as (_ & _ & Hw); [|done].
  revert Hs. apply (rtc_ind_r waiting); [split; [done|]; split; [done|by left]|].
  intros σ1 σ2 _ Hs Hw. by eapply waiting_step.
Qed.

Theorem stop_never_returns_witness :
  exists σ, run_exec (fun _ => true) true [LStop; LFramework; LData] (initial ready_state) = Some σ
  /\ (framework σ = FStop 0 \/ framework σ = FStop 1).
Proof.
  eexists. split; [reflexivity|].
  refine (@stop_never_returns aosp_gps_h aosp_ni quiet_link (fixed_zone 28800) (fun _ => True) True ready_state HIdle DIdle 0
    _ eq_refl eq_refl _).
  refine (@exec_all_sound aosp_gps_h aosp_ni quiet_link (fixed_zone 28800) (fun _ => True) True (fun _ => true) true
    [LFramework; LData] _ _ (fun _ _ => I) (fun _ => I) _).
  reflexivity.
Defined.
