(* ===== verification/WpaData.v ===== *)
(** * WiFi driver commands: environment, data and test mode messages
      (wpa_supplicant/mediatek_driver_cmd_nl80211.c and mediatek_driver_nl80211.h)

    The library is linked into wpa_supplicant.  What it calls there, in libnl
    and in the kernel is the class [World]; the calls that have an effect are
    the events of a trace, and the answer to a call is a function of the trace
    before it.  The CONFIG_ flags come from wpa_supplicant's build, so every
    theorem holds for all of them. *)

From stdpp Require Export gmap.
From S2P Require Import Prelude Layout CFloat.
#[local] Open Scope Z_scope.

Record config := {
  CONFIG_MTK_TURNKEY_WLAN : bool;
  CONFIG_MEDIATEK_WIFI_BEAM : bool;
  CONFIG_MTK_POOR_LINK_DETECT : bool;
  CONFIG_MTK_LTE_COEX : bool;
  CONFIG_HOTSPOT_MGR_SUPPORT : bool;
  CONFIG_WAPI_SUPPORT : bool;
  CONFIG_MTK_P2P : bool;
  CONFIG_MTK_P2P_SIGMA : bool;
  CONFIG_MTK_WFD_SINK : bool;
  CONFIG_MTK_P2P_5G : bool;
  CONFIG_MTK_SCC_MCC : bool;
  CONFIG_MTK_STAGE_SCAN : bool;
  MTK_TC1_FEATURE : bool }.

(** The effects of a command. *)
Inductive event :=
  | TestMode (data : list Z)                  (* NL80211_CMD_TESTMODE with its TESTDATA *)
  | PrivateIoctl (ifname priv_cmd : list Z)   (* SIOCDEVPRIVATE + 1 *)
  | OpenSocket
  | CountryIoctl (ifname text : list Z)       (* SIOCSIWPRIV *)
  | CloseSocket
  | IfaceFlags (ifname : list Z) (up : bool)  (* linux_set_iface_flags *)
  | Deauthenticate (bssid : list Z)
  | StateMessage (text : list Z)              (* wpa_msg *)
  | CountryChanged (alpha2 : list Z)          (* EVENT_CHANNEL_LIST_CHANGED, set by user, country *)
  | CancelTimeout
  | RegisterTimeout (secs : Z).

#[export] Instance event_eq_dec : EqDecision event.
Proof. solve_decision. Defined.

(** ** Netlink attributes *)

Inductive nla_type := NLA_UNSPEC | NLA_U8 | NLA_U16 | NLA_U32 | NLA_U64.

#[export] Instance nla_type_eq_dec : EqDecision nla_type.
Proof. solve_decision. Defined.

Definition minlen (t : nla_type) : nat :=
  match t with NLA_UNSPEC => 0 | NLA_U8 => 1 | NLA_U16 => 2 | NLA_U32 => 4 | NLA_U64 => 8 end.

Abbreviation policy := (list (Z * nla_type)).
(** The attributes of one answer, by type, with their payloads. *)
Abbreviation attrs := (gmap Z (list Z)).

Definition nla_get (n : nat) (a : list Z) : option Z := le_val <$> buf_read a 0 (Z.of_nat n).
Definition nla_memcpy (old a : list Z) : list Z :=
  take (length old) a ++ drop (length a) old.

(** ** Answers of the driver *)

Record sta_statistics := Statistics {
  version : Z; addr : list Z; flag : Z; link_score : Z; per : Z; rssi : Z; phy_mode : Z;
  tx_rate : double; tx_total_cnt : Z; tx_exc_threshold_cnt : Z; tx_avg_process_time : Z;
  tx_fail_cnt : Z; tx_timeout_cnt : Z; tx_avg_air_time : Z;
  tc_buf_full_cnt : list Z; tc_que_len : list Z; tc_avg_que_len : list Z; tc_cur_que_len : list Z;
  reserved : list Z }.

#[export] Instance statistics_rebuild : Rebuild sta_statistics := fun s =>
  Statistics (version s) (addr s) (flag s) (link_score s) (per s) (rssi s) (phy_mode s)
    (tx_rate s) (tx_total_cnt s) (tx_exc_threshold_cnt s) (tx_avg_process_time s)
    (tx_fail_cnt s) (tx_timeout_cnt s) (tx_avg_air_time s)
    (tc_buf_full_cnt s) (tc_que_len s) (tc_avg_que_len s) (tc_cur_que_len s) (reserved s).

Record link_detect := LinkDetect {
  l_tx_fail_cnt : Z; l_tx_retry_cnt : Z; l_tx_multi_retry_cnt : Z; l_ack_fail_cnt : Z;
  l_fcs_err_cnt : Z; l_tx_cnt : Z; l_tx_ok_cnt : Z; l_tx_os_cnt : Z }.

#[export] Instance link_rebuild : Rebuild link_detect := fun s =>
  LinkDetect (l_tx_fail_cnt s) (l_tx_retry_cnt s) (l_tx_multi_retry_cnt s) (l_ack_fail_cnt s)
    (l_fcs_err_cnt s) (l_tx_cnt s) (l_tx_ok_cnt s) (l_tx_os_cnt s).

Record available_chan := AvailableChan {
  ch_2g_base1 : Z; ch_5g_base34 : Z; ch_5g_base100 : Z; ch_5g_base149 : Z; ch_5g_base184 : Z }.

#[export] Instance chan_rebuild : Rebuild available_chan := fun s =>
  AvailableChan (ch_2g_base1 s) (ch_5g_base34 s) (ch_5g_base100 s) (ch_5g_base149 s) (ch_5g_base184 s).

(** ** Environment *)

Class World := {
  flags : config;
  answer : list event -> event -> Z;
  (** the TESTDATA of the driver's answers, parsed by nla_parse_nested *)
  replies : list event -> list Z -> policy -> list attrs;
  (** uninitialised memory: bytes, and the two answer structures on the stack *)
  indeterminate : nat -> Z;
  stack_statistics : sta_statistics;
  stack_link : link_detect;
  os_get_random : list event -> Z;
  calloc_ok : list event -> bool;
  hwaddr_aton : list Z -> option (list Z);
  (** the process's memory: [n] bytes at an address *)
  memory : Z -> Z -> option (list Z);
  buf_address : Z;
  (** members of wpa_supplicant's own struct wfd_data_s, given its bytes *)
  wfd_num : string -> list Z -> Z;
  wfd_bytes : string -> list Z -> list Z;
  sizeof_wfd_data_s : Z;
  WPA_DRIVER_FLAGS_P2P_CONCURRENT : Z;
  DRV_NUMBER_SEQUENTIAL_ERRORS : Z }.

(** What is documented of it. *)
Class WorldLaws `{World} : Prop := {
  replies_policy past data p a i t v : a ∈ replies past data p -> a !! i = Some v -> (i, t) ∈ p ->
    (minlen t <= length v)%nat /\ Forall is_byte v;
  hwaddr_aton_bytes s a : hwaddr_aton s = Some a -> length a = 6%nat /\ Forall is_byte a;
  memory_bytes p n bs : memory p n = Some bs -> Z.of_nat (length bs) = n /\ Forall is_byte bs;
  random_u32 past : is_u32 (os_get_random past);
  address_u32 : is_u32 buf_address;
  stack_addr : length (addr stack_statistics) = 6%nat;
  stack_reserved : length (reserved stack_statistics) = 32%nat;
  stack_arrays : Forall (fun a => length a = 16%nat)
    [tc_buf_full_cnt stack_statistics; tc_que_len stack_statistics; tc_avg_que_len stack_statistics;
     tc_cur_que_len stack_statistics] }.

(** ** Handlers of the answers *)

(** The numbers of the attributes are the positions of the enumerations. *)
Definition statistics_policy : policy :=
  [(1, NLA_U8); (2, NLA_UNSPEC); (3, NLA_U8); (4, NLA_U32); (5, NLA_U8); (6, NLA_U8); (7, NLA_U32);
   (8, NLA_U16); (9, NLA_U32); (10, NLA_U32); (11, NLA_U32); (12, NLA_U32); (13, NLA_U32); (14, NLA_U32);
   (15, NLA_UNSPEC); (16, NLA_UNSPEC); (17, NLA_UNSPEC); (18, NLA_UNSPEC); (19, NLA_UNSPEC)].

Definition statistics_attr (i : Z) (a : list Z) (s : sta_statistics) : option sta_statistics :=
  match i with
  | 1 => v ← nla_get 1 a; Some (s⟨version := v⟩)
  | 2 => Some (s⟨addr := nla_memcpy (addr s) a⟩)
  | 3 => v ← nla_get 1 a; Some (s⟨link_score := v⟩)
  | 4 => v ← nla_get 4 a; Some (s⟨flag := v⟩)
  | 5 => v ← nla_get 1 a; Some (s⟨per := v⟩)
  | 6 => v ← nla_get 1 a; Some (s⟨rssi := (v - 220) ÷ 2⟩)
  | 7 => v ← nla_get 4 a; Some (s⟨phy_mode := v⟩)
  | 8 => v ← nla_get 2 a; Some (s⟨tx_rate := d_div (d_of_Z v) (d_of_Z 2)⟩)
  | 9 => v ← nla_get 4 a; Some (s⟨tx_total_cnt := v⟩)
  | 10 => v ← nla_get 4 a; Some (s⟨tx_exc_threshold_cnt := v⟩)
  | 11 => v ← nla_get 4 a; Some (s⟨tx_avg_process_time := v⟩)
  | 12 => v ← nla_get 4 a; Some (s⟨tx_fail_cnt := v⟩)
  | 13 => v ← nla_get 4 a; Some (s⟨tx_timeout_cnt := v⟩)
  | 14 => v ← nla_get 4 a; Some (s⟨tx_avg_air_time := v⟩)
  | 15 => Some (s⟨tc_buf_full_cnt := nla_memcpy (tc_buf_full_cnt s) a⟩)
  | 16 => Some (s⟨tc_que_len := nla_memcpy (tc_que_len s) a⟩)
  | 17 => Some (s⟨tc_avg_que_len := nla_memcpy (tc_avg_que_len s) a⟩)
  | 18 => Some (s⟨tc_cur_que_len := nla_memcpy (tc_cur_que_len s) a⟩)
  | 19 => Some (s⟨reserved := nla_memcpy (reserved s) a⟩)
  | _ => Some s
  end.

Definition link_policy : policy :=
  [(1, NLA_U64); (2, NLA_U64); (3, NLA_U64); (4, NLA_U64); (5, NLA_U64); (6, NLA_U64); (7, NLA_U64);
   (8, NLA_U64)].

Definition link_attr (i : Z) (a : list Z) (s : link_detect) : option link_detect :=
  match i with
  | 1 => v ← nla_get 8 a; Some (s⟨l_tx_fail_cnt := v⟩)
  | 2 => v ← nla_get 8 a; Some (s⟨l_tx_retry_cnt := v⟩)
  | 3 => v ← nla_get 8 a; Some (s⟨l_tx_multi_retry_cnt := v⟩)
  | 4 => v ← nla_get 8 a;
      let ack_cnt := s64 v in
      Some (s⟨l_ack_fail_cnt := if ack_cnt <? 0 then u64 (- ack_cnt) else ack_cnt⟩)
  | 5 => v ← nla_get 8 a; Some (s⟨l_fcs_err_cnt := v⟩)
  | 6 => v ← nla_get 8 a; Some (s⟨l_tx_cnt := v⟩)
  | 7 => v ← nla_get 8 a; Some (s⟨l_tx_ok_cnt := v⟩)
  | 8 => v ← nla_get 8 a; Some (s⟨l_tx_os_cnt := v⟩)
  | _ => Some s
  end.

Definition channel_policy : policy :=
  [(1, NLA_U32); (2, NLA_U32); (3, NLA_U32); (4, NLA_U32); (5, NLA_U32)].

Definition channel_attr (i : Z) (a : list Z) (s : available_chan) : option available_chan :=
  match i with
  | 1 => v ← nla_get 4 a; Some (s⟨ch_2g_base1 := v⟩)
  | 2 => v ← nla_get 4 a; Some (s⟨ch_5g_base34 := v⟩)
  | 3 => v ← nla_get 4 a; Some (s⟨ch_5g_base100 := v⟩)
  | 4 => v ← nla_get 4 a; Some (s⟨ch_5g_base149 := v⟩)
  | 5 => v ← nla_get 4 a; Some (s⟨ch_5g_base184 := v⟩)
  | _ => Some s
  end.

Definition ready_policy : policy := [(1, NLA_U32)].

Definition ready_attr (i : Z) (a : list Z) (s : Z) : option Z :=
  match i with
  | 1 => nla_get 4 a
  | _ => Some s
  end.

(** One answer: the attributes that are there, in the order of their numbers. *)
Fixpoint each_attr {A} (take_attr : Z -> list Z -> A -> option A) (sinfo : attrs) (ids : list Z) (s : A)
  : option A :=
  match ids with
  | [] => Some s
  | i :: ids' =>
      s ← match sinfo !! i with Some a => take_attr i a s | None => Some s end;
      each_attr take_attr sinfo ids' s
  end.

(** The handler is called for every answer. *)
Fixpoint each_reply {A} (take_attr : Z -> list Z -> A -> option A) (p : policy) (rs : list attrs) (s : A)
  : option A :=
  match rs with
  | [] => Some s
  | r :: rs' => s ← each_attr take_attr r (fst <$> p) s; each_reply take_attr p rs' s
  end.

(** ** Data of wpa_supplicant *)

(** Operating classes with their channels: the counted part of p2p_channels. *)
Abbreviation p2p_channels := (list (Z * list Z)).

Record p2p_config := P2pConfig {
  cfg_channels : p2p_channels; cfg_op_channel : Z; concurrent_operations : Z }.

#[export] Instance p2p_config_rebuild : Rebuild p2p_config := fun s =>
  P2pConfig (cfg_channels s) (cfg_op_channel s) (concurrent_operations s).

Record p2p_data := P2p {
  op_reg_class : Z; op_channel : Z; channels : p2p_channels; dev_capab : Z; p2p_use_mcc : Z;
  p2p_cfg : option p2p_config }.

#[export] Instance p2p_rebuild : Rebuild p2p_data := fun s =>
  P2p (op_reg_class s) (op_channel s) (channels s) (dev_capab s) (p2p_use_mcc s) (p2p_cfg s).

(** The modes of a network (config_ssid.h). *)
Inductive wpas_mode := WPAS_MODE_INFRA | WPAS_MODE_IBSS | WPAS_MODE_AP | WPAS_MODE_P2P_GO
  | WPAS_MODE_P2P_GROUP_FORMATION.

#[export] Instance wpas_mode_eq_dec : EqDecision wpas_mode.
Proof. solve_decision. Defined.

Record wpa_ssid := Ssid { mode : wpas_mode; frequency : Z; p2p_group : Z }.

(** An interface as it is seen on the list of its radio; [bssid_known]:
    wpa_drv_get_bssid returns 0. *)
Record radio_iface := RadioIface {
  current_ssid : option wpa_ssid; assoc_freq : Z; bssid_known : bool }.

(** An interface as it is seen on the global list. *)
Record global_iface := GlobalIface { num_multichan_concurrent : Z; drv_flags : Z }.

Record wpa_supplicant := Supplicant {
  own_addr : list Z;
  conf : option (Z * Z);            (* p2p_oper_reg_class, p2p_oper_channel; None: NULL *)
  p2p : option p2p_data;            (* global->p2p *)
  ifaces : list global_iface;       (* global->ifaces *)
  radio : list radio_iface;         (* radio->ifaces *)
  drv_priv : bool }.

#[export] Instance supplicant_rebuild : Rebuild wpa_supplicant := fun s =>
  Supplicant (own_addr s) (conf s) (p2p s) (ifaces s) (radio s) (drv_priv s).

(** The driver's data, with what ctx points to, and the calls made.  With a
    hostapd as ctx there is no [supplicant]. *)
Record drv := Drv {
  drv_null : bool; ctx_null : bool;
  ifname : list Z; first_ifname : list Z;
  supplicant : option wpa_supplicant;
  associated : bool; bssid : list Z;
  drv_errors : Z;
  trace : list event }.

#[export] Instance drv_rebuild : Rebuild drv := fun s =>
  Drv (drv_null s) (ctx_null s) (ifname s) (first_ifname s) (supplicant s) (associated s) (bssid s)
    (drv_errors s) (trace s).

Definition ETH_ALEN : nat := 6.

(** ** Test mode messages *)

Abbreviation test_mode_info := ([("index"%string, UInt 4); ("buflen"%string, UInt 4)]).

Definition NL80211_TESTMODE_SW_CMD : Z := 1.
Definition NL80211_TESTMODE_WAPI : Z := 2.
Definition NL80211_TESTMODE_HS20 : Z := 3.
Definition NL80211_TESTMODE_STATISTICS : Z := 0x10.
Definition NL80211_TESTMODE_LINK_DETECT : Z := 0x20.
Definition NL80211_TESTMODE_SUSPEND : Z := 101.

(** The structures after the two members of the header. *)
Definition sw_cmd_params : layout := [("set", UInt 1); ("adr", UInt 4); ("data", UInt 4)]%string.
Definition hotspot_params : layout := [("blocked", UInt 1); ("bssid", Chars ETH_ALEN)]%string.
Definition sigma_params : layout := [("idx", UInt 4); ("value", UInt 4)]%string.
Definition beamplus_params : layout := [("value", UInt 4)]%string.
Definition get_sta_statistics_params : layout :=
  [("version", UInt 4); ("flag", UInt 4); ("addr", Chars ETH_ALEN); ("buf", UInt 4)]%string.
Definition get_sta_link_detect_params : layout := [("buf", UInt 4)]%string.
Definition wapi_key_params : layout :=
  [("key_index", UInt 1); ("key_len", UInt 1); ("ext_flags", UInt 4); ("tx_seq", Chars 8);
   ("rx_seq", Chars 8); ("addr", Chars ETH_ALEN); ("alg", UInt 2); ("ext_key_len", UInt 2);
   ("key", Chars 32)]%string.

Definition wfd_data_params : layout :=
  [("WfdCmdType", UInt 4); ("WfdEnable", UInt 1); ("WfdCoupleSinkStatus", UInt 1);
   ("WfdSessionAvailable", UInt 1); ("WfdSigmaMode", UInt 1); ("WfdDevInfo", UInt 2);
   ("WfdControlPort", UInt 2); ("WfdMaximumTp", UInt 2); ("WfdExtendCap", UInt 2);
   ("WfdCoupleSinkAddress", Chars ETH_ALEN); ("WfdAssociatedBssid", Chars ETH_ALEN);
   ("WfdVideoIp", Chars 4); ("WfdAudioIp", Chars 4); ("WfdVideoPort", UInt 2); ("WfdAudioPort", UInt 2);
   ("WfdFlag", UInt 4); ("WfdPolicy", UInt 4); ("WfdState", UInt 4);
   ("WfdSessionInformationIE", Chars 192); ("WfdSessionInformationIELen", UInt 2); ("Reverved1", Chars 2);
   ("WfdPrimarySinkMac", Chars ETH_ALEN); ("WfdSecondarySinkMac", Chars ETH_ALEN); ("WfdAdvancedFlag", UInt 4);
   ("WfdLocalIp", Chars 4); ("WfdLifetimeAc2", UInt 2); ("WfdLifetimeAc3", UInt 2);
   ("WfdCounterThreshold", UInt 2); ("Reverved2", Chars 54); ("Reverved3", Chars 64); ("Reverved4", Chars 64)]%string.

Definition hdr_index (index : Z) : Z := Z.lor index (Z.shiftl 1 24).

Definition test_mode_msg (index : Z) (l : layout) (vs : list cval) : list Z :=
  let l := test_mode_info ++ l in
  enc_struct 8 l (Num (hdr_index index) :: Num (Z.of_nat (sizeof 8 l)) :: vs).

Definition BIT (n : Z) : Z := Z.shiftl 1 n.
Definition BITS (m n : Z) : Z := Z.land (Z.lnot (BIT m - 1)) (Z.lor (BIT n - 1) (BIT n)).

(** What params.buf of a message points to. *)
Inductive reply_buf :=
  | NoBuf
  | StatisticsBuf (s : sta_statistics)
  | ReadyBuf (v : Z)
  | LinkBuf (s : link_detect)
  | ChannelBuf (s : available_chan).

Section TestMode.
Context `{World}.

(** A call with an effect. *)
Definition call (e : event) : CM drv Z :=
  past ← cgets trace;
  _ ← cmodify (fun d => d⟨trace := past ++ [e]⟩);
  mret (answer past e).

(** Allocation and sending are one call: what fails is its answer. *)
Definition wpa_driver_nl80211_testmode (data : list Z) (b : reply_buf) : CM drv (Z * reply_buf) :=
  if CONFIG_MTK_TURNKEY_WLAN flags then
    past ← cgets trace;
    ret ← call (TestMode data);
    hdr ← clift (buf_read data 0 4);
    let index := Z.land (le_val hdr) (BITS 0 23) in
    if index =? 0x10 then
      match b with
      | StatisticsBuf s =>
          s ← clift (each_reply statistics_attr statistics_policy (replies past data statistics_policy) s);
          mret (ret, StatisticsBuf s)
      | _ => clift None
      end
    else if CONFIG_MEDIATEK_WIFI_BEAM flags && (index =? 0x12) then
      match b with
      | ReadyBuf v =>
          v ← clift (each_reply ready_attr ready_policy (replies past data ready_policy) v);
          mret (ret, ReadyBuf v)
      | _ => clift None
      end
    else if CONFIG_MTK_POOR_LINK_DETECT flags && (index =? 0x20) then
      match b with
      | LinkBuf s =>
          s ← clift (each_reply link_attr link_policy (replies past data link_policy) s);
          mret (ret, LinkBuf s)
      | _ => clift None
      end
    else if CONFIG_MTK_LTE_COEX flags && (index =? 0x30) then
      match b with
      | ChannelBuf s =>
          s ← clift (each_reply channel_attr channel_policy (replies past data channel_policy) s);
          mret (ret, ChannelBuf s)
      | _ => clift None
      end
    else mret (ret, b)
  else mret (0, b).

(** A message without an answer. *)
Definition testmode (data : list Z) : CM drv Z :=
  '(ret, _) ← wpa_driver_nl80211_testmode data NoBuf; mret ret.

End TestMode.

(** ** snprintf into a part of a buffer *)

(** [snprintf(buf + pos, size, ...)] of [text], whose length it returns. *)
Definition snprintf (buf : list Z) (pos size : Z) (text : list Z) : option (list Z) :=
  if size =? 0 then Some buf
  else buf_write buf pos (take (Z.to_nat (size - 1)) text ++ [0]).

(** ** Lemmas *)

Lemma msg_head index l vs : exists rest,
  test_mode_msg index l vs = le_bytes 4 (hdr_index index mod 2 ^ 32) ++ rest.
Proof.
  eexists. unfold test_mode_msg, enc_struct. cbn [app enc_from]. rewrite <-app_assoc. reflexivity.
Qed.

(** The index of a message selects its handler. *)
Lemma msg_index index l vs : 0 <= index < 2 ^ 24 ->
  exists hdr, buf_read (test_mode_msg index l vs) 0 4 = Some hdr /\ Z.land (le_val hdr) (BITS 0 23) = index.
Proof.
  intros Hi. destruct (msg_head index l vs) as [rest ->].
  exists (le_bytes 4 (hdr_index index mod 2 ^ 32)). split.
  { apply (buf_read_app [] (le_bytes 4 _) rest); [done|]. by rewrite length_le_bytes. }
  rewrite le_val_le_bytes. change (2 ^ (8 * Z.of_nat 4)) with (2 ^ 32). rewrite Zmod_mod.
  change (BITS 0 23) with (Z.ones 24). rewrite Z.land_ones by lia.
  rewrite <-(Znumtheory.Zmod_div_mod (2 ^ 24) (2 ^ 32)) by (try lia; by exists (2 ^ 8)).
  rewrite <-Z.land_ones by lia. unfold hdr_index. rewrite Z.land_lor_distr_l.
  rewrite (Z.land_ones index), Z.mod_small by lia. by rewrite Z.lor_0_r.
Qed.

(** ** A concrete environment *)

Definition sample_attrs : attrs :=
  list_to_map [(1, [1]); (2, [0x02; 0x0c; 0xe7; 0x01; 0x02; 0xff]); (3, [87]); (4, [3; 0; 0; 0]); (5, [2]);
    (6, [120]); (7, [0; 0; 1; 0]); (8, [131; 0]); (9, [1; 1; 0; 0]); (10, [0; 0; 0; 0]); (11, [20; 0; 0; 0]);
    (12, [255; 255; 255; 255]); (13, [0; 0; 0; 0]); (14, [9; 0; 0; 0]); (15, replicate 16 1);
    (16, replicate 16 0); (17, replicate 16 0); (18, replicate 16 0); (19, replicate 32 0xab)].

Definition sample_link : attrs :=
  list_to_map ((fun i => (Z.of_nat i, [Z.of_nat i; 0; 0; 0; 0; 0; 0; 0])) <$> seq 1 8).

Definition sample_config : config :=
  Build_config true true true true true true true true true true true true false.

(** The driver answers questions for statistics and for the link; every other
    call succeeds, and addresses are those of one station. *)
Definition sample_world : World := {|
  flags := sample_config;
  answer past e := 0;
  replies past data p := if bool_decide (p = statistics_policy) then [sample_attrs]
                         else if bool_decide (p = link_policy) then [sample_link] else [];
  indeterminate i := 0xa5;
  stack_statistics := Statistics 0 (replicate 6 7) 1 2 3 4 5 S754_nan 6 7 8 9 10 11 (replicate 16 9)
    (replicate 16 9) (replicate 16 9) (replicate 16 9) (replicate 32 9);
  stack_link := LinkDetect 1 2 3 4 5 6 7 8;
  os_get_random past := 7;
  calloc_ok past := true;
  hwaddr_aton s := if bool_decide (take 17 s = zs "02:0c:e7:01:02:ff")
                   then Some [0x02; 0x0c; 0xe7; 0x01; 0x02; 0xff] else None;
  memory p n := if 0 <=? n then Some (replicate (Z.to_nat n) 0x5a) else None;
  buf_address := 0xbeff0000;
  wfd_num name bs := nth 0 bs 0;
  wfd_bytes name bs := take 4 bs;
  sizeof_wfd_data_s := 264;
  WPA_DRIVER_FLAGS_P2P_CONCURRENT := 0x200;
  DRV_NUMBER_SEQUENTIAL_ERRORS := 4 |}.

Lemma sample_world_laws : @WorldLaws sample_world.
Proof.
  split.
  - intros past data p a i t v Ha Hv Hp. cbn [replies sample_world] in Ha.
    assert (forall m : attrs, map_Forall (fun i v => Forall is_byte v
      /\ Forall (fun it : Z * nla_type => fst it = i -> (minlen (snd it) <= length v)%nat) p) m -> m !! i = Some v ->
      (minlen t <= length v)%nat /\ Forall is_byte v) as Hm.
    { intros m Hm Hi. destruct (Hm i v Hi) as [Hb Hl]. split; [|done].
      rewrite Forall_forall in Hl. by apply (Hl _ Hp). }
    case_bool_decide; subst.
    { apply list_elem_of_singleton in Ha as ->. eapply Hm; [|done].
      apply (bool_decide_unpack _). vm_compute. exact I. }
    case_bool_decide; subst; [|by apply not_elem_of_nil in Ha].
    apply list_elem_of_singleton in Ha as ->. eapply Hm; [|done].
    apply (bool_decide_unpack _). vm_compute. exact I.
  - intros s a. cbn. case_bool_decide; [|done]. intros [= <-]. split; [done|]. by_decide.
  - intros p n bs. cbn. case_match eqn:E; [|done]. intros [= <-]. rewrite length_replicate.
    apply Z.leb_le in E. split; [lia|]. apply Forall_replicate. unfold is_byte. lia.
  - intros past. unfold is_u32. cbn. lia.
  - unfold is_u32. cbn. lia.
  - done.
  - done.
  - by_decide.
Qed.

Definition sample_drv : drv :=
  Drv false false (zs "wlan0") (zs "wlan0")
    (Some (Supplicant [2; 12; 231; 0; 0; 1] (Some (115, 36))
      (Some (P2p 81 6 [(81, [1; 6; 11])] 0x25 0 (Some (P2pConfig [(81, [1; 6; 11]); (115, [36; 40])] 1 1))))
      [GlobalIface 0 1; GlobalIface 0 2]
      [RadioIface (Some (Ssid WPAS_MODE_INFRA 0 0)) 5180 true; RadioIface None 0 false] true))
    true [2; 0; 0; 0; 0; 9] 0 [].
