(* ===== verification/WpaStats.v ===== *)
(** * WiFi driver: station statistics and link quality as text
      (mediatek_driver_cmd_nl80211.c: wpas_get_sta_statistics,
      print_sta_statistics, wpa_driver_get_sta_statistics and the same for
      the link)

    The text is printed piece by piece with snprintf; the statistics are
    refused as a whole when they do not fit, the link's lines end at the first
    that does not. *)

From stdpp Require Import gmap.
From S2P Require Import Prelude Layout CFloat WpaData.
#[local] Open Scope Z_scope.

(** ** Formatting *)

Definition hexd (upper : bool) (d : Z) : Z := if d <? 10 then 48 + d else (if upper then 55 else 87) + d.

(** [%0nx]: the [n] low digits, of a number that has no more. *)
Fixpoint fmt_hex (upper : bool) (n : nat) (z : Z) : list Z :=
  match n with
  | O => []
  | S n' => fmt_hex upper n' (z / 16) ++ [hexd upper (z mod 16)]
  end.

(** MACSTR *)
Fixpoint mac_text (a : list Z) : list Z :=
  match a with
  | [] => []
  | [b] => fmt_hex false 2 b
  | b :: a' => fmt_hex false 2 b ++ [58] ++ mac_text a'
  end.

(** [%d] of a 32-bit value. *)
Definition d32 (z : Z) : list Z := dec (s32 z).

Definition line (name : string) (value : list Z) : list Z := zs name ++ value ++ [10].

(** Four counters [%d:%d:%d:%d] of an array. *)
Definition four (a : list Z) : list Z :=
  let at_ i := d32 (le_val (take 4 (drop (4 * i) a))) in
  at_ 0%nat ++ [58] ++ at_ 1%nat ++ [58] ++ at_ 2%nat ++ [58] ++ at_ 3%nat.

(** Sixteen reserved bytes, one snprintf each, and a blank after each four. *)
Definition reserved_pieces (bs : list Z) : list (list Z) :=
  concat (imap (fun i b => fmt_hex true 2 b :: if (S i mod 4 =? 0)%nat then [[32]] else []) bs).

Definition statistics_pieces (s : sta_statistics) : list (list Z) :=
  [ line "sta_addr=" (mac_text (addr s));
    line "link_score=" (d32 (link_score s));
    line "per=" (d32 (per s));
    line "rssi=" (d32 (rssi s));
    line "phy=0x" (fmt_hex true 8 (phy_mode s));
    line "rate=" (fmt_1f (tx_rate s));
    line "total_cnt=" (d32 (tx_total_cnt s));
    line "threshold_cnt=" (d32 (tx_exc_threshold_cnt s));
    line "fail_cnt=" (d32 (tx_fail_cnt s));
    line "timeout_cnt=" (d32 (tx_timeout_cnt s));
    line "apt=" (d32 (tx_avg_process_time s));
    line "aat=" (d32 (tx_avg_air_time s));
    line "TC_buf_full_cnt=" (four (tc_buf_full_cnt s));
    line "TC_sta_que_len=" (four (tc_que_len s));
    line "TC_avg_que_len=" (four (tc_avg_que_len s));
    line "TC_cur_que_len=" (four (tc_cur_que_len s));
    line "flag=0x" (fmt_hex true 8 (flag s));
    zs "reserved0=" ] ++ reserved_pieces (take 16 (reserved s)) ++
  [ [10]; zs "reserved1=" ] ++ reserved_pieces (drop 16 (reserved s)) ++
  [ [10]; line "====" [] ].

Definition link_pieces (s : link_detect) : list (list Z) :=
  [ line "rFailedCount=" (dec (l_tx_fail_cnt s));
    line "rRetryCount=" (dec (l_tx_retry_cnt s));
    line "rMultipleRetryCount=" (dec (l_tx_multi_retry_cnt s));
    line "rACKFailureCount=" (dec (l_ack_fail_cnt s));
    line "rFCSErrorCount=" (dec (l_fcs_err_cnt s));
    line "tx_total=" (dec (l_tx_cnt s));
    line "tx_ok=" (dec (l_tx_ok_cnt s));
    line "tx_os=" (dec (l_tx_os_cnt s)) ].

(** The calls of snprintf, up to the first whose text does not fit: whether
    all did, the position reached, the buffer. *)
Fixpoint print_pieces (buflen pos : Z) (pieces : list (list Z)) (buf : list Z) : option (bool * Z * list Z) :=
  match pieces with
  | [] => Some (true, pos, buf)
  | t :: rest =>
      buf ← snprintf buf pos (buflen - pos) t;
      let ret := Z.of_nat (length t) in
      if ret >=? buflen - pos then Some (false, pos, buf)
      else print_pieces buflen (pos + ret) rest buf
  end.

Definition print_sta_statistics (s : sta_statistics) (buf : list Z) (buflen : Z) : option (Z * list Z) :=
  '(fits, pos, buf) ← print_pieces buflen 0 (statistics_pieces s) buf;
  Some (if fits : bool then pos else 0, buf).

(** ** The commands *)

Section Statistics.
Context `{World}.

Definition statistics_msg (sta_addr : list Z) : list Z :=
  test_mode_msg NL80211_TESTMODE_STATISTICS get_sta_statistics_params
    [Num 0; Num 0; Raw sta_addr; Num buf_address].

Definition wpas_get_sta_statistics (sta_addr : list Z) (s : sta_statistics) : CM drv (Z * sta_statistics) :=
  '(ret, b) ← wpa_driver_nl80211_testmode (statistics_msg sta_addr) (StatisticsBuf s);
  match b with
  | StatisticsBuf s => mret (ret, s)
  | _ => clift None
  end.

(** The returned value and the buffer. *)
Definition wpa_driver_get_sta_statistics (address buf : list Z) (buflen : Z) : CM drv (Z * list Z) :=
  match hwaddr_aton address with
  | None => mret (-1, buf)
  | Some sta_addr =>
      '(ret, s) ← wpas_get_sta_statistics sta_addr stack_statistics;
      if ret <? 0 then mret (-1, buf)
      else clift (print_sta_statistics s buf buflen)
  end.

Definition link_msg : list Z :=
  test_mode_msg NL80211_TESTMODE_LINK_DETECT get_sta_link_detect_params [Num buf_address].

Definition wpas_get_sta_link_detect (s : link_detect) : CM drv (Z * link_detect) :=
  '(ret, b) ← wpa_driver_nl80211_testmode link_msg (LinkBuf s);
  match b with
  | LinkBuf s => mret (ret, s)
  | _ => clift None
  end.

Definition wpa_driver_get_sta_link_detect (buf : list Z) (buflen : Z) : CM drv (Z * list Z) :=
  '(ret, s) ← wpas_get_sta_link_detect stack_link;
  if ret <? 0 then mret (-1, buf)
  else clift ('(_, pos, buf) ← print_pieces buflen 0 (link_pieces s) buf; Some (pos, buf)).

End Statistics.

(** ** Lemmas *)

(** The longest sequence of texts that fits into [room] bytes with a NUL. *)
Fixpoint fitting (room : Z) (pieces : list (list Z)) : list (list Z) :=
  match pieces with
  | [] => []
  | t :: rest =>
      if Z.of_nat (length t) <? room then t :: fitting (room - Z.of_nat (length t)) rest else []
  end.

Lemma fitting_all room pieces :
  Z.of_nat (length (concat pieces)) < room -> fitting room pieces = pieces.
Proof.
  revert room. induction pieces as [|t ps IH]; intros room Hr; [done|].
  cbn in *. rewrite length_app in Hr. rewrite (proj2 (Z.ltb_lt _ _)) by lia. f_equal. apply IH. lia.
Qed.

Lemma fitting_room room pieces : 0 < room -> Z.of_nat (length (concat (fitting room pieces))) < room.
Proof.
  revert room. induction pieces as [|t ps IH]; intros room Hr; cbn; [lia|].
  destruct (Z.ltb_spec (Z.of_nat (length t)) room); cbn; [|lia].
  specialize (IH (room - Z.of_nat (length t)) ltac:(lia)). rewrite length_app. lia.
Qed.

Lemma fitting_iff room pieces : 0 <= room -> pieces <> [] ->
  fitting room pieces = pieces <-> Z.of_nat (length (concat pieces)) < room.
Proof.
  intros Hr Hne. split; [|apply fitting_all]. intros E. destruct (decide (room = 0)) as [->|].
  - destruct pieces as [|t ps]; [done|]. cbn in E. by rewrite (proj2 (Z.ltb_ge _ _)) in E by lia.
  - rewrite <-E. apply fitting_room. lia.
Qed.

(** A text that fits is stored with its NUL; one that does not is cut. *)
Lemma snprintf_fits buf pos text :
  0 <= pos -> pos + Z.of_nat (length text) < Z.of_nat (length buf) ->
  snprintf buf pos (Z.of_nat (length buf) - pos) text
  = Some (take (Z.to_nat pos) buf ++ text ++ 0 :: drop (Z.to_nat pos + S (length text)) buf).
Proof.
  intros Hp Hl. unfold snprintf. rewrite (proj2 (Z.eqb_neq _ _)) by lia.
  rewrite take_ge by lia. rewrite buf_write_Some; [|lia|rewrite length_app; cbn; lia].
  f_equal. f_equal. rewrite <-app_assoc. f_equal. cbn. do 2 f_equal.
  rewrite length_app. cbn. lia.
Qed.

Lemma snprintf_cut buf pos text :
  0 <= pos <= Z.of_nat (length buf) ->
  exists buf', snprintf buf pos (Z.of_nat (length buf) - pos) text = Some buf'
    /\ length buf' = length buf /\ take (Z.to_nat pos) buf' = take (Z.to_nat pos) buf.
Proof.
  intros Hp. unfold snprintf. destruct (Z.eqb_spec (Z.of_nat (length buf) - pos) 0) as [|Hn]; [by eauto|].
  set (t := take _ text ++ [0]).
  assert (Z.of_nat (length t) <= Z.of_nat (length buf) - pos) as Ht.
  { unfold t. rewrite length_app, length_take. cbn. lia. }
  rewrite buf_write_Some by lia. eexists. split; [done|]. split.
  - autorewrite with blen. lia.
  - rewrite take_app_le, take_take by (autorewrite with blen; lia). f_equal. lia.
Qed.

(** The shape of the buffer after the printing: the texts that fit, then what
    was there if all of them did. *)
Lemma print_pieces_spec pieces : forall pos buf, 0 <= pos <= Z.of_nat (length buf) ->
  let room := Z.of_nat (length buf) - pos in
  let text := concat (fitting room pieces) in
  exists fits buf',
    print_pieces (Z.of_nat (length buf)) pos pieces buf = Some (fits, pos + Z.of_nat (length text), buf')
    /\ length buf' = length buf
    /\ take (Z.to_nat pos + length text) buf' = take (Z.to_nat pos) buf ++ text
    /\ (fits = true <-> fitting room pieces = pieces)
    /\ (fits = true -> pieces <> [] ->
        drop (Z.to_nat pos + length text) buf' = 0 :: drop (Z.to_nat pos + S (length text)) buf).
Proof.
  induction pieces as [|t ps IH]; intros pos buf Hp; cbn [print_pieces fitting].
  { exists true, buf. cbn. rewrite Z.add_0_r, Nat.add_0_r, app_nil_r. split_and!; done. }
  destruct (Z.ltb_spec (Z.of_nat (length t)) (Z.of_nat (length buf) - pos)) as [Hf|Hf].
  2:{ destruct (snprintf_cut buf pos t Hp) as (buf' & -> & Hl & Ht). obind.
      rewrite (proj2 (Z.geb_le _ _)) by lia. exists false, buf'. cbn.
      rewrite Z.add_0_r, Nat.add_0_r, app_nil_r. split_and!; done. }
  rewrite snprintf_fits by lia. obind. rewrite Z.geb_leb, (proj2 (Z.leb_gt _ _)) by lia.
  set (buf1 := take _ buf ++ _).
  assert (length buf1 = length buf) as Hl1 by (unfold buf1; autorewrite with blen; cbn; autorewrite with blen; lia).
  assert (take (Z.to_nat (pos + Z.of_nat (length t))) buf1 = take (Z.to_nat pos) buf ++ t) as Ht1.
  { unfold buf1. rewrite app_assoc. apply take_app_length'. autorewrite with blen. lia. }
  assert (forall k, drop (Z.to_nat (pos + Z.of_nat (length t)) + S k) buf1
                    = drop (Z.to_nat pos + S (length t + k)) buf) as Hd1.
  { intros k. unfold buf1. rewrite app_assoc, drop_app_ge by (autorewrite with blen; lia).
    replace (_ - length _)%nat with (S k) by (autorewrite with blen; lia). cbn [drop].
    rewrite drop_drop. f_equal. lia. }
  destruct (IH (pos + Z.of_nat (length t)) buf1 ltac:(lia)) as (fits & buf' & E & Hl & Ht & Hf' & Hd).
  rewrite Hl1 in *. rewrite Z.sub_add_distr in *. rewrite E.
  set (ft := fitting (Z.of_nat (length buf) - pos - Z.of_nat (length t)) ps) in *.
  exists fits, buf'. cbn [concat]. rewrite length_app. split_and!.
  - do 2 f_equal. f_equal. lia.
  - done.
  - replace (Z.to_nat pos + (length t + length (concat ft)))%nat
      with (Z.to_nat (pos + Z.of_nat (length t)) + length (concat ft))%nat by lia.
    by rewrite Ht, Ht1, app_assoc.
  - rewrite Hf'. split; [by intros ->|by intros [= ->]].
  - intros Hfit _. destruct ps as [|t' ps'].
    + cbn in E. injection E as <- _ <-. unfold ft. cbn. rewrite Nat.add_0_r.
      unfold buf1. rewrite app_assoc. apply drop_app_length'. autorewrite with blen. lia.
    + replace (Z.to_nat pos + (length t + length (concat ft)))%nat
        with (Z.to_nat (pos + Z.of_nat (length t)) + length (concat ft))%nat by lia.
      rewrite Hd by done. f_equal. by rewrite Hd1.
Qed.

Lemma nla_get_take n a : (n <= length a)%nat -> nla_get n a = Some (le_val (take n a)).
Proof.
  intros Hn. unfold nla_get.
  assert (buf_read a 0 (Z.of_nat n) = Some (take n a)) as ->; [|done].
  rewrite <-(take_drop n a) at 1.
  apply (buf_read_app [] (take n a) (drop n a)); [done|]. rewrite length_take. lia.
Qed.

Lemma nla_memcpy_full old a : (length old <= length a)%nat -> nla_memcpy old a = take (length old) a.
Proof. intros. unfold nla_memcpy. by rewrite (drop_ge old), app_nil_r by lia. Qed.

(** The attributes whose payload is copied have this many bytes in full. *)
Definition copied_len (i : Z) : nat :=
  match i with 2 => 6 | 15 | 16 | 17 | 18 => 16 | 19 => 32 | _ => 0 end.

(** An answer with all attributes. *)
Definition complete (r : attrs) : Prop :=
  Forall (fun it => exists v, r !! fst it = Some v
                    /\ (Nat.max (minlen (snd it)) (copied_len (fst it)) <= length v)%nat) statistics_policy.

(** The statistics that a complete answer stands for. *)
Definition reported (r : attrs) : sta_statistics :=
  let bytes i n := take n (default [] (r !! i)) in
  let u i n := le_val (bytes i n) in
  Statistics (u 1 1%nat) (bytes 2 6%nat) (u 4 4%nat) (u 3 1%nat) (u 5 1%nat) ((u 6 1%nat - 220) ÷ 2) (u 7 4%nat)
    (d_div (d_of_Z (u 8 2%nat)) (d_of_Z 2)) (u 9 4%nat) (u 10 4%nat) (u 11 4%nat) (u 12 4%nat) (u 13 4%nat)
    (u 14 4%nat) (bytes 15 16%nat) (bytes 16 16%nat) (bytes 17 16%nat) (bytes 18 16%nat) (bytes 19 32%nat).

(** The arrays of a structure have their sizes. *)
Definition sized (s : sta_statistics) : Prop :=
  length (addr s) = 6%nat /\ length (reserved s) = 32%nat /\ length (tc_buf_full_cnt s) = 16%nat
  /\ length (tc_que_len s) = 16%nat /\ length (tc_avg_que_len s) = 16%nat /\ length (tc_cur_que_len s) = 16%nat.

(** One attribute that is there, and the structure after it. *)
Ltac attr_step :=
  try (rewrite nla_get_take by lia); obind;
  cbv beta iota zeta delta [field_update version addr flag link_score per rssi phy_mode tx_rate tx_total_cnt
    tx_exc_threshold_cnt tx_avg_process_time tx_fail_cnt tx_timeout_cnt tx_avg_air_time tc_buf_full_cnt
    tc_que_len tc_avg_que_len tc_cur_que_len reserved].

Lemma complete_reported r s : complete r -> sized s ->
  each_attr statistics_attr r (fst <$> statistics_policy) s = Some (reported r).
Proof.
  intros Hc (H1 & H2 & H3 & H4 & H5 & H6). destruct s. cbn in *. unfold complete, statistics_policy in Hc.
  rewrite !Forall_cons in Hc. cbn [fst snd minlen copied_len] in Hc.
  destruct_and! Hc. unfold statistics_policy. cbn [fmap list_fmap fst].
  repeat match goal with H : exists v, _ |- _ => destruct H as (? & ? & ?) end.
  unfold reported.
  repeat match goal with H : r !! ?i = Some _ |- _ => rewrite H in *; revert H end. intros.
  cbn [each_attr statistics_attr default].
  repeat (progress attr_step). f_equal.
  rewrite !nla_memcpy_full by lia. by rewrite H1, H2, H3, H4, H5, H6.
Qed.

(** An answer as libnl delivers it. *)
Definition well_formed (p : policy) (r : attrs) : Prop :=
  forall i t v, r !! i = Some v -> (i, t) ∈ p -> (minlen t <= length v)%nat.

Lemma each_reply_ok {A} (take_attr : Z -> list Z -> A -> option A) (p : policy) (ok : A -> Prop) rs s :
  (forall i t v s, (i, t) ∈ p -> (minlen t <= length v)%nat -> ok s ->
     exists s', take_attr i v s = Some s' /\ ok s') ->
  Forall (well_formed p) rs -> ok s ->
  exists s', each_reply take_attr p rs s = Some s' /\ ok s'.
Proof.
  intros Hstep Hrs. revert s. induction Hrs as [|r rs Hr _ IH]; intros s Hs; cbn; [by eauto|].
  assert (exists s', each_attr take_attr r (fst <$> p) s = Some s' /\ ok s') as (s' & -> & Hs').
  { assert (forall q, (forall x, x ∈ q -> x ∈ p) -> forall s, ok s ->
      exists s', each_attr take_attr r (fst <$> q) s = Some s' /\ ok s') as Hq; [|by apply Hq].
    clear s Hs. induction q as [|[i t] q IHq]; intros Hq s Hs; cbn; [by eauto|].
    destruct (r !! i) as [v|] eqn:E.
    - destruct (Hstep i t v s) as (s' & -> & Hs'); [apply Hq; left|by eapply Hr; eauto; apply Hq; left|done|].
      obind. apply IHq; [|done]. intros x Hx. apply Hq. by right.
    - obind. apply IHq; [|done]. intros x Hx. apply Hq. by right. }
  obind. by apply IH.
Qed.

Lemma statistics_attr_ok i t v s :
  (i, t) ∈ statistics_policy -> (minlen t <= length v)%nat -> sized s ->
  exists s', statistics_attr i v s = Some s' /\ sized s'.
Proof.
  intros Hi Hv (H1 & H2 & H3 & H4 & H5 & H6). unfold statistics_policy in Hi.
  repeat (apply elem_of_cons in Hi as [[= -> ->]|Hi]);
    [..|by apply not_elem_of_nil in Hi]; cbn [statistics_attr minlen] in *;
    try (rewrite nla_get_take by lia; obind); eexists; (split; [done|]);
    destruct s; unfold sized, field_update; cbn in *; split_and!; autorewrite with blen; lia.
Qed.

Lemma link_attr_ok i t v s :
  (i, t) ∈ link_policy -> (minlen t <= length v)%nat -> True ->
  exists s', link_attr i v s = Some s' /\ True.
Proof.
  intros Hi Hv _. unfold link_policy in Hi.
  repeat (apply elem_of_cons in Hi as [[= -> ->]|Hi]);
    [..|by apply not_elem_of_nil in Hi]; cbn [link_attr minlen] in *;
    rewrite nla_get_take by lia; obind; eauto.
Qed.

(** The text of a list of pieces in a buffer, when it fits. *)
Definition holds_text (buf text buf' : list Z) : Prop :=
  buf' = text ++ 0 :: drop (S (length text)) buf.

Lemma print_pieces_text pieces buf fits pos buf' :
  pieces <> [] -> Z.of_nat (length (concat pieces)) < Z.of_nat (length buf) ->
  print_pieces (Z.of_nat (length buf)) 0 pieces buf = Some (fits, pos, buf') ->
  fits = true /\ pos = Z.of_nat (length (concat pieces)) /\ holds_text buf (concat pieces) buf'.
Proof.
  intros Hne Hlt E. destruct (print_pieces_spec pieces 0 buf) as (f & b & E' & Hl & Ht & Hf & Hd); [lia|].
  rewrite E' in E. injection E as <- <- <-. rewrite Z.sub_0_r, fitting_all in * by lia.
  assert (f = true) as -> by tauto. split_and!; [done|lia|].
  unfold holds_text. rewrite <-(take_drop (Z.to_nat 0 + length (concat pieces)) b), Ht, Hd; done.
Qed.

Section Answers.
Context `{World} `{!WorldLaws}.

Lemma replies_well_formed past data p : Forall (well_formed p) (replies past data p).
Proof using Type*.
  apply Forall_forall. intros r Hr i t v Hv Hp. by eapply replies_policy.
Qed.

Lemma stack_sized : sized stack_statistics.
Proof using Type*.
  pose proof stack_arrays as Ha. rewrite !Forall_cons in Ha. destruct_and! Ha.
  split_and!; auto using stack_addr, stack_reserved.
Qed.

(** The driver is asked; its answer fills the structure. *)
Lemma run_get_sta_statistics d mac : CONFIG_MTK_TURNKEY_WLAN flags = true ->
  exists s, each_reply statistics_attr statistics_policy
      (replies (trace d) (statistics_msg mac) statistics_policy) stack_statistics = Some s
  /\ wpas_get_sta_statistics mac stack_statistics d
     = Some ((answer (trace d) (TestMode (statistics_msg mac)), s),
             d⟨trace := trace d ++ [TestMode (statistics_msg mac)]⟩).
Proof using Type*.
  intros Hc.
  destruct (each_reply_ok statistics_attr statistics_policy sized
    (replies (trace d) (statistics_msg mac) statistics_policy) stack_statistics statistics_attr_ok
    (replies_well_formed _ _ _) stack_sized) as (s & Hs & _).
  exists s. split; [done|]. unfold wpas_get_sta_statistics, wpa_driver_nl80211_testmode. rewrite Hc.
  destruct (msg_index NL80211_TESTMODE_STATISTICS get_sta_statistics_params
    [Num 0; Num 0; Raw mac; Num buf_address]) as (hdr & Hh & Hi); [done|].
  fold (statistics_msg mac) in Hh.
  cbv [mbind cm_bind cgets call cmodify clift mret cm_ret]. rewrite Hh. obind. rewrite Hi.
  cbn [Z.eqb NL80211_TESTMODE_STATISTICS Pos.eqb]. by rewrite Hs.
Qed.

(** C22 (functional): GET_STA_STATISTICS.  The driver is asked for the station's
    statistics with one test mode message, and whatever attributes it answers
    with, the call stays inside the caller's buffer.  With an answer that has
    every attribute the text is that of the reported numbers, whatever was on
    the stack before; it is returned whole, or refused with 0 if the buffer is
    too short. *)
Theorem sta_statistics_text (d : drv) (address mac buf : list Z) :
  CONFIG_MTK_TURNKEY_WLAN flags = true -> hwaddr_aton address = Some mac ->
  let msg := statistics_msg mac in
  exists n buf', wpa_driver_get_sta_statistics address buf (Z.of_nat (length buf)) d
    = Some ((n, buf'), d⟨trace := trace d ++ [TestMode msg]⟩) /\ length buf' = length buf
  /\ (answer (trace d) (TestMode msg) < 0 -> n = -1 /\ buf' = buf)
  /\ (forall r, 0 <= answer (trace d) (TestMode msg) ->
       replies (trace d) msg statistics_policy = [r] -> complete r ->
       let text := concat (statistics_pieces (reported r)) in
       if Z.of_nat (length text) <? Z.of_nat (length buf)
       then n = Z.of_nat (length text) /\ holds_text buf text buf' else n = 0).
Proof using Type*.
  intros Hc Ha msg. destruct (run_get_sta_statistics d mac Hc) as (s & Hs & Hrun).
  unfold wpa_driver_get_sta_statistics. rewrite Ha, (run_bind _ _ _ _ _ Hrun). fold msg.
  destruct (Z.ltb_spec (answer (trace d) (TestMode msg)) 0) as [Hlt|Hge].
  { exists (-1), buf. split_and!; try done. intros r ?. lia. }
  unfold print_sta_statistics.
  destruct (print_pieces_spec (statistics_pieces s) 0 buf) as (f & b & E & Hl & _ & Hf & _); [lia|].
  rewrite E. eexists _, b. split; [done|]. split; [done|]. split; [lia|].
  intros r _ Hr Hcr. fold msg in Hs. rewrite Hr in Hs. cbn [each_reply] in Hs.
  rewrite complete_reported in Hs by (done || apply stack_sized). injection Hs as <-.
  destruct (Z.ltb_spec (Z.of_nat (length (concat (statistics_pieces (reported r))))) (Z.of_nat (length buf)))
    as [Hlt|Hge'].
  - apply print_pieces_text in E as (-> & -> & Ht); [by split|done|done].
  - destruct f; [|done]. rewrite Z.sub_0_r, fitting_iff in Hf by (lia || done).
    destruct Hf as [Hf _]. specialize (Hf eq_refl). lia.
Qed.

(** GET_STA_LINK_DETECT.  The answer is the longest sequence of
    lines that fits into the buffer with a NUL, and its length is returned;
    nothing is written outside of the buffer. *)
Theorem link_detect_lines (d : drv) (buf : list Z) :
  CONFIG_MTK_TURNKEY_WLAN flags = true -> CONFIG_MTK_POOR_LINK_DETECT flags = true ->
  0 <= answer (trace d) (TestMode link_msg) ->
  exists s buf', each_reply link_attr link_policy (replies (trace d) link_msg link_policy) stack_link = Some s
  /\ let text := concat (fitting (Z.of_nat (length buf)) (link_pieces s)) in
  wpa_driver_get_sta_link_detect buf (Z.of_nat (length buf)) d
    = Some ((Z.of_nat (length text), buf'), d⟨trace := trace d ++ [TestMode link_msg]⟩)
  /\ length buf' = length buf /\ take (length text) buf' = text
  /\ (fitting (Z.of_nat (length buf)) (link_pieces s) = link_pieces s -> holds_text buf text buf').
Proof using Type*.
  intros Hc Hp Ha.
  destruct (each_reply_ok link_attr link_policy (fun _ => True)
    (replies (trace d) link_msg link_policy) stack_link link_attr_ok (replies_well_formed _ _ _) I)
    as (s & Hs & _).
  destruct (print_pieces_spec (link_pieces s) 0 buf) as (f & b & E & Hl & Ht & Hf & Hd); [lia|].
  rewrite Z.sub_0_r in *. exists s, b. split; [done|]. intros text. fold text in E, Ht, Hd.
  split_and!; [|done|done|].
  - unfold wpa_driver_get_sta_link_detect, wpas_get_sta_link_detect, wpa_driver_nl80211_testmode.
    rewrite Hc, Hp.
    destruct (msg_index NL80211_TESTMODE_LINK_DETECT get_sta_link_detect_params [Num buf_address])
      as (hdr & Hh & Hi); [done|]. fold link_msg in Hh.
    cbv [mbind cm_bind cgets call cmodify clift mret cm_ret]. rewrite Hh. obind. rewrite Hi.
    cbn [Z.eqb NL80211_TESTMODE_LINK_DETECT Pos.eqb andb]. rewrite andb_false_r. rewrite Hs. obind.
    rewrite (proj2 (Z.ltb_ge _ _)) by done. by rewrite E.
  - intros Hall. rewrite Hall in Hf. unfold holds_text.
    rewrite <-(take_drop (Z.to_nat 0 + length text) b), Ht, Hd; [done|tauto|done].
Qed.

End Answers.

(** ** On a concrete environment *)

#[local] Existing Instance sample_world.
#[local] Existing Instance sample_world_laws.

Lemma sample_complete : complete sample_attrs.
Proof.
  unfold complete, statistics_policy.
  repeat (apply Forall_cons; split; [cbn [fst snd]; eexists; split; [vm_compute; reflexivity|]; by_decide|]).
  by apply Forall_nil.
Qed.

Theorem sta_statistics_text_witness :
  exists buf', wpa_driver_get_sta_statistics (zs "02:0c:e7:01:02:ff") (zeros 2048) 2048 sample_drv
    = Some ((Z.of_nat (length (concat (statistics_pieces (reported sample_attrs)))), buf'),
            sample_drv⟨trace := [TestMode (statistics_msg [0x02; 0x0c; 0xe7; 0x01; 0x02; 0xff])]⟩)
  /\ cstr buf' = Some (concat (statistics_pieces (reported sample_attrs))).
Proof.
  destruct (@sta_statistics_text sample_world sample_world_laws sample_drv (zs "02:0c:e7:01:02:ff") [0x02; 0x0c; 0xe7; 0x01; 0x02; 0xff]
    (zeros 2048) eq_refl eq_refl) as (n & buf' & E & _ & _ & Ht).
  specialize (Ht sample_attrs ltac:(done) eq_refl sample_complete).
  cbn [length] in E. exists buf'.
  assert (Z.of_nat (length (concat (statistics_pieces (reported sample_attrs)))) <? 2048 = true) as Hl
    by (vm_compute; reflexivity).
  change (Z.of_nat (length (zeros 2048))) with 2048 in *. cbv zeta in Ht. rewrite Hl in Ht. destruct Ht as [-> ->].
  split; [exact E|]. apply cstr_app. by_decide.
Defined.

Theorem link_detect_lines_witness :
  exists s buf', each_reply link_attr link_policy [sample_link] stack_link = Some s
  /\ wpa_driver_get_sta_link_detect (zeros 40) 40 sample_drv
     = Some ((29, buf'), sample_drv⟨trace := [TestMode link_msg]⟩)
  /\ take 29 buf' = line "rFailedCount=" (zs "1") ++ line "rRetryCount=" (zs "2").
Proof.
  destruct (@link_detect_lines sample_world sample_world_laws sample_drv (zeros 40) eq_refl eq_refl ltac:(done))
    as (s & buf' & Hs & E & _ & Ht & _).
  assert (Some s = each_reply link_attr link_policy [sample_link] stack_link) as Hs' by (symmetry; exact Hs).
  vm_compute in Hs'. injection Hs' as ->. exists (LinkDetect 1 2 3 4 5 6 7 8), buf'.
  split; [vm_compute; reflexivity|]. split; [exact E|exact Ht].
Defined.
