(* ===== verification/WpaP2p.v ===== *)
(** * WiFi driver: channels and capabilities of WiFi Direct
      (mediatek_driver_cmd_nl80211.c: priv_p2p_freq_to_channel,
      p2p_wfd_sink_config_scc, mtk_get_shared_radio_freqs_data,
      mtk_get_shared_radio_freqs, p2p_get_capability, p2p_set_capability) *)

From stdpp Require Import gmap.
From S2P Require Import Prelude Layout WpaData.
#[local] Open Scope Z_scope.

Section P2p.
Context `{World}.

(** Operating class and channel of a frequency in MHz. *)
Definition priv_p2p_freq_to_channel (freq : Z) : option (Z * Z) :=
  if (2412 <=? freq) && (freq <=? 2472) then
    if truthy ((freq - 2407) mod 5) then None else Some (81, (freq - 2407) / 5)
  else if freq =? 2484 then Some (82, 14)
  else if (5180 <=? freq) && (freq <=? 5240) then
    if truthy ((freq - 5000) mod 5) then None else Some (115, (freq - 5000) / 5)
  else if CONFIG_MTK_P2P_5G flags && (5260 <=? freq) && (freq <=? 5320) then Some (118, (freq - 5000) / 5)
  else if CONFIG_MTK_P2P_5G flags && (5500 <=? freq) && (freq <=? 5700) then Some (121, (freq - 5000) / 5)
  else if (5745 <=? freq) && (freq <=? 5805) then
    if truthy ((freq - 5000) mod 5) then None else Some (124, (freq - 5000) / 5)
  else if CONFIG_MTK_P2P_5G flags && (5825 <=? freq) && (freq <=? 5845) then Some (125, (freq - 5000) / 5)
  else None.

(** The result of the conversion is not looked at: without one the two
    variables still hold what was on the stack. *)
Definition op_class_channel (oper_freq : Z) : Z * Z :=
  match priv_p2p_freq_to_channel oper_freq with
  | Some cc => cc
  | None => (u8 (indeterminate 0), u8 (indeterminate 1))
  end.

(** One channel for station and WiFi Direct ([scc]), or the configured ones. *)
Definition p2p_wfd_sink_config_scc (past : list event) (scc oper_freq : Z) (w : wpa_supplicant)
  : option wpa_supplicant :=
  match p2p w with
  | None => Some w
  | Some p =>
      if truthy scc && truthy oper_freq then
        let '(op_class, channel) := op_class_channel oper_freq in
        Some (w⟨p2p := Some (p⟨op_channel := channel⟩⟨op_reg_class := op_class⟩
                              ⟨channels := [(op_class, [channel])]⟩)⟩)
      else
        '(oper_reg_class, oper_channel) ← conf w;
        cfg ← p2p_cfg p;
        if truthy oper_reg_class && truthy oper_channel then
          Some (w⟨p2p := Some (p⟨op_reg_class := u8 oper_reg_class⟩⟨op_channel := u8 oper_channel⟩
                                ⟨channels := cfg_channels cfg⟩
                                ⟨p2p_cfg := Some (cfg⟨cfg_op_channel := 1⟩)⟩)⟩)
        else
          let r := os_get_random past in
          Some (w⟨p2p := Some (p⟨op_reg_class := 81⟩⟨op_channel := 1 + r mod 3 * 5⟩
                                ⟨channels := cfg_channels cfg⟩
                                ⟨p2p_cfg := Some (cfg⟨cfg_op_channel := 0⟩)⟩)⟩)
  end.

(** ** Frequencies in use *)

Definition WPA_FREQ_USED_BY_INFRA_STATION : Z := 1.
Definition WPA_FREQ_USED_BY_P2P_CLIENT : Z := 2.

(** The frequency an interface is on, if it is on one. *)
Definition iface_freq (ifs : radio_iface) : option Z :=
  match current_ssid ifs with
  | None => None
  | Some ssid =>
      if assoc_freq ifs =? 0 then None
      else match mode ssid with
           | WPAS_MODE_AP | WPAS_MODE_P2P_GO => Some (frequency ssid)
           | _ => if bssid_known ifs then Some (assoc_freq ifs) else None
           end
  end.

(** The used entries of freqs_data: frequency and flags. *)
Abbreviation used_freqs := (list (Z * Z)).

(** The first entry with the frequency, or the end. *)
Fixpoint find_freq (freq : Z) (data : used_freqs) : nat :=
  match data with
  | [] => 0
  | (f, _) :: data' => if f =? freq then 0%nat else S (find_freq freq data')
  end.

Definition infra_flags (ssid : wpa_ssid) : Z :=
  if truthy (p2p_group ssid) then WPA_FREQ_USED_BY_P2P_CLIENT else WPA_FREQ_USED_BY_INFRA_STATION.

Definition add_freq (ifs : radio_iface) (freq : Z) (data : used_freqs) : used_freqs :=
  let i := find_freq freq data in
  let data := if (i =? length data)%nat then data ++ [(freq, 0)] else data in
  match current_ssid ifs with
  | Some ssid =>
      if bool_decide (mode ssid = WPAS_MODE_INFRA)
      then alter (fun e => (fst e, infra_flags ssid)) i data else data
  | None => data
  end.

Fixpoint shared_loop (ifs : list radio_iface) (len : nat) (data : used_freqs) : used_freqs :=
  match ifs with
  | [] => data
  | i :: ifs' =>
      if (length data =? len)%nat then data
      else match iface_freq i with
           | None => shared_loop ifs' len data
           | Some freq => shared_loop ifs' len (add_freq i freq data)
           end
  end.

Definition mtk_get_shared_radio_freqs_data (w : wpa_supplicant) (len : nat) : used_freqs :=
  shared_loop (radio w) len [].

(** The count, and the array of [len] frequencies. *)
Definition mtk_get_shared_radio_freqs (past : list event) (w : wpa_supplicant) (len : nat) : Z * list Z :=
  if calloc_ok past then
    let data := mtk_get_shared_radio_freqs_data w len in
    (Z.of_nat (length data), (fst <$> data) ++ replicate (len - length data) 0)
  else (-1, replicate len 0).

End P2p.

(** ** Capabilities *)

(** The returned value and the buffer. *)
Definition p2p_get_capability (p : p2p_data) (cmd buf : list Z) (buflen : Z) : option (Z * list Z) :=
  if strncmp_eq cmd (zs "p2p_dev_capa") 12 then
    let text := zs "p2p_dev_capa=" ++ dec (dev_capab p) ++ [10] in
    buf ← snprintf buf 0 buflen text; Some (Z.of_nat (length text), buf)
  else if strncmp_eq cmd (zs "p2p_group_capa") 14 then Some (-1, buf)
  else Some (0, buf).

Definition p2p_set_capability (p : p2p_data) (cmd : list Z) : Z * p2p_data :=
  if strncmp_eq cmd (zs "p2p_dev_capa ") 13 then
    (0, p⟨dev_capab := Z.land (atoi (drop 13 cmd)) 0xff⟩)
  else if strncmp_eq cmd (zs "p2p_group_capa ") 15 then (-1, p)
  else (0, p).

(** ** The channel plan *)

(** Frequency of a channel: channel 14 is apart, the others are 5 MHz apart
    from the start of their band. *)
Definition centre (op_class channel : Z) : Z :=
  if op_class =? 81 then 2407 + 5 * channel
  else if op_class =? 82 then 2484
  else 5000 + 5 * channel.

(** The channels of an operating class (IEEE 802.11, global classes). *)
Definition plan (op_class : Z) : list Z :=
  match op_class with
  | 81 => seqZ 1 13
  | 82 => [14]
  | 115 => [36; 40; 44; 48]
  | 118 => [52; 56; 60; 64]
  | 121 => [100; 104; 108; 112; 116; 120; 124; 128; 132; 136; 140]
  | 124 => [149; 153; 157; 161]
  | 125 => [165; 169]
  | _ => []
  end.

Definition basic_classes : list Z := [81; 82; 115; 124].
Definition classes_5g : list Z := [118; 121; 125].

Section Channels.
Context `{World}.

(** The channels of some classes. *)
Definition channels_of (classes : list Z) : list (Z * Z) :=
  c ← classes; (fun ch => (c, ch)) <$> plan c.

Lemma elem_of_channels_of classes c ch : c ∈ classes -> ch ∈ plan c -> (c, ch) ∈ channels_of classes.
Proof. intros Hc Hch. apply list_elem_of_bind. exists c. split; [|done]. apply list_elem_of_fmap. eauto. Qed.

(** The bounds that led to a branch. *)
Ltac in_range :=
  repeat match goal with
  | H : _ && _ = true |- _ => apply andb_prop in H as [? ?]
  | H : negb _ = false |- _ => apply negb_false_iff in H
  | H : (_ <=? _) = true |- _ => apply Z.leb_le in H
  | H : (_ =? _) = true |- _ => apply Z.eqb_eq in H
  | H : _ = false |- _ => clear H
  end.

Definition converts (cc : Z * Z) : bool :=
  bool_decide (priv_p2p_freq_to_channel (centre (fst cc) (snd cc)) = Some cc).

Lemma basic_convert : forallb converts (channels_of basic_classes) = true.
Proof.
  unfold converts, priv_p2p_freq_to_channel. destruct (CONFIG_MTK_P2P_5G flags); vm_compute; reflexivity.
Qed.

Lemma classes_5g_convert :
  CONFIG_MTK_P2P_5G flags = true -> forallb converts (channels_of classes_5g) = true.
Proof. intros E. unfold converts, priv_p2p_freq_to_channel. rewrite E. vm_compute. reflexivity. Qed.

(** C23 (roundtrip): priv_p2p_freq_to_channel and the channel plan.  The frequency
    of every channel of the classes 81, 82, 115 and 124, and with
    CONFIG_MTK_P2P_5G of 118, 121 and 125, is converted to that class and
    channel.  A frequency that is converted lies less than 5 MHz above its
    channel's, and exactly on it without CONFIG_MTK_P2P_5G. *)
Theorem freq_to_channel_plan :
  (forall op_class channel,
     op_class ∈ basic_classes \/ (CONFIG_MTK_P2P_5G flags = true /\ op_class ∈ classes_5g) ->
     channel ∈ plan op_class ->
     priv_p2p_freq_to_channel (centre op_class channel) = Some (op_class, channel))
  /\ (forall freq op_class channel, priv_p2p_freq_to_channel freq = Some (op_class, channel) ->
     centre op_class channel <= freq < centre op_class channel + 5
     /\ (op_class ∈ basic_classes -> freq = centre op_class channel)
     /\ (CONFIG_MTK_P2P_5G flags = false -> op_class ∈ basic_classes)).
Proof using Type*.
  split.
  - intros c ch Hc Hch.
    assert (forall classes, forallb converts (channels_of classes) = true -> c ∈ classes ->
      priv_p2p_freq_to_channel (centre c ch) = Some (c, ch)) as Hall.
    { intros classes Hf Hin. rewrite forallb_forall in Hf.
      specialize (Hf (c, ch)). rewrite <-list_elem_of_In in Hf.
      specialize (Hf (elem_of_channels_of _ _ _ Hin Hch)). by apply bool_decide_eq_true in Hf. }
    destruct Hc as [Hc|[H5 Hc]]; eauto using basic_convert, classes_5g_convert.
  - intros freq c ch. unfold priv_p2p_freq_to_channel, truthy, basic_classes.
    destruct (CONFIG_MTK_P2P_5G flags) eqn:H5; cbn [andb];
      repeat (case_match; try discriminate); intros [= <- <-]; cbn [centre Z.eqb Pos.eqb];
      in_range; (split; [Z.to_euclidean_division_equations; lia|]);
      (split; [|set_solver]); (set_solver || (intros _; Z.to_euclidean_division_equations; lia)).
Qed.

End Channels.

(** ** Frequencies in use *)

(** The elements of [l] at their first occurrence, without those of [seen]. *)
Fixpoint firsts (seen l : list Z) : list Z :=
  match l with
  | [] => []
  | x :: l' => if decide (x ∈ seen) then firsts seen l' else x :: firsts (seen ++ [x]) l'
  end.

Lemma elem_of_firsts l : forall seen x, x ∈ firsts seen l <-> x ∈ l /\ x ∉ seen.
Proof.
  induction l as [|y l IH]; intros seen x; cbn [firsts]; [set_solver|].
  destruct (decide (y ∈ seen)), (decide (x = y)) as [->|];
    rewrite ?elem_of_cons, IH, ?elem_of_app, ?list_elem_of_singleton; tauto.
Qed.

Lemma NoDup_firsts l : forall seen, NoDup (firsts seen l).
Proof.
  induction l as [|y l IH]; intros seen; cbn [firsts]; [constructor|].
  destruct (decide _); [auto|].
  constructor; [|auto]. rewrite elem_of_firsts. set_solver.
Qed.

Lemma find_freq_In f data : find_freq f data = length data <-> f ∉ fst <$> data.
Proof.
  induction data as [|[g b] data IH]; cbn; [set_solver|].
  destruct (Z.eqb_spec g f) as [->|Hne]; [set_solver|].
  rewrite not_elem_of_cons. split; [intros [= E]; set_solver|intros [_ ?]; f_equal; tauto].
Qed.

Lemma add_freq_fst ifs f data :
  fst <$> add_freq ifs f data = if decide (f ∈ fst <$> data) then fst <$> data else (fst <$> data) ++ [f].
Proof.
  unfold add_freq. set (d := if _ : bool then _ else _).
  assert (fst <$> d = if decide (f ∈ fst <$> data) then fst <$> data else (fst <$> data) ++ [f]) as <-.
  { unfold d. destruct (Nat.eqb_spec (find_freq f data) (length data)) as [E|E];
      rewrite find_freq_In in E; case_decide; try tauto. by rewrite fmap_app. }
  destruct (current_ssid ifs) as [ssid|]; [|done]. case_bool_decide; [|done].
  rewrite (list_fmap_alter fst _ (fun x : Z => x)) by (by apply Forall_forall). by apply list_alter_id.
Qed.

(** The loop collects the distinct frequencies, up to the size of the array. *)
Lemma shared_loop_fst ifs len : forall data, (length data <= len)%nat ->
  fst <$> shared_loop ifs len data = take len ((fst <$> data) ++ firsts (fst <$> data) (omap iface_freq ifs)).
Proof.
  induction ifs as [|i ifs IH]; intros data Hl; cbn [shared_loop omap list_omap firsts].
  { rewrite app_nil_r, take_ge by (rewrite length_fmap; lia). done. }
  destruct (Nat.eqb_spec (length data) len) as [E|Hne].
  { rewrite take_app_length' by (by rewrite length_fmap). done. }
  destruct (iface_freq i) as [f|]; [|by apply IH].
  assert (length (add_freq i f data) <= len)%nat as Hla.
  { rewrite <-(length_fmap fst), add_freq_fst. case_decide; [rewrite length_fmap; lia|].
    rewrite length_app, length_fmap. cbn. lia. }
  rewrite IH, add_freq_fst by done. cbn [firsts].
  destruct (decide (f ∈ fst <$> data)); [done|]. by rewrite <-app_assoc.
Qed.

Section Shared.
Context `{World}.

(** mtk_get_shared_radio_freqs.  With the memory it needs, it
    answers with the distinct frequencies that the interfaces of the radio are
    on, in the order of the interfaces, as many as the array holds, and their
    count; the rest of the array is zero. *)
Theorem shared_freqs_distinct (past : list event) (w : wpa_supplicant) (len : nat) :
  let used := omap iface_freq (radio w) in
  let found := take len (firsts [] used) in
  (NoDup found /\ (forall f, f ∈ firsts [] used <-> f ∈ used))
  /\ mtk_get_shared_radio_freqs past w len
     = if calloc_ok past then (Z.of_nat (length found), found ++ replicate (len - length found) 0)
       else (-1, replicate len 0).
Proof.
  intros used found. split; [split|].
  - pose proof (NoDup_firsts used []) as Hn. rewrite <-(take_drop len (firsts [] used)), NoDup_app in Hn.
    unfold found. tauto.
  - intros f. rewrite elem_of_firsts. set_solver.
  - unfold mtk_get_shared_radio_freqs. destruct (calloc_ok past); [|done].
    assert (fst <$> mtk_get_shared_radio_freqs_data w len = found) as E.
    { unfold mtk_get_shared_radio_freqs_data. rewrite shared_loop_fst by (cbn; lia). done. }
    by rewrite <-E, length_fmap.
Qed.

End Shared.

