(* ===== verification/WpaCmd.v ===== *)
(** * WiFi driver: the private commands
      (mediatek_driver_cmd_nl80211.c: wpa_driver_nl80211_driver_cmd and the
      commands it calls)

    [buf] is the caller's buffer, of buf_len bytes; a command leaves its
    returned value and the buffer, or is passed on to the driver's private
    ioctl.  wpa_s is set for the interfaces with a supplicant only: a command
    that uses it on "ap0" is undefined behaviour ([None]). *)

From stdpp Require Import gmap.
From S2P Require Import Prelude Layout CFloat WpaData WpaStats WpaP2p.
#[local] Open Scope Z_scope.

(** ** strtol with base 0 *)

Fixpoint base_digits (b acc n : Z) (s : list Z) : Z * Z :=
  match s with
  | c :: s' =>
      match hex_val c with
      | Some v => if v <? b then base_digits b (acc * b + v) (n + 1) s' else (acc, n)
      | None => (acc, n)
      end
  | [] => (acc, n)
  end.

(** The base by the prefix, and what follows it; [0x] alone is a zero. *)
Definition base_of (s : list Z) : Z * list Z :=
  match s with
  | 48 :: x :: c :: s' =>
      if (tolower x =? 120) && (if hex_val c then true else false) then (16, c :: s') else (8, s)
  | 48 :: _ => (8, s)
  | _ => (10, s)
  end.

(** [None]: nothing was converted, endp is the start. *)
Definition strtol0 (s : list Z) : option Z :=
  let '(neg, s) := match skip_space s with 45 :: s' => (true, s') | 43 :: s' => (false, s') | s' => (false, s') end in
  let '(b, s) := base_of s in
  let '(v, n) := base_digits b 0 0 s in
  if n =? 0 then None else Some (clamp_s32 (if neg : bool then - v else v)).

(** [strchr]: the rest of the string from the first [c] on. *)
Fixpoint strchr (s : list Z) (c : Z) : option (list Z) :=
  match s with
  | [] => None
  | x :: s' => if x =? c then Some s else strchr s' c
  end.

(** [strstr]: the rest of the string from the first occurrence on. *)
Fixpoint strstr (s t : list Z) : option (list Z) :=
  if strncmp_eq s t (length t) then Some s
  else match s with
       | [] => None
       | _ :: s' => strstr s' t
       end.

Definition word_is (cmd : list Z) (word : string) : bool := strncmp_eq cmd (zs word) (String.length word).
Definition iword_is (cmd : list Z) (word : string) : bool := strncasecmp_eq cmd (zs word) (String.length word).
(** [cmd + strlen(word)] *)
Definition arg (cmd : list Z) (word : string) : list Z := drop (String.length word) cmd.

Inductive outcome :=
  | Done (ret : Z) (buf : list Z)
  | PassOn (cmd : list Z).

Definition PRIV_CMD_SIZE : Z := 512.
Definition IFNAMSIZ : nat := 16.
Definition user_force_band : Z := 0.

Section Commands.
Context `{World}.

(** The local wpa_s. *)
Definition wpa_s : CM drv wpa_supplicant :=
  d ← cgets id;
  clift (if bytes_eqb (ifname d) (zs "ap0") then None else supplicant d).

Definition set_wpa_s (w : wpa_supplicant) : CM drv unit := cmodify (fun d => d⟨supplicant := Some w⟩).

(** Run a change of the supplicant's data. *)
Definition on_wpa_s (f : list event -> wpa_supplicant -> option wpa_supplicant) : CM drv unit :=
  w ← wpa_s;
  past ← cgets trace;
  w ← clift (f past w);
  set_wpa_s w.

(** ** Test mode commands *)

Definition wpa_driver_nl80211_driver_sw_cmd (set adr dat : Z) : CM drv Z :=
  _ ← testmode (test_mode_msg NL80211_TESTMODE_SW_CMD sw_cmd_params
                  [Num (if truthy set then 1 else 0); Num adr; Num dat]);
  mret 0.

(** A software command with a fixed value. *)
Definition sw_cmd (adr dat : Z) : CM drv Z :=
  _ ← wpa_driver_nl80211_driver_sw_cmd 1 adr dat; mret 0.

(** A software command with a number as its argument, added to [base]; without
    a number nothing is sent, and -1 returned. *)
Definition sw_cmd_number (adr base : Z) (cp : list Z) : CM drv Z :=
  match cp with
  | [] => mret (-1)
  | _ =>
      match strtol0 cp with
      | None => mret (-1)
      | Some n => _ ← wpa_driver_nl80211_driver_sw_cmd 1 adr (u32 (u32 n + base)); mret 0
      end
  end.

Definition wpa_driver_hotspot_block_list_update (mac : list Z) (blocked : Z) : CM drv Z :=
  testmode (test_mode_msg NL80211_TESTMODE_HS20 hotspot_params [Num (u8 blocked); Raw mac]).

Definition wpa_driver_sta_block (cmd : list Z) : CM drv Z :=
  match hwaddr_aton cmd with
  | None => mret (-1)
  | Some mac => wpa_driver_hotspot_block_list_update mac 1
  end.

Definition wpa_driver_sta_unblock (cmd : list Z) : CM drv Z :=
  match hwaddr_aton cmd with
  | None => mret (-1)
  | Some mac => wpa_driver_hotspot_block_list_update mac 0
  end.

(** ** WAPI *)

Definition IW_ENCODE_SEQ_MAX_SIZE : Z := 8.
Definition IW_ENCODE_EXT_GROUP_KEY : Z := 4.
Definition IW_ENCODE_EXT_SET_TX_KEY : Z := 8.
Definition IW_ENCODE_ALG_SMS4 : Z := 0x20.

(** Offset of a member. *)
Fixpoint offset_from (pack : nat) (l : layout) (name : string) (off : nat) : option nat :=
  match l with
  | [] => None
  | (n, t) :: l' =>
      let o := align_up (calign pack t) off in
      if String.eqb n name then Some o else offset_from pack l' name (o + csize t)
  end.

(** Copy bytes to a member; what is longer than it runs into the next ones. *)
Definition put_member (l : layout) (name : string) (bs params : list Z) : option (list Z) :=
  off ← offset_from 8 (test_mode_info ++ l) name 0;
  buf_write params (Z.of_nat off) bs.

(** Copy [n] bytes from an address, when there is one. *)
Definition copy_in (l : layout) (name : string) (p n : Z) (params : list Z) : option (list Z) :=
  if truthy p && truthy n then bs ← memory p n; put_member l name bs params else Some params.

(** The message with its header only. *)
Definition zeroed (index : Z) (l : layout) : list Z :=
  test_mode_msg index l ((fun m => match snd m with Chars n => Raw (replicate n 0) | _ => Num 0 end) <$> l).

Definition wpa_driver_nl80211_set_wapi_key (address key_idx set_tx seq seq_len key key_len : Z) : CM drv Z :=
  let params := zeroed NL80211_TESTMODE_WAPI wapi_key_params in
  if seq_len >? IW_ENCODE_SEQ_MAX_SIZE * 2 then mret (-1)
  else
    params ← clift (put_member wapi_key_params "key_index" [u8 (key_idx + 1)] params);
    params ← clift (put_member wapi_key_params "key_len" [u8 key_len] params);
    mac ← clift (if truthy address then memory address 6 else Some (replicate 6 0xff));
    let ext_flags := Z.lor (if bytes_eqb mac (replicate 6 0xff) then IW_ENCODE_EXT_GROUP_KEY else 0)
                           (if truthy set_tx then IW_ENCODE_EXT_SET_TX_KEY else 0) in
    params ← clift (put_member wapi_key_params "ext_flags" (le_bytes 4 ext_flags) params);
    params ← clift (put_member wapi_key_params "addr" mac params);
    params ← clift (copy_in wapi_key_params "key" key key_len params);
    params ← clift (if truthy key && truthy key_len
                    then put_member wapi_key_params "ext_key_len" (le_bytes 2 (u16 key_len)) params
                    else Some params);
    params ← clift (put_member wapi_key_params "alg" (le_bytes 2 IW_ENCODE_ALG_SMS4) params);
    params ← clift (copy_in wapi_key_params "tx_seq" seq seq_len params);
    _ ← testmode params;
    mret 0.

Definition wpa_driver_nl80211_send_msg (msg_in_len : Z) : Z := if msg_in_len >? 1024 then -1 else 0.

(** The word at index [i] of the structure that the buffer holds. *)
Definition buf_word (buf : list Z) (i : Z) : option Z := le_val <$> buf_read buf (4 * i) 4.

Definition set_wapi_key (buf : list Z) : CM drv Z :=
  address ← clift (buf_word buf 0); key_idx ← clift (buf_word buf 1); set_tx ← clift (buf_word buf 2);
  seq ← clift (buf_word buf 3); seq_len ← clift (buf_word buf 4);
  key ← clift (buf_word buf 5); key_len ← clift (buf_word buf 6);
  wpa_driver_nl80211_set_wapi_key address (s32 key_idx) (s32 set_tx) seq seq_len key key_len.

Definition wapi_msg_send (buf : list Z) : CM drv Z :=
  msg_in_len ← clift (buf_word buf 1);
  mret (wpa_driver_nl80211_send_msg (s32 msg_in_len)).

(** ** WiFi Display *)

(** The value of a member, cut to its width. *)
Definition wfd_value (buf : list Z) (m : string * ctype) : cval :=
  match snd m with
  | Chars n => Raw (resize n 0 (wfd_bytes (fst m) buf))
  | _ => Num (wfd_num (fst m) buf)
  end.

Definition wfd_before : list string :=
  ["WfdCmdType"; "WfdEnable"; "WfdCoupleSinkStatus"; "WfdDevInfo"; "WfdControlPort"; "WfdMaximumTp";
   "WfdExtendCap"; "WfdCoupleSinkAddress"; "WfdAssociatedBssid"; "WfdVideoIp"; "WfdAudioIp"; "WfdVideoPort";
   "WfdAudioPort"; "WfdFlag"; "WfdPolicy"; "WfdState"; "WfdSessionInformationIELen"]%string.
Definition wfd_after : list string :=
  ["WfdPrimarySinkMac"; "WfdSecondarySinkMac"; "WfdAdvancedFlag"; "WfdSessionAvailable"; "WfdSigmaMode";
   "WfdLocalIp"]%string.

(** The assignments to the members of a list. *)
Fixpoint wfd_assign (buf : list Z) (names : list string) (params : list Z) : option (list Z) :=
  match names with
  | [] => Some params
  | name :: names' =>
      m ← List.find (fun m => String.eqb (fst m) name) wfd_data_params;
      params ← put_member wfd_data_params name (enc_val (snd m) (wfd_value buf m)) params;
      wfd_assign buf names' params
  end.

(** The header tells the size of the supplicant's structure, not of this one.
    The information element is copied before the members behind it are set. *)
Definition wpas_wfd_data_update (buf : list Z) : CM drv Z :=
  let head := le_bytes 4 (hdr_index 2) ++ le_bytes 4 (sizeof_wfd_data_s mod 2 ^ 32) in
  let params := head ++ drop 8 (zeroed 2 wfd_data_params) in
  params ← clift (wfd_assign buf wfd_before params);
  ie ← clift (buf_read (wfd_bytes "WfdSessionInformationIE" buf) 0
                (u16 (wfd_num "WfdSessionInformationIELen" buf)));
  params ← clift (put_member wfd_data_params "WfdSessionInformationIE" ie params);
  params ← clift (wfd_assign buf wfd_after params);
  testmode params.

(** ** Beam *)

Definition beam_msg (index value : Z) : list Z := test_mode_msg index beamplus_params [Num value].

Definition wpas_driver_get_beamplus_go_ready : CM drv Z :=
  '(_, b) ← wpa_driver_nl80211_testmode (beam_msg 0x12 0) (ReadyBuf 0);
  match b with ReadyBuf v => mret v | _ => clift None end.

Definition wpas_driver_set_beamplus (value : Z) : CM drv Z := testmode (beam_msg 0x11 (u32 value)).

(** ** Sigma tests *)

Definition wpas_p2p_sigma_test_mode (index value : Z) : CM drv Z :=
  testmode (test_mode_msg 1 sigma_params [Num index; Num (u32 value)]).

(** Without a blank in its argument the command runs into a null pointer. *)
Definition p2p_ctrl_iface_set_opps (cmd : list Z) : CM drv Z :=
  str ← clift (strchr cmd 32);
  let str := drop 1 str in
  match hwaddr_aton str with
  | None => mret (-1)
  | Some _ => _ ← clift (strchr str 32); _ ← wpas_p2p_sigma_test_mode 107 (atoi cmd); mret 0
  end.

Definition p2p_ctrl_iface_set_power_save (cmd : list Z) : CM drv Z :=
  _ ← wpas_p2p_sigma_test_mode 108 (atoi cmd); mret 0.

Definition p2p_ctrl_iface_set_sleep (cmd : list Z) : CM drv Z :=
  match hwaddr_aton cmd with
  | None => mret (-1)
  | Some _ => _ ← clift (strchr cmd 32); _ ← wpas_p2p_sigma_test_mode 106 0; mret 0
  end.

(** Several channels at the same time, on every interface. *)
Definition set_mcc (mcc : Z) (w : wpa_supplicant) : wpa_supplicant :=
  let on := truthy mcc in
  let set i := GlobalIface (if on then 2 else 0)
                 (if on then Z.lor (drv_flags i) WPA_DRIVER_FLAGS_P2P_CONCURRENT
                  else Z.land (drv_flags i) (Z.lnot WPA_DRIVER_FLAGS_P2P_CONCURRENT)) in
  let w' := w⟨ifaces $= fmap set⟩ in
  match ifaces w, p2p w with
  | _ :: _, Some p => w'⟨p2p := Some (p⟨p2p_cfg $= fmap (fun c => c⟨concurrent_operations := if on then 1 else 0⟩)⟩)⟩
  | _, _ => w'
  end.

(** ** Country code *)

Definition emit (e : event) : CM drv unit := _ ← call e; mret tt.

Definition wpa_driver_mediatek_set_country (alpha2_arg : list Z) : CM drv Z :=
  sock ← call OpenSocket;
  if sock <? 0 then mret (-1)
  else
    name ← cgets first_ifname;
    let ifr_name := if MTK_TC1_FEATURE flags && strncmp_eq name (zs "p2p0") 4 then zs "wlan0"
                    else take (IFNAMSIZ - 1) name in
    let text := zs "COUNTRY " ++ alpha2_arg in
    _ ← clift (buf_write (zeros 11) 0 (text ++ [0]));
    ret ← call (CountryIoctl ifr_name text);
    _ ← emit CloseSocket;
    mret (if ret <? 0 then ret else 0).

Definition wpa_driver_notify_country_change (cmd : list Z) : CM drv unit :=
  if iword_is cmd "COUNTRY" then
    emit (CountryChanged (if Z.of_nat (length cmd) >? 9 then [nth 8 cmd 0; nth 9 cmd 0] else [0; 0]))
  else mret tt.

Definition country (cmd : list Z) : CM drv Z :=
  if negb (Z.of_nat (length cmd) =? 7 + 3) then mret 0
  else
    ret ← wpa_driver_mediatek_set_country (drop 8 cmd);
    _ ← cwhen (ret =? 0) (_ ← wpa_s; wpa_driver_notify_country_change cmd);
    mret ret.

(** ** Interface up and down *)

Definition start : CM drv Z :=
  name ← cgets first_ifname;
  ret ← call (IfaceFlags name true);
  _ ← cwhen (ret =? 0) (emit (StateMessage (zs "CTRL-EVENT-DRIVER-STATE STARTED")));
  mret ret.

Definition stop : CM drv Z :=
  a ← cgets associated;
  _ ← cwhen a (_ ← wpa_s; b ← cgets bssid; emit (Deauthenticate b));
  name ← cgets first_ifname;
  ret ← call (IfaceFlags name false);
  _ ← cwhen (ret =? 0) (emit (StateMessage (zs "CTRL-EVENT-DRIVER-STATE STOPPED")));
  mret ret.

(** ** Channels *)

(** The channel of the station's frequency, if it has one; else the configured. *)
Definition follow_station (signed : bool) (past : list event) (w : wpa_supplicant) : option wpa_supplicant :=
  let '(num, arr) := mtk_get_shared_radio_freqs past w 1 in
  let freq := (if signed then s32 else u32) (nth 0 arr 0) in
  if (num >? 0) && (freq >? 0) then p2p_wfd_sink_config_scc past 1 (u32 freq) w
  else p2p_wfd_sink_config_scc past 0 0 w.

(** Always passed on to the driver, for a given frequency without it. *)
Definition miracast (cmd : list Z) : CM drv outcome :=
  let value := u8 (atoi (arg cmd "MIRACAST ")) in
  if (value =? 0) || (value =? 1) then _ ← on_wpa_s (follow_station false); mret (PassOn cmd)
  else if value =? 2 then
    match strstr cmd (zs " freq=") with
    | Some pos =>
        _ ← on_wpa_s (fun past w => p2p_wfd_sink_config_scc past 1 (u32 (atoi (drop 6 pos))) w);
        mret (PassOn (zs "MIRACAST 2"))
    | None => _ ← on_wpa_s (follow_station false); mret (PassOn cmd)
    end
  else mret (PassOn cmd).

Definition use_mcc (cmd : list Z) : CM drv unit :=
  let value := u8 (atoi (arg cmd "p2p_use_mcc=")) in
  _ ← on_wpa_s (fun past w => p ← p2p w; Some (w⟨p2p := Some (p⟨p2p_use_mcc := value⟩)⟩));
  on_wpa_s (fun past w => if truthy value then p2p_wfd_sink_config_scc past 0 0 w else follow_station true past w).

(** ** The commands in the order of their tests *)

Definition done_with (buf : list Z) (m : CM drv Z) : CM drv outcome := ret ← m; mret (Done ret buf).

(** A text as the answer. *)
Definition answer_text (buf : list Z) (buf_len : Z) (text : list Z) : CM drv outcome :=
  buf ← clift (snprintf buf 0 buf_len text); mret (Done (Z.of_nat (length text)) buf).

(** Software commands of the band selection, while no band is forced. *)
Definition set_band (adr : Z) : CM drv Z :=
  _ ← cwhen (user_force_band =? 0) (_ ← sw_cmd adr 0; mret tt); mret 0.

(** Only the flag is initialised, the rest of the structure is not. *)
Definition set_suspend_mode (cmd : list Z) : CM drv Z :=
  testmode (le_bytes 4 (hdr_index NL80211_TESTMODE_SUSPEND) ++ le_bytes 4 12
            ++ [u8 (nth 15 cmd 0 - 48)] ++ (indeterminate <$> [2; 3; 4]%nat)).

Definition wifi_command (cmd buf : list Z) (buf_len : Z) : CM drv outcome :=
  if iword_is cmd "POWERMODE " then mret (Done (-1) buf)
  else if iword_is cmd "GET_STA_STATISTICS " then
    _ ← wpa_s;
    '(ret, buf) ← wpa_driver_get_sta_statistics (arg cmd "GET_STA_STATISTICS ") buf buf_len;
    mret (Done ret buf)
  else if CONFIG_MTK_POOR_LINK_DETECT flags && iword_is cmd "GET_STA_LINK_DETECT" then
    _ ← wpa_s;
    '(ret, buf) ← wpa_driver_get_sta_link_detect buf buf_len;
    mret (Done ret buf)
  else if word_is cmd "MACADDR" then
    w ← wpa_s; answer_text buf buf_len (zs "Macaddr = " ++ mac_text (own_addr w) ++ [10])
  else if iword_is cmd "COUNTRY" then done_with buf (country cmd)
  else if strcasecmp_eq cmd (zs "start") then done_with buf start
  else if strcasecmp_eq cmd (zs "stop") then done_with buf stop
  else if iword_is cmd "getpower" then mret (Done (-1) buf)
  else if iword_is cmd "get-rts-threshold" then mret (Done (-1) buf)
  else if iword_is cmd "set-rts-threshold" then mret (Done (-1) buf)
  else if iword_is cmd "rxfilter-add" then
    done_with buf (sw_cmd_number 0x9F000000 0x00900200 (arg cmd "rxfilter-add"))
  else if iword_is cmd "rxfilter-remove" then
    done_with buf (sw_cmd_number 0x9F000000 0x00900300 (arg cmd "rxfilter-remove"))
  else if iword_is cmd "rxfilter-stop" then done_with buf (sw_cmd 0x9F000000 0x00900000)
  else if iword_is cmd "rxfilter-start" then done_with buf (sw_cmd 0x9F000000 0x00900100)
  else if strcasecmp_eq cmd (zs "btcoexscan-start") then mret (Done 0 buf)
  else if strcasecmp_eq cmd (zs "btcoexscan-stop") then mret (Done 0 buf)
  else if iword_is cmd "btcoexmode" then mret (Done 0 buf)
  else if iword_is cmd "smt-rate" then done_with buf (sw_cmd_number 0xFFFF0123 0 (arg cmd "smt-rate"))
  else if iword_is cmd "smt-test-on" then done_with buf (sw_cmd 0xFFFF1234 0)
  else if iword_is cmd "smt-test-off" then done_with buf (sw_cmd 0xFFFF1235 0)
  else if CONFIG_HOTSPOT_MGR_SUPPORT flags && word_is cmd "STA-BLOCK " then
    ret ← wpa_driver_sta_block (arg cmd "STA-BLOCK "); mret (Done (if truthy ret then -1 else 0) buf)
  else if CONFIG_HOTSPOT_MGR_SUPPORT flags && word_is cmd "STA-UNBLOCK " then
    ret ← wpa_driver_sta_unblock (arg cmd "STA-UNBLOCK "); mret (Done (if truthy ret then -1 else 0) buf)
  else if CONFIG_WAPI_SUPPORT flags && iword_is cmd "set-wapi-key" then done_with buf (set_wapi_key buf)
  else if CONFIG_WAPI_SUPPORT flags && iword_is cmd "wapi-msg-send" then done_with buf (wapi_msg_send buf)
  else if CONFIG_MTK_WFD_SINK flags && word_is cmd "p2p_get_cap " then
    w ← wpa_s;
    match p2p w with
    | Some p => '(ret, buf) ← clift (p2p_get_capability p (arg cmd "p2p_get_cap ") buf buf_len);
                mret (Done ret buf)
    | None => mret (Done (-1) buf)
    end
  else if CONFIG_MTK_WFD_SINK flags && word_is cmd "p2p_set_cap " then
    w ← wpa_s;
    match p2p w with
    | Some p => let '(ret, p) := p2p_set_capability p (arg cmd "p2p_set_cap ") in
                _ ← set_wpa_s (w⟨p2p := Some p⟩); mret (Done ret buf)
    | None => mret (Done (-1) buf)
    end
  else if CONFIG_MTK_WFD_SINK flags && word_is cmd "MIRACAST " then miracast cmd
  else if CONFIG_MTK_SCC_MCC flags && iword_is cmd "p2p_use_mcc=" then
    _ ← use_mcc cmd; mret (Done (-1) buf)
  else if CONFIG_MTK_P2P_SIGMA flags && iword_is cmd "mcc" then
    w ← wpa_s;
    if drv_priv w then
      match strchr cmd 32 with
      | None => mret (Done (-1) buf)
      | Some value => _ ← set_wpa_s (set_mcc (atoi (drop 1 value)) w); mret (Done 0 buf)
      end
    else mret (Done (-1) buf)
  else if CONFIG_MTK_P2P_SIGMA flags && word_is cmd "p2p_set_opps " then
    _ ← wpa_s; done_with buf (p2p_ctrl_iface_set_opps (arg cmd "p2p_set_opps "))
  else if CONFIG_MTK_P2P_SIGMA flags && word_is cmd "p2p_set_power_save " then
    _ ← wpa_s; done_with buf (p2p_ctrl_iface_set_power_save (arg cmd "p2p_set_power_save "))
  else if CONFIG_MTK_P2P_SIGMA flags && word_is cmd "p2p_set_sleep " then
    _ ← wpa_s; done_with buf (p2p_ctrl_iface_set_sleep (arg cmd "p2p_set_sleep "))
  else if CONFIG_MTK_P2P_SIGMA flags && word_is cmd "p2p_set_sleep" then
    _ ← wpa_s; done_with buf (p2p_ctrl_iface_set_sleep (zs "ff:ff:ff:ff:ff:ff " ++ [34; 34]))
  else if CONFIG_MTK_P2P flags && word_is cmd "wfd_data_update" then
    _ ← wpa_s; done_with buf (wpas_wfd_data_update buf)
  else if CONFIG_MEDIATEK_WIFI_BEAM flags && word_is cmd "get_beamplus_go_ready" then
    _ ← wpa_s;
    v ← wpas_driver_get_beamplus_go_ready;
    buf ← clift (buf_write buf 0 (le_bytes 4 v));
    mret (Done (-1) buf)
  else if CONFIG_MEDIATEK_WIFI_BEAM flags && word_is cmd "set_beamplus" then
    _ ← wpa_s;
    v ← clift (buf_word buf 0);
    _ ← wpas_driver_set_beamplus (s32 v);
    mret (Done (-1) buf)
  else if CONFIG_MTK_STAGE_SCAN flags && iword_is cmd "set_band_dual" then done_with buf (set_band 0xFFFF1250)
  else if CONFIG_MTK_STAGE_SCAN flags && iword_is cmd "set_band_2g4" then done_with buf (set_band 0xFFFF1251)
  else if CONFIG_MTK_STAGE_SCAN flags && iword_is cmd "set_band_5g" then done_with buf (set_band 0xFFFF1252)
  else if CONFIG_MTK_STAGE_SCAN flags && iword_is cmd "set_scan_loading" then
    done_with buf (_ ← sw_cmd 0xFFFF1253 0; _ ← emit CancelTimeout; _ ← emit (RegisterTimeout 10); mret 0)
  else if iword_is cmd "SETSUSPENDMODE " then _ ← set_suspend_mode cmd; mret (PassOn cmd)
  else mret (PassOn cmd).

(** ** Commands for the driver *)

Definition wpa_driver_send_hang_msg : CM drv unit :=
  cmodify (fun d => let n := drv_errors d + 1 in
                    d⟨drv_errors := if n >? DRV_NUMBER_SEQUENTIAL_ERRORS then 0 else n⟩).

(** The structure android_wifi_priv_cmd: text, used and total length.  The
    text and its NUL are copied to its start. *)
Definition priv_cmd_of (cmd : list Z) : option (list Z) :=
  let cmd_len := Z.min (Z.of_nat (length cmd)) PRIV_CMD_SIZE in
  let priv_cmd := zeros (PRIV_CMD_SIZE + 8) in
  text ← buf_read (cmd ++ [0]) 0 (cmd_len + 1);
  priv_cmd ← buf_write priv_cmd 0 text;
  priv_cmd ← buf_write priv_cmd PRIV_CMD_SIZE (le_bytes 4 (cmd_len + 1));
  buf_write priv_cmd (PRIV_CMD_SIZE + 4) (le_bytes 4 PRIV_CMD_SIZE).

Definition private_command (cmd buf : list Z) (buf_len : Z) : CM drv (Z * list Z) :=
  buf ← clift (buf_write buf 0 (zeros buf_len));
  name ← cgets ifname;
  priv_cmd ← clift (priv_cmd_of cmd);
  ret ← call (PrivateIoctl (take IFNAMSIZ name) priv_cmd);
  if ret <? 0 then
    _ ← wpa_driver_send_hang_msg;
    buf ← clift (snprintf buf 0 buf_len (zs "FAIL" ++ [10]));
    mret (5, buf)
  else
    _ ← cmodify (fun d => d⟨drv_errors := 0⟩);
    buf ← clift (snprintf buf 0 buf_len (zs "OK" ++ [10]));
    ret ← clift (if iword_is cmd "WLS_BATCHING" then strlen buf else Some 3);
    mret (ret, buf).

Definition wpa_driver_nl80211_driver_cmd (cmd buf : list Z) (buf_len : Z) : CM drv (Z * list Z) :=
  d ← cgets id;
  if drv_null d || ctx_null d then mret (-1, buf)
  else
    no_conf ← (if bytes_eqb (ifname d) (zs "ap0") then mret false
               else w ← wpa_s; mret (negb (bool_decide (is_Some (conf w)))));
    if (no_conf : bool) then mret (-1, buf)
    else
      o ← wifi_command cmd buf buf_len;
      match o with
      | Done ret buf => mret (ret, buf)
      | PassOn cmd => private_command cmd buf buf_len
      end.

(** ** Functions that do nothing yet *)

Definition wpa_driver_set_p2p_noa : Z := -1.
Definition wpa_driver_get_p2p_noa : Z := -1.
Definition wpa_driver_set_p2p_ps : Z := -1.
Definition wpa_driver_set_ap_wps_p2p_ie : Z := 0.

End Commands.
