(* ===== verification/WpaProps.v ===== *)
(** * WiFi driver: what the private commands do *)

From stdpp Require Import gmap.
From S2P Require Import Prelude Layout CFloat WpaData WpaStats WpaP2p WpaCmd.
#[local] Open Scope Z_scope.

(** ** Words without regard to case *)

Lemma strncmp_eq_fmap (f : Z -> Z) a b n : strncmp_eq a b n = true -> strncmp_eq (f <$> a) (f <$> b) n = true.
Proof. rewrite !strncmp_eq_spec, <-!fmap_take. by intros ->. Qed.

Lemma word_is_iword cmd word : iword_is cmd word = false -> word_is cmd word = false.
Proof.
  unfold iword_is, word_is, strncasecmp_eq. intros Hi. apply not_true_is_false. intros Hw.
  apply (strncmp_eq_fmap tolower) in Hw. by rewrite Hw in Hi.
Qed.

(** ** A driver that takes commands *)

(** Neither the checks for null pointers nor that for the configuration fail. *)
Definition usable (d : drv) : Prop :=
  drv_null d = false /\ ctx_null d = false
  /\ (ifname d = zs "ap0" \/ exists w, supplicant d = Some w /\ is_Some (conf w)).

Section Commands.
Context `{World}.

Lemma run_driver_cmd d cmd buf buf_len : usable d ->
  wpa_driver_nl80211_driver_cmd cmd buf buf_len d
  = (o ← wifi_command cmd buf buf_len;
     match o with
     | Done ret buf => mret (ret, buf)
     | PassOn cmd => private_command cmd buf buf_len
     end) d.
Proof.
  intros (Hd & Hc & Hi). unfold wpa_driver_nl80211_driver_cmd.
  rewrite run_gets. cbn [id]. rewrite Hd, Hc. cbn [orb].
  destruct (bytes_eqb (ifname d) (zs "ap0")) eqn:E; [done|].
  destruct Hi as [Hi|(w & Hw & Hconf)]; [by rewrite Hi in E|].
  assert (wpa_s d = Some (w, d)) as Hrun.
  { unfold wpa_s. rewrite run_gets. cbn [id]. rewrite E, Hw. done. }
  rewrite (run_bind _ _ _ false d); [done|]. rewrite (run_bind _ _ _ _ _ Hrun).
  by rewrite bool_decide_eq_true_2.
Qed.

(** ** Software commands *)

(** Words that take a number, with address and offset; words without. *)
Definition number_commands : list (string * (Z * Z)) :=
  [("rxfilter-add", (0x9F000000, 0x00900200)); ("rxfilter-remove", (0x9F000000, 0x00900300));
   ("smt-rate", (0xFFFF0123, 0))]%string.

Definition fixed_commands : list (string * (Z * Z)) :=
  [("rxfilter-stop", (0x9F000000, 0x00900000)); ("rxfilter-start", (0x9F000000, 0x00900100));
   ("smt-test-on", (0xFFFF1234, 0)); ("smt-test-off", (0xFFFF1235, 0))]%string.

(** A message that sets [dat] at [adr] in the driver. *)
Definition sets (adr dat : Z) (e : event) : Prop :=
  exists data, e = TestMode data
  /\ dec_struct 8 (test_mode_info ++ sw_cmd_params) data
     = Some [("index", Num 0x1000001); ("buflen", Num 20); ("set", Num 1); ("adr", Num adr); ("data", Num dat)]%string.

Lemma sw_cmd_sets d adr dat :
  CONFIG_MTK_TURNKEY_WLAN flags = true -> is_u32 adr -> is_u32 dat ->
  exists e, wpa_driver_nl80211_driver_sw_cmd 1 adr dat d = Some (0, d⟨trace := trace d ++ [e]⟩) /\ sets adr dat e.
Proof.
  intros Hc Ha Hd. set (msg := test_mode_msg NL80211_TESTMODE_SW_CMD sw_cmd_params [Num 1; Num adr; Num dat]).
  exists (TestMode msg). split.
  - unfold wpa_driver_nl80211_driver_sw_cmd, testmode, wpa_driver_nl80211_testmode. rewrite Hc.
    change (if truthy 1 then 1 else 0) with 1. fold msg.
    destruct (msg_index NL80211_TESTMODE_SW_CMD sw_cmd_params [Num 1; Num adr; Num dat]) as (hdr & Hh & Hi); [done|].
    fold msg in Hh. cbv [mbind cm_bind cgets call cmodify clift mret cm_ret]. rewrite Hh. obind. rewrite Hi.
    cbn [Z.eqb NL80211_TESTMODE_SW_CMD Pos.eqb]. by rewrite !andb_false_r.
  - exists msg. split; [done|]. unfold msg, test_mode_msg.
    rewrite <-(app_nil_r (enc_struct _ _ _)), dec_enc_struct; [done|].
    unfold is_u32 in *. cbn [app].
    repeat (apply Forall2_cons; split; [cbn [snd val_ok]; change (2 ^ (8 * Z.of_nat 4)) with (2 ^ 32);
      change (2 ^ (8 * Z.of_nat 1)) with 256; try done; vm_compute; done|]). constructor.
Qed.

(** A command that begins with a word, in any case. *)
Definition says (cmd : list Z) (word : string) (rest : list Z) : Prop :=
  exists w, cmd = w ++ rest /\ (tolower <$> w) = zs word.

Lemma says_iword cmd word rest w : says cmd word rest ->
  iword_is cmd w = strncmp_eq (zs word ++ (tolower <$> rest)) (tolower <$> zs w) (String.length w).
Proof. intros (v & -> & E). unfold iword_is, strncasecmp_eq. by rewrite fmap_app, E. Qed.

Lemma says_icmd cmd word rest s : says cmd word rest ->
  strcasecmp_eq cmd s = bytes_eqb (zs word ++ (tolower <$> rest)) (tolower <$> s).
Proof. intros (v & -> & E). unfold strcasecmp_eq. by rewrite fmap_app, E. Qed.

Lemma says_arg cmd word rest w : says cmd word rest -> length (zs word) = String.length w -> arg cmd w = rest.
Proof.
  intros (v & -> & E) Hl. unfold arg. apply drop_app_length'. by rewrite <-Hl, <-E, length_fmap.
Qed.

Lemma length_zs word : length (zs word) = String.length word.
Proof. unfold zs. rewrite length_fmap. induction word; cbn; auto. Qed.

Lemma says_self cmd word rest : says cmd word rest -> (tolower <$> zs word) = zs word -> iword_is cmd word = true.
Proof.
  intros Hs E. rewrite (says_iword _ _ _ _ Hs), E. apply strncmp_eq_spec.
  rewrite <-length_zs, take_app_length. by rewrite firstn_all.
Qed.

(** Which command a word selects. *)
Ltac dispatch cmd Hs :=
  assert (iword_is cmd "GET_STA_LINK_DETECT" = false) as Hlink by (by rewrite (says_iword _ _ _ _ Hs));
  assert (word_is cmd "MACADDR" = false) as Hmac by (apply word_is_iword; by rewrite (says_iword _ _ _ _ Hs));
  unfold wifi_command; rewrite (says_self _ _ _ Hs eq_refl), Hlink, Hmac, andb_false_r, !(says_iword _ _ _ _ Hs), !(says_icmd _ _ _ _ Hs).

Lemma wifi_number cmd word rest adr base buf buf_len :
  (word, (adr, base)) ∈ number_commands -> says cmd word rest ->
  wifi_command cmd buf buf_len = done_with buf (sw_cmd_number adr base rest).
Proof.
  intros Hw Hs. unfold number_commands in Hw.
  repeat (apply elem_of_cons in Hw as [[= -> -> ->]|Hw]); [..|by apply not_elem_of_nil in Hw].
  - dispatch cmd Hs. by rewrite (says_arg _ _ _ "rxfilter-add" Hs).
  - dispatch cmd Hs. by rewrite (says_arg _ _ _ "rxfilter-remove" Hs).
  - dispatch cmd Hs. by rewrite (says_arg _ _ _ "smt-rate" Hs).
Qed.

Lemma wifi_fixed cmd word rest adr dat buf buf_len :
  (word, (adr, dat)) ∈ fixed_commands -> says cmd word rest ->
  wifi_command cmd buf buf_len = done_with buf (sw_cmd adr dat).
Proof.
  intros Hw Hs. unfold fixed_commands in Hw.
  repeat (apply elem_of_cons in Hw as [[= -> -> ->]|Hw]); [..|by apply not_elem_of_nil in Hw];
    by dispatch cmd Hs.
Qed.

Lemma run_done d cmd buf m ret d' : usable d ->
  wifi_command cmd buf (Z.of_nat (length buf)) = done_with buf m -> m d = Some (ret, d') ->
  wpa_driver_nl80211_driver_cmd cmd buf (Z.of_nat (length buf)) d = Some ((ret, buf), d').
Proof.
  intros Hu Hw Hm. rewrite run_driver_cmd, Hw by done. unfold done_with.
  unfold mbind, cm_bind, mret, cm_ret. by rewrite Hm.
Qed.

(** The commands of the packet filter and the power test.  In
    any spelling of its case, rxfilter-add, rxfilter-remove and smt-rate with a
    number (decimal, octal or hexadecimal) send exactly one test mode message,
    which sets the number plus the command's offset, modulo 2^32, at the
    command's address; without a number they send nothing and fail.  The
    commands without argument send their fixed value. *)
Theorem software_commands (d : drv) (cmd buf : list Z) :
  CONFIG_MTK_TURNKEY_WLAN flags = true -> usable d ->
  let run := wpa_driver_nl80211_driver_cmd cmd buf (Z.of_nat (length buf)) d in
  (forall word adr base rest, (word, (adr, base)) ∈ number_commands -> says cmd word rest ->
     match strtol0 rest with
     | Some n => exists e, run = Some ((0, buf), d⟨trace := trace d ++ [e]⟩) /\ sets adr ((n + base) mod 2 ^ 32) e
     | None => run = Some ((-1, buf), d)
     end)
  /\ (forall word adr dat rest, (word, (adr, dat)) ∈ fixed_commands -> says cmd word rest ->
     exists e, run = Some ((0, buf), d⟨trace := trace d ++ [e]⟩) /\ sets adr dat e).
Proof.
  intros Hc Hu run. split.
  - intros word adr base rest Hw Hs. pose proof (wifi_number _ _ _ _ _ buf (Z.of_nat (length buf)) Hw Hs) as Hcmd.
    destruct (strtol0 rest) as [n|] eqn:Hn.
    2:{ apply (run_done _ _ _ _ _ _ Hu Hcmd). unfold sw_cmd_number. rewrite Hn. by destruct rest. }
    assert (is_u32 adr) as Ha.
    { unfold number_commands in Hw.
      repeat (apply elem_of_cons in Hw as [[= -> -> ->]|Hw]); [..|by apply not_elem_of_nil in Hw]; done. }
    destruct (sw_cmd_sets d adr ((n + base) mod 2 ^ 32) Hc Ha) as (e & He & Hse).
    { unfold is_u32. by apply Z.mod_pos_bound. }
    exists e. split; [|done]. apply (run_done _ _ _ _ _ _ Hu Hcmd).
    assert (sw_cmd_number adr base rest d
      = (_ ← wpa_driver_nl80211_driver_sw_cmd 1 adr ((n + base) mod 2 ^ 32); mret 0) d) as ->.
    { unfold sw_cmd_number. rewrite Hn. unfold uwrap. rewrite Zplus_mod_idemp_l. by destruct rest. }
    by rewrite (run_bind _ _ _ _ _ He).
  - intros word adr dat rest Hw Hs. pose proof (wifi_fixed _ _ _ _ _ buf (Z.of_nat (length buf)) Hw Hs) as Hcmd.
    assert (is_u32 adr /\ is_u32 dat) as [Ha Hd].
    { unfold fixed_commands in Hw.
      repeat (apply elem_of_cons in Hw as [[= -> -> ->]|Hw]); [..|by apply not_elem_of_nil in Hw]; done. }
    destruct (sw_cmd_sets d adr dat Hc Ha Hd) as (e & He & Hse).
    exists e. split; [|done]. apply (run_done _ _ _ _ _ _ Hu Hcmd).
    unfold sw_cmd. by rewrite (run_bind _ _ _ _ _ He).
Qed.

(** ** Commands of the driver itself *)

(** What wpa_driver_nl80211_driver_cmd compares a command with. *)
Definition tests (cmd : list Z) : list bool :=
  [ iword_is cmd "POWERMODE "; iword_is cmd "GET_STA_STATISTICS ";
    CONFIG_MTK_POOR_LINK_DETECT flags && iword_is cmd "GET_STA_LINK_DETECT";
    word_is cmd "MACADDR"; iword_is cmd "COUNTRY"; strcasecmp_eq cmd (zs "start"); strcasecmp_eq cmd (zs "stop");
    iword_is cmd "getpower"; iword_is cmd "get-rts-threshold"; iword_is cmd "set-rts-threshold";
    iword_is cmd "rxfilter-add"; iword_is cmd "rxfilter-remove"; iword_is cmd "rxfilter-stop";
    iword_is cmd "rxfilter-start"; strcasecmp_eq cmd (zs "btcoexscan-start");
    strcasecmp_eq cmd (zs "btcoexscan-stop"); iword_is cmd "btcoexmode"; iword_is cmd "smt-rate";
    iword_is cmd "smt-test-on"; iword_is cmd "smt-test-off";
    CONFIG_HOTSPOT_MGR_SUPPORT flags && word_is cmd "STA-BLOCK ";
    CONFIG_HOTSPOT_MGR_SUPPORT flags && word_is cmd "STA-UNBLOCK ";
    CONFIG_WAPI_SUPPORT flags && iword_is cmd "set-wapi-key";
    CONFIG_WAPI_SUPPORT flags && iword_is cmd "wapi-msg-send";
    CONFIG_MTK_WFD_SINK flags && word_is cmd "p2p_get_cap ";
    CONFIG_MTK_WFD_SINK flags && word_is cmd "p2p_set_cap ";
    CONFIG_MTK_WFD_SINK flags && word_is cmd "MIRACAST ";
    CONFIG_MTK_SCC_MCC flags && iword_is cmd "p2p_use_mcc=";
    CONFIG_MTK_P2P_SIGMA flags && iword_is cmd "mcc";
    CONFIG_MTK_P2P_SIGMA flags && word_is cmd "p2p_set_opps ";
    CONFIG_MTK_P2P_SIGMA flags && word_is cmd "p2p_set_power_save ";
    CONFIG_MTK_P2P_SIGMA flags && word_is cmd "p2p_set_sleep ";
    CONFIG_MTK_P2P_SIGMA flags && word_is cmd "p2p_set_sleep";
    CONFIG_MTK_P2P flags && word_is cmd "wfd_data_update";
    CONFIG_MEDIATEK_WIFI_BEAM flags && word_is cmd "get_beamplus_go_ready";
    CONFIG_MEDIATEK_WIFI_BEAM flags && word_is cmd "set_beamplus";
    CONFIG_MTK_STAGE_SCAN flags && iword_is cmd "set_band_dual";
    CONFIG_MTK_STAGE_SCAN flags && iword_is cmd "set_band_2g4";
    CONFIG_MTK_STAGE_SCAN flags && iword_is cmd "set_band_5g";
    CONFIG_MTK_STAGE_SCAN flags && iword_is cmd "set_scan_loading"; iword_is cmd "SETSUSPENDMODE " ].

Lemma wifi_unknown cmd buf buf_len :
  Forall (fun b => b = false) (tests cmd) -> wifi_command cmd buf buf_len = mret (PassOn cmd).
Proof.
  intros Hf. unfold tests in Hf. rewrite !Forall_cons in Hf. destruct_and! Hf.
  unfold wifi_command.
  repeat match goal with E : ?b = false |- context [if ?b then _ else _] => rewrite E; clear E end.
  done.
Qed.

(** The structure passed to the driver: the command cut at 512 bytes. *)
Lemma priv_cmd_spec cmd :
  priv_cmd_of cmd = Some (take 512 (cmd ++ replicate 512 0)
    ++ le_bytes 4 (Z.min (Z.of_nat (length cmd)) 512 + 1) ++ le_bytes 4 512).
Proof.
  unfold priv_cmd_of, PRIV_CMD_SIZE. set (n := Z.min _ _).
  assert (buf_read (cmd ++ [0]) 0 (n + 1) = Some (take (Z.to_nat (n + 1)) (cmd ++ [0]))) as ->.
  { unfold buf_read. rewrite !(proj2 (Z.leb_le _ _)) by (rewrite ?length_app; cbn; lia). done. }
  obind. set (text := take _ (cmd ++ [0])).
  assert (length text = Z.to_nat (n + 1)) as Ht
    by (unfold text; rewrite length_take, length_app; cbn; lia).
  rewrite buf_write_Some by (unfold zeros; autorewrite with blen; lia). obind.
  set (b1 := take _ (zeros _) ++ _).
  assert (length b1 = 520%nat) as Hb1 by (unfold b1, zeros; autorewrite with blen; lia).
  rewrite buf_write_Some by (autorewrite with blen; lia). obind.
  rewrite buf_write_Some by (autorewrite with blen; lia). f_equal.
  assert (take 512 b1 = take 512 (cmd ++ replicate 512 0)) as E1.
  { unfold b1. change (Z.to_nat 0) with 0%nat. unfold zeros. rewrite drop_replicate, take_0.
    cbn [app Nat.add].
    destruct (decide (length cmd < 512)%nat).
    - assert (text = cmd ++ [0]) as -> by (unfold text; apply take_ge; rewrite length_app; cbn; lia).
      assert (forall k, (512 - length cmd <= k)%nat ->
        take 512 (cmd ++ replicate k 0) = cmd ++ replicate (512 - length cmd) 0) as Hk.
      { intros k Hk. rewrite take_app_ge, take_replicate by lia. do 2 f_equal. lia. }
      assert (forall k, [0] ++ replicate k 0 = replicate (S k) 0) as Hz by done.
      rewrite <-app_assoc, Hz. rewrite !Hk by (rewrite ?length_app; cbn [length]; lia). done.
    - rewrite (take_app_le cmd), (take_app_le text) by lia.
      unfold text. rewrite take_take, take_app_le by lia. f_equal. lia. }
  change (Z.to_nat 512) with 512%nat. change (Z.to_nat (512 + 4)) with 516%nat.
  rewrite E1. set (h := take 512 (cmd ++ _)).
  assert (length h = 512%nat) as Hh by (unfold h; autorewrite with blen; lia).
  rewrite (app_assoc h), (take_app_length' (h ++ le_bytes 4 (n + 1))) by (autorewrite with blen; lia).
  rewrite drop_ge by (autorewrite with blen; lia). by rewrite <-app_assoc, app_nil_r.
Qed.

(** A short text in a zeroed buffer. *)
Lemma snprintf_zeros k text : (length text < k)%nat ->
  snprintf (zeros (Z.of_nat k)) 0 (Z.of_nat k) text = Some (text ++ replicate (k - length text) 0).
Proof.
  intros Hk. pose proof (snprintf_fits (zeros (Z.of_nat k)) 0 text) as E. unfold zeros in *.
  rewrite length_replicate, Nat2Z.id, Z.sub_0_r in E. rewrite Nat2Z.id, E by lia. f_equal.
  change (Z.to_nat 0) with 0%nat. rewrite take_0, drop_replicate. cbn [app Nat.add].
  replace (k - length text)%nat with (S (k - S (length text))) by lia. done.
Qed.

Lemma strlen_zeros s k : no_nul s -> strlen (s ++ replicate (S k) 0) = Some (Z.of_nat (length s)).
Proof. apply (strlen_app s). Qed.

(** The driver's answer as text: OK and 3, or FAIL and 5. *)
Definition driver_answer (ok : bool) : list Z := zs (if ok then "OK" else "FAIL") ++ [10].

(** C24 (error): every command that the library does not know is passed on to the
    driver with its private ioctl, cut at 512 bytes; one of 512 bytes or more
    arrives without its NUL and with a used length of 513 bytes, more than the
    total.  The answer OK or FAIL replaces the buffer, whatever the driver wrote,
    and errors in sequence are counted up to a limit. *)
Theorem unknown_command_passed_on (d : drv) (cmd buf : list Z) :
  usable d -> Forall (fun b => b = false) (tests cmd) -> (6 <= length buf)%nat ->
  let used := Z.min (Z.of_nat (length cmd)) 512 + 1 in
  let e := PrivateIoctl (take 16 (ifname d))
             (take 512 (cmd ++ replicate 512 0) ++ le_bytes 4 used ++ le_bytes 4 512) in
  let ok := 0 <=? answer (trace d) e in
  let text := driver_answer ok in
  let errors := drv_errors d + 1 in
  wpa_driver_nl80211_driver_cmd cmd buf (Z.of_nat (length buf)) d
  = Some ((Z.of_nat (length text), text ++ replicate (length buf - length text) 0),
          d⟨trace := trace d ++ [e]⟩
           ⟨drv_errors := if ok then 0 else if errors >? DRV_NUMBER_SEQUENTIAL_ERRORS then 0 else errors⟩).
Proof.
  intros Hu Hf Hl used e ok text errors. rewrite run_driver_cmd, wifi_unknown by done.
  rewrite (run_bind (mret (PassOn cmd)) _ d (PassOn cmd) d) by done. cbv beta iota.
  unfold private_command.
  assert (buf_write buf 0 (zeros (Z.of_nat (length buf))) = Some (zeros (Z.of_nat (length buf)))) as Hz.
  { unfold zeros. rewrite buf_write_Some by (autorewrite with blen; lia).
    rewrite take_0, drop_ge by (autorewrite with blen; lia). by rewrite app_nil_r. }
  rewrite (run_lift _ _ _ _ Hz), run_gets, (run_lift _ _ _ _ (priv_cmd_spec cmd)). fold used. change IFNAMSIZ with 16%nat.
  fold e. rewrite (run_bind (call e) _ d (answer (trace d) e) (d⟨trace := trace d ++ [e]⟩)) by done.
  assert ((answer (trace d) e <? 0) = negb ok) as -> by (unfold ok; zbool; lia || done).
  unfold text, driver_answer. destruct ok; cbn [negb].
  - rewrite run_modify. rewrite snprintf_zeros by (cbn; lia). rewrite (run_lift _ _ _ _ eq_refl).
    rewrite (run_lift _ _ _ 3); [done|]. destruct (iword_is cmd "WLS_BATCHING"); [|done].
    replace (length buf - _)%nat with (S (length buf - 4)) by (cbn; lia).
    rewrite strlen_zeros; [done|by_decide].
  - unfold wpa_driver_send_hang_msg. rewrite run_modify.
    rewrite snprintf_zeros by (cbn; lia). by rewrite (run_lift _ _ _ _ eq_refl).
Qed.

End Commands.

(** ** On a concrete environment *)

#[local] Existing Instance sample_world.

Lemma sample_usable : usable sample_drv.
Proof. split_and!; [done|done|]. right. eexists. split; [reflexivity|]. by eexists. Qed.

Theorem software_commands_witness :
  exists e, wpa_driver_nl80211_driver_cmd (zs "RXFILTER-add 0x10") (zeros 64) 64 sample_drv
    = Some ((0, zeros 64), sample_drv⟨trace := [e]⟩) /\ sets 0x9F000000 0x00900210 e.
Proof.
  destruct (@software_commands sample_world sample_drv (zs "RXFILTER-add 0x10") (zeros 64) eq_refl sample_usable)
    as [Hn _].
  apply (Hn "rxfilter-add"%string 0x9F000000 0x00900200 (zs " 0x10")); [by left|].
  exists (zs "RXFILTER-add"). split; reflexivity.
Defined.

Theorem unknown_command_passed_on_witness :
  exists e, wpa_driver_nl80211_driver_cmd (zs "SETBAND 1" ++ replicate 600 97) (zeros 6) 6 sample_drv
    = Some ((3, driver_answer true ++ [0; 0; 0]), sample_drv⟨trace := [e]⟩)
  /\ exists text, e = PrivateIoctl (zs "wlan0") (text ++ le_bytes 4 513 ++ le_bytes 4 512) /\ length text = 512%nat.
Proof.
  eexists. split.
  - refine (@unknown_command_passed_on sample_world sample_drv (zs "SETBAND 1" ++ replicate 600 97) (zeros 6)
      sample_usable _ _); [|by_decide].
    apply (bool_decide_unpack _). vm_compute. exact I.
  - eexists. split; [reflexivity|]. vm_compute. reflexivity.
Defined.
