(* ===== verification/Lifecycle.v ===== *)
(** * Setting up and cleaning up the GPS HAL (gps_mtk_aosp.c: mtk_gps_init,
      gps_state_init, the start and the end of gps_state_thread,
      gps_state_done, mtk_gps_cleanup, mtk_gps_epo_interface_init)

    The calls are cut at their waits: what a thread does between two waits is
    one step, and the steps of the framework's thread, the HAL thread and the
    EPO threads interleave.  The kernel answers the n-th system call with
    success or failure; the descriptors it gives are fresh.  Interrupted calls
    are repeated by the code, so an answer is the first that counts. *)

From stdpp Require Import gmap.
From S2P Require Import Prelude HalBuff Calendar EpoTime EpoConf EpoDownload Daemon Hal MnldHandler Session.
#[local] Open Scope Z_scope.

(** The preprocessor flags the code depends on. *)
Class Build := { GPS_AT_COMMAND : bool; EPO_SUPPORT : bool }.

Class Kernel := {
  succeeds : nat -> bool;
  new_fd : list Z -> Z;              (* a descriptor, given those in use *)
  new_fd_fresh l : 0 <= new_fd l /\ new_fd l ∉ l;
}.

(** ** State *)

Record life := MkLife {
  hal : gps;
  gps_fd : Z;                        (* GpsState: fd *)
  epoll_hd : Z;
  control0 : Z;                      (* control[0], control[1] *)
  control1 : Z;
  sockfd : Z;
  sock_codec : Z;
  test_time : Z;
  thread_epo_exit_flag : Z;
  gnss_mode : Z;
  mnld_fd : Z;                       (* of gps_state_thread *)
  opened : list Z;                   (* descriptors of the process *)
  polled : list Z;                   (* registered with epoll *)
  calls : nat;                       (* system calls so far *)
}.

#[export] Instance life_rebuild : Rebuild life := fun r =>
  MkLife (hal r) (gps_fd r) (epoll_hd r) (control0 r) (control1 r) (sockfd r) (sock_codec r)
    (test_time r) (thread_epo_exit_flag r) (gnss_mode r) (mnld_fd r) (opened r) (polled r) (calls r).

(** The static initialisers, in a process that has [others] open. *)
Definition life_boot (others : list Z) : life :=
  MkLife gps_boot 0 0 0 0 0 0 0 0 2 (-1) others [] 0.

Definition on_hal {A} (m : CM gps A) : CM life A := on_part hal (fun g s => s ⟨ hal := g ⟩) m.

Section Code.
Context `{Build} `{Kernel} `{NiHeader} `{DaemonLink}.
Variable GPS_CAPABILITY_SCHEDULING : Z.

(** ** System calls *)

Definition sys_ok : CM life bool :=
  n ← cgets calls;
  _ ← cmodify (fun s => s ⟨ calls := S n ⟩);
  mret (succeeds n).

Definition new_descriptor : CM life Z :=
  fd ← cgets (fun s => new_fd (opened s));
  _ ← cmodify (fun s => s ⟨ opened $= cons fd ⟩);
  mret fd.

(** A call that returns a descriptor, or -1. *)
Definition sys_fd : CM life Z :=
  ok ← sys_ok;
  if (ok : bool) then new_descriptor else mret (-1).

(** socketpair *)
Definition sys_pair : CM life (option (Z * Z)) :=
  ok ← sys_ok;
  if (ok : bool) then
    fd0 ← new_descriptor;
    fd1 ← new_descriptor;
    mret (Some (fd0, fd1))
  else mret None.

Definition without (fd : Z) (l : list Z) : list Z := filter (fun x => x <> fd) l.

Definition close (fd : Z) : CM life unit :=
  cmodify (fun s => s ⟨ opened $= without fd ⟩ ⟨ polled $= without fd ⟩).

(** epoll_register: only descriptors that are open can be watched. *)
Definition epoll_register (fd : Z) : CM life unit :=
  ok ← sys_ok;
  s ← cgets id;
  cwhen (ok && bool_decide (fd ∈ opened s) && bool_decide (epoll_hd s ∈ opened s))
    (cmodify (fun s => s ⟨ polled $= fun l => l ++ [fd] ⟩)).

Definition bind_udp_socket : CM life Z :=
  sockfd ← sys_fd;
  if sockfd <? 0 then mret (-1)
  else
    ok ← sys_ok;
    if (ok : bool) then mret sockfd
    else
      _ ← close sockfd;
      mret (-1).

(** ** gps_state_thread, before its loop and after it *)

(** [false]: it returned without releasing M_INIT. *)
Definition gps_state_thread_start : CM life bool :=
  _ ← cmodify (fun s => s ⟨ test_time $= fun t => t + 1 ⟩);
  fd ← bind_udp_socket;
  _ ← cmodify (fun s => s ⟨ mnld_fd := fd ⟩);
  _ ← cwhen (fd >=? 0) (epoll_register fd);
  let leave := _ ← cwhen (negb (fd =? -1)) (close fd); mret false in
  codec ← sys_fd;
  _ ← cmodify (fun s => s ⟨ sock_codec := codec ⟩);
  if codec <? 0 then leave
  else
    bound ← sys_ok;
    if negb bound then leave
    else
      listens ← sys_ok;
      if negb listens then leave
      else
        _ ← epoll_register codec;
        s ← cgets id;
        _ ← epoll_register (control1 s);
        _ ← epoll_register (gps_fd s);
        _ ← epoll_register (sockfd s);
        _ ← on_hal (release_condition M_INIT);
        mret true.

Definition gps_state_thread_exit : CM life unit :=
  fd ← cgets mnld_fd;
  _ ← cwhen (negb (fd =? -1)) (close fd);
  on_hal (release_condition M_CLEANUP).

(** ** gps_state_init and gps_state_done *)

Inductive state_init := NoDevice | InitFailed | ThreadCreated.

Definition clear_control : CM gps unit := cmodify (fun s => s ⟨ control := [] ⟩).

(** The AT command socket: a failed bind leaves the descriptor open. *)
Definition at_socket : CM life bool :=
  fd ← sys_fd;
  _ ← cmodify (fun s => s ⟨ sockfd := fd ⟩);
  if fd =? -1 then mret false
  else
    ok ← sys_ok;
    if (ok : bool) then mret true
    else
      _ ← cmodify (fun s => s ⟨ sockfd := -1 ⟩);
      mret false.

Definition gps_state_init : CM life state_init :=
  _ ← cmodify (fun s => s ⟨ control0 := -1 ⟩ ⟨ control1 := -1 ⟩);
  fd ← sys_fd;
  _ ← cmodify (fun s => s ⟨ gps_fd := fd ⟩);
  epoll_fd ← sys_fd;
  _ ← cmodify (fun s => s ⟨ epoll_hd := epoll_fd ⟩);
  if fd <? 0 then mret NoDevice
  else
    err ← on_hal mtk_init;
    if truthy err then mret InitFailed
    else
      pair ← sys_pair;
      match pair with
      | None => mret InitFailed
      | Some (c0, c1) =>
          _ ← cmodify (fun s => s ⟨ control0 := c0 ⟩ ⟨ control1 := c1 ⟩);
          _ ← on_hal clear_control;
          at_ok ← (if GPS_AT_COMMAND then at_socket else mret true);
          if negb at_ok then mret InitFailed
          else
            thread ← sys_ok;
            mret (if (thread : bool) then ThreadCreated else InitFailed)
      end.

(** Until its wait for M_CLEANUP. *)
Definition gps_state_done_begin : CM life unit :=
  c0 ← cgets control0;
  cwhen (0 <=? c0) (on_hal (write_control CMD_QUIT)).

Definition gps_state_done_end : CM life unit :=
  s ← cgets id;
  _ ← close (control0 s);
  _ ← close (control1 s);
  _ ← close (gps_fd s);
  _ ← close (sockfd s);
  _ ← close (epoll_hd s);
  _ ← close (sock_codec s);
  _ ← cmodify (fun s => s ⟨ control0 := -1 ⟩ ⟨ control1 := -1 ⟩ ⟨ gps_fd := -1 ⟩ ⟨ sockfd := -1 ⟩
                          ⟨ epoll_hd := -1 ⟩ ⟨ sock_codec := -1 ⟩);
  _ ← on_hal (cmodify (fun g => g ⟨ init := 0 ⟩ ⟨ control := [] ⟩));
  cmodify (fun s => s ⟨ test_time $= fun t => t - 1 ⟩).

(** ** mtk_gps_init, after its wait *)

(** [property_get] is asked until the text has six characters, twenty times at
    most. *)
Fixpoint get_chip_id (get_time : nat) (property : nat -> list Z) (chip_id : list Z) : list Z :=
  match get_time with
  | O => chip_id
  | S n =>
      let chip_id := property n in
      if (length chip_id <? 6)%nat then get_chip_id n property chip_id else chip_id
  end.

Definition gps_only_chips : list (list Z) :=
  zs <$> ["0x6572"; "0x6582"; "0x6580"; "0x6592"; "0x6571"; "0x8127"; "0x0335"; "0x8163"]%string.

(** The first mnl.prop that can be read to its end decides. *)
Fixpoint read_props (mnl_prop_path : list (option (list Z))) (mode : Z) : option Z :=
  match mnl_prop_path with
  | [] => Some mode
  | f :: rest =>
      '(ret, mode) ← read_prop f mode;
      if ret =? 0 then Some mode else read_props rest mode
  end.

Definition set_epo_type (property : nat -> list Z) (mnl_prop_path : list (option (list Z))) : CM life unit :=
  let chip_id := get_chip_id 20 property [] in
  let type := cbool (existsb (bytes_eqb chip_id) gps_only_chips) in
  _ ← on_hal (on_epo (cmodify (fun e => e ⟨ gps_epo_type := type ⟩)));
  cwhen (type =? 0)
    (mode ← cgets gnss_mode;
     mode ← clift (read_props mnl_prop_path mode);
     _ ← cmodify (fun s => s ⟨ gnss_mode := mode ⟩);
     cwhen (negb (mode =? 0) && negb (mode =? 2))
       (on_hal (on_epo (cmodify (fun e => e ⟨ gps_epo_type := 1 ⟩))))).

Definition mtk_gps_init_end (property : nat -> list Z) (mnl_prop_path : list (option (list Z))) : CM life unit :=
  _ ← on_hal (cmodify (fun g => g ⟨ init := 1 ⟩));
  _ ← on_hal (upcall_cb (CbSetCapabilities GPS_CAPABILITY_SCHEDULING));
  cwhen EPO_SUPPORT (set_epo_type property mnl_prop_path).

(** ** mtk_gps_cleanup, between its waits *)

Definition clear_stop : CM gps unit :=
  c ← cgets conditions;
  cwhen (default 0 (c !! M_STOP) =? 1) (cmodify (fun g => g ⟨ conditions $= <[M_STOP := 0]> ⟩)).

Definition cleanup_after_stop : CM life bool :=
  _ ← on_hal clear_stop;
  i ← cgets (fun s => init (hal s));
  _ ← cwhen (truthy i) gps_state_done_begin;
  mret (truthy i).

Definition cleanup_epo : CM life unit :=
  cwhen EPO_SUPPORT (cmodify (fun s => s ⟨ thread_epo_exit_flag := 1 ⟩)).

(** ** Threads *)

(** Where the framework's thread is: [DoneInit] and [DoneCleanup] are the wait
    of gps_state_done, called by gps_state_init and by mtk_gps_cleanup. *)
Inductive place := Idle (result : Z) | InitWait | DoneInit | StopWait | DoneCleanup | EpoWait.
Inductive thread := NoThread | Created | Looping.

Record machine := MkMachine {
  life_state : life;
  framework_at : place;
  hal_at : thread;
  epo_threads : nat;
}.

Definition condition (i : nat) (s : life) : Z := default 0 (conditions (hal s) !! i).

(** get_condition, when it may go on. *)
Definition get_condition (i : nat) : CM gps unit :=
  cmodify (fun g => g ⟨ conditions $= <[i := 0]> ⟩).

(** Where mtk_gps_cleanup goes on: [busy] if gps_state_done was called. *)
Definition after_stop (busy : bool) : place := if busy then DoneCleanup else if EPO_SUPPORT then EpoWait else Idle 0.

Definition run {A} (m : CM life A) (s : life) (x : A) (s' : life) : Prop := m s = Some (x, s').

Inductive lstep : machine -> machine -> Prop :=
  (* mtk_gps_init *)
  | init_again r s h e :
      init (hal s) <> 0 -> lstep (MkMachine s (Idle r) h e) (MkMachine s (Idle 0) h e)
  | init_bad_size r s h e :
      init (hal s) = 0 -> lstep (MkMachine s (Idle r) h e) (MkMachine s (Idle (-1)) h e)
  | init_call r s h e x s' :
      init (hal s) = 0 ->
      run (_ ← on_hal (cmodify (fun g => g ⟨ base_callbacks := true ⟩)); gps_state_init) s x s' ->
      x <> InitFailed ->
      lstep (MkMachine s (Idle r) h e)
        (MkMachine s' InitWait (match x with ThreadCreated => Created | _ => h end) e)
  | init_fails r s h e s' :
      init (hal s) = 0 ->
      run (_ ← on_hal (cmodify (fun g => g ⟨ base_callbacks := true ⟩));
           x ← gps_state_init; _ ← gps_state_done_begin; mret x) s InitFailed s' ->
      lstep (MkMachine s (Idle r) h e) (MkMachine s' DoneInit h e)
  | init_done s h e s' :
      condition M_CLEANUP s <> 0 ->
      run (_ ← on_hal (get_condition M_CLEANUP); gps_state_done_end) s tt s' ->
      lstep (MkMachine s DoneInit h e) (MkMachine s' InitWait h e)
  | init_returns property props s h e s' :
      condition M_INIT s <> 0 ->
      run (_ ← on_hal (get_condition M_INIT); mtk_gps_init_end property props) s tt s' ->
      lstep (MkMachine s InitWait h e) (MkMachine s' (Idle 0) h e)
  (* mtk_gps_cleanup *)
  | cleanup_call r s h e s' :
      start_flag (hal s) <> 0 -> run (on_hal mtk_cleanup) s 0 s' ->
      lstep (MkMachine s (Idle r) h e) (MkMachine s' StopWait h e)
  | cleanup_call_stopped r s h e busy s' :
      start_flag (hal s) = 0 ->
      run (_ ← on_hal mtk_cleanup; b ← cleanup_after_stop; _ ← cwhen (negb b) cleanup_epo; mret b) s busy s' ->
      lstep (MkMachine s (Idle r) h e) (MkMachine s' (after_stop busy) h e)
  | cleanup_stopped s h e busy s' :
      condition M_STOP s <> 0 ->
      run (_ ← on_hal (get_condition M_STOP); b ← cleanup_after_stop; _ ← cwhen (negb b) cleanup_epo; mret b) s busy s' ->
      lstep (MkMachine s StopWait h e) (MkMachine s' (after_stop busy) h e)
  | cleanup_done s h e s' :
      condition M_CLEANUP s <> 0 ->
      run (_ ← on_hal (get_condition M_CLEANUP); _ ← gps_state_done_end; cleanup_epo) s tt s' ->
      lstep (MkMachine s DoneCleanup h e) (MkMachine s' (after_stop false) h e)
  | cleanup_epo_gone s h e s' :
      condition M_THREAD_EXIT s <> 0 -> run (on_hal (get_condition M_THREAD_EXIT)) s tt s' ->
      lstep (MkMachine s EpoWait h e) (MkMachine s' (Idle 0) h e)
  (* a session: what mtk_gps_start and mtk_gps_stop leave (Session.v) *)
  | session_start r s h e s' :
      init (hal s) <> 0 -> start_flag (hal s) <> 1 -> condition M_START s <> 0 ->
      run (on_hal (_ ← get_condition M_START; _ ← gps_state_start; _ ← clear_stop;
                   cmodify (fun g => g ⟨ start_flag := 1 ⟩))) s tt s' ->
      lstep (MkMachine s (Idle r) h e) (MkMachine s' (Idle 0) h e)
  | session_stop r s h e s' :
      init (hal s) <> 0 -> start_flag (hal s) <> 0 -> run (on_hal gps_state_stop) s tt s' ->
      lstep (MkMachine s (Idle r) h e) (MkMachine s' (Idle 0) h e)
  (* the HAL thread *)
  | hal_start s f e ok s' :
      run gps_state_thread_start s ok s' ->
      lstep (MkMachine s f Created e) (MkMachine s' f (if (ok : bool) then Looping else NoThread) e)
  | hal_command s f e c cs s' :
      control1 s ∈ polled s -> control (hal s) = c :: cs -> c <> CMD_QUIT ->
      run (on_hal (_ ← cmodify (fun g => g ⟨ control := cs ⟩); control_command c)) s tt s' ->
      lstep (MkMachine s f Looping e) (MkMachine s' f Looping e)
  | hal_quit s f e cs s' :
      control1 s ∈ polled s -> control (hal s) = CMD_QUIT :: cs ->
      run (_ ← on_hal (cmodify (fun g => g ⟨ control := cs ⟩)); gps_state_thread_exit) s tt s' ->
      lstep (MkMachine s f Looping e) (MkMachine s' f NoThread e)
  | hal_device s f e s' :
      gps_fd s ∈ polled s -> run (on_hal device_data) s tt s' ->
      lstep (MkMachine s f Looping e) (MkMachine s' f Looping e)
  | hal_mnl_die s f e s' :
      mnld_fd s ∈ polled s -> run (on_hal mnl_die) s tt s' ->
      lstep (MkMachine s f Looping e) (MkMachine s' f Looping e)
  | hal_hangup s f e fd s' :          (* EPOLLERR or EPOLLHUP *)
      fd ∈ polled s -> run gps_state_thread_exit s tt s' ->
      lstep (MkMachine s f Looping e) (MkMachine s' f NoThread e)
  (* the EPO threads *)
  | epo_create r s h e s' :
      EPO_SUPPORT = true ->
      run (cmodify (fun s => s ⟨ thread_epo_exit_flag := 0 ⟩)) s tt s' ->
      lstep (MkMachine s (Idle r) h e) (MkMachine s' (Idle 0) h (S e))
  | epo_exit s f h e s' :
      thread_epo_exit_flag s = 1 ->
      run (on_hal (release_condition M_THREAD_EXIT)) s tt s' ->
      lstep (MkMachine s f h (S e)) (MkMachine s' f h e).

Definition booted (others : list Z) : machine := MkMachine (life_boot others) (Idle 0) NoThread 0.
End Code.
