(* ===== verification/LifecycleInv.v ===== *)
(** * Setting up and cleaning up the GPS HAL: the invariant

    Which thread runs where, which conditions are set and which descriptors
    are open, in every reachable state of the machine of Lifecycle.v. *)

From stdpp Require Import gmap.
From S2P Require Import Prelude HalBuff Calendar EpoTime EpoConf EpoDownload Daemon Hal HalProps MnldHandler MnldProps Session Lifecycle.
#[local] Open Scope Z_scope.

(** ** Descriptors *)

(** The descriptors among some fields: -1 stands for none. *)
Definition valid (l : list Z) : list Z := filter (fun x => 0 <= x) l.

(** The open descriptors [o] are exactly [l]. *)
Definition fds (o l : list Z) : Prop := NoDup o /\ Forall (fun x => 0 <= x) o /\ o ≡ₚ l.

Lemma without_notin x l : x ∉ l -> without x l = l.
Proof.
  induction l as [|y l IH]; [done|]. rewrite not_elem_of_cons. intros [Hy Hx].
  unfold without in *. by rewrite filter_cons_True, IH by congruence.
Qed.

Lemma without_cons x l : without x (x :: l) = without x l.
Proof. unfold without. by rewrite filter_cons_False by (intros Hc; by apply Hc). Qed.

#[export] Instance without_perm x : Proper ((≡ₚ) ==> (≡ₚ)) (without x).
Proof. intros l l' Hl. unfold without. by rewrite Hl. Qed.

Lemma valid_cons x l : valid (x :: l) = valid [x] ++ valid l.
Proof. unfold valid. rewrite !filter_cons, filter_nil. by case_decide. Qed.

Lemma valid_one x : 0 <= x -> valid [x] = [x].
Proof. intros. unfold valid. by rewrite filter_cons_True, filter_nil. Qed.

(** Closing a field's descriptor removes it. *)
Lemma fds_without o x l r : fds o (valid (x :: l) ++ r) -> fds (without x o) (valid l ++ r).
Proof.
  intros (Hn & Hp & Ho). unfold fds. split_and!.
  - by apply NoDup_filter.
  - rewrite Forall_forall in Hp |- *. intros y [_ Hy]%list_elem_of_filter. by apply Hp.
  - rewrite valid_cons in Ho. unfold valid at 1 in Ho. rewrite filter_cons, filter_nil in Ho.
    case_decide as Hx; cbn in Ho.
    + assert (x ∉ valid l ++ r) as Hni.
      { rewrite Ho in Hn. by apply NoDup_cons in Hn as [? _]. }
      transitivity (without x (x :: valid l ++ r)); [by apply without_perm|].
      by rewrite without_cons, without_notin.
    + rewrite without_notin; [done|]. intros Hi. rewrite Forall_forall in Hp. specialize (Hp _ Hi). lia.
Qed.

Lemma fds_new o l r x : 0 <= x -> x ∉ o -> fds o (valid l ++ r) -> fds (x :: o) (valid (x :: l) ++ r).
Proof.
  intros Hx Hi (Hn & Hp & Ho). rewrite valid_cons, valid_one by done. split_and!; by constructor.
Qed.

Lemma fds_perm o l l' r : fds o (valid l ++ r) -> l ≡ₚ l' -> fds o (valid l' ++ r).
Proof. intros (Hn & Hp & Ho) Hl. split_and!; [done..|]. unfold valid. by rewrite <-Hl. Qed.

Lemma fds_none o l r : fds o (valid l ++ r) -> fds o (valid (-1 :: l) ++ r).
Proof. done. Qed.

(** Two lists of the same variables. *)
Ltac position x l :=
  lazymatch l with
  | x :: ?t => constr:((@nil Z, t))
  | ?y :: ?t => let r := position x t in lazymatch r with (?p, ?q) => constr:((y :: p, q)) end
  end.

Ltac same_elements :=
  lazymatch goal with
  | |- ?x :: ?l ≡ₚ ?l' =>
      let r := position x l' in
      lazymatch r with
      | (?p, ?q) => change l' with (p ++ x :: q); apply Permutation_cons_app; cbn [app]; same_elements
      end
  | |- _ => reflexivity
  end.

(** ** The part of the state that the waits depend on *)

Definition view (g : gps) : Z * nat * option Z * option Z :=
  (init g, length (conditions g), conditions g !! M_INIT, conditions g !! M_CLEANUP).

Definition view_control (g : gps) : Z * nat * option Z * option Z * list Z := (view g, control g).

Section Specs.
Context `{Build} `{Kernel} `{NiHeader} `{DaemonLink}.

Lemma keep_command c : preserves view_control (control_command c).
Proof. unfold control_command, on_epo. preserves. Qed.

Lemma keep_release i : i <> M_INIT -> i <> M_CLEANUP -> preserves view_control (release_condition i).
Proof.
  intros H3 H4. apply preserves_modify. intros s. unfold view_control, view. cbn.
  by rewrite length_insert, !list_lookup_insert_ne by done.
Qed.

Lemma keep_device : preserves view_control device_data.
Proof. unfold device_data. pose proof (keep_release M_START). preserves. Qed.

Lemma keep_mnl_die : preserves view_control mnl_die.
Proof.
  unfold mnl_die, report_status, call_back, upcall_cb. pose proof (keep_release M_STOP). preserves.
Qed.

Lemma keep_get_condition i : i <> M_INIT -> i <> M_CLEANUP -> preserves view (get_condition i).
Proof.
  intros H3 H4. apply preserves_modify. intros s. unfold view. cbn.
  by rewrite length_insert, !list_lookup_insert_ne by done.
Qed.

Lemma keep_clear_stop : preserves view clear_stop.
Proof.
  unfold clear_stop. preserves. apply preserves_modify. intros s. unfold view. cbn.
  by rewrite length_insert, !list_lookup_insert_ne by done.
Qed.

Lemma keep_session_start :
  preserves view (_ ← get_condition M_START; _ ← gps_state_start; _ ← clear_stop;
                  cmodify (fun g => g ⟨ start_flag := 1 ⟩)).
Proof.
  unfold gps_state_start, write_control. pose proof keep_clear_stop.
  apply preserves_bind; [by apply keep_get_condition|intros _]. preserves.
Qed.

Lemma keep_session_stop : preserves view gps_state_stop.
Proof. unfold gps_state_stop, write_control. preserves. Qed.

Lemma preserves_fst {A} (m : CM gps A) : preserves view_control m -> preserves view m.
Proof. intros Hm g x g' E. exact (f_equal fst (Hm _ _ _ E)). Qed.

(** [m] on the HAL's globals leaves everything else alone. *)
Lemma run_on_hal {A} (m : CM gps A) s x s' :
  run (on_hal m) s x s' -> exists g, m (hal s) = Some (x, g) /\ s' = s ⟨ hal := g ⟩.
Proof.
  unfold run, on_hal, on_part. cbn. destruct (m (hal s)) as [[y g]|]; [|done].
  intros [= <- <-]. by exists g.
Qed.

Lemma wp_sys_ok Q s :
  (forall ok, Q ok (s ⟨ calls $= S ⟩)) -> wp sys_ok Q s.
Proof. intros HQ. unfold sys_ok. wps. apply HQ. Qed.

(** A new descriptor, or none. *)
Lemma wp_sys_fd l r (Q : Z -> life -> Prop) s :
  fds (opened s) (valid l ++ r) ->
  (forall fd o, fds o (valid (fd :: l) ++ r) -> fd = -1 \/ 0 <= fd ->
    Q fd (s ⟨ opened := o ⟩ ⟨ calls $= S ⟩)) ->
  wp sys_fd Q s.
Proof.
  intros Hl HQ. unfold sys_fd, new_descriptor. apply wp_bind, wp_sys_ok. intros [].
  - wps. destruct (new_fd_fresh (opened s)) as [Hge Hf].
    apply (HQ (new_fd (opened s)) (new_fd (opened s) :: opened s)); [by apply fds_new|by right].
  - wps. apply (HQ (-1) (opened s)); [done|by left].
Qed.

Lemma wp_sys_pair l r (Q : option (Z * Z) -> life -> Prop) s :
  fds (opened s) (valid l ++ r) ->
  (forall p o, match p with
               | Some (fd0, fd1) => fds o (valid (fd0 :: fd1 :: l) ++ r) /\ 0 <= fd0 /\ 0 <= fd1
               | None => fds o (valid l ++ r)
               end -> Q p (s ⟨ opened := o ⟩ ⟨ calls $= S ⟩)) ->
  wp sys_pair Q s.
Proof.
  intros Hl HQ. unfold sys_pair, new_descriptor. apply wp_bind, wp_sys_ok. intros [].
  - wps. destruct (new_fd_fresh (opened s)) as [Hg0 Hn0].
    destruct (new_fd_fresh (new_fd (opened s) :: opened s)) as [Hg1 Hn1].
    apply (HQ (Some (_, _)) (_ :: _ :: opened s)). split; [|done].
    eapply fds_perm; [by do 2 (apply fds_new; [done..|])|apply perm_swap].
  - wps. by apply (HQ None (opened s)).
Qed.
End Specs.

(** ** The invariant *)

Section Invariant.
Context `{Build} `{Kernel} `{NiHeader} `{DaemonLink}.
Variables (cap : Z) (others : list Z).

(** Without the AT command socket [sockfd] is 0 at first, and gps_state_done
    closes it: a descriptor of the process that is not the HAL's. *)
Definition rest : list Z := if GPS_AT_COMMAND then others else without 0 others.

(** The descriptors the HAL has between its set-up and its clean-up. *)
Definition fields (s : life) : list Z :=
  [control0 s; control1 s; gps_fd s; sockfd s; epoll_hd s; sock_codec s].

Definition down (s : life) : Prop :=
  fds (opened s) (valid (if GPS_AT_COMMAND then [] else [sockfd s]) ++ rest)
  /\ (GPS_AT_COMMAND = false -> sockfd s = 0 \/ sockfd s = -1).
Definition created (s : life) : Prop :=
  fds (opened s) (valid [control0 s; control1 s; gps_fd s; sockfd s; epoll_hd s] ++ rest) /\ 0 <= control0 s.
Definition up (s : life) : Prop :=
  fds (opened s) (valid (mnld_fd s :: fields s) ++ rest) /\ 0 <= control0 s.
Definition gone (s : life) : Prop := fds (opened s) (valid (fields s) ++ rest) /\ 0 <= control0 s.

Definition flags (s : life) (i m_init m_cleanup : Z) : Prop :=
  view (hal s) = (i, 6%nat, Some m_init, Some m_cleanup).

(** No HAL thread; a thread that has not run yet; one in its loop; one that
    has ended and said so.  [m] is the state of M_INIT. *)
Definition no_thread (i : Z) (s : life) (h : thread) : Prop := h = NoThread /\ down s /\ flags s i 0 0.
Definition new_thread (s : life) (h : thread) : Prop := h = Created /\ created s /\ flags s 0 0 0.
Definition looping (i m : Z) (s : life) (h : thread) : Prop := h = Looping /\ up s /\ flags s i m 0.
Definition ended (i m : Z) (s : life) (h : thread) : Prop := h = NoThread /\ gone s /\ flags s i m 1.
(** The framework waits for what nobody will do. *)
Definition stuck (s : life) (h : thread) : Prop := h = NoThread /\ flags s 0 0 0.

Definition consistent (m : machine) : Prop :=
  let s := life_state m in let h := hal_at m in
  match framework_at m with
  | Idle _ | StopWait => no_thread 0 s h \/ looping 1 0 s h \/ ended 1 0 s h
  | InitWait => new_thread s h \/ looping 0 1 s h \/ ended 0 1 s h \/ stuck s h
  | DoneInit => stuck s h
  | DoneCleanup => (looping 1 0 s h /\ CMD_QUIT ∈ control (hal s)) \/ ended 1 0 s h
  | EpoWait => no_thread 0 s h /\ thread_epo_exit_flag s = 1
  end.

Lemma mtk_init_view g : exists x g', mtk_init g = Some (x, g') /\ view_control g' = view_control g.
Proof. by do 2 eexists. Qed.

Ltac at_mode Ho := match goal with E : GPS_AT_COMMAND = _ |- _ => rewrite E in Ho end.

(** gps_state_init: the HAL's flags stay; if the thread was created, the
    descriptors are there. *)
Lemma wp_gps_state_init i a b s :
  down s -> flags s i a b ->
  wp gps_state_init (fun x s' => flags s' i a b /\ (x = ThreadCreated -> created s')) s.
Proof.
  intros [Hd _] Hf. unfold gps_state_init, on_hal, at_socket, clear_control. wps.
  eapply wp_sys_fd; [exact Hd|]. intros fd o1 Ho1 Hfd. wps.
  eapply wp_sys_fd; [exact Ho1|]. intros ep o2 Ho2 Hep. wps; [done|].
  destruct (mtk_init_view (hal s)) as (x & g & E & Hv). eapply wp_eq; [exact E|].
  assert (view g = (i, 6%nat, Some a, Some b)) as Hg by exact (eq_trans (f_equal fst Hv) Hf).
  wps; [done|].
  eapply wp_sys_pair; [exact Ho2|]. intros [[c0 c1]|] o3 Ho3; wps; try done.
  - eapply wp_sys_fd; [exact (proj1 Ho3)|]. intros at_fd o4 Ho4 Hat. wps; try done.
    apply wp_sys_ok. intros bound. wps; try done.
    apply wp_sys_ok. intros thread. wps. split; [done|]. intros _. split; [|apply Ho3].
    at_mode Ho4. refine (fds_perm _ _ [c0; c1; fd; at_fd; ep] _ Ho4 _). same_elements.
  - apply wp_sys_ok. intros thread. wps. split; [done|]. intros _. split; [|apply Ho3].
    destruct Ho3 as [Ho3 _]. at_mode Ho3. refine (fds_perm _ _ [c0; c1; fd; sockfd s; ep] _ Ho3 _). same_elements.
Qed.

Lemma wp_epoll_register fd (Q : unit -> life -> Prop) s :
  (forall p n, Q tt (s ⟨ polled := p ⟩ ⟨ calls := n ⟩)) -> wp (epoll_register fd) Q s.
Proof.
  intros HQ. unfold epoll_register. apply wp_bind, wp_sys_ok. intros ok. wps; [apply HQ|].
  exact (HQ (polled s) (S (calls s))).
Qed.

Lemma wp_epoll_when b fd (Q : unit -> life -> Prop) s :
  (forall p n, Q tt (s ⟨ polled := p ⟩ ⟨ calls := n ⟩)) -> wp (cwhen b (epoll_register fd)) Q s.
Proof. intros HQ. destruct b; [by apply wp_epoll_register|]. destruct s. exact (HQ _ _). Qed.

(** bind_udp_socket: a failed bind closes the descriptor again. *)
Lemma wp_bind_udp_socket l r (Q : Z -> life -> Prop) s :
  fds (opened s) (valid l ++ r) ->
  (forall fd o p n, fds o (valid (fd :: l) ++ r) -> Q fd (s ⟨ opened := o ⟩ ⟨ polled := p ⟩ ⟨ calls := n ⟩)) ->
  wp bind_udp_socket Q s.
Proof.
  intros Hl HQ. unfold bind_udp_socket, close. apply wp_bind.
  eapply wp_sys_fd; [exact Hl|]. intros fd o Ho Hfd. wps.
  - destruct Hfd as [->|?]; [|lia]. by apply (HQ (-1) o (polled s)).
  - apply wp_sys_ok. intros ok. wps; [by apply (HQ fd o (polled s))|].
    apply (HQ (-1) (without fd o)). apply fds_none. by apply fds_without in Ho.
Qed.

Lemma set_init g i a b v :
  view g = (i, 6%nat, a, b) ->
  view (g ⟨ conditions $= <[M_INIT := v]> ⟩) = (i, 6%nat, Some v, b).
Proof.
  unfold view. intros [= Hi Hl Ha Hb]. cbn.
  rewrite length_insert, list_lookup_insert_eq by (rewrite Hl; unfold M_INIT; lia).
  by rewrite list_lookup_insert_ne, Hi, Hl, Hb by done.
Qed.

Lemma set_cleanup g i a b v :
  view g = (i, 6%nat, a, b) ->
  view (g ⟨ conditions $= <[M_CLEANUP := v]> ⟩) = (i, 6%nat, a, Some v).
Proof.
  unfold view. intros [= Hi Hl Ha Hb]. cbn.
  rewrite length_insert, (list_lookup_insert_eq _ M_CLEANUP) by (rewrite Hl; unfold M_CLEANUP; lia).
  by rewrite list_lookup_insert_ne, Hi, Hl, Ha by done.
Qed.

(** The HAL thread's start: it is in its loop with all its descriptors and
    M_INIT released, or has returned with M_INIT as it was. *)
Lemma wp_thread_start s :
  created s -> flags s 0 0 0 ->
  wp gps_state_thread_start (fun ok s' => if (ok : bool) then up s' /\ flags s' 0 1 0 else flags s' 0 0 0) s.
Proof.
  intros [Hc H0c] Hf. unfold gps_state_thread_start, close, on_hal, release_condition. apply wp_bind.
  wps. eapply wp_bind_udp_socket; [exact Hc|]. intros fd o p n Ho. apply wp_bind, wp_modify, wp_bind.
  apply wp_epoll_when. intros p1 n1. cbv beta zeta. apply wp_bind.
  eapply wp_sys_fd; [exact Ho|]. intros codec o2 Ho2 Hcodec. wps; try done.
  apply wp_sys_ok. intros bound. wps; try done.
  apply wp_sys_ok. intros listens. wps; try done.
  apply wp_epoll_register. intros p2 n2. wps.
  apply wp_epoll_register. intros p3 n3. wps.
  apply wp_epoll_register. intros p4 n4. wps.
  apply wp_epoll_register. intros p5 n5. wps.
  split; [split; [|done]|exact (set_init _ _ _ _ 1 Hf)].
  refine (fds_perm _ _ [fd; control0 s; control1 s; gps_fd s; sockfd s; epoll_hd s; codec] _ Ho2 _).
  same_elements.
Qed.

Lemma wp_thread_exit i m s :
  up s -> flags s i m 0 -> wp gps_state_thread_exit (fun _ s' => gone s' /\ flags s' i m 1) s.
Proof.
  intros [Hu H0c] Hf. unfold gps_state_thread_exit, close, on_hal, release_condition. wps.
  - split; [|exact (set_cleanup _ _ _ _ 1 Hf)]. split; [|done]. by apply fds_without in Hu.
  - split; [|exact (set_cleanup _ _ _ _ 1 Hf)]. split; [|done].
    assert (mnld_fd s = -1) as E by (destruct (Z.eqb_spec (mnld_fd s) (-1)); [done|discriminate]).
    rewrite E in Hu. exact Hu.
Qed.

Lemma wp_done_end i a b s :
  gone s -> flags s i a b ->
  wp gps_state_done_end (fun _ s' => down s' /\ flags s' 0 a b) s.
Proof.
  intros [Hg _] Hf. unfold gps_state_done_end, close, on_hal. wps. split.
  - do 6 apply fds_without in Hg. split; [by destruct GPS_AT_COMMAND|by right].
  - unfold flags, view in *. cbn. by injection Hf as _ -> -> ->.
Qed.

Lemma wp_done_begin i a b s :
  flags s i a b -> 0 <= control0 s ->
  wp gps_state_done_begin (fun _ s' => flags s' i a b /\ CMD_QUIT ∈ control (hal s')
    /\ exists g, s' = s ⟨ hal := g ⟩) s.
Proof.
  intros Hf Hc. unfold gps_state_done_begin, on_hal, write_control. wps; [|lia].
  split; [done|]. split; [|by eexists]. cbn. rewrite elem_of_app. right. by left.
Qed.

(** ** Every step keeps it *)

(** What the waits and the descriptors depend on. *)
Definition stable (s : life) : Z * nat * option Z * option Z * list Z * Z * list Z :=
  (view (hal s), fields s, mnld_fd s, opened s).

Lemma stable_on_hal {A} (m : CM gps A) : preserves view m -> preserves stable (on_hal m).
Proof.
  intros Hm s x s'. unfold on_hal, on_part. destruct (m (hal s)) as [[y g]|] eqn:E; [|done]. cbn.
  intros [= _ <-]. unfold stable. cbn. by rewrite (Hm _ _ _ E).
Qed.

Lemma phases_same s s' h :
  stable s' = stable s -> (forall i, no_thread i s h -> no_thread i s' h)
  /\ (forall i m, looping i m s h -> looping i m s' h)
  /\ (forall i m, ended i m s h -> ended i m s' h)
  /\ (new_thread s h -> new_thread s' h) /\ (stuck s h -> stuck s' h).
Proof.
  unfold stable, fields. intros Hs. injection Hs as H1' H2' H3' H4' H5' H6' H7' H8' H9' H10' H11' H12'.
  unfold no_thread, looping, ended, new_thread, stuck, down, up, gone, created, fields, flags, view.
  rewrite H1', H2', H3', H4', H5', H6', H7', H8', H9', H10', H11', H12'. done.
Qed.

Lemma same_consistent s s' f h e e' :
  stable s' = stable s -> (control (hal s') = control (hal s) \/ f <> DoneCleanup) ->
  (thread_epo_exit_flag s' = thread_epo_exit_flag s \/ f <> EpoWait) ->
  consistent (MkMachine s f h e) -> consistent (MkMachine s' f h e').
Proof.
  intros Hs Hc Hx. destruct (phases_same s s' h Hs) as (H1' & H2' & H3' & H4' & H5').
  unfold consistent. cbn. destruct f.
  - intros [?|[?|?]]; [left|right; left|right; right]; auto.
  - intros [?|[?|[?|?]]]; [left|right; left|right; right; left|right; right; right]; auto.
  - auto.
  - intros [?|[?|?]]; [left|right; left|right; right]; auto.
  - intros [[Hl Hq]|?]; [left; split; [by apply H2'|]|right; auto]. destruct Hc as [-> |]; done.
  - intros [Hd He]; split; [by apply H1'|]. destruct Hx as [-> |]; done.
Qed.

Lemma wp_run {A} (m : CM life A) (Q : A -> life -> Prop) s x s' : wp m Q s -> run m s x s' -> Q x s'.
Proof. unfold wp, run. intros Hw E. by rewrite E in Hw. Qed.

Lemma run_bind_inv {A B} (m : CM life A) (k : A -> CM life B) s x s' :
  run (y ← m; k y) s x s' -> exists y s1, run m s y s1 /\ run (k y) s1 x s'.
Proof. unfold run, mbind, cm_bind. destruct (m s) as [[y s1]|]; [|done]. by exists y, s1. Qed.

(** The places where no thread runs, or runs with [init] set. *)
Definition settled (s : life) (h : thread) : Prop :=
  no_thread 0 s h \/ looping 1 0 s h \/ ended 1 0 s h.

Lemma same_settled s s' h : stable s' = stable s -> settled s h -> settled s' h.
Proof.
  intros Hs. destruct (phases_same _ _ h Hs) as (Hn & Hl & He & _).
  intros [?|[?|?]]; [left|right; left|right; right]; auto.
Qed.

Lemma settled_init s h : settled s h -> init (hal s) = 0 -> no_thread 0 s h.
Proof.
  intros [?|[(_ & _ & Hf)|(_ & _ & Hf)]] Hi; [done|..]; unfold flags, view in Hf; congruence.
Qed.

Lemma settled_busy s h : settled s h -> init (hal s) <> 0 -> looping 1 0 s h \/ ended 1 0 s h.
Proof.
  intros [(_ & _ & Hf)|?] Hi; [|done]. unfold flags, view in Hf. congruence.
Qed.

Lemma run_init_call s x s' :
  down s -> flags s 0 0 0 ->
  run (_ ← on_hal (cmodify (fun g => g ⟨ base_callbacks := true ⟩)); gps_state_init) s x s' ->
  flags s' 0 0 0 /\ (x = ThreadCreated -> created s').
Proof.
  intros Hd Hf. apply (wp_run _ (fun x s' => flags s' 0 0 0 /\ (x = ThreadCreated -> created s'))).
  unfold on_hal. wps. by apply wp_gps_state_init.
Qed.

Lemma run_init_fails s x s' :
  down s -> flags s 0 0 0 ->
  run (_ ← on_hal (cmodify (fun g => g ⟨ base_callbacks := true ⟩));
       x ← gps_state_init; _ ← gps_state_done_begin; mret x) s x s' ->
  flags s' 0 0 0.
Proof.
  intros Hd Hf (y & s1 & H1' & (z & s2 & H2' & (u & s3 & H3' & [= <- <-])%run_bind_inv)%run_bind_inv)%run_bind_inv.
  apply run_on_hal in H1' as (g & [= _ <-] & ->).
  match type of H2' with run _ ?s1 _ _ => pose proof (wp_gps_state_init 0 0 0 s1 Hd Hf) as Hw end.
  destruct (wp_run _ _ _ _ _ Hw H2') as [Hf2 _].
  refine (wp_run _ (fun _ s => flags s 0 0 0) _ _ _ _ H3').
  unfold gps_state_done_begin, on_hal, write_control. by wps.
Qed.

Lemma stable_set_epo_type property props : preserves stable (set_epo_type property props).
Proof.
  unfold set_epo_type. repeat first [apply stable_on_hal, preserves_on_part; reflexivity | progress preserves].
Qed.

Lemma stable_clear_stop : preserves stable (on_hal clear_stop).
Proof. apply stable_on_hal, keep_clear_stop. Qed.

Lemma stable_cleanup_epo : preserves stable cleanup_epo.
Proof. unfold cleanup_epo. preserves. Qed.

Lemma stable_mtk_cleanup : preserves stable (on_hal mtk_cleanup).
Proof. apply stable_on_hal. by intros g x g' [= _ <-]. Qed.

(** mtk_gps_init goes on. *)
Lemma run_init_end property props s h s' :
  run (_ ← on_hal (get_condition M_INIT); mtk_gps_init_end cap property props) s tt s' ->
  (looping 0 1 s h -> looping 1 0 s' h) /\ (ended 0 1 s h -> ended 1 0 s' h).
Proof.
  intros ([] & s1 & H1' & ([] & s2 & H2' & ([] & s3 & H3' & Hr)%run_bind_inv)%run_bind_inv)%run_bind_inv.
  apply run_on_hal in H1' as (g1 & [= <-] & ->).
  apply run_on_hal in H2' as (g2 & [= <-] & ->).
  apply run_on_hal in H3' as (g3 & [= <-] & ->).
  assert (preserves stable (cwhen EPO_SUPPORT (set_epo_type property props))) as Hp
    by (apply preserves_when, stable_set_epo_type).
  destruct (phases_same _ _ h (Hp _ _ _ Hr)) as (_ & Hl & He & _).
  split; intros (Hh & Hu & Hf).
  - apply Hl. split; [done|]. split; [exact Hu|].
    pose proof (set_init _ _ _ _ 0 Hf) as Hv. unfold flags, view in *. cbn in *. injection Hv. congruence.
  - apply He. split; [done|]. split; [exact Hu|].
    pose proof (set_init _ _ _ _ 0 Hf) as Hv. unfold flags, view in *. cbn in *. injection Hv. congruence.
Qed.

(** mtk_gps_cleanup goes on after a session. *)
Lemma run_after_stop s h e busy s' :
  settled s h ->
  run (b ← cleanup_after_stop; _ ← cwhen (negb b) cleanup_epo; mret b) s busy s' ->
  consistent (MkMachine s' (after_stop busy) h e).
Proof.
  intros Hs (b & s1 & H1' & Hr)%run_bind_inv.
  apply run_bind_inv in H1' as ([] & s2 & H2' & (i & s3 & [= <- <-] & H3')%run_bind_inv).
  apply stable_clear_stop in H2'. pose proof (same_settled _ _ _ H2' Hs) as Hs2. clear Hs H2'.
  apply run_bind_inv in H3' as ([] & s3 & H3' & [= <- <-]).
  apply run_bind_inv in Hr as ([] & s4 & Hr & [= <- <-]).
  destruct (Z.eq_dec (init (hal s2)) 0) as [E|E].
  - rewrite E in *. injection H3' as <-. pose proof (settled_init _ _ Hs2 E) as Hn.
    pose proof Hr as Hx. apply stable_cleanup_epo in Hr.
    destruct (phases_same _ _ h Hr) as (Hn' & _). apply Hn' in Hn.
    unfold after_stop, consistent. cbn.
    unfold cleanup_epo, cwhen in Hx. destruct EPO_SUPPORT; [|by left]. split; [done|]. by injection Hx as <-.
  - assert (truthy (init (hal s2)) = true) as Et by (unfold truthy; by rewrite (proj2 (Z.eqb_neq _ _))).
    rewrite Et in *. injection Hr as <-. unfold after_stop, consistent. cbn.
    pose proof (settled_busy _ _ Hs2 E) as Hb.
    destruct Hb as [(Hh & [Hu Hc] & Hf)|(Hh & [Hu Hc] & Hf)];
      destruct (wp_run _ _ _ _ _ (wp_done_begin _ _ _ _ Hf Hc) H3') as (Hf' & Hq & g & ->); [left|right].
    + exact (conj (conj Hh (conj (conj Hu Hc) Hf')) Hq).
    + exact (conj Hh (conj (conj Hu Hc) Hf')).
Qed.

(** gps_state_done goes on, called by mtk_gps_cleanup. *)
Lemma run_cleanup_done s h s' :
  ended 1 0 s h ->
  run (_ ← on_hal (get_condition M_CLEANUP); _ ← gps_state_done_end; cleanup_epo) s tt s' ->
  no_thread 0 s' h /\ (EPO_SUPPORT = true -> thread_epo_exit_flag s' = 1).
Proof.
  intros (Hh & Hg & Hf) ([] & s1 & H1' & ([] & s2 & H2' & H3')%run_bind_inv)%run_bind_inv.
  apply run_on_hal in H1' as (g & [= <-] & ->).
  match type of H2' with run _ ?s1 _ _ =>
    pose proof (wp_done_end 1 0 0 s1 Hg (set_cleanup _ _ _ _ 0 Hf)) as Hw end.
  destruct (wp_run _ _ _ _ _ Hw H2') as [Hd Hf2].
  split.
  - apply stable_cleanup_epo in H3'. by apply (phases_same _ _ h H3').
  - unfold cleanup_epo, cwhen in H3'. intros E. rewrite E in H3'. by injection H3' as <-.
Qed.

Lemma condition_init s i a b : flags s i a b -> condition M_INIT s = a.
Proof. unfold flags, view, condition. by intros [= _ _ -> _]. Qed.

Lemma condition_cleanup s i a b : flags s i a b -> condition M_CLEANUP s = b.
Proof. unfold flags, view, condition. by intros [= _ _ _ ->]. Qed.

(** A looping thread ends. *)
Lemma run_exit s f cs e s' :
  consistent (MkMachine s f Looping e) ->
  run (_ ← on_hal (cmodify (fun g => g ⟨ control := cs ⟩)); gps_state_thread_exit) s tt s' ->
  consistent (MkMachine s' f NoThread e).
Proof.
  intros Hc ([] & s1 & H1' & H2')%run_bind_inv.
  assert (forall i m, looping i m s Looping -> ended i m s' NoThread) as He.
  { intros i m (_ & Hu & Hf). apply run_on_hal in H1' as (g & [= <-] & ->).
    match type of H2' with run _ ?s1 _ _ => pose proof (wp_thread_exit i m s1 Hu Hf) as Hw end.
    destruct (wp_run _ _ _ _ _ Hw H2') as [Hg Hf2]. done. }
  unfold consistent in *. cbn in *. destruct f.
  - destruct Hc as [[[=] _]|[Hl|[[=] _]]]. right. right. by apply He.
  - destruct Hc as [[[=] _]|[Hl|[[[=] _]|[[=] _]]]]. right. right. left. by apply He.
  - by destruct Hc as [[=] _].
  - destruct Hc as [[[=] _]|[Hl|[[=] _]]]. right. right. by apply He.
  - destruct Hc as [[Hl _]|[[=] _]]. right. by apply He.
  - by destruct Hc as [[[=] _] _].
Qed.

Lemma consistent_step m m' : lstep cap m m' -> consistent m -> consistent m'.
Proof.
  intros Hstep Hc. destruct Hstep as
    [r s h e Hi | r s h e Hi | r s h e x s' Hi Hr Hx | r s h e s' Hi Hr | s h e s' Hw Hr
    | property props s h e s' Hw Hr | r s h e s' Hf Hr | r s h e busy s' Hf Hr | s h e busy s' Hw Hr
    | s h e s' Hw Hr | s h e s' Hw Hr | r s h e s' Hi Hf Hw Hr | r s h e s' Hi Hf Hr
    | s f e ok s' Hr | s f e c cs s' Hp Hctl Hq Hr | s f e cs s' Hp Hctl Hr | s f e s' Hp Hr
    | s f e s' Hp Hr | s f e fd s' Hp Hr | r s h e s' He Hr | s f h e s' Hx Hr];
    unfold consistent in Hc; cbn [life_state framework_at hal_at] in Hc.
  - done.
  - done.
  - destruct (settled_init s h Hc Hi) as (-> & Hd & Hf).
    destruct (run_init_call _ _ _ Hd Hf Hr) as [Hf' Hcr].
    destruct x; [by do 3 right|done|]. left. exact (conj eq_refl (conj (Hcr eq_refl) Hf')).
  - destruct (settled_init s h Hc Hi) as (-> & Hd & Hf). split; [done|]. by eapply run_init_fails.
  - destruct Hc as [_ Hf]. by rewrite (condition_cleanup _ _ _ _ Hf) in Hw.
  - destruct (run_init_end _ _ _ h _ Hr) as [Hl He].
    destruct Hc as [(_ & _ & Hf)|[Hc|[Hc|[_ Hf]]]]; [|right; left; by apply Hl|right; right; by apply He|];
      by rewrite (condition_init _ _ _ _ Hf) in Hw.
  - apply stable_mtk_cleanup in Hr. eapply (same_consistent s s' StopWait h e e); [done|by right|by right|exact Hc].
  - apply run_bind_inv in Hr as (ret & s1 & H1' & Hr). apply stable_mtk_cleanup in H1'.
    eapply run_after_stop; [|exact Hr].
    exact (same_settled s s1 h H1' Hc).
  - apply run_bind_inv in Hr as ([] & s1 & H1' & Hr).
    apply (stable_on_hal _ (keep_get_condition M_STOP ltac:(done) ltac:(done))) in H1'.
    eapply run_after_stop; [|exact Hr].
    exact (same_settled s s1 h H1' Hc).
  - destruct Hc as [[(_ & _ & Hf) _]|Hc].
    { by rewrite (condition_cleanup _ _ _ _ Hf) in Hw. }
    destruct (run_cleanup_done _ _ _ Hc Hr) as [Hn Hx]. unfold after_stop, consistent.
    destruct EPO_SUPPORT; [exact (conj Hn (Hx eq_refl))|by left].
  - apply (stable_on_hal _ (keep_get_condition M_THREAD_EXIT ltac:(done) ltac:(done))) in Hr.
    left. by apply (phases_same _ _ h Hr), (proj1 Hc).
  - apply (stable_on_hal _ keep_session_start) in Hr.
    eapply (same_consistent s s' (Idle 0) h e e); [done|by right|by right|exact Hc].
  - apply (stable_on_hal _ keep_session_stop) in Hr.
    eapply (same_consistent s s' (Idle 0) h e e); [done|by right|by right|exact Hc].
  - unfold consistent in *. cbn in *.
    destruct f; try (exfalso; clear -Hc; unfold stuck, no_thread, looping, ended in Hc; intuition discriminate).
    destruct Hc as [(_ & Hcr & Hf)|[[[=] _]|[[[=] _]|[[=] _]]]].
    pose proof (wp_run _ _ _ _ _ (wp_thread_start _ Hcr Hf) Hr) as Hok.
    destruct ok; [right; left|do 3 right]; exact (conj eq_refl Hok).
  - apply run_on_hal in Hr as (g & Hr & ->).
    apply bind_inv in Hr as ([] & g1 & [= <-] & Hr). apply keep_command in Hr.
    assert (stable (s ⟨ hal := g ⟩) = stable s) as Hs by (unfold stable; cbn; by rewrite (f_equal fst Hr : view g = _)).
    destruct f; try (eapply (same_consistent s _ _ Looping e e); [exact Hs|by right|first [by right|left; reflexivity]|exact Hc]).
    destruct (phases_same _ _ Looping Hs) as (_ & Hl & He & _).
    destruct Hc as [[Hc Hin]|Hc]; [left|right; by apply He]. split; [by apply Hl|].
    change (CMD_QUIT ∈ control g). rewrite (f_equal snd Hr : control g = _). cbn. rewrite Hctl in Hin.
    apply elem_of_cons in Hin as [E|Hin]; [by rewrite E in Hq|done].
  - exact (run_exit s f cs e s' Hc Hr).
  - eapply (same_consistent s _ f Looping e e); [by eapply stable_on_hal; [|exact Hr]; apply preserves_fst, keep_device|left|left|exact Hc].
    + apply run_on_hal in Hr as (g & Hr & ->). apply keep_device in Hr. exact (f_equal snd Hr).
    + by apply run_on_hal in Hr as (g & _ & ->).
  - eapply (same_consistent s _ f Looping e e); [by eapply stable_on_hal; [|exact Hr]; apply preserves_fst, keep_mnl_die|left|left|exact Hc].
    + apply run_on_hal in Hr as (g & Hr & ->). apply keep_mnl_die in Hr. exact (f_equal snd Hr).
    + by apply run_on_hal in Hr as (g & _ & ->).
  - eapply (run_exit s f (control (hal s))); [exact Hc|].
    unfold run, mbind, cm_bind, on_hal, on_part. cbn. destruct s as [[]]. exact Hr.
  - injection Hr as <-. eapply (same_consistent s _ (Idle 0) h e (S e)); [done|by right|by right|exact Hc].
  - apply run_on_hal in Hr as (g & [= <-] & ->).
    eapply (same_consistent s _ f h (S e)); [|by left|by left|exact Hc]. unfold stable. cbn.
    unfold view. cbn. by rewrite length_insert, !list_lookup_insert_ne by done.
Qed.

Lemma without_zero : NoDup others -> 0 ∈ others -> others ≡ₚ 0 :: without 0 others.
Proof.
  intros Hn Hi. apply list_elem_of_split in Hi as (l1 & l2 & E). rewrite E in *.
  apply NoDup_app in Hn as (_ & Hn1 & Hn2). apply NoDup_cons in Hn2 as [Hn2 _].
  assert (0 ∉ l1) as Hn1' by (intros Hx; apply (Hn1 _ Hx); by left).
  unfold without. rewrite filter_app, filter_cons_False by (intros Hc; by apply Hc).
  change (l1 ++ 0 :: l2 ≡ₚ 0 :: without 0 l1 ++ without 0 l2). rewrite !without_notin by done.
  by rewrite Permutation_middle.
Qed.

(** The descriptors of the process: its standard input is open. *)
Definition process : Prop := NoDup others /\ Forall (fun x => 0 <= x) others /\ 0 ∈ others.

Lemma consistent_booted : process -> consistent (booted others).
Proof.
  intros (Hn & Hp & Hz). left. split; [done|]. split; [|done]. split; [|by left]. unfold rest. cbn.
  destruct GPS_AT_COMMAND; [done|]. split_and!; [done..|]. rewrite valid_one by done. cbn.
  by apply without_zero.
Qed.

Lemma consistent_reachable m : process -> rtc (lstep cap) (booted others) m -> consistent m.
Proof.
  intros Hp. apply (rtc_ind_r consistent); [by apply consistent_booted|].
  intros m1 m2 _ Hs Hc. by eapply consistent_step.
Qed.
End Invariant.
