(* ===== verification/LifecycleProps.v ===== *)
(** * Setting up and cleaning up the GPS HAL: when the calls return

    mtk_gps_init and mtk_gps_cleanup return or wait for ever; the executable
    run of the machine of Lifecycle.v gives the witnesses. *)

From stdpp Require Import gmap.
From S2P Require Import Prelude HalBuff Calendar EpoTime EpoConf EpoDownload Daemon Hal HalProps MnldHandler MnldProps Session Lifecycle LifecycleInv.
#[local] Open Scope Z_scope.

(** ** Which system calls mtk_gps_init needs *)

Section InitResult.
Context `{Build} `{Kernel} `{NiHeader} `{DaemonLink}.
Variable cap : Z.

(** The number of the call that makes the codec's socket: the socket to the
    daemon takes one to three calls, and may fail. *)
Definition codec_call (k : nat) : nat :=
  if succeeds k then if succeeds (S k) then S (S (S k)) else S (S k) else S k.

(** Socket, bind and listen for the codec. *)
Definition thread_ok (k : nat) : bool :=
  let k := codec_call k in succeeds k && succeeds (S k) && succeeds (S (S k)).

Definition daemon_accepts (g : gps) : bool :=
  negb (truthy (send_answer (length (datagrams g)) (sock g) [u8 MNL_CMD_INIT])).

(** The device, the daemon, the socket pair, the socket for AT commands and its
    name, and the thread; not the epoll instance. *)
Definition init_ok (s : life) : bool :=
  let n := calls s in
  succeeds n && daemon_accepts (hal s) && succeeds (S (S n))
  && (if GPS_AT_COMMAND then succeeds (S (S (S n))) && succeeds (S (S (S (S n)))) else true)
  && succeeds (if GPS_AT_COMMAND then S (S (S (S (S n)))) else S (S (S n))).

Definition needed (s : life) : bool :=
  let n := calls s in
  init_ok s && thread_ok (if GPS_AT_COMMAND then S (S (S (S (S (S n))))) else S (S (S (S n)))).

Lemma wp_sys_ok_n n (Q : bool -> life -> Prop) s :
  calls s = n -> Q (succeeds n) (s ⟨ calls := S n ⟩) -> wp sys_ok Q s.
Proof. by intros <- HQ. Qed.

Lemma wp_sys_fd_n n (Q : Z -> life -> Prop) s :
  calls s = n ->
  (forall fd o, (if succeeds n then 0 <= fd else fd = -1) -> Q fd (s ⟨ opened := o ⟩ ⟨ calls := S n ⟩)) ->
  wp sys_fd Q s.
Proof.
  intros <- HQ. unfold sys_fd, new_descriptor. apply wp_bind, (wp_sys_ok_n _ _ _ eq_refl).
  destruct (succeeds (calls s)); wps; [|by apply (HQ (-1) (opened s))].
  destruct (new_fd_fresh (opened s)) as [Hge _]. by apply (HQ (new_fd (opened s)) (new_fd (opened s) :: opened s)).
Qed.

Lemma wp_sys_pair_n n (Q : option (Z * Z) -> life -> Prop) s :
  calls s = n ->
  (forall p o, succeeds n = bool_decide (is_Some p) -> Q p (s ⟨ opened := o ⟩ ⟨ calls := S n ⟩)) ->
  wp sys_pair Q s.
Proof.
  intros <- HQ. unfold sys_pair, new_descriptor. apply wp_bind, (wp_sys_ok_n _ _ _ eq_refl).
  destruct (succeeds (calls s)) eqn:E; wps; [by apply (HQ (Some (_, _)) (_ :: _ :: opened s))|].
  by apply (HQ None (opened s)).
Qed.

Lemma fd_tests fd (b : bool) :
  (if b then 0 <= fd else fd = -1) -> (fd <? 0) = negb b /\ (fd =? -1) = negb b /\ (fd >=? 0) = b.
Proof.
  destruct b; intros H'; destruct (Z.ltb_spec fd 0), (Z.eqb_spec fd (-1)), (Z.geb_spec fd 0); cbn; split_and!; done || lia.
Qed.

Lemma wp_mtk_init err (Q : Z -> gps -> Prop) g :
  send_answer (length (datagrams g)) (sock g) [u8 MNL_CMD_INIT] = err ->
  (forall g', Q err g') -> wp mtk_init Q g.
Proof. intros <- HQ. apply HQ. Qed.

Lemma wp_gps_state_init_result s :
  wp gps_state_init (fun x s' =>
    if init_ok s then x = ThreadCreated
      /\ calls s' = if GPS_AT_COMMAND then S (S (S (S (S (S (calls s)))))) else S (S (S (S (calls s))))
    else x <> ThreadCreated) s.
Proof.
  unfold gps_state_init, on_hal, at_socket, clear_control, init_ok, daemon_accepts.
  apply wp_bind, wp_modify, wp_bind. apply (wp_sys_fd_n (calls s)); [done|]. intros fd o1 [E1 _]%fd_tests.
  apply wp_bind, wp_modify, wp_bind. apply (wp_sys_fd_n (S (calls s))); [done|]. intros ep o2 _.
  apply wp_bind, wp_modify. rewrite E1. destruct (succeeds (calls s)); cbn [negb andb]; [|by wps].
  set (err := send_answer (length (datagrams (hal s))) _ _).
  apply wp_bind, wp_on_part. apply (wp_mtk_init err); [done|]. intros g'. clearbody err.
  destruct (truthy err); cbn [negb andb]; [by wps|].
  apply wp_bind. apply (wp_sys_pair_n (S (S (calls s)))); [done|]. intros p o3 ->.
  destruct p as [[c0 c1]|]; cbn [bool_decide andb]; [|by wps].
  apply wp_bind, wp_modify, wp_bind, wp_on_part, wp_modify, wp_bind. destruct GPS_AT_COMMAND.
  - apply wp_bind. apply (wp_sys_fd_n (S (S (S (calls s))))); [done|]. intros at_fd o4 (_ & E4 & _)%fd_tests.
    apply wp_bind, wp_modify. rewrite E4. destruct (succeeds (S (S (S (calls s))))); cbn [negb andb]; [|by wps].
    apply wp_bind. apply (wp_sys_ok_n (S (S (S (S (calls s)))))); [done|].
    destruct (succeeds (S (S (S (S (calls s)))))); cbn [andb]; [|by wps]. apply wp_ret. cbn [negb].
    apply wp_bind. apply (wp_sys_ok_n (S (S (S (S (S (calls s))))))); [done|]. by destruct (succeeds _).
  - apply wp_ret. cbn [negb]. apply wp_bind. apply (wp_sys_ok_n (S (S (S (calls s))))); [done|].
    by destruct (succeeds _).
Qed.

(** A registration is one call. *)
Lemma wp_epoll_n n fd (Q : unit -> life -> Prop) s :
  calls s = n -> (forall p, Q tt (s ⟨ polled := p ⟩ ⟨ calls := S n ⟩)) -> wp (epoll_register fd) Q s.
Proof.
  intros <- HQ. unfold epoll_register. apply wp_bind, (wp_sys_ok_n (calls s)); [done|]. wps; [apply HQ|].
  exact (HQ (polled s)).
Qed.

Lemma wp_bind_udp_n n (Q : Z -> life -> Prop) s :
  calls s = n ->
  (forall fd o p k, (if succeeds n && succeeds (S n) then 0 <= fd else fd = -1) ->
    k = (if succeeds n then S (S n) else S n) ->
    Q fd (s ⟨ opened := o ⟩ ⟨ polled := p ⟩ ⟨ calls := k ⟩)) ->
  wp bind_udp_socket Q s.
Proof.
  intros <- HQ. unfold bind_udp_socket, close. apply wp_bind, (wp_sys_fd_n (calls s)); [done|].
  intros fd o Hfd. pose proof (fd_tests _ _ Hfd) as [E _]. rewrite E.
  destruct (succeeds (calls s)); cbn [negb].
  - apply wp_bind, (wp_sys_ok_n (S (calls s))); [done|].
    destruct (succeeds (S (calls s))); wps; [by apply (HQ fd o (polled s))|].
    by apply (HQ (-1) (without fd o) (without fd (polled s))).
  - wps. by apply (HQ (-1) o (polled s)).
Qed.

Lemma wp_thread_start_result s i a b :
  flags s i a b ->
  wp gps_state_thread_start (fun ok s' => ok = thread_ok (calls s) /\ (ok = false -> flags s' i a b)) s.
Proof.
  intros Hf. unfold gps_state_thread_start, close, on_hal, thread_ok. apply wp_bind, wp_modify, wp_bind.
  apply (wp_bind_udp_n (calls s)); [done|]. intros fd o p k Hfd Hk. apply wp_bind, wp_modify, wp_bind.
  pose proof (fd_tests _ _ Hfd) as (_ & _ & Eg). rewrite Eg.
  assert (forall (Q : unit -> life -> Prop) s0, calls s0 = k ->
    (forall p1, Q tt (s0 ⟨ polled := p1 ⟩ ⟨ calls := codec_call (calls s) ⟩)) ->
    wp (cwhen (succeeds (calls s) && succeeds (S (calls s))) (epoll_register fd)) Q s0) as Hep.
  { intros Q s0 Hs0 HQ. unfold codec_call in HQ.
    destruct (succeeds (calls s)), (succeeds (S (calls s))); cbn in *; subst k.
    1: by eapply wp_epoll_n.
    all: rewrite <-Hs0 in HQ; destruct s0; apply (HQ _). }
  apply Hep; [done|]. intros p1. clear Hep. generalize (codec_call (calls s)). intros c.
  cbv beta zeta. apply wp_bind, (wp_sys_fd_n c); [done|]. intros codec o1 (E & _)%fd_tests.
  apply wp_bind, wp_modify. rewrite E. destruct (succeeds c); cbn [negb andb]; [|by wps].
  apply wp_bind, (wp_sys_ok_n (S c)); [done|]. destruct (succeeds (S c)); cbn [negb andb]; [|by wps].
  apply wp_bind, (wp_sys_ok_n (S (S c))); [done|]. destruct (succeeds (S (S c))); cbn [negb andb]; [|by wps].
  apply wp_bind, wp_epoll_register. intros p2 n2. apply wp_bind, wp_gets.
  apply wp_bind, wp_epoll_register. intros p3 n3. apply wp_bind, wp_epoll_register. intros p4 n4.
  apply wp_bind, wp_epoll_register. intros p5 n5. unfold release_condition. by wps.
Qed.

(** The framework waits, and no thread will release it. *)
Definition doomed (m : machine) : Prop :=
  let s := life_state m in
  flags s 0 0 0 /\
  match framework_at m, hal_at m with
  | InitWait, NoThread | DoneInit, NoThread => True
  | InitWait, Created => thread_ok (calls s) = false
  | _, _ => False
  end.

Lemma doomed_step m m' : lstep cap m m' -> doomed m -> doomed m'.
Proof.
  intros Hs (Hf & Hd). destruct Hs as
    [ | | | | s h e s' Hw Hr | property props s h e s' Hw Hr | | | | | | |
    | s f e ok s' Hr | s f e c cs s' Hp Hctl Hq Hr | s f e cs s' Hp Hctl Hr | s f e s' Hp Hr
    | s f e s' Hp Hr | s f e fd s' Hp Hr | | s f h e s' Hx Hr];
    cbn [life_state framework_at hal_at] in *; try done.
  - by rewrite (condition_cleanup s _ _ _ Hf) in Hw.
  - by rewrite (condition_init s _ _ _ Hf) in Hw.
  - destruct f; try done.
    destruct (wp_run _ _ _ _ _ (wp_thread_start_result s _ _ _ Hf) Hr) as [-> Hok].
    rewrite Hd in *. split; [by apply Hok|done].
  - by destruct f.
  - by destruct f.
  - by destruct f.
  - by destruct f.
  - by destruct f.
  - apply run_on_hal in Hr as (g & [= <-] & ->). split; [|exact Hd].
    unfold flags, view in *. cbn. by rewrite length_insert, !list_lookup_insert_ne.
Qed.

(** The framework waits, and the HAL thread will release it or has done so. *)
Definition healthy (others : list Z) (m : machine) : Prop :=
  let s := life_state m in let h := hal_at m in
  framework_at m = InitWait
  /\ ((new_thread others s h /\ thread_ok (calls s) = true) \/ looping others 0 1 s h \/ ended others 0 1 s h).

Definition m_init (s : life) : option Z := conditions (hal s) !! M_INIT.

Lemma m_init_exit : preserves m_init gps_state_thread_exit.
Proof.
  unfold gps_state_thread_exit, close, on_hal, release_condition. preserves.
  intros s y s' E. injection E as _ <-. unfold m_init. cbn. by rewrite list_lookup_insert_ne.
Qed.

Lemma m_init_stable s s' : stable s' = stable s -> m_init s' = m_init s.
Proof. unfold stable, view, m_init. congruence. Qed.

Lemma m_init_command (m : CM gps unit) s s' :
  preserves view_control m -> run (on_hal m) s tt s' -> m_init s' = m_init s.
Proof.
  intros Hm Hr. apply m_init_stable. by apply (stable_on_hal _ (preserves_fst _ Hm)) in Hr.
Qed.

(** While the framework waits, only the start of the thread touches M_INIT. *)
Lemma m_init_step m m' :
  lstep cap m m' -> framework_at m = InitWait -> framework_at m' = InitWait -> hal_at m <> Created ->
  m_init (life_state m') = m_init (life_state m).
Proof.
  intros Hs Hf Hf' Hh. destruct Hs as
    [ | | | | s h e s' Hw Hr | property props s h e s' Hw Hr | | | | | | |
    | s f e ok s' Hr | s f e c cs s' Hp Hctl Hq Hr | s f e cs s' Hp Hctl Hr | s f e s' Hp Hr
    | s f e s' Hp Hr | s f e fd s' Hp Hr | | s f h e s' Hx Hr];
    cbn [life_state framework_at hal_at] in *; try done.
  - apply run_on_hal in Hr as (g & Hr & ->). apply bind_inv in Hr as ([] & g1 & [= <-] & Hr).
    apply keep_command in Hr. apply m_init_stable. unfold stable. cbn. by rewrite (f_equal fst Hr : view g = _).
  - apply run_bind_inv in Hr as ([] & s1 & H1' & Hr). apply run_on_hal in H1' as (g & [= <-] & ->).
    by apply m_init_exit in Hr.
  - by eapply m_init_command; [apply keep_device|].
  - by eapply m_init_command; [apply keep_mnl_die|].
  - by apply m_init_exit in Hr.
  - apply run_on_hal in Hr as (g & [= <-] & ->). unfold m_init. cbn. by rewrite list_lookup_insert_ne.
Qed.

Lemma healthy_step others m m' :
  lstep cap m m' -> healthy others m -> framework_at m' = InitWait -> healthy others m'.
Proof.
  intros Hs (Hf & Hd) Hf'. split; [done|].
  assert (consistent others m) as Hc.
  { unfold consistent. rewrite Hf. destruct Hd as [[? _]|[?|?]]; [by left|by right; left|by right; right; left]. }
  pose proof (consistent_step cap others m m' Hs Hc) as Hc'. unfold consistent in Hc'. rewrite Hf' in Hc'.
  destruct Hd as [[(Hh & Hcr & Hfl) Hok]|Hd].
  - destruct Hs as
      [ | | | | s h e s' Hw Hr | property props s h e s' Hw Hr | | | | | | |
      | s f e ok s' Hr | s f e c cs s' Hp Hctl Hq Hr | s f e cs s' Hp Hctl Hr | s f e s' Hp Hr
      | s f e s' Hp Hr | s f e fd s' Hp Hr | | s f h e s' Hx Hr];
      cbn [life_state framework_at hal_at] in *; try done.
    + destruct (wp_run _ _ _ _ _ (wp_thread_start_result s _ _ _ Hfl) Hr) as [-> _].
      pose proof (wp_run _ _ _ _ _ (wp_thread_start _ _ Hcr Hfl) Hr) as Hup. rewrite Hok in *.
      right. left. exact (conj eq_refl Hup).
    + left. apply run_on_hal in Hr as (g & [= <-] & ->). split; [|exact Hok]. split; [done|]. split; [exact Hcr|].
      unfold flags, view in *. cbn. by rewrite length_insert, !list_lookup_insert_ne.
  - right. assert (hal_at m <> Created /\ m_init (life_state m) = Some 1) as [Hh Hm].
    { destruct Hd as [(-> & _ & Hfl)|(-> & _ & Hfl)]; (split; [done|]); unfold m_init, flags, view in *; congruence. }
    pose proof (m_init_step _ _ Hs Hf Hf' Hh) as Hm'. rewrite Hm in Hm'.
    destruct Hc' as [(_ & _ & Hfl)|[?|[?|(_ & Hfl)]]]; [|by left|by right|];
      unfold m_init, flags, view in *; congruence.
Qed.

(** ** The EPO type *)

(** The answers for the chip's name in the order they are asked for; the first
    of at least six characters counts, else the last. *)
Definition chip_answers (property : nat -> list Z) : list (list Z) := property <$> rev (seq 0 20).

Definition chip_spec (property : nat -> list Z) : list Z :=
  default (property O) (find (fun v => (6 <=? length v)%nat) (chip_answers property)).

Lemma get_chip_id_spec property : get_chip_id 20 property [] = chip_spec property.
Proof.
  unfold chip_spec, chip_answers.
  assert (forall n c, get_chip_id (S n) property c
    = default (property O) (find (fun v => (6 <=? length v)%nat) (property <$> rev (seq 0 (S n))))) as Hn.
  { induction n as [|n IH]; intros c; cbn [get_chip_id].
    - cbn. by destruct (length (property 0%nat)) as [|[|[|[|[|[]]]]]].
    - rewrite seq_S, rev_app_distr. cbn [rev app fmap list_fmap find Nat.add].
      destruct (Nat.ltb_spec (length (property (S n))) 6), (Nat.leb_spec 6 (length (property (S n)))); try lia.
      + by rewrite <-(IH (property (S n))).
      + done. }
  apply Hn.
Qed.

(** GNSS_MODE after the first file that can be read to its end. *)
Fixpoint props_mode (files : list (option (list Z))) (mode : Z) : Z :=
  match files with
  | [] => mode
  | f :: rest => let '(ret, mode) := prop_file_spec f mode in if ret =? 0 then mode else props_mode rest mode
  end.

Definition byte_file (f : option (list Z)) : Prop := forall content, f = Some content -> Forall is_byte content.

Lemma read_props_spec files mode : Forall byte_file files -> read_props files mode = Some (props_mode files mode).
Proof.
  intros Hf. revert mode. induction Hf as [|f files Hb _ IH]; intros mode; [done|]. cbn [read_props props_mode].
  rewrite read_prop_spec by done. obind. destruct (prop_file_spec f mode) as [ret mode']. by destruct (ret =? 0).
Qed.

(** 1 is GPS only, 0 is GPS and GLONASS. *)
Definition epo_type_spec (chip : list Z) (files : list (option (list Z))) (mode : Z) : Z :=
  if bool_decide (chip ∈ gps_only_chips) then 1
  else if bool_decide (props_mode files mode ∈ [0; 2]) then 0 else 1.

Lemma existsb_elem (x : list Z) l : existsb (bytes_eqb x) l = bool_decide (x ∈ l).
Proof.
  apply eq_true_iff_eq. rewrite existsb_exists, bool_decide_eq_true, list_elem_of_In.
  split; [intros (y & Hy & ->%bytes_eqb_eq); done|]. intros Hx. exists x. split; [done|]. by apply bytes_eqb_eq.
Qed.

Lemma mode_test (mode : Z) : negb (mode =? 0) && negb (mode =? 2) = negb (bool_decide (mode ∈ [0; 2])).
Proof.
  rewrite <-negb_orb. f_equal. apply eq_true_iff_eq.
  rewrite orb_true_iff, !Z.eqb_eq, bool_decide_eq_true, !elem_of_cons, elem_of_nil. tauto.
Qed.

Lemma wp_set_epo_type property files s :
  Forall byte_file files ->
  wp (set_epo_type property files)
    (fun _ s' => gps_epo_type (g_epo (hal s')) = epo_type_spec (chip_spec property) files (gnss_mode s)) s.
Proof.
  intros Hf. unfold set_epo_type, epo_type_spec, on_hal, on_epo. rewrite get_chip_id_spec, existsb_elem.
  destruct (bool_decide (chip_spec property ∈ gps_only_chips)); wps; try done.
  eapply wp_lift; [by apply read_props_spec|].
  set (mode := props_mode files (gnss_mode s)). wps.
  all: match goal with E : _ && _ = ?b |- _ => change (negb (mode =? 0) && negb (mode =? 2) = b) in E;
         rewrite mode_test in E end.
  - cbn. by destruct (bool_decide (mode ∈ [0; 2])).
  - cbn. by destruct (bool_decide (mode ∈ [0; 2])).
Qed.

(** A healthy wait can end. *)
Lemma healthy_returns others m (property : nat -> list Z) files :
  Forall byte_file files -> healthy others m ->
  exists m', rtc (lstep cap) m m' /\ framework_at m' = Idle 0 /\ init (hal (life_state m')) = 1.
Proof.
  intros Hfiles (Hf & Hd).
  assert (forall s h e, looping others 0 1 s h \/ ended others 0 1 s h ->
    exists m', rtc (lstep cap) (MkMachine s InitWait h e) m' /\ framework_at m' = Idle 0
      /\ init (hal (life_state m')) = 1) as Hready.
  { intros s h e Hl.
    assert (condition M_INIT s = 1) as Hc
      by (destruct Hl as [(_ & _ & Hfl)|(_ & _ & Hfl)]; by rewrite (condition_init _ _ _ _ Hfl)).
    assert (wp (_ ← on_hal (get_condition M_INIT); mtk_gps_init_end cap property files)
              (fun _ s' => init (hal s') = 1) s) as Hw.
    { unfold mtk_gps_init_end, get_condition, upcall_cb, on_hal. wps; [|done].
      eapply wp_mono; [apply (wp_preserves (fun s => init (hal s))); [|by apply wp_set_epo_type]|].
      - unfold set_epo_type, on_hal, on_epo. preserves.
      - intros u s' [E _]. exact E. }
    apply wp_Some in Hw as ([] & s' & Hr & Hi).
    exists (MkMachine s' (Idle 0) h e). split; [|done]. apply rtc_once.
    apply (init_returns cap property files); [by rewrite Hc|exact Hr]. }
  destruct m as [s f h e]. cbn in *. subst f.
  destruct Hd as [[(-> & Hcr & Hfl) Hok]|Hl]; [|by apply Hready].
  pose proof (wp_Some _ _ _ (wp_thread_start_result s _ _ _ Hfl)) as (ok & s1 & Hr & -> & _).
  pose proof (wp_run _ _ _ _ _ (wp_thread_start _ _ Hcr Hfl) Hr) as Hup. rewrite Hok in *.
  destruct (Hready s1 Looping e) as (m' & Hs & Hm'); [left; exact (conj eq_refl Hup)|].
  exists m'. split; [|done]. eapply rtc_l; [|exact Hs]. exact (hal_start cap s InitWait e true s1 Hr).
Qed.

(** Where the call of mtk_gps_init leads. *)
Lemma call_doomed_or_healthy others m0 r m :
  consistent others m0 -> lstep cap m0 m -> framework_at m0 = Idle r ->
  framework_at m = InitWait \/ framework_at m = DoneInit ->
  if needed (life_state m0) then healthy others m else doomed m.
Proof.
  intros Hc Hs Hf0 Hf. destruct Hs as
    [ | | r' s h e x s' Hi Hr Hx | r' s h e s' Hi Hr | | | | r' s h e busy s' Hst Hr | | | | | | | | | | | | | ];
    cbn [life_state framework_at hal_at] in *; try done; try (by destruct Hf); try (subst f; by destruct Hf).
  - destruct (settled_init others s h Hc Hi) as (-> & Hd & Hfl).
    pose proof (run_init_call others _ _ _ Hd Hfl Hr) as [Hfl' Hcr].
    assert (if init_ok s then x = ThreadCreated
      /\ calls s' = if GPS_AT_COMMAND then S (S (S (S (S (S (calls s)))))) else S (S (S (S (calls s))))
      else x <> ThreadCreated) as Hres.
    { apply run_bind_inv in Hr as ([] & s1 & H1' & Hr). apply run_on_hal in H1' as (g & [= <-] & ->).
      exact (wp_run _ _ _ _ _ (wp_gps_state_init_result _) Hr). }
    unfold needed. destruct (init_ok s); cbn [andb].
    + destruct Hres as [-> Hcalls]. specialize (Hcr eq_refl).
      replace (if GPS_AT_COMMAND then S (S (S (S (S (S (calls s)))))) else S (S (S (S (calls s))))) with (calls s')
        by (by rewrite Hcalls).
      destruct (thread_ok (calls s')) eqn:Eok.
      * split; [done|]. left. split; [exact (conj eq_refl (conj Hcr Hfl'))|done].
      * split; [done|]. exact Eok.
    + split; [done|]. by destruct x.
  - destruct (settled_init others s h Hc Hi) as (-> & Hd & Hfl).
    pose proof (run_init_fails others _ _ _ Hd Hfl Hr) as Hfl'.
    apply run_bind_inv in Hr as ([] & s1 & H1' & Hr). apply run_on_hal in H1' as (g & [= <-] & ->).
    apply run_bind_inv in Hr as (x & s2 & H2' & Hr). apply run_bind_inv in Hr as ([] & s3 & _ & Hr).
    injection Hr as -> _. pose proof (wp_run _ _ _ _ _ (wp_gps_state_init_result _) H2') as Hres. cbv beta in Hres.
    match type of Hres with context [init_ok ?s1] => change (init_ok s1) with (init_ok s) in Hres end.
    unfold needed. destruct (init_ok s); [by destruct Hres|]. by split.
  - unfold after_stop in Hf. destruct busy, EPO_SUPPORT; by destruct Hf.
Qed.

(** A step of another thread while the framework is in mtk_gps_init. *)
Definition meanwhile (m m' : machine) : Prop := lstep cap m m' /\ framework_at m' = InitWait.

Lemma healthy_meanwhile others m m' : rtc meanwhile m m' -> healthy others m -> healthy others m'.
Proof. induction 1 as [|m1 m2 m3 [Hs Hf] _ IH]; [done|]. intros Hh. by eapply IH, healthy_step. Qed.

Lemma doomed_forever m m' : rtc (lstep cap) m m' -> doomed m -> framework_at m' = InitWait \/ framework_at m' = DoneInit.
Proof.
  induction 1 as [m|m1 m2 m3 Hs _ IH]; intros Hd; [|by eapply IH, doomed_step].
  destruct Hd as [_ Hd]. destruct (framework_at m); by auto.
Qed.
End InitResult.

(** The descriptors that the HAL holds: those of its fields, and in its loop
    that of the thread's socket to the daemon. *)
Definition held `{Build} (s : life) (h : thread) : list Z :=
  match h with
  | Looping => mnld_fd s :: fields s
  | Created => [control0 s; control1 s; gps_fd s; sockfd s; epoll_hd s]
  | NoThread =>
      if (init (hal s) =? 1) || (condition M_INIT s =? 1) then fields s
      else if GPS_AT_COMMAND then [] else [sockfd s]
  end.

(** mtk_gps_init waits for a thread that is not there, either because it was
    never created or because it has returned without releasing M_INIT. *)
Definition init_waits_alone (m : machine) : Prop :=
  hal_at m = NoThread /\ (framework_at m = InitWait \/ framework_at m = DoneInit)
  /\ condition M_INIT (life_state m) = 0.

Lemma consistent_thread `{Build} others m :
  consistent others m ->
  (hal_at m <> NoThread -> init (hal (life_state m)) = 1 \/ framework_at m = InitWait)
  /\ (hal_at m = NoThread -> init (hal (life_state m)) = 1 -> condition M_CLEANUP (life_state m) = 1).
Proof.
  assert (forall s i a b, flags s i a b -> init (hal s) = i /\ condition M_CLEANUP s = b) as Hf.
  { intros s i a b Hf. unfold flags, view in Hf. injection Hf as Hi _ _ Hc. split; [done|]. unfold condition. by rewrite Hc. }
  unfold consistent, no_thread, new_thread, looping, ended, stuck. cbv zeta.
  destruct (framework_at m); intros Hc;
    repeat match goal with H : _ \/ _ |- _ => destruct H | H : _ /\ _ |- _ => destruct H end;
    repeat match goal with H : flags _ _ _ _ |- _ => apply Hf in H as [? ?] end;
    split; intros; (by auto) || congruence.
Qed.

Lemma consistent_held `{Build} others m :
  consistent others m -> ~ init_waits_alone m ->
  fds (opened (life_state m)) (valid (held (life_state m) (hal_at m)) ++ rest others).
Proof.
  assert (forall s i a b, flags s i a b -> init (hal s) = i /\ condition M_INIT s = a) as Hf.
  { intros s i a b Hf. unfold flags, view in Hf. injection Hf as Hi _ Ha _. split; [done|]. unfold condition. by rewrite Ha. }
  unfold consistent, no_thread, new_thread, looping, ended, stuck, down, created, up, gone, init_waits_alone. cbv zeta.
  intros Hc Hn.
  destruct (framework_at m);
    repeat match goal with H : _ \/ _ |- _ => destruct H | H : _ /\ _ |- _ => destruct H end;
    repeat match goal with H : flags _ _ _ _ |- _ => apply Hf in H as [Hi Ha] end;
    match goal with H : hal_at m = _ |- _ => rewrite H in * end; cbn [held];
    first [ done | by rewrite Hi, Ha | destruct Hn; by auto ].
Qed.

(** C25 (invariant): the life of the HAL.  Whatever the kernel, the daemon, the
    framework and the threads do, in every reachable state:
    - the machine is [consistent]: for each place of the framework's thread it
      says where the HAL thread can be, and which of M_INIT and M_CLEANUP are
      set;
    - there is a HAL thread only while [init] is 1 or mtk_gps_init waits for it.
      The converse fails: after a hang-up [init] stays 1 without a thread, but
      then M_CLEANUP is set, so that the next clean-up goes on;
    - unless mtk_gps_init waits in vain for a thread that is not there (the call
      is lost then, as init_returns_or_hangs shows, and nothing is said of the
      descriptors: a failed bind leaks one), the open descriptors are, without
      repetition, the process's own, those of the HAL's fields and, while the
      thread is in its loop, that of its socket to the daemon (in a build without GPS_AT_COMMAND, sockfd is 0 at
      first, and descriptor 0 counts as the HAL's, [rest]);
    - when no call is in progress and [init] is 0, as after a clean-up, there is
      no thread and no descriptor of the HAL's is open. *)
Theorem life_invariant `{Build} `{Kernel} `{NiHeader} `{DaemonLink} cap others m :
  process others -> rtc (lstep cap) (booted others) m ->
  consistent others m
  /\ (hal_at m <> NoThread -> init (hal (life_state m)) = 1 \/ framework_at m = InitWait)
  /\ (hal_at m = NoThread -> init (hal (life_state m)) = 1 -> condition M_CLEANUP (life_state m) = 1)
  /\ (~ init_waits_alone m ->
      fds (opened (life_state m)) (valid (held (life_state m) (hal_at m)) ++ rest others))
  /\ (forall r, framework_at m = Idle r -> init (hal (life_state m)) = 0 ->
      hal_at m = NoThread /\ forall fd, fd ∈ opened (life_state m) -> fd ∈ others).
Proof.
  intros Hp Hr. pose proof (consistent_reachable cap others m Hp Hr) as Hc. destruct Hp as (_ & _ & Hz).
  destruct (consistent_thread others m Hc) as [Ht1 Ht2].
  split; [done|]. split; [done|]. split; [done|]. split; [by apply consistent_held|].
  intros r Hf Hi. unfold consistent in Hc. rewrite Hf in Hc.
  apply (settled_init others) in Hc as (Hh & [Hd Hs] & _); [|done]. split; [done|].
  intros fd Hfd. destruct Hd as (Ho & Hpo & Hd). rewrite Hd in Hfd. unfold rest in Hfd.
  destruct GPS_AT_COMMAND eqn:AT; rewrite ?AT in Hfd; [exact Hfd|].
  apply elem_of_app in Hfd as [[Hv Hfd]%list_elem_of_filter|Hfd].
  - apply list_elem_of_singleton in Hfd as ->. destruct (Hs eq_refl) as [-> |E]; [done|lia].
  - by apply list_elem_of_filter in Hfd as [_ Hfd].
Qed.

(** C26 (liveness): mtk_gps_init returns or hangs.  Opening the device, the
    daemon's answer, the socket pair, the AT command socket and its name (in
    such a build), the thread and the codec's socket, name and queue are
    needed; the epoll instance and the socket to the daemon are not.  If they
    all succeed then, whatever the other threads do meanwhile, the call can
    return 0 with [init] set; if one fails, the call never returns, whatever
    happens: nobody releases what it waits for. *)
Theorem init_returns_or_hangs `{Build} `{Kernel} `{NiHeader} `{DaemonLink} cap others m0 r m1 :
  process others -> rtc (lstep cap) (booted others) m0 -> framework_at m0 = Idle r ->
  lstep cap m0 m1 -> framework_at m1 = InitWait \/ framework_at m1 = DoneInit ->
  if needed (life_state m0)
  then forall m2, rtc (meanwhile cap) m1 m2 ->
       exists m3, rtc (lstep cap) m2 m3 /\ framework_at m3 = Idle 0 /\ init (hal (life_state m3)) = 1
  else forall m2, rtc (lstep cap) m1 m2 -> framework_at m2 = InitWait \/ framework_at m2 = DoneInit.
Proof.
  intros Hp Hr Hf0 Hs Hf. pose proof (consistent_reachable cap others m0 Hp Hr) as Hc.
  pose proof (call_doomed_or_healthy cap others m0 r m1 Hc Hs Hf0 Hf) as Hcall.
  destruct (needed (life_state m0)); intros m2 Hm.
  - eapply (healthy_returns cap others m2 (fun _ => []) []); [done|by eapply healthy_meanwhile].
  - by eapply doomed_forever.
Qed.

(** Which EPO data is used.  After mtk_gps_init the EPO type is
    "GPS only" exactly for the chips with such a name, where the first of
    twenty answers with at least six characters counts, or if the first
    readable mnl.prop, each read like gps.conf, leaves a GNSS_MODE that is
    neither 0 nor 2. *)
Theorem epo_type_chosen property files s :
  Forall byte_file files ->
  exists s', run (set_epo_type property files) s tt s'
  /\ gps_epo_type (g_epo (hal s')) = epo_type_spec (chip_spec property) files (gnss_mode s).
Proof.
  intros Hf. destruct (wp_Some _ _ _ (wp_set_epo_type property files s Hf)) as ([] & s' & Hr & Ht). by exists s'.
Qed.

(** ** Cleaning up *)

Section Cleanup.
Context `{Build} `{Kernel} `{NiHeader} `{DaemonLink}.
Variables (cap : Z) (others : list Z).

Lemma command_runs c g : exists g', control_command c g = Some (tt, g').
Proof.
  unfold control_command, on_epo, on_part. cbv [mbind cm_bind cgets cwhen cmodify mret cm_ret].
  repeat case_match; by eexists.
Qed.

(** The HAL thread works off its commands up to the last one. *)
Lemma quit_reached l s e :
  control (hal s) = l -> CMD_QUIT ∈ l -> control1 s ∈ polled s -> looping others 1 0 s Looping ->
  exists s', rtc (lstep cap) (MkMachine s DoneCleanup Looping e) (MkMachine s' DoneCleanup NoThread e)
    /\ ended others 1 0 s' NoThread.
Proof.
  revert s. induction l as [|c cs IH]; intros s Hl Hq Hp Hloop; [by apply not_elem_of_nil in Hq|].
  destruct (Z.eq_dec c CMD_QUIT) as [->|Hc].
  - destruct Hloop as (_ & Hu & Hf).
    assert (wp (_ ← on_hal (cmodify (fun g => g ⟨ control := cs ⟩)); gps_state_thread_exit)
              (fun _ s' => gone others s' /\ flags s' 1 0 1) s) as Hw.
    { unfold on_hal. wps. by apply wp_thread_exit. }
    apply wp_Some in Hw as ([] & s' & Hr & Hg). exists s'. split; [|exact (conj eq_refl Hg)].
    apply rtc_once. eapply hal_quit; [done|exact Hl|exact Hr].
  - apply elem_of_cons in Hq as [Hq|Hq]; [by rewrite Hq in Hc|].
    destruct (command_runs c ((hal s) ⟨ control := cs ⟩)) as [g Hg].
    assert (run (on_hal (_ ← cmodify (fun g => g ⟨ control := cs ⟩); control_command c)) s tt (s ⟨ hal := g ⟩)) as Hr.
    { unfold run, on_hal, on_part. cbn [mbind cm_bind cmodify]. unfold mbind, cm_bind, cmodify. by rewrite Hg. }
    pose proof (keep_command _ _ _ _ Hg) as Hk.
    assert (stable (s ⟨ hal := g ⟩) = stable s) as Hst by (unfold stable; cbn; by rewrite (f_equal fst Hk : view g = _)).
    destruct (IH (s ⟨ hal := g ⟩)) as (s' & Hs & He); [exact (f_equal snd Hk)|done|done| |].
    { by apply (phases_same others _ _ Looping Hst). }
    exists s'. split; [|done]. eapply rtc_l; [|exact Hs]. by eapply hal_command.
Qed.

Lemma cleanup_done_runs s h e :
  ended others 1 0 s h ->
  exists s', lstep cap (MkMachine s DoneCleanup h e) (MkMachine s' (after_stop false) h e).
Proof.
  intros (_ & _ & Hf).
  assert (wp (_ ← on_hal (get_condition M_CLEANUP); _ ← gps_state_done_end; cleanup_epo) (fun _ _ => True) s) as Hw.
  { unfold gps_state_done_end, close, cleanup_epo, get_condition, on_hal. by wps. }
  apply wp_Some in Hw as ([] & s' & Hr & _). exists s'.
  apply cleanup_done; [by rewrite (condition_cleanup _ _ _ _ Hf)|exact Hr].
Qed.

(** Waiting for a condition that no thread will release. *)
Definition abandoned (i : nat) (m : machine) : Prop :=
  hal_at m = NoThread /\ condition i (life_state m) = 0
  /\ ((i = M_THREAD_EXIT /\ framework_at m = EpoWait /\ epo_threads m = O)
      \/ (i = M_STOP /\ framework_at m = StopWait)).

Lemma abandoned_step i m m' : lstep cap m m' -> abandoned i m -> abandoned i m'.
Proof.
  intros Hs (Hh & Hc & Hw). destruct Hs; cbn [life_state framework_at hal_at epo_threads] in *; try done;
    try (destruct Hw as [(-> & Hf & He)|(-> & Hf)]; try done).
  match goal with Hr : run (on_hal _) _ _ _ |- _ => apply run_on_hal in Hr as (g & [= <-] & ->) end.
  split; [done|]. split; [|by right]. unfold condition. cbn. by rewrite list_lookup_insert_ne.
Qed.

Lemma abandoned_forever i m m' : rtc (lstep cap) m m' -> abandoned i m -> abandoned i m'.
Proof. induction 1 as [|m1 m2 m3 Hs _ IH]; [done|]. intros Ha. by eapply IH, abandoned_step. Qed.
End Cleanup.

(** C27 (liveness): mtk_gps_cleanup returns or hangs.  Its wait for the HAL
    thread can always end, if the control socket is watched or the thread is
    gone already; its wait for an EPO thread can end if there is one; but
    without an EPO thread, and after a session without a HAL thread, it waits
    for ever. *)
Theorem cleanup_returns_or_hangs `{Build} `{Kernel} `{NiHeader} `{DaemonLink} cap others m :
  process others -> rtc (lstep cap) (booted others) m ->
  let s := life_state m in
  (framework_at m = DoneCleanup -> control1 s ∈ polled s \/ hal_at m = NoThread ->
   exists m', rtc (lstep cap) m m' /\ framework_at m' = after_stop false)
  /\ (framework_at m = EpoWait -> epo_threads m <> O ->
      exists m', rtc (lstep cap) m m' /\ framework_at m' = Idle 0)
  /\ (framework_at m = EpoWait -> epo_threads m = O -> condition M_THREAD_EXIT s = 0 ->
      forall m', rtc (lstep cap) m m' -> framework_at m' = EpoWait)
  /\ (framework_at m = StopWait -> hal_at m = NoThread -> condition M_STOP s = 0 ->
      forall m', rtc (lstep cap) m m' -> framework_at m' = StopWait).
Proof.
  intros Hp Hr s. pose proof (consistent_reachable cap others m Hp Hr) as Hc. unfold s. clear s.
  split_and!.
  - intros Hf Hw. unfold consistent in Hc. rewrite Hf in Hc. destruct m as [s f h e]. cbn in *. subst f.
    assert (forall s h, ended others 1 0 s h ->
      exists m', rtc (lstep cap) (MkMachine s DoneCleanup h e) m' /\ framework_at m' = after_stop false) as Hend.
    { intros s0 h0 He. destruct (cleanup_done_runs cap others s0 h0 e He) as (s' & Hs).
      eexists. split; [by apply rtc_once, Hs|done]. }
    destruct Hc as [[(-> & Hu & Hfl) Hq]|He]; [|by apply Hend]. destruct Hw as [Hw|]; [|done].
    destruct (quit_reached cap others _ s e eq_refl Hq Hw (conj eq_refl (conj Hu Hfl))) as (s' & Hs & He).
    destruct (Hend _ _ He) as (m' & Hs' & Hm'). exists m'. split; [by etrans|done].
  - intros Hf He. unfold consistent in Hc. rewrite Hf in Hc. destruct Hc as [(_ & _ & Hfl) Hx].
    destruct m as [s f h [|e]]; [done|]. cbn in *. subst f.
    assert (exists s', lstep cap (MkMachine s EpoWait h (S e)) (MkMachine s' EpoWait h e)
      /\ condition M_THREAD_EXIT s' <> 0) as (s1 & Hs1 & Hc1).
    { eexists. split; [by eapply epo_exit|]. unfold condition. cbn.
      rewrite list_lookup_insert_eq; [done|]. unfold flags, view in Hfl. injection Hfl as _ -> _ _.
      unfold M_THREAD_EXIT. lia. }
    exists (MkMachine (s1 ⟨ hal := (hal s1) ⟨ conditions $= <[M_THREAD_EXIT := 0]> ⟩ ⟩) (Idle 0) h e).
    split; [|done]. eapply rtc_l; [exact Hs1|]. apply rtc_once. by apply cleanup_epo_gone.
  - intros Hf He Hx m' Hs. unfold consistent in Hc. rewrite Hf in Hc. destruct Hc as [(Hh & _) _].
    assert (abandoned M_THREAD_EXIT m) as Ha by (split; [done|]; split; [done|]; by left).
    by apply (abandoned_forever cap M_THREAD_EXIT m m' Hs) in Ha as (_ & _ & [(_ & ? & _)|[[=] _]]).
  - intros Hf Hh Hx m' Hs.
    assert (abandoned M_STOP m) as Ha by (split; [done|]; split; [done|]; by right).
    by apply (abandoned_forever cap M_STOP m m' Hs) in Ha as (_ & _ & [([=] & _)|[_ ?]]).
Qed.

(** ** Running the machine *)

Inductive action := RInit | RThread | RInitReturns (chip : list Z) | RCleanup | RDone | RQuit | RHangup | REpoCreate | REpoExit | REpoGone.

Section Execution.
Context `{Build} `{Kernel} `{NiHeader} `{DaemonLink}.
Variable cap : Z.

Definition set_callbacks : CM life unit := on_hal (cmodify (fun g => g ⟨ base_callbacks := true ⟩)).

Definition exec_action (a : action) (m : machine) : option machine :=
  let '(MkMachine s f h e) := m in
  match a, f, h, e with
  | RInit, Idle _, _, _ =>
      if init (hal s) =? 0 then
        match (_ ← set_callbacks; gps_state_init) s with
        | Some (InitFailed, _) =>
            match (_ ← set_callbacks; x ← gps_state_init; _ ← gps_state_done_begin; mret x) s with
            | Some (InitFailed, s') => Some (MkMachine s' DoneInit h e)
            | _ => None
            end
        | Some (x, s') => Some (MkMachine s' InitWait (match x with ThreadCreated => Created | _ => h end) e)
        | None => None
        end
      else Some (MkMachine s (Idle 0) h e)
  | RThread, _, Created, _ =>
      '(ok, s') ← gps_state_thread_start s; Some (MkMachine s' f (if (ok : bool) then Looping else NoThread) e)
  | RInitReturns chip, InitWait, _, _ =>
      if condition M_INIT s =? 0 then None else
        '(_, s') ← (_ ← on_hal (get_condition M_INIT); mtk_gps_init_end cap (fun _ => chip) []) s;
        Some (MkMachine s' (Idle 0) h e)
  | RCleanup, Idle _, _, _ =>
      if start_flag (hal s) =? 0 then
        '(busy, s') ← (_ ← on_hal mtk_cleanup; b ← cleanup_after_stop; _ ← cwhen (negb b) cleanup_epo; mret b) s;
        Some (MkMachine s' (after_stop busy) h e)
      else None
  | RDone, DoneCleanup, _, _ =>
      if condition M_CLEANUP s =? 0 then None else
        '(_, s') ← (_ ← on_hal (get_condition M_CLEANUP); _ ← gps_state_done_end; cleanup_epo) s;
        Some (MkMachine s' (after_stop false) h e)
  | RQuit, _, Looping, _ =>
      match control (hal s) with
      | c :: cs =>
          if bool_decide (control1 s ∈ polled s) && (c =? CMD_QUIT) then
            '(_, s') ← (_ ← on_hal (cmodify (fun g => g ⟨ control := cs ⟩)); gps_state_thread_exit) s;
            Some (MkMachine s' f NoThread e)
          else None
      | [] => None
      end
  | RHangup, _, Looping, _ =>
      match polled s with
      | [] => None
      | _ => '(_, s') ← gps_state_thread_exit s; Some (MkMachine s' f NoThread e)
      end
  | REpoCreate, Idle _, _, _ =>
      if EPO_SUPPORT then Some (MkMachine (s ⟨ thread_epo_exit_flag := 0 ⟩) (Idle 0) h (S e)) else None
  | REpoExit, _, _, S e' =>
      if thread_epo_exit_flag s =? 1 then
        '(_, s') ← on_hal (release_condition M_THREAD_EXIT) s; Some (MkMachine s' f h e')
      else None
  | REpoGone, EpoWait, _, _ =>
      if condition M_THREAD_EXIT s =? 0 then None else
        '(_, s') ← on_hal (get_condition M_THREAD_EXIT) s; Some (MkMachine s' (Idle 0) h e)
  | _, _, _, _ => None
  end.

Lemma exec_action_sound a m m' : exec_action a m = Some m' -> lstep cap m m'.
Proof.
  destruct m as [s f h e]. unfold exec_action. intros He.
  destruct a; cbv [mbind option_bind] in He;
    repeat (match type of He with context [match ?x with _ => _ end] => destruct x eqn:?; try discriminate He end).
  all: try (injection He as <-).
  all: repeat match goal with
    | E : (_ =? _) = true |- _ => apply Z.eqb_eq in E
    | E : (_ =? _) = false |- _ => apply Z.eqb_neq in E
    | E : _ && _ = true |- _ => apply andb_prop in E as [?%bool_decide_eq_true ?%Z.eqb_eq]
    | u : () |- _ => destruct u
    end; subst.
  - by apply (init_call cap _ s h e NoDevice).
  - by apply init_fails.
  - by apply (init_call cap _ s h e ThreadCreated).
  - by apply init_again.
  - by apply (hal_start cap s f e true).
  - by apply (hal_start cap s f e false).
  - by eapply init_returns.
  - by apply cleanup_call_stopped.
  - by apply cleanup_done.
  - by eapply hal_quit.
  - eapply hal_hangup; [|done]. match goal with E : polled s = _ |- _ => rewrite E end. by left.
  - by apply epo_create.
  - by apply epo_exit.
  - by apply cleanup_epo_gone.
Qed.

Definition exec_actions (l : list action) (m : machine) : option machine :=
  foldl (fun o a => m ← o; exec_action a m) (Some m) l.

Lemma exec_actions_sound l m m' : exec_actions l m = Some m' -> rtc (lstep cap) m m'.
Proof.
  unfold exec_actions. revert m. induction l as [|a l IH]; intros m E; cbn in E; [by injection E as <-|].
  destruct (exec_action a m) as [m1|] eqn:E1; cbn in E.
  - eapply rtc_l; [exact (exec_action_sound a m m1 E1)|by apply IH].
  - assert (foldl (fun o a => m ← o; exec_action a m) None l = None) as En by (clear; by induction l).
    rewrite En in E. done.
Qed.
End Execution.

(** ** Witnesses *)

Definition std_fds : list Z := [0; 1; 2].

Lemma process_std : process std_fds.
Proof. split_and!; by_decide. Qed.

Definition epo_build : Build := {| GPS_AT_COMMAND := false; EPO_SUPPORT := true |}.

Lemma next_fd_fresh l : 0 <= 1 + foldr Z.max 0 l /\ (1 + foldr Z.max 0 l) ∉ l.
Proof.
  assert (0 <= foldr Z.max 0 l /\ forall x, x ∈ l -> x <= foldr Z.max 0 l) as [Hp Hm].
  { induction l as [|y l [IH1 IH2]]; cbn; [split; [lia|by intros x ?%not_elem_of_nil]|].
    split; [lia|]. intros x [->|Hx]%elem_of_cons; [lia|]. specialize (IH2 _ Hx). lia. }
  split; [lia|]. intros Hi. apply Hm in Hi. lia.
Qed.

(** A kernel that refuses one call at most. *)
Definition sample_kernel (refused : option nat) : Kernel := {|
  succeeds n := negb (bool_decide (refused = Some n));
  new_fd l := 1 + foldr Z.max 0 l;
  new_fd_fresh := next_fd_fresh;
|}.

Definition sample_exec (refused : option nat) (l : list action) : option machine :=
  @exec_actions epo_build (sample_kernel refused) quiet_link 1 l (booted std_fds).

Lemma sample_exec_sound refused l m :
  sample_exec refused l = Some m ->
  rtc (@lstep epo_build (sample_kernel refused) aosp_ni quiet_link 1) (booted std_fds) m.
Proof. exact (@exec_actions_sound epo_build (sample_kernel refused) aosp_ni quiet_link 1 l (booted std_fds) m). Qed.

Definition up_actions : list action := [RInit; RThread; RInitReturns (zs "0x6582")].

(** One life: standard input is closed by the clean-up. *)
Theorem life_invariant_witness :
  exists m, sample_exec None (up_actions ++ [REpoCreate; RCleanup; RQuit; RDone; REpoExit; REpoGone]) = Some m
  /\ opened (life_state m) = [1; 2]
  /\ hal_at m = NoThread /\ forall fd, fd ∈ opened (life_state m) -> fd ∈ std_fds.
Proof.
  destruct (sample_exec None (up_actions ++ [REpoCreate; RCleanup; RQuit; RDone; REpoExit; REpoGone]))
    as [m|] eqn:E; [|vm_compute in E; discriminate E].
  exists m. split; [reflexivity|].
  destruct (@life_invariant epo_build (sample_kernel None) aosp_ni quiet_link 1 std_fds m process_std
    (sample_exec_sound _ _ _ E)) as (_ & _ & _ & _ & Hd). specialize (Hd 0).
  vm_compute in E. injection E as <-. split; [reflexivity|]. by apply Hd.
Defined.

Definition sample_init (refused : option nat) : option machine :=
  @exec_action epo_build (sample_kernel refused) quiet_link 1 RInit (booted std_fds).

Lemma sample_init_sound refused m :
  sample_init refused = Some m ->
  @lstep epo_build (sample_kernel refused) aosp_ni quiet_link 1 (booted std_fds) m.
Proof. apply exec_action_sound. Qed.

(** Everything granted; and no socket pair. *)
Theorem init_returns_or_hangs_witness :
  (exists m1 m3, sample_init None = Some m1
    /\ rtc (@lstep epo_build (sample_kernel None) aosp_ni quiet_link 1) m1 m3
    /\ framework_at m3 = Idle 0 /\ init (hal (life_state m3)) = 1)
  /\ (exists m1, sample_init (Some 2%nat) = Some m1
    /\ forall m2, rtc (@lstep epo_build (sample_kernel (Some 2%nat)) aosp_ni quiet_link 1) m1 m2 ->
       framework_at m2 = InitWait \/ framework_at m2 = DoneInit).
Proof.
  split.
  - destruct (sample_init None) as [m1|] eqn:E; [|vm_compute in E; discriminate E].
    pose proof (sample_init_sound _ _ E) as Hs.
    assert (framework_at m1 = InitWait) as Hf by (vm_compute in E; injection E as <-; reflexivity).
    destruct (@init_returns_or_hangs epo_build (sample_kernel None) aosp_ni quiet_link 1 std_fds (booted std_fds) 0 m1
      process_std (rtc_refl _ _) eq_refl Hs (or_introl Hf) m1 (rtc_refl _ _)) as (m3 & H3).
    exists m1, m3. split; [reflexivity|exact H3].
  - destruct (sample_init (Some 2%nat)) as [m1|] eqn:E; [|vm_compute in E; discriminate E].
    pose proof (sample_init_sound _ _ E) as Hs.
    assert (framework_at m1 = DoneInit) as Hf by (vm_compute in E; injection E as <-; reflexivity).
    exists m1. split; [reflexivity|].
    exact (@init_returns_or_hangs epo_build (sample_kernel (Some 2%nat)) aosp_ni quiet_link 1 std_fds (booted std_fds) 0 m1
      process_std (rtc_refl _ _) eq_refl Hs (or_intror Hf)).
Defined.

Theorem epo_type_chosen_witness :
  exists s', run (set_epo_type (fun _ => zs "0x6755")
      [None; Some (zs "GNSS_MODE=1" ++ [10])]) (life_boot std_fds) tt s'
  /\ gps_epo_type (g_epo (hal s')) = 1.
Proof.
  destruct (epo_type_chosen (fun _ => zs "0x6755")
    [None; Some (zs "GNSS_MODE=1" ++ [10])] (life_boot std_fds)) as (s' & Hr & Ht).
  { repeat constructor; intros content [= <-]; by_decide. }
  exists s'. split; [exact Hr|]. refine (eq_trans Ht _). vm_compute. reflexivity.
Defined.

(** The clean-up of a HAL whose EPO interface was never initialised. *)
Theorem cleanup_returns_or_hangs_witness :
  exists m, sample_exec None (up_actions ++ [RCleanup; RQuit; RDone]) = Some m
  /\ forall m', rtc (@lstep epo_build (sample_kernel None) aosp_ni quiet_link 1) m m' -> framework_at m' = EpoWait.
Proof.
  destruct (sample_exec None (up_actions ++ [RCleanup; RQuit; RDone])) as [m|] eqn:E; [|vm_compute in E; discriminate E].
  exists m. split; [reflexivity|]. pose proof (sample_exec_sound _ _ _ E) as Hr.
  destruct (@cleanup_returns_or_hangs epo_build (sample_kernel None) aosp_ni quiet_link 1 std_fds m process_std Hr)
    as (_ & _ & H3 & _).
  vm_compute in E. injection E as <-. by apply H3.
Defined.
