(* ===== verification/AtCommand.v ===== *)
(** * The AT command test of the GPS HAL (gps_mtk_aosp.c under GPS_AT_COMMAND:
      the parsers of the AT%GPS and AT%GNSS commands and their answers,
      mtk_gps_test_start, mtk_gps_test_stop, gps_at_command_search_satellite,
      gps_at_command_test_proc and the head of nmea_reader_parse)

    The globals of the test are a record; what C leaves undefined ends a run
    with a [fault] that says what went wrong.  [malloc_ok] says whether a block
    of so many bytes is granted, [junk] is the content of an uninitialised
    array, [now] the time of the event. *)

From stdpp Require Import gmap.
From S2P Require Import Prelude HalBuff Calendar EpoTime EpoConf EpoDownload Daemon Hal.
#[local] Open Scope Z_scope.

Inductive fault :=
  | OutOfBounds          (* an index outside of Dev_CNr *)
  | UseAfterFree
  | DoubleFree
  | NullBlock            (* memset or store through NULL *)
  | TextOverflow         (* sprintf or strcpy past the array *)
  | CommandOverflow      (* the terminator of a 20-byte command *)
  | BadRead              (* a read past the command's array *)
  | HalFault.

#[export] Instance fault_eq_dec : EqDecision fault.
Proof. solve_decision. Defined.

(** The pointer Dev_CNr. *)
Inductive block := Null | Block (l : list Z) | Freed.

#[export] Instance block_eq_dec : EqDecision block.
Proof. solve_decision. Defined.

Record at_state := MkAt {
  at_hal : gps;
  MNL_AT_TEST_FLAG : Z;
  MNL_AT_SIGNAL_MODE : Z;
  MNL_AT_SIGNAL_TEST_BEGIN : Z;
  MNL_AT_SET_ALARM : Z;
  MNL_AT_CANCEL_ALARM : Z;
  MNL_AT_TEST_STATE : Z;
  hal_test_num : Z;                  (* hal_test_data *)
  hal_prn_num : Z;
  hal_time_delay : Z;
  start_time : Z;
  Dev_CNr : block;
  cn : Z;
  at_result : list Z;                (* result *)
  test_num : Z;
  CNo : Z;
  DCNo : Z;
  Avg_CNo : Z;
  Dev_CNo : Z;
  Completed_Num : Z;
  Success_Num : Z;
  Failure_Num : Z;
  Wait_Num : Z;
  sig_suc_num : Z;
  Err_Code : Z;
  test_mode_flag : Z;
  prev_success_num : Z;              (* of nmea_reader_parse *)
  acks : list (list Z);              (* answers sent to the remote side *)
  alarms_cancelled : nat;            (* calls of alarm(0) *)
  test_started : Z;                  (* of gps_state_thread *)
  reader_callback : bool;            (* its reader's callback is not NULL *)
}.

#[export] Instance at_rebuild : Rebuild at_state := fun r =>
  MkAt (at_hal r) (MNL_AT_TEST_FLAG r) (MNL_AT_SIGNAL_MODE r) (MNL_AT_SIGNAL_TEST_BEGIN r) (MNL_AT_SET_ALARM r)
    (MNL_AT_CANCEL_ALARM r) (MNL_AT_TEST_STATE r) (hal_test_num r) (hal_prn_num r) (hal_time_delay r) (start_time r)
    (Dev_CNr r) (cn r) (at_result r) (test_num r) (CNo r) (DCNo r) (Avg_CNo r) (Dev_CNo r) (Completed_Num r)
    (Success_Num r) (Failure_Num r) (Wait_Num r) (sig_suc_num r) (Err_Code r) (test_mode_flag r)
    (prev_success_num r) (acks r) (alarms_cancelled r) (test_started r) (reader_callback r).

Definition MNL_AT_TEST_UNKNOWN : Z := -1.
Definition MNL_AT_TEST_INPROGRESS : Z := 2.
Definition MNL_AT_TEST_DONE : Z := 3.
Definition MNL_AT_TEST_RESULT_DONE : Z := 4.
Definition MAX_VALID_STATUS_WAIT_COUNT : Z := 20.
Definition GPS_TEST_PRN : Z := 1.
Definition GPS_AT_ACK_SIZE : Z := 60.
Definition CMD_TEST_START : Z := 10.
Definition CMD_TEST_STOP : Z := 11.
Definition CMD_TEST_SMS_NO_RESULT : Z := 12.

(** The static initialisers. *)
Definition at_boot (g : gps) : at_state :=
  MkAt g 0 0 0 0 0 MNL_AT_TEST_UNKNOWN 0 0 0 0 Null 0 [1; 0; 0; 0; 0; 0; 0; 0] 0 0 0 0 0 0 0 0 0 0 1 1 0 [] 0 0 false.

(** ** The monad *)

Definition AM (A : Type) : Type := at_state -> (A * at_state) + fault.

#[export] Instance am_ret : MRet AM := fun A x s => inl (x, s).
#[export] Instance am_bind : MBind AM := fun A B k m s =>
  match m s with inl (x, s') => k x s' | inr f => inr f end.

Definition aget {A} (f : at_state -> A) : AM A := fun s => inl (f s, s).
Definition aset (f : at_state -> at_state) : AM unit := fun s => inl (tt, f s).
Definition fail {A} (f : fault) : AM A := fun _ => inr f.
Definition awhen (b : bool) (m : AM unit) : AM unit := if b then m else mret tt.
Definition alift {A} (f : fault) (o : option A) : AM A := match o with Some x => mret x | None => fail f end.

Definition on_gps {A} (m : CM gps A) : AM A := fun s =>
  match m (at_hal s) with
  | Some (x, g) => inl (x, s ⟨ at_hal := g ⟩)
  | None => inr HalFault
  end.

Section Test.
Context `{DaemonLink}.
Variable malloc_ok : Z -> bool.
Variable junk : list Z.

(** ** Answers *)

Definition at_command_send_ack (ack : list Z) : AM unit := aset (fun s => s ⟨ acks $= fun l => l ++ [ack] ⟩).

(** [char buff[] = text] is sent with its terminator. *)
Definition send_text (text : string) : AM unit := at_command_send_ack (zs text ++ [0]).

(** The eight numbers of the result. *)
Fixpoint numbers (l : list Z) : list Z :=
  match l with
  | [] => []
  | [x] => dec x
  | x :: l' => dec x ++ zs ", " ++ numbers l'
  end.

(** [sprintf] into an array, which is then sent whole. *)
Definition send_formatted (array text : list Z) : AM unit :=
  b ← alift TextOverflow (buf_write array 0 (text ++ [0]));
  at_command_send_ack b.

Definition result_text (l : list Z) : list Z := zs "[" ++ numbers l ++ zs "][0, 0, 0, 0, 0, 0, 0, 0]".

(** ** The test *)

(** free(Dev_CNr), if it is not NULL. *)
Definition free_block : AM unit :=
  d ← aget Dev_CNr;
  match d with
  | Null => mret tt
  | Block _ => aset (fun s => s ⟨ Dev_CNr := Freed ⟩)
  | Freed => fail DoubleFree
  end.

Definition mtk_gps_test_stop : AM Z :=
  _ ← aset (fun s => s ⟨ test_mode_flag := 1 ⟩);
  i ← aget (fun s => init (at_hal s));
  if negb (truthy i) then mret (-1)
  else
    err ← on_gps mtk_stop;
    if truthy err then mret (-1)
    else
      _ ← on_gps (write_control CMD_TEST_STOP);
      _ ← aset (fun s => s ⟨ hal_test_num := 0 ⟩ ⟨ hal_prn_num := 0 ⟩ ⟨ hal_time_delay := 0 ⟩
                           ⟨ MNL_AT_TEST_FLAG := 0 ⟩ ⟨ MNL_AT_SIGNAL_MODE := 0 ⟩
                           ⟨ MNL_AT_TEST_STATE := MNL_AT_TEST_UNKNOWN ⟩
                           ⟨ MNL_AT_SET_ALARM := 0 ⟩ ⟨ MNL_AT_CANCEL_ALARM := 0 ⟩
                           ⟨ MNL_AT_SIGNAL_TEST_BEGIN := 0 ⟩
                           ⟨ Success_Num := 0 ⟩ ⟨ Completed_Num := 0 ⟩ ⟨ Wait_Num := 0 ⟩ ⟨ CNo := 0 ⟩
                           ⟨ DCNo := 0 ⟩ ⟨ Dev_CNo := 0 ⟩ ⟨ Err_Code := 1 ⟩ ⟨ test_num := 0 ⟩);
      _ ← free_block;
      mret 0.

(** malloc(sizeof(int)*n) and memset to 0: 32-bit sizes. *)
Definition new_block (n : Z) : AM unit :=
  let size := u32 (4 * n) in
  if malloc_ok size then aset (fun s => s ⟨ Dev_CNr := Block (zeros (size / 4)) ⟩)
  else if size =? 0 then aset (fun s => s ⟨ Dev_CNr := Null ⟩)
  else fail NullBlock.

(** mtk_gps_test_start, after the test that may be running was stopped. *)
Definition begin_test (now n prn_num time_delay test_mode : Z) : AM Z :=
  _ ← aset (fun s => s ⟨ hal_test_num := n ⟩ ⟨ hal_prn_num := prn_num ⟩ ⟨ hal_time_delay := time_delay ⟩
                       ⟨ start_time := now ⟩ ⟨ Avg_CNo := 0 ⟩);
  _ ← new_block n;
  if (n =? 0) && (test_mode =? 0) then mret (-1)
  else
    _ ← (if test_mode =? 1 then aset (fun s => s ⟨ MNL_AT_SIGNAL_MODE := 1 ⟩)
         else aset (fun s => s ⟨ MNL_AT_TEST_FLAG := 1 ⟩));
    i ← aget (fun s => init (at_hal s));
    if negb (truthy i) then mret (-1)
    else
      _ ← aset (fun s => s ⟨ MNL_AT_TEST_STATE := MNL_AT_TEST_INPROGRESS ⟩);
      err ← on_gps mtk_start;
      if truthy err then
        _ ← aset (fun s => s ⟨ MNL_AT_TEST_STATE := MNL_AT_TEST_UNKNOWN ⟩ ⟨ MNL_AT_TEST_FLAG := 0 ⟩);
        mret (-1)
      else
        _ ← on_gps (write_control CMD_TEST_START);
        mret 0.

Definition mtk_gps_test_start (now n prn_num time_delay test_mode : Z) : AM Z :=
  s ← aget id;
  _ ← awhen (negb (MNL_AT_TEST_STATE s =? MNL_AT_TEST_UNKNOWN) && truthy (test_mode_flag s))
        (_ ← mtk_gps_test_stop; mret tt);
  begin_test now n prn_num time_delay test_mode.

Definition mtk_gps_test_inprogress (s : at_state) : Z :=
  let st := MNL_AT_TEST_STATE s in
  if (st =? MNL_AT_TEST_DONE) || (st =? MNL_AT_TEST_RESULT_DONE) then MNL_AT_TEST_DONE
  else if st =? MNL_AT_TEST_INPROGRESS then MNL_AT_TEST_INPROGRESS
  else MNL_AT_TEST_UNKNOWN.

(** ** Commands

    A command is the 20-byte array with the received bytes and a terminator. *)

Definition GPS_OP : list Z := zs "AT%GPS".
Definition GNSS_OP : list Z := zs "AT%GNSS".

(** memcmp(command, op, strlen(op)) == 0 *)
Definition is_op (op command : list Z) : bool := bool_decide (take (length op) command = op).

(** One character, and two in a row. *)
Definition char_at (command : list Z) (i : nat) (c : Z) : bool := bool_decide (command !! i = Some c).
Definition chars_at (command : list Z) (i : nat) (cs : list Z) : bool :=
  bool_decide (take (length cs) (drop i command) = cs).

(** strtoul with base 10: the value, and whether it ends at the terminator. *)
Definition strtoul_all (text : list Z) : Z * bool :=
  let t := skip_space text in
  let '(neg, t) := match t with 45 :: t' => (true, t') | 43 :: t' => (false, t') | _ => (false, t) end in
  let '(v, rest) := digits 0 t in
  if (length rest =? length t)%nat then (0, bool_decide (text = []))
  else
    let v := if v >? 2 ^ 32 - 1 then 2 ^ 32 - 1 else if neg : bool then u32 (- v) else v in
    (v, bool_decide (rest = [])).

(** at_command_parse_test_num *)
Definition at_command_parse_test_num (command : list Z) : AM Z :=
  let off := if is_op GNSS_OP command then 8%nat else 7%nat in
  text ← alift BadRead (cstr (drop off command));
  let '(res, ends) := strtoul_all text in
  mret (if negb (res =? 0) && ends then s32 res else -1).

Definition send_number (command : list Z) (value : Z) : AM unit :=
  let text := dec (Z.quot value 10) in
  _ ← alift TextOverflow (buf_write (take 10 junk) 0 (text ++ [0]));
  send_formatted (take 10 junk) (text ++ (if is_op GNSS_OP command then zs ", NA" else [])).

Definition at_command_send_cno (command : list Z) : AM unit :=
  s ← aget id;
  if mtk_gps_test_inprogress s =? MNL_AT_TEST_INPROGRESS then send_text "GNSS Test In Progress"
  else
    let value := if MNL_AT_SIGNAL_MODE s =? 1 then cn s else Avg_CNo s in
    if value =? 0 then send_text "0, NA" else send_number command value.

Definition at_command_send_test_result : AM unit :=
  s ← aget id;
  let ret := mtk_gps_test_inprogress s in
  let r i := default 0 (at_result s !! i) in
  if ret =? MNL_AT_TEST_INPROGRESS then send_text "GNSS Test In Progress"
  else if (ret =? MNL_AT_TEST_DONE) || (ret =? MNL_AT_TEST_RESULT_DONE) then
    send_formatted (take 60 junk) (result_text (at_result s))
  else if negb (r 0%nat =? 0) then send_formatted (zeros GPS_AT_ACK_SIZE) (result_text (at_result s))
  else if negb (r 5%nat =? 0) && negb (truthy (MNL_AT_SIGNAL_MODE s) || truthy (MNL_AT_SIGNAL_TEST_BEGIN s)) then
    send_formatted (zeros GPS_AT_ACK_SIZE) (result_text (at_result s))
  else send_text "[0, 0, 0, 0, 0, 0, 0, 0][0, 0, 0, 0, 0, 0, 0, 0]".

Definition start_normal_test (now n : Z) (ok error : string) : AM unit :=
  if n >=? 0 then
    ret ← mtk_gps_test_start now n GPS_TEST_PRN 2 0;
    send_text (if ret =? 0 then ok else error)
  else send_text "Invalid Test Num =0".

Definition at_gps_command_parser (now : Z) (command : list Z) : AM unit :=
  _ ← aset (fun s => s ⟨ test_mode_flag := 0 ⟩);
  if char_at command 6 (ch "=") then
    if chars_at command 7 (zs "?" ++ [0]) then at_command_send_cno command
    else if chars_at command 7 (zs "E" ++ [0]) || chars_at command 7 (zs "e" ++ [0]) then mret tt
    else if chars_at command 7 (zs "D" ++ [0]) || chars_at command 7 (zs "d" ++ [0]) then mret tt
    else
      n ← at_command_parse_test_num command;
      start_normal_test now n "GPS TEST START OK" "GPS ERROR"
  else if chars_at command 6 (zs "?" ++ [0]) then
    s ← aget id;
    let ret := mtk_gps_test_inprogress s in
    if ret =? MNL_AT_TEST_INPROGRESS then send_text "GPS Test In Progress"
    else if ret =? MNL_AT_TEST_DONE then
      send_formatted (take 60 junk) (zs "<" ++ numbers (at_result s) ++ zs ">")
    else send_text "ERROR"
  else if char_at command 6 0 then at_command_send_cno command
  else send_text "GPS ERROR".

(** AT%GNSS=S *)
Definition gnss_signal (now : Z) : AM unit :=
  f ← aget MNL_AT_TEST_FLAG;
  ret ← (if f =? 0 then mtk_gps_test_start now 0 1 2 1
         else
           _ ← aset (fun s => s ⟨ MNL_AT_SIGNAL_MODE := 1 ⟩ ⟨ MNL_AT_TEST_FLAG := 0 ⟩);
           c ← aget MNL_AT_CANCEL_ALARM;
           _ ← awhen (c =? 0) (aset (fun s => s ⟨ alarms_cancelled $= S ⟩ ⟨ MNL_AT_CANCEL_ALARM := 0 ⟩
                                                ⟨ MNL_AT_SET_ALARM := 0 ⟩));
           mret 0);
  send_text (if ret =? 0 then "GNSS START START OK" else "GNSS START START FAIL").

(** AT%GNSS=E *)
Definition gnss_end : AM unit :=
  st ← aget MNL_AT_TEST_STATE;
  if st =? MNL_AT_TEST_UNKNOWN then send_text "GNSS Test is Not In Progress"
  else
    ret ← mtk_gps_test_stop;
    send_text (if ret =? 0 then "GNSS TEST END OK" else "GNSS TEST END FAIL").

(** AT%GNSS=n *)
Definition gnss_number (now n : Z) : AM unit :=
  _ ← aset (fun s => s ⟨ at_result := [1; 0; 0; 0; 0; 0; 0; 0] ⟩ ⟨ Avg_CNo := 0 ⟩ ⟨ Success_Num := 0 ⟩
                       ⟨ Completed_Num := 0 ⟩ ⟨ CNo := 0 ⟩ ⟨ DCNo := 0 ⟩ ⟨ Dev_CNo := 0 ⟩ ⟨ cn := 0 ⟩);
  m ← aget MNL_AT_SIGNAL_MODE;
  if m =? 1 then
    if n <=? 0 then
      _ ← send_text "Invalid Test Num = 0";
      st ← aget MNL_AT_TEST_STATE;
      awhen (negb (st =? MNL_AT_TEST_UNKNOWN)) (_ ← mtk_gps_test_stop; mret tt)
    else
      _ ← aset (fun s => s ⟨ MNL_AT_SIGNAL_TEST_BEGIN := 1 ⟩ ⟨ MNL_AT_TEST_STATE := MNL_AT_TEST_INPROGRESS ⟩);
      _ ← send_text "GNSS TEST START OK";
      aset (fun s => s ⟨ start_time := now ⟩)
  else start_normal_test now n "GNSS TEST START OK" "GNSS ERROR".

Definition at_gnss_command_parser (now : Z) (command : list Z) : AM unit :=
  _ ← aset (fun s => s ⟨ test_mode_flag := 0 ⟩);
  if char_at command 7 (ch "=") then
    if chars_at command 8 (zs "?" ++ [0]) then at_command_send_test_result
    else if chars_at command 8 (zs "S" ++ [0]) || chars_at command 8 (zs "s" ++ [0]) then gnss_signal now
    else if chars_at command 8 (zs "E" ++ [0]) || chars_at command 8 (zs "e" ++ [0]) then gnss_end
    else
      n ← at_command_parse_test_num command;
      gnss_number now n
  else if chars_at command 7 (zs "?" ++ [0]) then at_command_send_test_result
  else if char_at command 7 0 then at_command_send_cno command
  else send_text "GNSS ERROR".

Definition at_command_parser (now : Z) (command : list Z) : AM unit :=
  if is_op GPS_OP command then at_gps_command_parser now command
  else if is_op GNSS_OP command then at_gnss_command_parser now command
  else send_text "GPS ERROR".

(** A datagram in gps_state_thread: at most 20 bytes are received into
    [char cmd[20]], of which [stale] is the content, and terminated. *)
Definition at_receive (now : Z) (stale datagram : list Z) : AM unit :=
  let received := take 20 datagram in
  command ← alift CommandOverflow (buf_write (take 20 stale) 0 (received ++ [0]));
  at_command_parser now command.

(** ** Satellites *)

Definition block_set (i v : Z) : AM unit :=
  d ← aget Dev_CNr;
  match d with
  | Block l => l' ← alift OutOfBounds (array_set l i v); aset (fun s => s ⟨ Dev_CNr := Block l' ⟩)
  | Null => fail NullBlock
  | Freed => fail UseAfterFree
  end.

Definition block_get (i : Z) : AM Z :=
  d ← aget Dev_CNr;
  match d with
  | Block l => alift OutOfBounds (array_get l i)
  | Null => fail NullBlock
  | Freed => fail UseAfterFree
  end.

(** [for (j = 0; j < Success_Num; j++)], [n] rounds from [j] on *)
Fixpoint deviation_loop (n : nat) (j : Z) : AM unit :=
  match n with
  | O => mret tt
  | S n' =>
      v ← block_get j;
      _ ← aset (fun s => s ⟨ DCNo := s32 (DCNo s + (v - Avg_CNo s) * (v - Avg_CNo s)) ⟩);
      deviation_loop n' (j + 1)
  end.

(** A new measurement of the satellite. *)
Definition measured (v : Z) : AM unit :=
  s ← aget id;
  let mode := truthy (MNL_AT_SIGNAL_MODE s) in
  let begun := truthy (MNL_AT_SIGNAL_TEST_BEGIN s) in
  _ ← awhen (mode && negb begun) (aset (fun s => s ⟨ MNL_AT_TEST_STATE := MNL_AT_TEST_INPROGRESS ⟩));
  _ ← awhen (mode && begun)
        (aset (fun s => s ⟨ MNL_AT_TEST_STATE := MNL_AT_TEST_RESULT_DONE ⟩ ⟨ sig_suc_num := 1 ⟩));
  _ ← awhen (truthy (MNL_AT_TEST_FLAG s))
        (_ ← aset (fun s => s ⟨ Err_Code := 0 ⟩ ⟨ CNo := s32 (CNo s + v * 10) ⟩);
         n ← aget Success_Num;
         _ ← block_set n (v * 10);
         aset (fun s => s ⟨ Success_Num := n + 1 ⟩ ⟨ Avg_CNo := Z.quot (CNo s) (n + 1) ⟩));
  aset (fun s => s ⟨ cn := v * 10 ⟩).

Definition not_measured : AM unit :=
  s ← aget id;
  _ ← awhen ((MNL_AT_CANCEL_ALARM s =? 1) && (MNL_AT_TEST_FLAG s =? 1)) (aset (fun s => s ⟨ test_num $= Z.succ ⟩));
  aset (fun s => s ⟨ sig_suc_num := 0 ⟩).

(** [sqrt] of a non-negative int is exact enough for its integer part. *)
Definition update_deviation : AM unit :=
  n ← aget Success_Num;
  awhen (negb (n =? 0))
    (_ ← deviation_loop (Z.to_nat n) 0;
     aset (fun s => s ⟨ Dev_CNo := Z.sqrt (Z.quot (DCNo s) n) ⟩ ⟨ DCNo := 0 ⟩)).

(** [svs]: the first sv_count entries of prn and snr. *)
Definition gps_at_command_search_satellite (svs : list (Z * Z)) : AM unit :=
  prn ← aget hal_prn_num;
  match find (fun sv => fst sv =? prn) svs with
  | None => mret tt
  | Some (_, v) =>
      _ ← (if negb (v =? 0) then measured v else not_measured);
      update_deviation
  end.

Definition gps_at_command_test_proc (svs : list (Z * Z)) : AM unit :=
  s ← aget id;
  if MNL_AT_TEST_STATE s =? MNL_AT_TEST_DONE then mret tt
  else if MNL_AT_SIGNAL_MODE s =? 1 then
    if truthy (MNL_AT_SIGNAL_TEST_BEGIN s) then
      _ ← gps_at_command_search_satellite svs;
      aset (fun s => s ⟨ at_result $= fun r => <[0%nat := 0]> (<[3%nat := sig_suc_num s]> (<[4%nat := 1]>
                           (<[5%nat := cn s]> (<[6%nat := 0]> r)))) ⟩)
    else mret tt
  else gps_at_command_search_satellite svs.

(** A complete group of GSV sentences. *)
Definition gsv_complete (svs : list (Z * Z)) : AM unit :=
  s ← aget id;
  awhen ((MNL_AT_TEST_FLAG s =? 1) || (MNL_AT_SIGNAL_MODE s =? 1)) (gps_at_command_test_proc svs).

(** ** The head of nmea_reader_parse *)

Definition complete : AM bool :=
  _ ← aset (fun s => s ⟨ Completed_Num := Success_Num s + Failure_Num s ⟩);
  s ← aget id;
  mret (Completed_Num s =? hal_test_num s).

(** The result says whether the test is to be stopped. *)
Definition count_measurements : AM bool :=
  s ← aget id;
  if Success_Num s >? 0 then
    _ ← awhen (prev_success_num s =? Success_Num s) (aset (fun s => s ⟨ Failure_Num $= Z.succ ⟩));
    complete
  else
    _ ← aset (fun s => s ⟨ Wait_Num $= Z.succ ⟩);
    w ← aget Wait_Num;
    if w =? MAX_VALID_STATUS_WAIT_COUNT then
      _ ← aset (fun s => s ⟨ Err_Code := 32 ⟩ ⟨ Completed_Num := 1 ⟩);
      mret true
    else mret false.

Definition publish_result : AM unit :=
  _ ← aset (fun s => s ⟨ at_result $= fun r => <[0%nat := Err_Code s]> (<[3%nat := Success_Num s]>
             (<[4%nat := Completed_Num s]> (<[5%nat := Avg_CNo s]> (<[6%nat := Dev_CNo s]> r)))) ⟩
             ⟨ Wait_Num := 0 ⟩ ⟨ MNL_AT_TEST_STATE := MNL_AT_TEST_DONE ⟩ ⟨ Err_Code := 1 ⟩);
  f ← aget MNL_AT_TEST_FLAG;
  awhen (f =? 1)
    (_ ← mtk_gps_test_stop;
     aset (fun s => s ⟨ Failure_Num := 0 ⟩ ⟨ prev_success_num := 0 ⟩)).

(** The result says whether the sentence is parsed at all; [end_tag] is
    gps_nmea_end_tag. *)
Definition at_parse_head (now end_tag : Z) : AM bool :=
  s ← aget id;
  if (MNL_AT_TEST_FLAG s =? 1) || (MNL_AT_SIGNAL_TEST_BEGIN s =? 1) then
    if now - start_time s >=? hal_time_delay s then
      _ ← awhen (end_tag =? 1)
            (stopped ← count_measurements;
             _ ← aset (fun s => s ⟨ prev_success_num := Success_Num s ⟩);
             awhen (stopped : bool) publish_result);
      mret true
    else mret false
  else mret true.

(** ** Alarm and control commands *)

(** alarm_handler, with gps_state_test_sms_airtest_no_result_report. *)
Definition alarm_handler : AM unit :=
  st ← aget MNL_AT_TEST_STATE;
  awhen (negb (st =? MNL_AT_TEST_UNKNOWN))
    (_ ← mtk_gps_test_stop;
     _ ← aset (fun s => s ⟨ Err_Code := 32 ⟩ ⟨ at_result $= <[0%nat := 32]> ⟩);
     m ← aget test_mode_flag;
     awhen (truthy m) (on_gps (write_control CMD_TEST_SMS_NO_RESULT))).

(** The test commands of the control socket; the report of
    CMD_TEST_SMS_NO_RESULT is commented out in the code. *)
Definition test_control_command (cmd : Z) : AM unit :=
  s ← aget id;
  if cmd =? CMD_TEST_START then
    awhen (negb (truthy (test_started s)) && (test_mode_flag s =? 1))
      (aset (fun s => s ⟨ test_started := 1 ⟩ ⟨ reader_callback := true ⟩))
  else if cmd =? CMD_TEST_STOP then
    awhen (truthy (test_started s))
      (aset (fun s => s ⟨ test_started := 0 ⟩ ⟨ reader_callback := false ⟩))
  else mret tt.

(** ** Events *)

(** What the HAL thread does for the test: a datagram, the head of a sentence,
    a complete group of GSV sentences, a command of the control socket; the
    alarm; and the framework's own calls of the two functions. *)
Inductive at_event :=
  | Datagram (now : Z) (stale datagram : list Z)
  | Sentence (now end_tag : Z)
  | Satellites (svs : list (Z * Z))
  | Control (cmd : Z)
  | Alarm
  | TestStart (now n prn_num time_delay test_mode : Z)
  | TestStop.

Definition at_handle (e : at_event) : AM unit :=
  match e with
  | Datagram now stale d => at_receive now stale d
  | Sentence now end_tag => _ ← at_parse_head now end_tag; mret tt
  | Satellites svs => gsv_complete svs
  | Control cmd => test_control_command cmd
  | Alarm => alarm_handler
  | TestStart now n prn_num time_delay test_mode =>
      _ ← mtk_gps_test_start now n prn_num time_delay test_mode; mret tt
  | TestStop => _ ← mtk_gps_test_stop; mret tt
  end.

Fixpoint at_run (es : list at_event) : AM unit :=
  match es with
  | [] => mret tt
  | e :: es' => _ ← at_handle e; at_run es'
  end.
End Test.
