(* ===== verification/AtLogic.v ===== *)
(** * The AT command test: rules of its monad, and its memory

    [awp allowed m Q s]: from [s], [m] ends in [Q] or with an allowed fault.
    The block Dev_CNr is freed only while the test is idle, so that commands,
    sentences and alarms neither use nor free it again. *)

From stdpp Require Import gmap.
From S2P Require Import Prelude HalBuff Calendar EpoTime EpoConf EpoDownload Daemon Hal AtCommand.
#[local] Open Scope Z_scope.

Definition awp {A} (allowed : fault -> Prop) (m : AM A) (Q : A -> at_state -> Prop) (s : at_state) : Prop :=
  match m s with inl (x, s') => Q x s' | inr f => allowed f end.

Section Rules.
Context {allowed : fault -> Prop}.

Lemma awp_ret {A} (x : A) (Q : A -> at_state -> Prop) s : Q x s -> awp allowed (mret x) Q s.
Proof. done. Qed.

Lemma awp_bind {A B} (m : AM A) (k : A -> AM B) Q s :
  awp allowed m (fun x => awp allowed (k x) Q) s -> awp allowed (x ← m; k x) Q s.
Proof. unfold awp, mbind, am_bind. by destruct (m s) as [[x s']|f]. Qed.

Lemma awp_get {A} (f : at_state -> A) (Q : A -> at_state -> Prop) s : Q (f s) s -> awp allowed (aget f) Q s.
Proof. done. Qed.

Lemma awp_set f (Q : unit -> at_state -> Prop) s : Q tt (f s) -> awp allowed (aset f) Q s.
Proof. done. Qed.

Lemma awp_fail {A} f (Q : A -> at_state -> Prop) s : allowed f -> awp allowed (fail f) Q s.
Proof. done. Qed.

Lemma awp_if {A} (b : bool) (m1 m2 : AM A) Q s :
  (b = true -> awp allowed m1 Q s) -> (b = false -> awp allowed m2 Q s) -> awp allowed (if b then m1 else m2) Q s.
Proof. destruct b; auto. Qed.

Lemma awp_when (b : bool) (m : AM unit) Q s :
  (b = true -> awp allowed m Q s) -> (b = false -> Q tt s) -> awp allowed (awhen b m) Q s.
Proof. destruct b; cbn; auto. Qed.

Lemma awp_lift {A} f (o : option A) (Q : A -> at_state -> Prop) s :
  allowed f -> (forall x, o = Some x -> Q x s) -> awp allowed (alift f o) Q s.
Proof. intros Hf HQ. destruct o; [by apply HQ|done]. Qed.

Lemma awp_lift_Some {A} f (o : option A) x (Q : A -> at_state -> Prop) s :
  o = Some x -> Q x s -> awp allowed (alift f o) Q s.
Proof. by intros ->. Qed.

Lemma awp_on_gps {A} (m : CM gps A) (Q : A -> at_state -> Prop) s :
  allowed HalFault -> (forall x g, m (at_hal s) = Some (x, g) -> Q x (s ⟨ at_hal := g ⟩)) ->
  awp allowed (on_gps m) Q s.
Proof. intros Hf HQ. unfold awp, on_gps. destruct (m (at_hal s)) as [[x g]|] eqn:E; [by apply HQ|done]. Qed.

Lemma awp_mono {A} (m : AM A) (P Q : A -> at_state -> Prop) s :
  awp allowed m P s -> (forall x s', P x s' -> Q x s') -> awp allowed m Q s.
Proof. unfold awp. destruct (m s) as [[x s']|f]; auto. Qed.

Lemma awp_inl {A} (m : AM A) Q s x s' : awp allowed m Q s -> m s = inl (x, s') -> Q x s'.
Proof. unfold awp. intros Hw E. by rewrite E in Hw. Qed.
End Rules.

Lemma awp_same {A allowed} (m m' : AM A) Q s : m s = m' s -> awp allowed m' Q s -> awp allowed m Q s.
Proof. unfold awp. by intros ->. Qed.

(** A run without faults. *)
Lemma awp_total {A} (m : AM A) Q s :
  awp (fun _ => False) m Q s -> exists x s', m s = inl (x, s') /\ Q x s'.
Proof. unfold awp. destruct (m s) as [[x s']|f]; [eauto|done]. Qed.

Lemma run_inl {A B} (m : AM A) (k : A -> AM B) s x s' : m s = inl (x, s') -> (y ← m; k y) s = k x s'.
Proof. unfold mbind, am_bind. by intros ->. Qed.

Ltac awp_step :=
  lazymatch goal with
  | |- awp _ (mbind _ _) _ _ => apply awp_bind
  | |- awp _ (mret _) _ _ => apply awp_ret
  | |- awp _ (aget _) _ _ => apply awp_get
  | |- awp _ (aset _) _ _ => apply awp_set
  | |- awp _ (awhen _ _) _ _ => apply awp_when; intros
  | |- awp _ (if _ then _ else _) _ _ => apply awp_if; intros
  end.

Ltac awps := repeat (awp_step; cbv beta).

(** ** Memory *)

Section Memory.
Context `{DaemonLink}.
Variable malloc_ok : Z -> bool.
Variable junk : list Z.

Definition benign (f : fault) : Prop := f <> DoubleFree /\ f <> UseAfterFree.

(** No test is running. *)
Definition idle (s : at_state) : Prop :=
  MNL_AT_TEST_FLAG s = 0 /\ MNL_AT_SIGNAL_MODE s = 0 /\ MNL_AT_SIGNAL_TEST_BEGIN s = 0
  /\ MNL_AT_TEST_STATE s = MNL_AT_TEST_UNKNOWN /\ Success_Num s = 0.

Definition live (s : at_state) : Prop := Dev_CNr s <> Freed.
Definition block_ok (s : at_state) : Prop := live s \/ idle s.

(** What they depend on. *)
Definition core (s : at_state) : block * (Z * Z * Z * Z * Z) :=
  (Dev_CNr s, (MNL_AT_TEST_FLAG s, MNL_AT_SIGNAL_MODE s, MNL_AT_SIGNAL_TEST_BEGIN s, MNL_AT_TEST_STATE s, Success_Num s)).

Lemma core_live s s' : core s' = core s -> live s -> live s'.
Proof. unfold core, live. congruence. Qed.

Lemma core_block_ok s s' : core s' = core s -> block_ok s -> block_ok s'.
Proof. unfold core, block_ok, live, idle. intros [= -> -> -> -> -> ->]. done. Qed.

Notation bwp := (awp benign).

Lemma bwp_send t s : bwp (at_command_send_ack t) (fun _ s' => core s' = core s) s.
Proof. done. Qed.

Lemma bwp_send_formatted a t s : bwp (send_formatted a t) (fun _ s' => core s' = core s) s.
Proof. unfold send_formatted. apply awp_bind, awp_lift; [done|]. done. Qed.

Lemma bwp_send_number c v s : bwp (send_number junk c v) (fun _ s' => core s' = core s) s.
Proof. unfold send_number. apply awp_bind, awp_lift; [done|]. intros _ _. apply bwp_send_formatted. Qed.

Lemma bwp_send_cno c s : bwp (at_command_send_cno junk c) (fun _ s' => core s' = core s) s.
Proof. unfold at_command_send_cno, send_text. awps; try done; apply bwp_send_number. Qed.

Lemma bwp_send_test_result s : bwp (at_command_send_test_result junk) (fun _ s' => core s' = core s) s.
Proof. unfold at_command_send_test_result, send_text. awps; try done; apply bwp_send_formatted. Qed.

Lemma bwp_parse_num c s : bwp (at_command_parse_test_num c) (fun _ s' => s' = s) s.
Proof.
  unfold at_command_parse_test_num. apply awp_bind, awp_lift; [done|]. intros t _. by destruct (strtoul_all t).
Qed.

Lemma bwp_stop s : live s -> bwp mtk_gps_test_stop (fun _ => block_ok) s.
Proof.
  intros Hl. unfold mtk_gps_test_stop. awps.
  - by left.
  - apply awp_on_gps; [done|]. intros err g _. awps; [by left|].
    apply awp_on_gps; [done|]. intros [] g' _. awps. unfold free_block. awps.
    unfold live in Hl. cbn. destruct (Dev_CNr s); cbn; [| |done]; by right.
Qed.

(** A test is started with a new block, or faults. *)
Lemma bwp_new_block n s : bwp (new_block malloc_ok n) (fun _ s' => live s' /\ Success_Num s' = Success_Num s) s.
Proof. unfold new_block. cbv zeta. awps; done. Qed.

Lemma bwp_begin now n p d m s : bwp (begin_test malloc_ok now n p d m) (fun _ => live) s.
Proof.
  unfold begin_test. awps. eapply awp_mono; [apply bwp_new_block|]. intros [] s2 [Hl _]. awps; try done.
  all: apply awp_on_gps; [done|]; intros err g _; awps; try done.
  all: apply awp_on_gps; [done|]; intros [] g' _; by awps.
Qed.

Lemma bwp_start now n p d m s : block_ok s -> bwp (mtk_gps_test_start malloc_ok now n p d m) (fun _ => live) s.
Proof.
  intros Hb. unfold mtk_gps_test_start. apply awp_bind, awp_get, awp_bind, awp_when.
  - intros [Hs _]%andb_prop. apply awp_bind. eapply awp_mono; [apply bwp_stop|].
    + destruct Hb as [|(_ & _ & _ & Hst & _)]; [done|]. cbn in Hs. by rewrite Hst in Hs.
    + intros x s1 _. apply awp_ret, bwp_begin.
  - intros _. apply bwp_begin.
Qed.

Lemma live_block_ok s : live s -> block_ok s.
Proof. by left. Qed.
Hint Resolve live_block_ok : core.

Lemma not_idle s : block_ok s -> ~ idle s -> live s.
Proof. by intros [?|?]. Qed.

(** A test that the code made says that the state is not idle. *)
Ltac refute_idle :=
  let Hf := fresh in let Hm := fresh in let Hb := fresh in let Hs := fresh in
  intros (Hf & Hm & Hb & Hs & _);
  match goal with
  | E : _ = true |- _ => cbn in E; rewrite ?Hf, ?Hm, ?Hb, ?Hs in E; done
  | E : _ = false |- _ => cbn in E; rewrite ?Hf, ?Hm, ?Hb, ?Hs in E; done
  end.

Lemma bwp_start_normal now n ok error s :
  block_ok s -> bwp (start_normal_test malloc_ok now n ok error) (fun _ => block_ok) s.
Proof.
  intros Hb. unfold start_normal_test, send_text. awps; [|done].
  eapply awp_mono; [by apply bwp_start|]. intros x s' Hl. by apply live_block_ok.
Qed.

(** A sender, after which nothing else happens. *)
Lemma bwp_sender (m : AM unit) s :
  bwp m (fun _ s' => core s' = core s) s -> block_ok s -> bwp m (fun _ => block_ok) s.
Proof. intros Hm Hb. eapply awp_mono; [done|]. intros [] s' E. by eapply core_block_ok. Qed.

Lemma bwp_gps_parser now c s : block_ok s -> bwp (at_gps_command_parser malloc_ok junk now c) (fun _ => block_ok) s.
Proof.
  intros Hb. unfold at_gps_command_parser, send_text. awps; try done.
  all: try (apply bwp_sender; [by apply bwp_send_cno || by apply bwp_send_formatted|done]).
  eapply awp_mono; [apply bwp_parse_num|]. intros n s' ->. by apply bwp_start_normal.
Qed.

Lemma bwp_gnss_signal now s : block_ok s -> bwp (gnss_signal malloc_ok now) (fun _ => block_ok) s.
Proof.
  intros Hb. unfold gnss_signal, send_text. awps.
  2,3: apply live_block_ok; apply not_idle in Hb; [exact Hb|by refute_idle].
  eapply awp_mono; [by apply bwp_start|]. intros x s' Hl. awps. by apply live_block_ok.
Qed.

Lemma bwp_stop_test s :
  block_ok s -> MNL_AT_TEST_STATE s <> MNL_AT_TEST_UNKNOWN -> bwp mtk_gps_test_stop (fun _ => block_ok) s.
Proof. intros Hb Hs. apply bwp_stop, not_idle; [done|]. by intros (_ & _ & _ & ? & _). Qed.

Lemma bwp_gnss_end s : block_ok s -> bwp gnss_end (fun _ => block_ok) s.
Proof.
  intros Hb. unfold gnss_end, send_text. awps; [done|].
  eapply awp_mono; [apply bwp_stop_test; [done|by apply Z.eqb_neq]|]. intros x s' Hs'. by awps.
Qed.

Lemma bwp_gnss_number now n s : block_ok s -> bwp (gnss_number malloc_ok now n) (fun _ => block_ok) s.
Proof.
  intros Hb. unfold gnss_number, send_text, at_command_send_ack. awps.
  - assert (MNL_AT_TEST_STATE s <> MNL_AT_TEST_UNKNOWN).
    { intros E. match goal with K : negb _ = true |- _ => cbn in K; rewrite E in K; done end. }
    eapply awp_mono; [apply bwp_stop_test|intros x s' Hs'; exact Hs'].
    + destruct Hb as [Hl|(? & ? & ? & ? & _)]; [by left|by right].
    + done.
  - destruct Hb as [Hl|(? & ? & ? & ? & _)]; [by left|by right].
  - apply live_block_ok. apply not_idle in Hb; [exact Hb|by refute_idle].
  - apply bwp_start_normal. destruct Hb as [Hl|(? & ? & ? & ? & _)]; [by left|by right].
Qed.

Lemma bwp_gnss_parser now c s : block_ok s -> bwp (at_gnss_command_parser malloc_ok junk now c) (fun _ => block_ok) s.
Proof.
  intros Hb. unfold at_gnss_command_parser, send_text. awps; try done.
  all: try (apply bwp_sender; [by apply bwp_send_cno || by apply bwp_send_test_result|done]).
  - by apply bwp_gnss_signal.
  - by apply bwp_gnss_end.
  - eapply awp_mono; [apply bwp_parse_num|]. intros n s' ->. by apply bwp_gnss_number.
Qed.

Lemma bwp_receive now stale d s : block_ok s -> bwp (at_receive malloc_ok junk now stale d) (fun _ => block_ok) s.
Proof.
  intros Hb. unfold at_receive, at_command_parser, send_text. apply awp_bind, awp_lift; [done|]. intros c _. awps.
  - by apply bwp_gps_parser.
  - by apply bwp_gnss_parser.
  - done.
Qed.

(** ** Sentences *)

Lemma bwp_block_set i v s : live s -> bwp (block_set i v) (fun _ => live) s.
Proof.
  unfold live, block_set. intros Hl. awps. destruct (Dev_CNr s); [done| |done].
  apply awp_bind, awp_lift; [done|]. by intros l' _.
Qed.

Lemma bwp_block_get i s : live s -> bwp (block_get i) (fun _ => live) s.
Proof.
  unfold live, block_get. intros Hl. awps. destruct (Dev_CNr s) eqn:E; [done| |done].
  apply awp_lift; [done|]. intros x _. by rewrite E.
Qed.

Lemma bwp_deviation n j s : live s -> bwp (deviation_loop n j) (fun _ => live) s.
Proof.
  revert j s. induction n as [|n IH]; intros j s Hl; cbn; awps; [done|].
  eapply awp_mono; [by apply bwp_block_get|]. intros v s' Hl'. awps. by apply IH.
Qed.

Lemma bwp_update_deviation s : live s -> bwp update_deviation (fun _ => live) s.
Proof.
  intros Hl. unfold update_deviation. awps; [|done].
  eapply awp_mono; [by apply bwp_deviation|]. intros [] s' Hl'. by awps.
Qed.

Lemma bwp_measured v s : live s -> bwp (measured v) (fun _ => live) s.
Proof.
  intros Hl. unfold measured. awps; try done.
  all: eapply awp_mono; [by apply bwp_block_set|]; intros [] s' Hl'; by awps.
Qed.

Lemma bwp_search svs s : live s -> bwp (gps_at_command_search_satellite svs) (fun _ => live) s.
Proof.
  intros Hl. unfold gps_at_command_search_satellite, not_measured. awps.
  destruct (find _ svs) as [[p v]|]; [|done]. awps.
  - eapply awp_mono; [by apply bwp_measured|]. intros [] s' Hl'. by apply bwp_update_deviation.
  - by apply bwp_update_deviation.
  - by apply bwp_update_deviation.
Qed.

Lemma bwp_satellites svs s : block_ok s -> bwp (gsv_complete svs) (fun _ => block_ok) s.
Proof.
  intros Hb. unfold gsv_complete. apply awp_bind, awp_get, awp_when; [|done]. intros Ht.
  assert (live s) as Hl.
  { apply not_idle; [done|]. intros (Hf & Hm & _). cbn in Ht. by rewrite Hf, Hm in Ht. }
  eapply (awp_mono _ (fun _ => live)); [|intros [] s'; apply live_block_ok].
  unfold gps_at_command_test_proc. awps; try done.
  - eapply awp_mono; [by apply bwp_search|]. intros [] s' Hl'. by awps.
  - by apply bwp_search.
Qed.

Lemma bwp_count s : live s -> bwp count_measurements (fun _ => live) s.
Proof. intros Hl. unfold count_measurements, complete. by awps. Qed.

Lemma bwp_publish s : live s -> bwp publish_result (fun _ => block_ok) s.
Proof.
  intros Hl. unfold publish_result. awps; [|by left].
  eapply awp_mono; [by apply bwp_stop|]. intros x s' [?|?]; awps; [by left|by right].
Qed.

Lemma bwp_parse_head now end_tag s : block_ok s -> bwp (at_parse_head now end_tag) (fun _ => block_ok) s.
Proof.
  intros Hb. unfold at_parse_head. apply awp_bind, awp_get, awp_if; [|by intros; awps]. intros Ht.
  assert (live s) as Hl.
  { apply not_idle; [done|]. intros (Hf & _ & Hm & _). cbn in Ht. by rewrite Hf, Hm in Ht. }
  apply awp_if; [intros _|by intros; awps]. apply awp_bind, awp_when; [intros _|by intros; awps].
  apply awp_bind. eapply awp_mono; [by apply bwp_count|]. intros stopped s1 Hl1. awps; [|by left].
  by eapply awp_mono; [apply bwp_publish|].
Qed.

(** Every event but the framework's own stop. *)
Lemma bwp_handle e s : e <> TestStop -> block_ok s -> bwp (at_handle malloc_ok junk e) (fun _ => block_ok) s.
Proof.
  intros He Hb. destruct e as [now stale d|now tag|svs|c| |now n p d m|]; cbn.
  - by apply bwp_receive.
  - awps. eapply awp_mono; [by apply bwp_parse_head|]. intros x s' Hs'. by awps.
  - by apply bwp_satellites.
  - unfold test_control_command. by awps.
  - unfold alarm_handler. awps; [|done].
    eapply awp_mono; [apply bwp_stop_test; [done|by apply Z.eqb_neq, negb_true_iff]|].
    intros x s' Hs'. awps; [|done]. apply awp_on_gps; [done|]. by intros [] g _.
  - awps. eapply awp_mono; [by apply bwp_start|]. intros x s' Hs'. awps. by left.
  - done.
Qed.

Lemma bwp_run es s : TestStop ∉ es -> block_ok s -> bwp (at_run malloc_ok junk es) (fun _ => block_ok) s.
Proof.
  revert s. induction es as [|e es IH]; intros s Hes Hb; [done|]. cbn. awps.
  apply not_elem_of_cons in Hes as [He Hes].
  eapply awp_mono; [by apply bwp_handle|]. intros [] s' Hs'. by apply IH.
Qed.
End Memory.

(** ** A stop that the daemon accepts *)

Section Stop.
Context `{DaemonLink}.

Definition stop_accepted (g : gps) : Prop :=
  init g <> 0 /\ send_answer (length (datagrams g)) (sock g) [u8 MNL_CMD_STOP] = 0.

Definition hal_stopped (g : gps) : gps :=
  g ⟨ datagrams $= fun l => l ++ [(sock g, [u8 MNL_CMD_STOP])] ⟩ ⟨ control $= fun l => l ++ [CMD_TEST_STOP] ⟩.

(** What is left of a test: its result, its counts of failures, and the pointer
    to the block. *)
Definition stopped (s : at_state) : at_state :=
  s ⟨ test_mode_flag := 1 ⟩ ⟨ at_hal := hal_stopped (at_hal s) ⟩
    ⟨ hal_test_num := 0 ⟩ ⟨ hal_prn_num := 0 ⟩ ⟨ hal_time_delay := 0 ⟩
    ⟨ MNL_AT_TEST_FLAG := 0 ⟩ ⟨ MNL_AT_SIGNAL_MODE := 0 ⟩ ⟨ MNL_AT_TEST_STATE := MNL_AT_TEST_UNKNOWN ⟩
    ⟨ MNL_AT_SET_ALARM := 0 ⟩ ⟨ MNL_AT_CANCEL_ALARM := 0 ⟩ ⟨ MNL_AT_SIGNAL_TEST_BEGIN := 0 ⟩
    ⟨ Success_Num := 0 ⟩ ⟨ Completed_Num := 0 ⟩ ⟨ Wait_Num := 0 ⟩ ⟨ CNo := 0 ⟩ ⟨ DCNo := 0 ⟩ ⟨ Dev_CNo := 0 ⟩
    ⟨ Err_Code := 1 ⟩ ⟨ test_num := 0 ⟩.

Lemma run_on_gps {A B} (m : CM gps A) (k : A -> AM B) s x g :
  m (at_hal s) = Some (x, g) -> (y ← on_gps m; k y) s = k x (s ⟨ at_hal := g ⟩).
Proof. unfold mbind, am_bind, on_gps. by intros ->. Qed.

Lemma run_aset {B} f (k : unit -> AM B) s : (y ← aset f; k y) s = k tt (f s).
Proof. done. Qed.

Lemma run_aget {A B} (f : at_state -> A) (k : A -> AM B) s : (y ← aget f; k y) s = k (f s) s.
Proof. done. Qed.

Lemma stop_spec s :
  stop_accepted (at_hal s) ->
  mtk_gps_test_stop s = match Dev_CNr s with
                        | Null => inl (0, stopped s)
                        | Block _ => inl (0, (stopped s) ⟨ Dev_CNr := Freed ⟩)
                        | Freed => inr DoubleFree
                        end.
Proof.
  intros [Hi Ha]. unfold mtk_gps_test_stop. rewrite run_aset, run_aget.
  unfold truthy at 1. cbn [at_hal field_update]. rewrite (proj2 (Z.eqb_neq _ _) Hi). cbn [negb].
  rewrite (run_on_gps mtk_stop _ _ 0 ((at_hal s) ⟨ datagrams $= fun l => l ++ [(sock (at_hal s), [u8 MNL_CMD_STOP])] ⟩)).
  2: { transitivity (Some (send_answer (length (datagrams (at_hal s))) (sock (at_hal s)) [u8 MNL_CMD_STOP],
         (at_hal s) ⟨ datagrams $= fun l => l ++ [(sock (at_hal s), [u8 MNL_CMD_STOP])] ⟩));
       [reflexivity|by rewrite Ha]. }
  cbn [truthy Z.eqb negb].
  erewrite (run_on_gps (write_control _)) by reflexivity. rewrite run_aset.
  unfold free_block, mbind at 1, am_bind at 1. rewrite run_aget. cbn [Dev_CNr field_update].
  destruct (Dev_CNr s); reflexivity.
Qed.
End Stop.
