(* ===== verification/AtParse.v ===== *)
(** * The AT command test: the commands as a grammar

    A reference parser on the text of a command, and the proof that the
    position tests of at_command_parser decide the same. *)

From stdpp Require Import gmap.
From S2P Require Import Prelude HalBuff Calendar EpoTime EpoConf EpoDownload Daemon Hal AtCommand AtLogic.
#[local] Open Scope Z_scope.

(** ** The grammar *)

Inductive at_cmd :=
  | GpsCno                           (* AT%GPS, AT%GPS=? *)
  | GpsStatus                        (* AT%GPS? *)
  | GpsDebug                         (* AT%GPS=E, AT%GPS=D: nothing *)
  | GpsNumber (text : list Z)        (* AT%GPS=n *)
  | GpsBad
  | GnssCno                          (* AT%GNSS *)
  | GnssResult                       (* AT%GNSS?, AT%GNSS=? *)
  | GnssSignal                       (* AT%GNSS=S *)
  | GnssEnd                          (* AT%GNSS=E *)
  | GnssNumber (text : list Z)       (* AT%GNSS=n *)
  | GnssBad
  | NotAt.

Definition any_of (l : list string) (text : list Z) : bool := existsb (fun w => bytes_eqb text (zs w)) l.

Definition gps_cmd (arg : list Z) : at_cmd :=
  match arg with
  | [] => GpsCno
  | c :: value =>
      if c =? ch "=" then
        if any_of ["?"%string] value then GpsCno
        else if any_of ["E"; "e"; "D"; "d"]%string value then GpsDebug
        else GpsNumber value
      else if any_of ["?"%string] arg then GpsStatus
      else GpsBad
  end.

Definition gnss_cmd (arg : list Z) : at_cmd :=
  match arg with
  | [] => GnssCno
  | c :: value =>
      if c =? ch "=" then
        if any_of ["?"%string] value then GnssResult
        else if any_of ["S"; "s"]%string value then GnssSignal
        else if any_of ["E"; "e"]%string value then GnssEnd
        else GnssNumber value
      else if any_of ["?"%string] arg then GnssResult
      else GnssBad
  end.

(** What follows a word. *)
Definition after_op (op text : list Z) : option (list Z) :=
  if bool_decide (take (length op) text = op) then Some (drop (length op) text) else None.

Definition parse_at (text : list Z) : at_cmd :=
  match after_op GPS_OP text with
  | Some arg => gps_cmd arg
  | None => match after_op GNSS_OP text with Some arg => gnss_cmd arg | None => NotAt end
  end.

(** The number, or -1: not 0, only digits up to the end, 32 bits. *)
Definition test_number (text : list Z) : Z :=
  let '(res, ends) := strtoul_all text in if negb (res =? 0) && ends then s32 res else -1.

(** A datagram up to its first zero byte. *)
Definition command_text (datagram : list Z) : list Z := default [] (cstr (datagram ++ [0])).

Section Perform.
Context `{DaemonLink}.
Variable malloc_ok : Z -> bool.
Variable junk : list Z.

Definition usb_mode (m : AM unit) : AM unit := _ ← aset (fun s => s ⟨ test_mode_flag := 0 ⟩); m.

Definition gps_status : AM unit :=
  s ← aget id;
  let ret := mtk_gps_test_inprogress s in
  if ret =? MNL_AT_TEST_INPROGRESS then send_text "GPS Test In Progress"
  else if ret =? MNL_AT_TEST_DONE then
    send_formatted (take 60 junk) (zs "<" ++ numbers (at_result s) ++ zs ">")
  else send_text "ERROR".

Definition perform (now : Z) (c : at_cmd) : AM unit :=
  match c with
  | GpsCno => usb_mode (at_command_send_cno junk GPS_OP)
  | GpsStatus => usb_mode gps_status
  | GpsDebug => usb_mode (mret tt)
  | GpsNumber text => usb_mode (start_normal_test malloc_ok now (test_number text) "GPS TEST START OK" "GPS ERROR")
  | GpsBad => usb_mode (send_text "GPS ERROR")
  | GnssCno => usb_mode (at_command_send_cno junk GNSS_OP)
  | GnssResult => usb_mode (at_command_send_test_result junk)
  | GnssSignal => usb_mode (gnss_signal malloc_ok now)
  | GnssEnd => usb_mode gnss_end
  | GnssNumber text => usb_mode (gnss_number malloc_ok now (test_number text))
  | GnssBad => usb_mode (send_text "GNSS ERROR")
  | NotAt => send_text "GPS ERROR"
  end.

(** ** Position tests *)

Lemma text_eq (x cs r : list Z) :
  no_nul x -> no_nul cs -> take (length (cs ++ [0])) (x ++ 0 :: r) = cs ++ [0] <-> x = cs.
Proof.
  intros Hx. revert cs. induction Hx as [|a x Ha Hx IH]; intros [|c cs] Hcs; try apply Forall_cons in Hcs as [Hc Hcs].
  - done.
  - split; [|done]. cbn. intros [= <- _]. done.
  - split; [|done]. cbn. intros [= ->]. done.
  - specialize (IH cs Hcs). cbn [app length take]. split; [intros [= -> E]; f_equal; by apply IH|].
    intros [= -> E]. f_equal. by apply IH.
Qed.

(** The rest of a command from position [k] on is [x]. *)
Lemma chars_at_text command k x r cs :
  drop k command = x ++ 0 :: r -> no_nul x -> no_nul cs -> chars_at command k (cs ++ [0]) = bytes_eqb x cs.
Proof. intros Hd Hx Hcs. unfold chars_at, bytes_eqb. rewrite Hd. by apply bool_decide_ext, text_eq. Qed.

Lemma char_at_drop command k c : char_at command k c = bool_decide (head (drop k command) = Some c).
Proof. unfold char_at. by rewrite head_lookup, lookup_drop, Nat.add_0_r. Qed.

Lemma is_op_text op t r : no_nul op -> is_op op (t ++ 0 :: r) = bool_decide (take (length op) t = op).
Proof.
  intros Hop. unfold is_op. apply bool_decide_ext. destruct (decide (length op <= length t)%nat) as [Hl|Hl].
  - by rewrite take_app_le by lia.
  - split.
    + rewrite take_app_ge by lia. intros E. exfalso. unfold no_nul in Hop. rewrite <-E in Hop.
      apply Forall_app in Hop as [_ Hop]. destruct (length op - length t)%nat eqn:En; [lia|].
      by apply Forall_cons in Hop as [? _].
    + intros E. apply (f_equal length) in E. rewrite length_take in E. lia.
Qed.

Lemma after_op_spec op text :
  no_nul op -> no_nul text ->
  match after_op op text with
  | Some arg => text = op ++ arg /\ no_nul arg /\ (forall r, is_op op (text ++ 0 :: r) = true)
  | None => forall r, is_op op (text ++ 0 :: r) = false
  end.
Proof.
  intros Hop Ht. unfold after_op. case_bool_decide as E.
  - split_and!.
    + transitivity (take (length op) text ++ drop (length op) text); [by rewrite take_drop|by rewrite E].
    + by apply Forall_drop.
    + intros r. rewrite is_op_text by done. by apply bool_decide_eq_true_2.
  - intros r. rewrite is_op_text by done. by apply bool_decide_eq_false_2.
Qed.

Lemma char_eq x c : bool_decide (Some x = Some c) = (x =? c).
Proof. case_bool_decide as E; symmetry; [apply Z.eqb_eq|apply Z.eqb_neq]; congruence. Qed.

Lemma parse_num_text command text r s :
  no_nul text -> drop (if is_op GNSS_OP command then 8%nat else 7%nat) command = text ++ 0 :: r ->
  at_command_parse_test_num command s = inl (test_number text, s).
Proof.
  intros Ht Hd. unfold at_command_parse_test_num. cbv zeta. rewrite Hd, cstr_app by done.
  unfold test_number, mbind, am_bind, alift, mret, am_ret. by destruct (strtoul_all text).
Qed.

Lemma usb_parse_num command text r (k : Z -> AM unit) s :
  no_nul text -> drop (if is_op GNSS_OP command then 8%nat else 7%nat) command = text ++ 0 :: r ->
  (_ ← aset (fun s => s ⟨ test_mode_flag := 0 ⟩); n ← at_command_parse_test_num command; k n) s
  = usb_mode (k (test_number text)) s.
Proof. intros Ht Hd. unfold usb_mode. rewrite !run_aset. apply run_inl. by eapply parse_num_text. Qed.

Lemma send_cno_op c1 c2 s : is_op GNSS_OP c1 = is_op GNSS_OP c2 -> at_command_send_cno junk c1 s = at_command_send_cno junk c2 s.
Proof. intros E. unfold at_command_send_cno, send_number. by rewrite E. Qed.

Lemma no_nul_op s : forallb (fun c => negb (c =? 0)) (zs s) = true -> no_nul (zs s).
Proof.
  intros Hs. apply Forall_forall. intros c Hc%list_elem_of_In. rewrite forallb_forall in Hs.
  by apply Hs, negb_true_iff, Z.eqb_neq in Hc.
Qed.

Lemma gps_parser_text now arg r s :
  no_nul arg ->
  at_gps_command_parser malloc_ok junk now (GPS_OP ++ arg ++ 0 :: r) s = perform now (gps_cmd arg) s.
Proof.
  intros Ha. unfold at_gps_command_parser.
  assert (is_op GNSS_OP (GPS_OP ++ arg ++ 0 :: r) = false) as Hop
    by (rewrite app_assoc, is_op_text by (by apply no_nul_op); reflexivity).
  assert (drop 6 (GPS_OP ++ arg ++ 0 :: r) = arg ++ 0 :: r) as H6 by reflexivity.
  rewrite !(char_at_drop _ 6), (chars_at_text _ 6 arg r (zs "?") H6 Ha), H6 by (by apply no_nul_op).
  destruct arg as [|c value]; [by apply send_cno_op|].
  apply Forall_cons in Ha as [Hc Hv].
  assert (drop 7 (GPS_OP ++ (c :: value) ++ 0 :: r) = value ++ 0 :: r) as H7 by reflexivity.
  rewrite !(chars_at_text _ 7 value r _ H7 Hv) by (by apply no_nul_op).
  cbn [app head] in *. rewrite !char_eq, (proj2 (Z.eqb_neq c 0) Hc).
  unfold gps_cmd, any_of. cbn [existsb]. rewrite !orb_false_r.
  destruct (c =? ch "="); [|by destruct (bytes_eqb (c :: value) _)].
  destruct (bytes_eqb value (zs "?")); [by apply send_cno_op|].
  destruct (bytes_eqb value (zs "E")), (bytes_eqb value (zs "e")), (bytes_eqb value (zs "D")),
    (bytes_eqb value (zs "d")); try done.
  cbn [orb perform]. apply (usb_parse_num _ value r (fun n => start_normal_test malloc_ok now n "GPS TEST START OK" "GPS ERROR")).
  all: by rewrite ?Hop.
Qed.

Lemma gnss_parser_text now arg r s :
  no_nul arg ->
  at_gnss_command_parser malloc_ok junk now (GNSS_OP ++ arg ++ 0 :: r) s = perform now (gnss_cmd arg) s.
Proof.
  intros Ha. unfold at_gnss_command_parser.
  assert (is_op GNSS_OP (GNSS_OP ++ arg ++ 0 :: r) = true) as Hop
    by (rewrite app_assoc, is_op_text by (by apply no_nul_op); reflexivity).
  assert (drop 7 (GNSS_OP ++ arg ++ 0 :: r) = arg ++ 0 :: r) as H7 by reflexivity.
  rewrite !(char_at_drop _ 7), (chars_at_text _ 7 arg r (zs "?") H7 Ha), H7 by (by apply no_nul_op).
  destruct arg as [|c value]; [by apply send_cno_op|].
  apply Forall_cons in Ha as [Hc Hv].
  assert (drop 8 (GNSS_OP ++ (c :: value) ++ 0 :: r) = value ++ 0 :: r) as H8 by reflexivity.
  rewrite !(chars_at_text _ 8 value r _ H8 Hv) by (by apply no_nul_op).
  cbn [app head] in *. rewrite !char_eq, (proj2 (Z.eqb_neq c 0) Hc).
  unfold gnss_cmd, any_of. cbn [existsb]. rewrite !orb_false_r.
  destruct (c =? ch "="); [|by destruct (bytes_eqb (c :: value) _)].
  destruct (bytes_eqb value (zs "?")), (bytes_eqb value (zs "S")), (bytes_eqb value (zs "s")),
    (bytes_eqb value (zs "E")), (bytes_eqb value (zs "e")); try done.
  cbn [orb perform]. apply (usb_parse_num _ value r (gnss_number malloc_ok now)); by rewrite ?Hop.
Qed.

(** The parser on a text and what stands behind its terminator. *)
Lemma parser_text now text r s :
  no_nul text -> at_command_parser malloc_ok junk now (text ++ 0 :: r) s = perform now (parse_at text) s.
Proof.
  intros Ht. unfold at_command_parser, parse_at.
  pose proof (after_op_spec GPS_OP text) as H1. pose proof (after_op_spec GNSS_OP text) as H2.
  destruct (after_op GPS_OP text) as [arg|].
  { destruct H1 as (-> & Ha & ->); [by apply no_nul_op|done|]. rewrite <-app_assoc. by apply gps_parser_text. }
  rewrite H1 by (done || by apply no_nul_op). destruct (after_op GNSS_OP text) as [arg|].
  { destruct H2 as (-> & Ha & ->); [by apply no_nul_op|done|]. rewrite <-app_assoc. by apply gnss_parser_text. }
  by rewrite H2 by (done || by apply no_nul_op).
Qed.

(** ** Datagrams *)

Lemma command_text_split d :
  no_nul (command_text d) /\ exists rest, d ++ [0] = command_text d ++ 0 :: rest.
Proof.
  unfold command_text.
  assert (exists text rest, cstr (d ++ [0]) = Some text /\ no_nul text /\ d ++ [0] = text ++ 0 :: rest)
    as (text & rest & -> & Ht & E); [|by split; [|exists rest]].
  induction d as [|c d (text & rest & E1 & Ht & E2)]; cbn [app cstr]; [exists [], []; split_and!; (done || constructor)|].
  destruct (Z.eqb_spec c 0) as [->|Hc]; [exists [], (d ++ [0]); split_and!; (done || constructor)|].
  exists (c :: text), rest. rewrite E1, E2. split_and!; [done|by constructor|done].
Qed.

Lemma receive_text now stale d s :
  length stale = 20%nat ->
  at_receive malloc_ok junk now stale d s
  = if (length d <? 20)%nat then perform now (parse_at (command_text d)) s else inr CommandOverflow.
Proof.
  intros Hs. unfold at_receive. rewrite (take_ge stale) by lia. cbv zeta.
  destruct (Nat.ltb_spec (length d) 20).
  - rewrite (take_ge d) by lia. rewrite buf_write_Some by (rewrite ?length_app; simpl length; lia).
    destruct (command_text_split d) as [Ht [rest E]].
    change (Z.to_nat 0) with 0%nat. cbn [take app]. rewrite E, <-app_assoc.
    unfold mbind, am_bind, alift, mret, am_ret. by apply parser_text.
  - rewrite buf_write_None; [done|]. right. rewrite length_app, length_take. simpl length. lia.
Qed.
End Perform.
