(* ===== verification/AtStats.v ===== *)
(** * The AT command test: what it measures

    One round of a normal test is a complete group of GSV sentences and the
    last sentence of a read from the device.  [measuring] is the state between
    two rounds, and each part of a round is followed through it. *)

From stdpp Require Import gmap.
From S2P Require Import Prelude HalBuff Calendar EpoTime EpoConf EpoDownload Daemon Hal AtCommand AtLogic.
#[local] Open Scope Z_scope.

(** ** Statistics *)

(** The C/N0 of the satellite in a group, in dB; 0 is no measurement. *)
Definition heard (svs : list (Z * Z)) : option Z :=
  match find (fun sv => fst sv =? GPS_TEST_PRN) svs with
  | Some (_, v) => if v =? 0 then None else Some v
  | None => None
  end.

Definition sum (l : list Z) : Z := foldr Z.add 0 l.
Definition tenths (vs : list Z) : list Z := (fun v => v * 10) <$> vs.
Definition mean (vs : list Z) : Z := Z.quot (sum (tenths vs)) (Z.of_nat (length vs)).
Definition squares (a : Z) (l : list Z) : Z := sum ((fun x => (x - a) * (x - a)) <$> l).
Definition deviation (vs : list Z) : Z := Z.sqrt (Z.quot (squares (mean vs) (tenths vs)) (Z.of_nat (length vs))).

Definition valid_snr (svs : list (Z * Z)) : Prop := Forall (fun sv => 0 <= snd sv <= 99) svs.

Lemma sum_app l1 l2 : sum (l1 ++ l2) = sum l1 + sum l2.
Proof.
  induction l1 as [|x l1 IH]; [done|]. cbn [app].
  change (sum (x :: l1 ++ l2)) with (x + sum (l1 ++ l2)). change (sum (x :: l1)) with (x + sum l1). lia.
Qed.

Lemma sum_bounds l b : Forall (fun x => 0 <= x <= b) l -> 0 <= sum l <= b * Z.of_nat (length l).
Proof. induction 1 as [|x l Hx _ IH]; cbn [length]; [cbn; lia|].
  change (sum (x :: l)) with (x + sum l). lia.
Qed.

Lemma tenths_bounds vs : Forall (fun v => 0 <= v <= 99) vs -> Forall (fun x => 0 <= x <= 990) (tenths vs).
Proof. intros Hv. apply Forall_fmap. eapply Forall_impl; [exact Hv|]. intros x Hx. unfold compose. cbv beta in *. lia. Qed.

Lemma length_tenths vs : length (tenths vs) = length vs.
Proof. apply length_fmap. Qed.

Lemma mean_bounds vs : Forall (fun v => 0 <= v <= 99) vs -> 0 <= mean vs <= 990.
Proof.
  intros Hv%tenths_bounds. pose proof (sum_bounds _ _ Hv) as Hs. rewrite length_tenths in Hs. unfold mean.
  destruct (length vs) as [|k]; [by destruct (sum (tenths vs))|].
  rewrite Z.quot_div_nonneg by lia. split; [apply Z.div_pos; lia|]. apply Z.div_le_upper_bound; lia.
Qed.

Lemma squares_bounds a vs :
  0 <= a <= 990 -> Forall (fun v => 0 <= v <= 99) vs ->
  0 <= squares a (tenths vs) <= 980100 * Z.of_nat (length vs).
Proof.
  intros Ha Hv%tenths_bounds. unfold squares.
  pose proof (sum_bounds ((fun x => (x - a) * (x - a)) <$> tenths vs) 980100) as Hs.
  rewrite length_fmap, length_tenths in Hs. apply Hs.
  apply Forall_fmap. eapply Forall_impl; [exact Hv|]. intros x Hx. cbv beta in *. unfold compose.
  assert (-990 <= x - a <= 990) as Hd by lia. revert Hd. generalize (x - a). intros d Hd. nia.
Qed.

Lemma squares_nonneg a l : 0 <= squares a l.
Proof.
  unfold squares. pose proof (Z.le_refl 0). induction l as [|x l IH]; [done|].
  change (sum ((fun x => (x - a) * (x - a)) <$> x :: l)) with ((x - a) * (x - a) + sum ((fun x => (x - a) * (x - a)) <$> l)).
  pose proof (Z.square_nonneg (x - a)). lia.
Qed.

Lemma heard_valid svs v : valid_snr svs -> heard svs = Some v -> 0 < v <= 99.
Proof.
  unfold heard. intros Hv. destruct (find _ svs) as [[p x]|] eqn:E; [|done].
  apply find_some in E as [Hin _]. apply list_elem_of_In in Hin.
  unfold valid_snr in Hv. rewrite Forall_forall in Hv. specialize (Hv _ Hin). cbn in Hv.
  destruct (Z.eqb_spec x 0); [done|]. intros [= <-]. lia.
Qed.

(** ** The state *)

(** A normal test of [n] started at [t0] that has measured [vs]. *)
Record measuring (n t0 : Z) (vs : list Z) (s : at_state) : Prop := {
  m_flag : MNL_AT_TEST_FLAG s = 1;
  m_mode : MNL_AT_SIGNAL_MODE s = 0;
  m_begin : MNL_AT_SIGNAL_TEST_BEGIN s = 0;
  m_state : MNL_AT_TEST_STATE s = MNL_AT_TEST_INPROGRESS;
  m_num : hal_test_num s = n;
  m_prn : hal_prn_num s = GPS_TEST_PRN;
  m_delay : hal_time_delay s = 2;
  m_start : start_time s = t0;
  m_block : Dev_CNr s = Block (tenths vs ++ zeros (n - Z.of_nat (length vs)));
  m_sum : CNo s = sum (tenths vs);
  m_squares : DCNo s = 0;
  m_success : Success_Num s = Z.of_nat (length vs);
  m_mean : Avg_CNo s = mean vs;
  m_dev : Dev_CNo s = deviation vs;
  m_err : Err_Code s = match vs with [] => 1 | _ => 0 end;
}.

(** What a group leaves alone. *)
Definition counts (s : at_state) : Z * Z * Z * list Z * gps :=
  (Failure_Num s, prev_success_num s, Wait_Num s, at_result s, at_hal s).

Notation runs := (awp (fun _ => False)).

Lemma runs_deviation ds pre post s a d :
  Dev_CNr s = Block (pre ++ ds ++ post) -> Avg_CNo s = a -> DCNo s = d ->
  0 <= d -> d + squares a ds < 2 ^ 31 ->
  runs (deviation_loop (length ds) (Z.of_nat (length pre))) (fun _ s' => s' = s ⟨ DCNo := d + squares a ds ⟩) s.
Proof.
  intros HB HA HD Hd Hb. revert pre d s HB HA HD Hd Hb.
  induction ds as [|x ds IH]; intros pre d s HB HA HD Hd Hb; cbn [length deviation_loop].
  - apply awp_ret. destruct s. cbn in *. subst. unfold squares. cbn. by rewrite Z.add_0_r.
  - apply awp_bind. unfold block_get. apply awp_bind, awp_get. rewrite HB.
    apply (awp_lift_Some _ _ x).
    { unfold array_get. rewrite (proj2 (Z.leb_le _ _)) by lia. rewrite Nat2Z.id.
      by rewrite lookup_app_r, Nat.sub_diag by lia. }
    apply awp_bind, awp_set. replace (Z.of_nat (length pre) + 1) with (Z.of_nat (length (pre ++ [x]))) by (rewrite length_app; cbn; lia).
    change (squares a (x :: ds)) with ((x - a) * (x - a) + squares a ds) in Hb |- *.
    pose proof (squares_nonneg a ds) as Hds. pose proof (Z.square_nonneg (x - a)) as Hq.
    assert (s32 (DCNo s + (x - Avg_CNo s) * (x - Avg_CNo s)) = d + (x - a) * (x - a)) as E.
    { rewrite HD, HA. apply s32_id. unfold is_s32. lia. }
    eapply awp_mono; [apply (IH (pre ++ [x]) (d + (x - a) * (x - a)))|].
    + cbn. rewrite HB. by rewrite <-app_assoc.
    + done.
    + cbn. exact E.
    + lia.
    + lia.
    + intros [] s' ->. rewrite Z.add_assoc. by destruct s.
Qed.

Section Round.
Variables (n t0 : Z).
Hypothesis n_small : 1 <= n <= 2000.

(** The deviation is computed again over all measurements. *)
Lemma runs_update vs s :
  vs <> [] -> Z.of_nat (length vs) <= n -> Forall (fun v => 0 <= v <= 99) vs ->
  Dev_CNr s = Block (tenths vs ++ zeros (n - Z.of_nat (length vs))) -> DCNo s = 0 ->
  Success_Num s = Z.of_nat (length vs) -> Avg_CNo s = mean vs ->
  runs update_deviation (fun _ s' => s' = s ⟨ Dev_CNo := deviation vs ⟩) s.
Proof using n_small.
  intros Hne Hn Hv HB HD HS HA. unfold update_deviation. apply awp_bind, awp_get. rewrite HS.
  assert (0 < Z.of_nat (length vs)) as Hpos by (destruct vs; [done|cbn [length]; lia]).
  rewrite (proj2 (Z.eqb_neq _ 0)) by lia. cbn [negb awhen]. rewrite Nat2Z.id.
  pose proof (squares_bounds (mean vs) vs (mean_bounds vs Hv) Hv) as Hb.
  apply awp_bind. rewrite <-(length_tenths vs).
  eapply awp_mono; [apply (runs_deviation (tenths vs) [] (zeros (n - Z.of_nat (length vs))) s (mean vs) 0)|].
  - exact HB.
  - done.
  - done.
  - done.
  - lia.
  - intros [] s' ->. apply awp_set. destruct s. cbn in *. subst. unfold deviation. rewrite length_tenths. done.
Qed.

Lemma length_zeros k : length (zeros k) = Z.to_nat k.
Proof. apply length_replicate. Qed.

(** The next free element of the block. *)
Lemma next_element vs x :
  Z.of_nat (length vs) < n ->
  array_set (tenths vs ++ zeros (n - Z.of_nat (length vs))) (Z.of_nat (length vs)) x
  = Some (tenths vs ++ x :: zeros (n - Z.of_nat (S (length vs)))).
Proof.
  intros Hn. rewrite array_set_Some by (rewrite length_app, length_tenths, length_zeros; lia).
  rewrite Nat2Z.id. f_equal. rewrite insert_app_r_alt by (rewrite length_tenths; lia).
  rewrite length_tenths, Nat.sub_diag. f_equal. unfold zeros.
  replace (Z.to_nat (n - Z.of_nat (length vs))) with (S (Z.to_nat (n - Z.of_nat (S (length vs))))) by lia.
  done.
Qed.

Lemma tenths_snoc vs v : tenths (vs ++ [v]) = tenths vs ++ [v * 10].
Proof. unfold tenths. by rewrite fmap_app. Qed.

(** A measurement, before the deviation. *)
Lemma runs_measured vs v s :
  measuring n t0 vs s -> Z.of_nat (length vs) < n -> Forall (fun v => 0 <= v <= 99) vs -> 0 < v <= 99 ->
  runs (measured v) (fun _ s' => measuring n t0 (vs ++ [v]) (s' ⟨ Dev_CNo := deviation (vs ++ [v]) ⟩) /\ counts s' = counts s) s.
Proof using n_small.
  intros Hm Hn Hv Hx. destruct Hm as [Hflag Hmode ? Hstate ? ? ? ? HB HC HD HS HA ? HE].
  assert (s32 (CNo s + v * 10) = sum (tenths (vs ++ [v]))) as E.
  { rewrite HC, tenths_snoc, sum_app. cbn. rewrite Z.add_0_r. apply s32_id. unfold is_s32.
    pose proof (sum_bounds _ _ (tenths_bounds _ Hv)) as Hs. rewrite length_tenths in Hs. lia. }
  unfold measured. apply awp_bind, awp_get. unfold id. rewrite Hmode, Hflag. cbn [truthy Z.eqb negb andb awhen].
  apply awp_bind, awp_ret, awp_bind, awp_ret, awp_bind, awp_bind, awp_set, awp_bind, awp_get, awp_bind.
  unfold block_set. apply awp_bind, awp_get. cbn [Dev_CNr Success_Num field_update]. rewrite HB, HS.
  apply awp_bind. eapply awp_lift_Some; [by apply next_element|]. apply awp_set, awp_set, awp_set.
  split; [|done].
  assert (Z.of_nat (length vs) + 1 = Z.of_nat (length (vs ++ [v]))) as El by (rewrite length_app; cbn; lia).
  constructor; cbn; try done.
  - rewrite tenths_snoc, <-app_assoc. cbn. rewrite length_app. cbn. do 4 f_equal. lia.
  - by rewrite El, E.
  - by destruct vs.
Qed.

(** The deviation of a state that is right otherwise. *)
Lemma runs_update_measuring vs s s0 :
  measuring n t0 vs (s ⟨ Dev_CNo := deviation vs ⟩) -> counts s = counts s0 ->
  (vs = [] -> measuring n t0 vs s) -> Z.of_nat (length vs) <= n -> Forall (fun v => 0 <= v <= 99) vs ->
  runs update_deviation (fun _ s' => measuring n t0 vs s' /\ counts s' = counts s0) s.
Proof using n_small.
  intros Hm Hc He Hn Hv. destruct (decide (vs = [])) as [->|Hne].
  - specialize (He eq_refl). unfold update_deviation. apply awp_bind, awp_get. by rewrite (m_success _ _ _ _ He).
  - destruct Hm eqn:E. eapply awp_mono; [by apply (runs_update vs s)|]. by intros [] s' ->.
Qed.

(** A complete group. *)
Lemma runs_group vs svs s :
  measuring n t0 vs s -> Z.of_nat (length vs + length (option_list (heard svs))) <= n ->
  Forall (fun v => 0 <= v <= 99) vs -> valid_snr svs ->
  runs (gsv_complete svs)
    (fun _ s' => measuring n t0 (vs ++ option_list (heard svs)) s' /\ counts s' = counts s) s.
Proof using n_small.
  intros Hm Hn Hv Hs. unfold gsv_complete, gps_at_command_test_proc.
  apply awp_bind, awp_get. unfold id. rewrite (m_flag _ _ _ _ Hm). cbn [Z.eqb orb awhen].
  apply awp_bind, awp_get. unfold id. rewrite (m_state _ _ _ _ Hm), (m_mode _ _ _ _ Hm).
  change (MNL_AT_TEST_INPROGRESS =? MNL_AT_TEST_DONE) with false. cbn match.
  unfold gps_at_command_search_satellite. apply awp_bind, awp_get. rewrite (m_prn _ _ _ _ Hm).
  pose proof (heard_valid svs) as Hh. unfold heard in *. destruct (find _ svs) as [[p v]|] eqn:E.
  2: { apply awp_ret. by rewrite app_nil_r. }
  destruct (Z.eqb_spec v 0) as [->|Hv0]; cbn [negb] in *; simpl in Hn.
  - rewrite app_nil_r. apply awp_bind. unfold not_measured. awps.
    all: apply runs_update_measuring; [|done| |lia|done]; [|intros _]; by destruct Hm.
  - apply awp_bind. specialize (Hh v Hs eq_refl).
    eapply awp_mono; [apply (runs_measured vs v); [done|lia|done|done]|].
    intros [] s' [Hm' Hc]. apply runs_update_measuring; [done|done| |rewrite length_app; cbn; lia|].
    + intros Hnil. by destruct vs.
    + apply Forall_app_2; [done|]. constructor; [lia|done].
Qed.

Lemma run_inr {A B} (m : AM A) (k : A -> AM B) s f : m s = inr f -> (y ← m; k y) s = inr f.
Proof. unfold mbind, am_bind. by intros ->. Qed.

(** One measurement more than the block has elements. *)
Lemma measured_overflow vs v s :
  measuring n t0 vs s -> Z.of_nat (length vs) = n -> measured v s = inr OutOfBounds.
Proof using n_small.
  intros [Hflag Hmode ? ? ? ? ? ? HB ? ? HS ? ? ?] Hn. unfold measured. rewrite run_aget. unfold id.
  rewrite Hmode, Hflag. cbn [truthy Z.eqb negb andb awhen].
  rewrite (run_inl _ _ _ _ _ eq_refl), (run_inl _ _ _ _ _ eq_refl). apply run_inr.
  rewrite run_aset, run_aget. apply run_inr. unfold block_set. rewrite run_aget.
  cbn [Dev_CNr Success_Num field_update]. rewrite HB, HS. apply run_inr.
  unfold array_set. rewrite (proj2 (Z.ltb_ge _ _)); [by rewrite andb_false_r|].
  rewrite length_app, length_tenths, length_zeros. lia.
Qed.

Lemma group_overflow vs svs v s :
  measuring n t0 vs s -> Z.of_nat (length vs) = n -> heard svs = Some v -> gsv_complete svs s = inr OutOfBounds.
Proof using n_small.
  intros Hm Hn Hh. unfold gsv_complete. rewrite run_aget. unfold id.
  rewrite (m_flag _ _ _ _ Hm), Z.eqb_refl. cbn [orb awhen]. unfold gps_at_command_test_proc. rewrite run_aget. unfold id.
  rewrite (m_state _ _ _ _ Hm), (m_mode _ _ _ _ Hm).
  change (MNL_AT_TEST_INPROGRESS =? MNL_AT_TEST_DONE) with false. change (0 =? 1) with false. cbn match.
  unfold gps_at_command_search_satellite. rewrite run_aget, (m_prn _ _ _ _ Hm).
  unfold heard in Hh. destruct (find _ svs) as [[p x]|]; [|done]. destruct (Z.eqb_spec x 0); [done|]. cbn [negb].
  apply run_inr. by eapply measured_overflow.
Qed.

(** ** The last sentence of a read *)

(** [f] misses, [w] waits and the last count of measurements. *)
Definition tally (f p w : Z) (s : at_state) : Prop := Failure_Num s = f /\ prev_success_num s = p /\ Wait_Num s = w.

Lemma tally_counts f p w s s' : counts s' = counts s -> tally f p w s -> tally f p w s'.
Proof. unfold counts, tally. by intros [= -> -> -> _ _]. Qed.

Definition kept (s : at_state) : list Z * gps := (at_result s, at_hal s).

Context `{DaemonLink}.
Variable malloc_ok : Z -> bool.
Variable junk : list Z.

Lemma runs_stop l (Q : Z -> at_state -> Prop) s :
  stop_accepted (at_hal s) -> Dev_CNr s = Block l -> Q 0 ((stopped s) ⟨ Dev_CNr := Freed ⟩) ->
  runs mtk_gps_test_stop Q s.
Proof. intros Ha Hd HQ. unfold awp. by rewrite (stop_spec s Ha), Hd. Qed.

(** No test, and nothing left of an earlier one but its result. *)
Definition fresh (s : at_state) : Prop :=
  idle s /\ tally 0 0 0 s /\ CNo s = 0 /\ DCNo s = 0 /\ Dev_CNo s = 0 /\ Err_Code s = 1.

(** The end of a test: the result is there, and the state is ready for the
    next test. *)
Record published (err done : Z) (vs : list Z) (s0 s : at_state) : Prop := {
  p_result : at_result s = <[0%nat := err]> (<[3%nat := Z.of_nat (length vs)]> (<[4%nat := done]>
               (<[5%nat := mean vs]> (<[6%nat := deviation vs]> (at_result s0)))));
  p_fresh : fresh s;
  p_block : Dev_CNr s = Freed;
}.

Lemma runs_publish vs s s0 :
  measuring n t0 vs (s ⟨ Err_Code := match vs with [] => 1 | _ => 0 end ⟩) -> kept s = kept s0 ->
  stop_accepted (at_hal s0) ->
  runs publish_result (fun _ s' => published (Err_Code s) (Completed_Num s) vs s0 s') s.
Proof.
  intros Hm Hk Ha. unfold kept in Hk. injection Hk as Hr Hh. destruct Hm. cbn in *.
  unfold publish_result. apply awp_bind, awp_set, awp_bind, awp_get. cbn [MNL_AT_TEST_FLAG field_update].
  rewrite m_flag0. cbn [Z.eqb awhen]. apply awp_bind. eapply runs_stop; [cbn; by rewrite Hh|exact m_block0|].
  apply awp_set. constructor; cbn; try done. by rewrite m_success0, m_mean0, m_dev0, Hr.
Qed.

(** Before the wait of two seconds the sentence is dropped; then the last
    sentence of a read is counted. *)
Lemma runs_head now vs s Q :
  measuring n t0 vs s -> 2 <= now - t0 ->
  runs (stopped ← count_measurements;
        _ ← aset (fun s => s ⟨ prev_success_num := Success_Num s ⟩);
        awhen stopped publish_result) Q s ->
  runs (at_handle malloc_ok junk (Sentence now 1)) Q s.
Proof.
  intros Hm Hn Hr. cbn [at_handle]. unfold at_parse_head. apply awp_bind, awp_bind, awp_get. unfold id.
  rewrite (m_flag _ _ _ _ Hm), (m_start _ _ _ _ Hm), (m_delay _ _ _ _ Hm). cbn [Z.eqb orb].
  destruct (Z.geb_spec (now - t0) 2); [|lia]. apply awp_bind. cbn [awhen].
  eapply awp_mono; [exact Hr|]. intros [] s' HQ. by apply awp_ret, awp_ret.
Qed.

Lemma success_pos vs s : measuring n t0 vs s -> (Success_Num s >? 0) = negb (bool_decide (vs = [])).
Proof. intros Hm. rewrite (m_success _ _ _ _ Hm). by destruct vs. Qed.

(** The counts after the sentence. *)
Definition finish (c : Z) (vs : list Z) (f w : Z) (s0 s : at_state) : Prop :=
  if c =? n then published 0 n vs s0 s
  else measuring n t0 vs s /\ tally f (Z.of_nat (length vs)) w s /\ kept s = kept s0.

Lemma runs_complete vs f w s s0 :
  measuring n t0 vs s -> Failure_Num s = f -> Wait_Num s = w -> kept s = kept s0 -> stop_accepted (at_hal s0) ->
  vs <> [] ->
  runs complete (fun stopped s1 =>
    runs (_ ← aset (fun s => s ⟨ prev_success_num := Success_Num s ⟩); awhen stopped publish_result)
      (fun _ s' => finish (Z.of_nat (length vs) + f) vs f w s0 s') s1) s.
Proof.
  intros Hm Hf Hw Hk Ha Hne. unfold complete.
  apply awp_bind, awp_set, awp_bind, awp_get, awp_ret, awp_bind, awp_set.
  cbn [Success_Num Failure_Num Completed_Num hal_test_num field_update id].
  rewrite (m_success _ _ _ _ Hm), (m_num _ _ _ _ Hm), Hf. unfold finish.
  destruct (Z.eqb_spec (Z.of_nat (length vs) + f) n) as [E|E]; cbn [awhen].
  - pose proof (runs_publish vs (s ⟨ Completed_Num := n ⟩ ⟨ prev_success_num := Z.of_nat (length vs) ⟩) s0) as Hp.
    eapply awp_mono; [rewrite E; apply Hp; [|exact Hk|done]|].
    + destruct Hm. constructor; done.
    + intros [] s'. cbn. rewrite (m_err _ _ _ _ Hm). by destruct vs.
  - apply awp_ret. split_and!; [|by split_and!|exact Hk]. destruct Hm. by constructor.
Qed.

Lemma runs_last now vs f p w s s0 :
  measuring n t0 vs s -> tally f p w s -> kept s = kept s0 -> stop_accepted (at_hal s0) -> 2 <= now - t0 -> vs <> [] ->
  let f' := if p =? Z.of_nat (length vs) then f + 1 else f in
  runs (at_handle malloc_ok junk (Sentence now 1))
    (fun _ s' => finish (Z.of_nat (length vs) + f') vs f' w s0 s') s.
Proof.
  intros Hm (Hf & Hp & Hw) Hk Ha Hnow Hne f'. apply (runs_head now vs s); [done|done|].
  apply awp_bind. unfold count_measurements. apply awp_bind, awp_get. unfold id.
  rewrite (success_pos vs s Hm), bool_decide_eq_false_2 by done. cbn [negb].
  rewrite Hp, (m_success _ _ _ _ Hm). unfold f'. apply awp_bind.
  destruct (p =? Z.of_nat (length vs)); cbn [awhen].
  - apply awp_set. apply runs_complete; cbn; [by destruct Hm|lia|done|done|done|done].
  - apply awp_ret. by apply runs_complete.
Qed.

(** No measurement so far. *)
Lemma runs_last_waiting now f w s s0 :
  measuring n t0 [] s -> tally f 0 w s -> kept s = kept s0 -> stop_accepted (at_hal s0) -> 2 <= now - t0 ->
  runs (at_handle malloc_ok junk (Sentence now 1))
    (fun _ s' => if w + 1 =? MAX_VALID_STATUS_WAIT_COUNT then published 32 1 [] s0 s'
                 else measuring n t0 [] s' /\ tally f 0 (w + 1) s' /\ kept s' = kept s0) s.
Proof.
  intros Hm (Hf & Hp & Hw) Hk Ha Hnow. apply (runs_head now [] s); [done|done|].
  apply awp_bind. unfold count_measurements. apply awp_bind, awp_get. unfold id.
  rewrite (success_pos [] s Hm), bool_decide_eq_true_2 by done. cbn [negb].
  apply awp_bind, awp_set, awp_bind, awp_get. cbn [Wait_Num field_update]. rewrite Hw. unfold Z.succ.
  pose proof (m_success _ _ _ _ Hm) as HS.
  destruct (Z.eqb_spec (w + 1) MAX_VALID_STATUS_WAIT_COUNT) as [E|E].
  - apply awp_bind, awp_set, awp_ret, awp_bind, awp_set. cbn [awhen].
    match goal with |- awp _ publish_result _ ?s1 => pose proof (runs_publish [] s1 s0) as Hpub end.
    eapply awp_mono; [apply Hpub; [|exact Hk|done]|].
    + destruct Hm. by constructor.
    + by intros [] s'.
  - apply awp_ret, awp_bind, awp_set, awp_ret. split_and!; [destruct Hm; by constructor| |exact Hk].
    split_and!; [exact Hf|exact HS|cbn; lia].
Qed.

(** ** Rounds *)

Definition round (r : Z * list (Z * Z)) : list at_event := [Satellites (snd r); Sentence (fst r) 1].
Definition rounds (rs : list (Z * list (Z * Z))) : list at_event := concat (round <$> rs).

Definition good_round (r : Z * list (Z * Z)) : Prop := 2 <= fst r - t0 /\ valid_snr (snd r).

Definition measurements (rs : list (Z * list (Z * Z))) : list Z := omap (fun r => heard (snd r)) rs.

Lemma runs_cons e es Q s :
  runs (at_handle malloc_ok junk e) (fun _ => runs (at_run malloc_ok junk es) Q) s -> runs (at_run malloc_ok junk (e :: es)) Q s.
Proof. intros Hr. cbn [at_run]. by apply awp_bind. Qed.

Lemma runs_app es1 es2 Q s :
  runs (at_run malloc_ok junk es1) (fun _ => runs (at_run malloc_ok junk es2) Q) s ->
  runs (at_run malloc_ok junk (es1 ++ es2)) Q s.
Proof.
  revert s. induction es1 as [|e es1 IH]; intros s Hr; [exact Hr|]. cbn [app]. apply runs_cons.
  unfold awp in *. cbn [at_run] in Hr. unfold mbind, am_bind in Hr.
  destruct (at_handle malloc_ok junk e s) as [[[] s1]|]; [|done]. by apply IH.
Qed.

(** A round with a measurement, or after one. *)
Lemma runs_round r vs f w s s0 :
  measuring n t0 vs s -> tally f (Z.of_nat (length vs)) w s -> kept s = kept s0 -> stop_accepted (at_hal s0) ->
  good_round r -> Forall (fun v => 0 <= v <= 99) vs -> 0 <= f -> Z.of_nat (length vs) + f < n ->
  vs ++ option_list (heard (snd r)) <> [] ->
  runs (at_run malloc_ok junk (round r))
    (fun _ s' => finish (Z.of_nat (length vs) + f + 1) (vs ++ option_list (heard (snd r)))
                   (Z.of_nat (length vs) + f + 1 - Z.of_nat (length (vs ++ option_list (heard (snd r))))) w s0 s') s.
Proof using n_small.
  intros Hm Ht Hk Ha [Hnow Hsnr] Hv Hf Hn Hne. unfold round. apply runs_cons. cbn [at_handle].
  eapply awp_mono; [apply runs_group; [exact Hm| |done|done]|].
  { destruct (heard (snd r)); cbn; lia. }
  intros [] s1 [Hm1 Hc1]. apply runs_cons.
  assert (kept s1 = kept s0) as Hk1 by (unfold counts, kept in *; congruence).
  eapply awp_mono; [by apply (runs_last (fst r) _ f _ w _ s0 Hm1 (tally_counts _ _ _ _ _ Hc1 Ht))|].
  intros [] s' Hfin. apply awp_ret. revert Hfin. rewrite length_app.
  destruct (heard (snd r)) as [v|].
  - change (length (option_list (Some v))) with 1%nat. rewrite (proj2 (Z.eqb_neq _ _)) by lia.
    by replace (Z.of_nat (length vs + 1) + f) with (Z.of_nat (length vs) + f + 1) by lia;
    replace (Z.of_nat (length vs) + f + 1 - Z.of_nat (length vs + 1)) with f by lia.
  - change (length (option_list (@None Z))) with 0%nat. rewrite Nat.add_0_r, Z.eqb_refl.
    by replace (Z.of_nat (length vs) + (f + 1)) with (Z.of_nat (length vs) + f + 1) by lia;
    replace (Z.of_nat (length vs) + f + 1 - Z.of_nat (length vs)) with (f + 1) by lia.
Qed.

Lemma measurements_cons r rs : measurements (r :: rs) = option_list (heard (snd r)) ++ measurements rs.
Proof. unfold measurements. cbn. by destruct (heard (snd r)). Qed.

Lemma heard_bounds r : good_round r -> Forall (fun v => 0 <= v <= 99) (option_list (heard (snd r))).
Proof.
  intros [_ Hs]. pose proof (heard_valid (snd r)) as Hh. destruct (heard (snd r)) as [v|]; [|constructor].
  specialize (Hh v Hs eq_refl). repeat constructor; lia.
Qed.

(** From the first measurement on, every round counts. *)
Lemma runs_counting rs vs f w s s0 :
  measuring n t0 vs s -> tally f (Z.of_nat (length vs)) w s -> kept s = kept s0 -> stop_accepted (at_hal s0) ->
  Forall good_round rs -> Forall (fun v => 0 <= v <= 99) vs -> 0 <= f -> rs <> [] ->
  Z.of_nat (length vs) + f + Z.of_nat (length rs) = n ->
  vs <> [] \/ (exists r, head rs = Some r /\ heard (snd r) <> None) ->
  runs (at_run malloc_ok junk (rounds rs)) (fun _ s' => published 0 n (vs ++ measurements rs) s0 s') s.
Proof using n_small.
  intros Hm Ht Hk Ha Hrs. revert vs f s Hm Ht Hk. induction Hrs as [|r rs Hr Hrs IH]; intros vs f s Hm Ht Hk Hv Hf Hne Hn Hfirst; [done|].
  change (rounds (r :: rs)) with (round r ++ rounds rs). apply runs_app. cbn [length] in Hn.
  assert (vs ++ option_list (heard (snd r)) <> []) as Hvs.
  { destruct Hfirst as [?|(r' & [= <-] & Hh)]; [by destruct vs|].
    destruct (heard (snd r)); [by destruct vs|done]. }
  eapply awp_mono; [apply (runs_round r vs f w s s0); try done; lia|].
  intros [] s1. unfold finish. rewrite measurements_cons, app_assoc.
  destruct (Z.eqb_spec (Z.of_nat (length vs) + f + 1) n) as [E|E].
  - destruct rs; [|cbn [length] in Hn; lia]. intros Hp. apply awp_ret. by rewrite app_nil_r.
  - intros (Hm1 & Ht1 & Hk1).
    assert (Z.of_nat (length (vs ++ option_list (heard (snd r)))) <= Z.of_nat (length vs) + 1) as Hl
      by (rewrite length_app; destruct (heard (snd r)); cbn; lia).
    eapply IH; try done.
    + apply Forall_app_2; [done|]. by apply heard_bounds.
    + lia.
    + intros ->. cbn [length] in Hn. lia.
    + lia.
    + by left.
Qed.

(** Rounds without a measurement. *)
Lemma runs_waiting rs w s s0 :
  measuring n t0 [] s -> tally 0 0 w s -> kept s = kept s0 -> stop_accepted (at_hal s0) ->
  Forall good_round rs -> measurements rs = [] -> 0 <= w < MAX_VALID_STATUS_WAIT_COUNT ->
  w + Z.of_nat (length rs) <= MAX_VALID_STATUS_WAIT_COUNT ->
  runs (at_run malloc_ok junk (rounds rs))
    (fun _ s' => if w + Z.of_nat (length rs) =? MAX_VALID_STATUS_WAIT_COUNT then published 32 1 [] s0 s'
                 else measuring n t0 [] s' /\ tally 0 0 (w + Z.of_nat (length rs)) s' /\ kept s' = kept s0) s.
Proof using n_small.
  intros Hm Ht Hk Ha Hrs. revert w s Hm Ht Hk.
  induction Hrs as [|r rs [Hnow Hsnr] Hrs IH]; intros w s Hm Ht Hk Hno Hw Hl.
  { cbn [length]. rewrite Z.add_0_r, (proj2 (Z.eqb_neq w _)) by lia. by apply awp_ret. }
  rewrite measurements_cons in Hno. apply app_nil in Hno as [Hnone Hno].
  change (rounds (r :: rs)) with (round r ++ rounds rs). apply runs_app. unfold round. apply runs_cons. cbn [at_handle].
  eapply awp_mono; [apply runs_group; [exact Hm|rewrite Hnone; cbn; lia|constructor|done]|].
  rewrite Hnone. intros [] s1 [Hm1 Hc1]. apply runs_cons.
  assert (kept s1 = kept s0) as Hk1 by (unfold counts, kept in *; congruence).
  eapply awp_mono; [by apply (runs_last_waiting (fst r) 0 w _ s0 Hm1 (tally_counts _ _ _ _ _ Hc1 Ht))|].
  intros [] s2 Hlast. apply awp_ret. cbn [length] in *.
  replace (w + Z.of_nat (S (length rs))) with (w + 1 + Z.of_nat (length rs)) in * by lia.
  destruct (Z.eqb_spec (w + 1) MAX_VALID_STATUS_WAIT_COUNT) as [E|E].
  - destruct rs; [|cbn [length] in Hl; lia]. cbn [length]. rewrite Z.add_0_r, E, Z.eqb_refl. by apply awp_ret.
  - destruct Hlast as (Hm2 & Ht2 & Hk2). apply IH; done || lia.
Qed.

(** Groups without a sentence in between. *)
Lemma groups_fit svss vs s :
  measuring n t0 vs s -> Forall valid_snr svss -> Forall (fun v => 0 <= v <= 99) vs -> Z.of_nat (length vs) <= n ->
  let all := vs ++ omap heard svss in
  if Z.of_nat (length all) <=? n
  then runs (at_run malloc_ok junk (Satellites <$> svss)) (fun _ s' => measuring n t0 all s') s
  else at_run malloc_ok junk (Satellites <$> svss) s = inr OutOfBounds.
Proof using n_small.
  intros Hm Hs. revert vs s Hm. induction Hs as [|svs svss Hs Hss IH]; intros vs s Hm Hv Hn; cbv zeta.
  { cbn [omap list_omap]. rewrite app_nil_r, (proj2 (Z.leb_le _ _)) by done. by apply awp_ret. }
  assert (vs ++ omap heard (svs :: svss) = (vs ++ option_list (heard svs)) ++ omap heard svss) as ->
    by (rewrite <-app_assoc; cbn; by destruct (heard svs)).
  destruct (decide (Z.of_nat (length (vs ++ option_list (heard svs))) <= n)) as [Hl|Hl].
  - pose proof (runs_group vs svs s Hm) as Hg. rewrite length_app in Hl.
    specialize (Hg Hl Hv Hs). apply awp_total in Hg as ([] & s1 & Hr & Hm1 & _).
    assert (Forall (fun v => 0 <= v <= 99) (vs ++ option_list (heard svs))) as Hv1.
    { apply Forall_app_2; [done|]. pose proof (heard_valid svs) as Hh.
      destruct (heard svs) as [v|]; [|constructor]. specialize (Hh v Hs eq_refl). repeat constructor; lia. }
    rewrite <-length_app in Hl. specialize (IH _ s1 Hm1 Hv1 Hl). cbv zeta in IH.
    unfold awp. cbn [fmap list_fmap at_run at_handle]. rewrite (run_inl _ _ _ _ _ Hr). exact IH.
  - rewrite (proj2 (Z.leb_gt _ _)) by (rewrite length_app; lia).
    destruct (heard svs) as [v|] eqn:E; [|by rewrite app_nil_r in Hl].
    rewrite length_app in Hl. change (length (option_list (Some v))) with 1%nat in Hl.
    cbn [fmap list_fmap at_run at_handle]. apply run_inr. eapply group_overflow; [exact Hm|lia|exact E].
Qed.
End Round.

(** ** The start *)

Section Start.
Context `{DaemonLink}.
Variable malloc_ok : Z -> bool.
Variable junk : list Z.
Notation runs := (awp (fun _ => False)).

Definition start_accepted (g : gps) : Prop :=
  init g <> 0 /\ send_answer (length (datagrams g)) (sock g) [MNL_CMD_START] = 0.

Definition hal_started (g : gps) : gps :=
  g ⟨ datagrams $= fun l => l ++ [(sock g, [MNL_CMD_START])] ⟩ ⟨ control $= fun l => l ++ [CMD_TEST_START] ⟩.

Lemma mtk_start_accepted g :
  start_accepted g -> mtk_start g = Some (0, g ⟨ datagrams $= fun l => l ++ [(sock g, [MNL_CMD_START])] ⟩).
Proof.
  intros [_ Ha]. unfold mtk_start. cbn [start_retry]. unfold send_errno_too.
  cbv [mbind cm_bind mret cm_ret cgets cmodify]. cbn match. rewrite Ha. reflexivity.
Qed.

Lemma runs_start n now s :
  fresh s -> 1 <= n <= 2000 -> malloc_ok (4 * n) = true -> start_accepted (at_hal s) ->
  runs (mtk_gps_test_start malloc_ok now n GPS_TEST_PRN 2 0)
    (fun x s' => x = 0 /\ measuring n now [] s' /\ tally 0 0 0 s' /\ at_result s' = at_result s
      /\ at_hal s' = hal_started (at_hal s)) s.
Proof.
  intros ((Hflag & Hmode & Hbegin & Hstate & HS) & Ht & HC & HD & Hdev & He) Hn Hmal Ha.
  unfold mtk_gps_test_start. apply awp_bind, awp_get. unfold id. rewrite Hstate. apply awp_bind, awp_ret.
  unfold begin_test. apply awp_bind, awp_set, awp_bind. unfold new_block.
  rewrite u32_id by (unfold is_u32; lia). rewrite Hmal. apply awp_set.
  rewrite (proj2 (Z.eqb_neq n 0)) by lia. cbn [andb Z.eqb].
  apply awp_bind, awp_set, awp_bind, awp_get. cbn [at_hal field_update].
  unfold truthy at 1. rewrite (proj2 (Z.eqb_neq _ 0) (proj1 Ha)). cbn [negb].
  apply awp_bind, awp_set, awp_bind. unfold on_gps at 1, awp at 1. cbn [at_hal field_update].
  rewrite (mtk_start_accepted _ Ha). cbn [truthy Z.eqb negb].
  apply awp_bind, awp_ret. split_and!; [done| |exact Ht|done|done].
  constructor; cbn; try done. replace (4 * n / 4) with (n - 0) by (rewrite Z.mul_comm, Z.div_mul; lia). done.
Qed.

Lemma runs_start_normal n now ok error s :
  fresh s -> 1 <= n <= 2000 -> malloc_ok (4 * n) = true -> start_accepted (at_hal s) ->
  runs (start_normal_test malloc_ok now n ok error)
    (fun _ s' => measuring n now [] s' /\ tally 0 0 0 s' /\ at_result s' = at_result s
      /\ at_hal s' = hal_started (at_hal s)) s.
Proof.
  intros Hf Hn Hm Ha. unfold start_normal_test. destruct (Z.geb_spec n 0); [|lia].
  apply awp_bind. eapply awp_mono; [by apply runs_start|]. intros x s' (_ & Hm' & Ht & Hr & Hh).
  unfold send_text. apply awp_set. split_and!; [|exact Ht|exact Hr|exact Hh]. destruct Hm'. by constructor.
Qed.
End Start.
