(* ===== verification/AtProps.v ===== *)
(** * The AT command test: its commands, its memory and its answers

    What a datagram is taken for, when the block of measurements is used, and
    when the text of a result fits into its array. *)

From stdpp Require Import gmap.
From S2P Require Import Prelude HalBuff Calendar EpoTime EpoConf EpoDownload Daemon Hal HalProps AtCommand AtLogic AtParse AtStats.
#[local] Open Scope Z_scope.

(** C29 (safety): the block of measurements.  Whatever commands, sentences,
    satellites, control bytes and alarms come in whatever order, and however
    often the framework starts tests itself, the block is never used after it
    was freed and never freed twice.  The framework's own mtk_gps_test_stop is
    the exception: Dev_CNr still points to the block afterwards, and a second
    call frees it again. *)
Theorem at_block_discipline `{DaemonLink} malloc_ok junk g es s :
  (TestStop ∉ es ->
   at_run malloc_ok junk es (at_boot g) <> inr DoubleFree /\ at_run malloc_ok junk es (at_boot g) <> inr UseAfterFree)
  /\ (Dev_CNr s <> Null -> stop_accepted (at_hal s) -> stop_accepted (hal_stopped (at_hal s)) ->
      at_run malloc_ok junk [TestStop; TestStop] s = inr DoubleFree).
Proof.
  split.
  - intros Hes. pose proof (bwp_run malloc_ok junk es (at_boot g) Hes) as Hr. unfold awp in Hr.
    destruct (at_run malloc_ok junk es (at_boot g)) as [|f]; [done|].
    destruct Hr as [? ?]; [by left|]. by split; intros [= ->].
  - intros Hd H1 H2. cbn [at_run at_handle]. unfold mbind, am_bind. rewrite (stop_spec s H1).
    destruct (Dev_CNr s); [done| |done]. cbn [mret am_ret].
    rewrite stop_spec; [done|exact H2].
Qed.

Theorem at_block_discipline_witness :
  let d := quiet_link in
  let es := [TestStart 0 3 1 2 0; Satellites [(1, 40)]; Alarm; Satellites [(1, 41)]; Alarm] in
  let run es := @at_run d (fun _ => true) [] es (at_boot (gps_boot ⟨ init := 1 ⟩)) in
  (match run es with inl (_, s) => Dev_CNr s = Freed | inr _ => False end /\ run es <> inr DoubleFree)
  /\ let s := (at_boot (gps_boot ⟨ init := 1 ⟩)) ⟨ Dev_CNr := Block [0; 0; 0] ⟩ in
     @at_run d (fun _ => true) [] [TestStop; TestStop] s = inr DoubleFree.
Proof.
  intros d es run. split.
  - split; [vm_compute; reflexivity|].
    apply (@at_block_discipline d (fun _ => true) [] (gps_boot ⟨ init := 1 ⟩) es (at_boot gps_boot)).
    intros Hin. unfold es in Hin. repeat (apply elem_of_cons in Hin as [Hin|Hin]; [discriminate|]).
    by apply elem_of_nil in Hin.
  - intros s. apply (@at_block_discipline d (fun _ => true) [] gps_boot [] s).
    + discriminate.
    + split; [discriminate|reflexivity].
    + split; [discriminate|reflexivity].
Defined.

(** C30 (equivalence): the commands of AT%GPS and AT%GNSS.  Whatever is left in
    the array of the command, a datagram of less than 20 bytes does what its
    text, up to the first zero byte, means in the grammar; the terminator of a
    longer one is written past the array. *)
Theorem at_command_refines `{DaemonLink} malloc_ok junk now stale d s :
  length stale = 20%nat ->
  at_run malloc_ok junk [Datagram now stale d] s
  = if (length d <? 20)%nat then perform malloc_ok junk now (parse_at (command_text d)) s else inr CommandOverflow.
Proof.
  intros Hs. cbn [at_run at_handle].
  transitivity (at_receive malloc_ok junk now stale d s); [|by apply receive_text].
  unfold mbind, am_bind. by destruct (at_receive malloc_ok junk now stale d s) as [[[] s']|f].
Qed.

Theorem at_command_refines_witness :
  let d := quiet_link in
  let s := at_boot (gps_boot ⟨ init := 1 ⟩) in
  let run text := @at_run d (fun _ => true) [] [Datagram 5 (replicate 20 61) text] s in
  match run (zs "AT%GPS=12") with inl (_, s') => Dev_CNr s' = Block (replicate 12 0) | inr _ => False end
  /\ run (replicate 20 65) = inr CommandOverflow.
Proof.
  intros d s run. unfold run. split.
  - rewrite (@at_command_refines d (fun _ => true) [] 5 (replicate 20 61) (zs "AT%GPS=12") s) by reflexivity.
    vm_compute. reflexivity.
  - rewrite (@at_command_refines d (fun _ => true) [] 5 (replicate 20 61) (replicate 20 65) s) by reflexivity.
    reflexivity.
Defined.

(** ** Answers *)

Lemma length_numbers l : l <> [] -> (length (numbers l) + 2 = length (concat (dec <$> l)) + 2 * length l)%nat.
Proof.
  induction l as [|x [|y l] IH]; intros Hl; [done| |].
  - cbn. rewrite app_nil_r. lia.
  - specialize (IH ltac:(done)). cbn [numbers fmap list_fmap concat length] in *.
    rewrite !length_app in *. cbn in *. lia.
Qed.

(** The characters of the numbers of the result. *)
Definition result_digits (s : at_state) : nat := length (concat (dec <$> at_result s)).

Lemma length_result_text s :
  length (at_result s) = 8%nat -> length (result_text (at_result s)) = (result_digits s + 40)%nat.
Proof.
  intros Hl. unfold result_text, result_digits. rewrite !length_app.
  assert (at_result s <> []) as Hn by (by destruct (at_result s)).
  pose proof (length_numbers _ Hn) as E. rewrite Hl in E.
  change (length (zs "[")) with 1%nat.
  change (length (zs "][0, 0, 0, 0, 0, 0, 0, 0]")) with 25%nat. lia.
Qed.

(** The answer to AT%GNSS? and AT%GNSS=?.  After a test the result
    is printed into 60 bytes: it is sent, with its terminator, if the eight
    numbers have 19 characters together, and otherwise written past the
    array. *)
Theorem at_result_fits junk s :
  mtk_gps_test_inprogress s = MNL_AT_TEST_DONE -> length (at_result s) = 8%nat -> (60 <= length junk)%nat ->
  if (result_digits s <=? 19)%nat
  then exists s', at_command_send_test_result junk s = inl (tt, s')
       /\ acks s' = acks s ++ [result_text (at_result s) ++ 0 :: drop (result_digits s + 41) (take 60 junk)]
  else at_command_send_test_result junk s = inr TextOverflow.
Proof.
  intros Hd Hl Hj. pose proof (length_result_text s Hl) as Ht.
  unfold at_command_send_test_result. rewrite run_aget. unfold id. rewrite Hd. cbn [Z.eqb orb MNL_AT_TEST_DONE].
  change (MNL_AT_TEST_DONE =? MNL_AT_TEST_INPROGRESS) with false. cbn match.
  unfold send_formatted. set (text := result_text (at_result s)) in *. clearbody text.
  destruct (Nat.leb_spec (result_digits s) 19).
  - rewrite buf_write_Some by (rewrite ?length_app, ?length_take, ?Ht; simpl length; lia).
    eexists. split; [reflexivity|]. cbn. rewrite <-app_assoc. cbn [app].
    rewrite length_app, Ht. change (take (Z.to_nat 0) (take 60 junk)) with (@nil Z).
    change (Z.to_nat 0) with 0%nat. cbn [app length]. do 5 f_equal. lia.
  - rewrite buf_write_None; [done|]. right. rewrite length_app, length_take, Ht. simpl length. lia.
Qed.

Theorem at_result_fits_witness :
  let s := (at_boot gps_boot) ⟨ MNL_AT_TEST_STATE := MNL_AT_TEST_DONE ⟩ in
  let run r := at_command_send_test_result (zeros 60) (s ⟨ at_result := r ⟩) in
  (exists s', run [0; 0; 0; 30; 30; 415; 12; 0] = inl (tt, s')
   /\ acks s' = [zs "[0, 0, 0, 30, 30, 415, 12, 0][0, 0, 0, 0, 0, 0, 0, 0]" ++ zeros 7])
  /\ run [0; 0; 0; 12345; 12345; 4150; 120; 0] = inr TextOverflow.
Proof.
  intros s run. split.
  - destruct (at_result_fits (zeros 60) (s ⟨ at_result := [0; 0; 0; 30; 30; 415; 12; 0] ⟩)) as (s' & H1 & H2);
      [reflexivity|reflexivity|vm_compute; lia|].
    exists s'. split; [exact H1|]. rewrite H2. vm_compute. reflexivity.
  - exact (at_result_fits (zeros 60) (s ⟨ at_result := [0; 0; 0; 12345; 12345; 4150; 120; 0] ⟩)
             eq_refl eq_refl ltac:(vm_compute; lia)).
Defined.

(** ** A whole test *)

Section Whole.
Context `{DaemonLink}.
Variable malloc_ok : Z -> bool.
Variable junk : list Z.
Notation runs := (awp (fun _ => False)).

(** AT%GPS=n and AT%GNSS=n. *)
Definition start_command (gnss : bool) (text : list Z) : list Z :=
  (if gnss then GNSS_OP else GPS_OP) ++ ch "=" :: text.

Lemma parse_start gnss text :
  no_nul text -> 1 <= test_number text ->
  parse_at (command_text (start_command gnss text)) = if gnss then GnssNumber text else GpsNumber text.
Proof.
  intros Ht Hn. unfold command_text.
  assert (no_nul (start_command gnss text)) as Hs
    by (apply Forall_app_2; [destruct gnss; by apply no_nul_op|by constructor]).
  rewrite cstr_app by done. cbn [default from_option id].
  assert (forall l, Forall (fun w => test_number (zs w) < 1) l -> any_of l text = false) as Hw.
  { intros l Hl. unfold any_of. induction Hl as [|w l Hw _ IH]; cbn; [done|].
    rewrite IH, orb_false_r. destruct (bytes_eqb text (zs w)) eqn:E; [|done]. apply bytes_eqb_eq in E as ->. lia. }
  unfold parse_at, start_command. destruct gnss.
  - change (after_op GPS_OP (GNSS_OP ++ ch "=" :: text)) with (@None (list Z)).
    change (after_op GNSS_OP (GNSS_OP ++ ch "=" :: text)) with (Some (ch "=" :: text)).
    cbn [gnss_cmd]. by rewrite Z.eqb_refl, !Hw by (repeat constructor).
  - change (after_op GPS_OP (GPS_OP ++ ch "=" :: text)) with (Some (ch "=" :: text)).
    cbn [gps_cmd]. by rewrite Z.eqb_refl, !Hw by (repeat constructor).
Qed.

(** The result before the measurements. *)
Definition first_result (gnss : bool) (s : at_state) : list Z := if gnss then [1; 0; 0; 0; 0; 0; 0; 0] else at_result s.

Lemma runs_command gnss text now stale s :
  length stale = 20%nat -> no_nul text -> (length text <= 11)%nat -> 1 <= test_number text <= 2000 ->
  fresh s -> malloc_ok (4 * test_number text) = true -> start_accepted (at_hal s) ->
  runs (at_handle malloc_ok junk (Datagram now stale (start_command gnss text)))
    (fun _ s' => measuring (test_number text) now [] s' /\ tally 0 0 0 s' /\ at_result s' = first_result gnss s
      /\ at_hal s' = hal_started (at_hal s)) s.
Proof.
  intros Hst Ht Hl Hn Hf Hm Ha.
  assert (length (start_command gnss text) < 20)%nat as Hlen
    by (unfold start_command; rewrite length_app; destruct gnss; cbn [length]; simpl; lia).
  apply (awp_same _ (perform malloc_ok junk now (if gnss then GnssNumber text else GpsNumber text))).
  { cbn [at_handle]. rewrite receive_text by done. by rewrite (proj2 (Nat.ltb_lt _ _) Hlen), parse_start by (done || lia). }
  destruct gnss; cbn [perform]; unfold usb_mode; apply awp_bind, awp_set.
  - unfold gnss_number. apply awp_bind, awp_set, awp_bind, awp_get.
    destruct Hf as ((Hflag & Hmode & Hbegin & Hstate & HS) & Ht' & HC & HD & Hdev & He).
    cbn [MNL_AT_SIGNAL_MODE field_update]. rewrite Hmode. cbn [Z.eqb].
    eapply awp_mono; [by apply (runs_start_normal _ (test_number text))|]. exact (fun _ _ Hq => Hq).
  - eapply awp_mono; [by apply (runs_start_normal _ (test_number text))|]. exact (fun _ _ Hq => Hq).
Qed.


(** Both commands are accepted, and nothing happens in between. *)
Definition test_accepted (g : gps) : Prop := start_accepted g /\ stop_accepted (hal_started g).

Lemma runs_test gnss text now stale s es Q :
  length stale = 20%nat -> no_nul text -> (length text <= 11)%nat -> 1 <= test_number text <= 2000 ->
  fresh s -> malloc_ok (4 * test_number text) = true -> test_accepted (at_hal s) ->
  (forall s1, measuring (test_number text) now [] s1 -> tally 0 0 0 s1 -> at_result s1 = first_result gnss s ->
    stop_accepted (at_hal s1) -> runs (at_run malloc_ok junk es) Q s1) ->
  exists s', at_run malloc_ok junk (Datagram now stale (start_command gnss text) :: es) s = inl (tt, s') /\ Q tt s'.
Proof.
  intros Hst Ht Hl Hn Hf Hm [Ha Hs] HQ.
  assert (runs (at_run malloc_ok junk (Datagram now stale (start_command gnss text) :: es)) Q s) as Hr.
  { apply runs_cons. eapply awp_mono; [by apply runs_command|]. intros [] s1 (Hm1 & Ht1 & Hr1 & Hh1).
    apply HQ; try done. by rewrite Hh1. }
  apply awp_total in Hr as ([] & s' & Hr & HQ'). by exists s'.
Qed.
End Whole.

(** C28 (functional): a test by AT%GPS=n or AT%GNSS=n.  Started in a fresh state
    and accepted by the daemon, and with C/N0 of at most 99 dB in every round
    of sentences, a test of n ends after n rounds, counted from the first one
    that measures the satellite, and after at most 19 rounds before it.  Its
    result holds the number, the mean and the standard deviation of the
    measurements, in tenths of dB, and everything else is as before the test.
    Twenty rounds without a measurement end it with error 32. *)
Theorem at_test_measures `{DaemonLink} malloc_ok junk gnss text now stale s pre rs :
  length stale = 20%nat -> no_nul text -> (length text <= 11)%nat -> 1 <= test_number text <= 2000 ->
  fresh s -> malloc_ok (4 * test_number text) = true -> test_accepted (at_hal s) ->
  Forall (good_round now) (pre ++ rs) -> measurements pre = [] ->
  let run := at_run malloc_ok junk (Datagram now stale (start_command gnss text) :: rounds (pre ++ rs)) s in
  let result err k n m d :=
    <[0%nat := err]> (<[3%nat := k]> (<[4%nat := n]> (<[5%nat := m]> (<[6%nat := d]> (first_result gnss s))))) in
  (forall r rs', rs = r :: rs' -> heard (snd r) <> None -> (length pre < 20)%nat -> Z.of_nat (length rs) = test_number text ->
   let vs := measurements rs in
   exists s', run = inl (tt, s') /\ fresh s' /\ Dev_CNr s' = Freed
   /\ at_result s' = result 0 (Z.of_nat (length vs)) (test_number text) (mean vs) (deviation vs))
  /\ (rs = [] -> length pre = 20%nat ->
      exists s', run = inl (tt, s') /\ fresh s' /\ Dev_CNr s' = Freed /\ at_result s' = result 32 0 1 0 0).
Proof.
  intros Hst Ht Hl Hn Hf Hm Ha Hgood Hpre. cbv zeta. apply Forall_app in Hgood as [Hgp Hgr].
  split; [intros r rs' -> Hr Hlp Hlr|intros -> Hlp].
  all: apply (runs_test malloc_ok junk gnss text now stale s _ (fun _ s' => fresh s' /\ Dev_CNr s' = Freed /\ at_result s' = _));
    try done; intros s1 Hm1 Ht1 <- Hs1.
  - unfold rounds. rewrite fmap_app, concat_app. apply runs_app.
    eapply awp_mono; [by apply (runs_waiting (test_number text) now Hn malloc_ok junk pre 0 s1 s1);
      try done; unfold MAX_VALID_STATUS_WAIT_COUNT; lia|].
    intros [] s2. rewrite (proj2 (Z.eqb_neq _ _)) by (unfold MAX_VALID_STATUS_WAIT_COUNT; lia).
    intros (Hm2 & Ht2 & Hk2).
    eapply awp_mono; [apply (runs_counting (test_number text) now Hn malloc_ok junk (r :: rs') [] 0
      (0 + Z.of_nat (length pre)) s2 s1); try done|].
    + right. by exists r.
    + intros [] s' [Hres Hfr Hb]. by split_and!.
  - rewrite app_nil_r.
    eapply awp_mono; [by apply (runs_waiting (test_number text) now Hn malloc_ok junk pre 0 s1 s1);
      try done; unfold MAX_VALID_STATUS_WAIT_COUNT; lia|].
    intros [] s'. rewrite Hlp. intros [Hres Hfr Hb]. by split_and!.
Qed.

Theorem at_test_measures_witness :
  let d := quiet_link in
  let s := at_boot (gps_boot ⟨ init := 1 ⟩) in
  let pre := [(7, [(1, 0)])] in
  let rs := [(8, [(5, 30); (1, 40)]); (9, []); (10, [(1, 43)])] in
  exists s', @at_run d (fun _ => true) [] (Datagram 5 (zeros 20) (start_command true (zs "3")) :: rounds (pre ++ rs)) s
    = inl (tt, s')
  /\ fresh s' /\ Dev_CNr s' = Freed /\ at_result s' = [0; 0; 0; 2; 3; 415; 15; 0].
Proof.
  intros d s pre rs.
  destruct (@at_test_measures d (fun _ => true) [] true (zs "3") 5 (zeros 20) s pre rs) as [Ht _].
  - reflexivity.
  - by_decide.
  - vm_compute. lia.
  - vm_compute. split; discriminate.
  - unfold fresh, idle, tally. vm_compute. tauto.
  - reflexivity.
  - split; (split; [vm_compute; discriminate|reflexivity]).
  - unfold good_round, valid_snr. repeat constructor; cbn; lia.
  - reflexivity.
  - destruct (Ht _ _ eq_refl) as (s' & H1 & H2 & H3 & H4).
    + vm_compute. discriminate.
    + vm_compute. lia.
    + reflexivity.
    + exists s'. split; [exact H1|]. split; [exact H2|]. split; [exact H3|]. rewrite H4. vm_compute. reflexivity.
Defined.

(** C31 (bounds): the block of a test of n.  Groups of sentences that are
    complete before the next count are measured one after the other: as long
    as they hold at most n measurements the running mean and deviation are
    those of all of them, and the next one is stored past the block. *)
Theorem at_block_bounds `{DaemonLink} malloc_ok junk gnss text now stale s svss :
  length stale = 20%nat -> no_nul text -> (length text <= 11)%nat -> 1 <= test_number text <= 2000 ->
  fresh s -> malloc_ok (4 * test_number text) = true -> test_accepted (at_hal s) -> Forall valid_snr svss ->
  let vs := omap heard svss in
  let run := at_run malloc_ok junk (Datagram now stale (start_command gnss text) :: (Satellites <$> svss)) s in
  if Z.of_nat (length vs) <=? test_number text
  then exists s', run = inl (tt, s')
       /\ Success_Num s' = Z.of_nat (length vs) /\ Avg_CNo s' = mean vs /\ Dev_CNo s' = deviation vs
  else run = inr OutOfBounds.
Proof.
  intros Hst Ht Hl Hn Hf Hm Ha Hsnr. cbv zeta.
  pose proof (runs_command malloc_ok junk gnss text now stale s Hst Ht Hl Hn Hf Hm (proj1 Ha)) as Hc.
  apply awp_total in Hc as ([] & s1 & Hr & Hm1 & _).
  pose proof (groups_fit (test_number text) now Hn malloc_ok junk svss [] s1 Hm1 Hsnr) as Hg.
  cbn [app] in Hg. cbv zeta in Hg. cbn [at_run]. rewrite (run_inl _ _ _ _ _ Hr).
  destruct (Z.leb_spec (Z.of_nat (length (omap heard svss))) (test_number text)).
  - destruct (awp_total _ _ _ (Hg ltac:(constructor) ltac:(cbn; lia))) as ([] & s' & Hr' & Hm'). exists s'. by destruct Hm'.
  - apply Hg; [constructor|cbn; lia].
Qed.

Theorem at_block_bounds_witness :
  let d := quiet_link in
  let s := at_boot (gps_boot ⟨ init := 1 ⟩) in
  let run svss := @at_run d (fun _ => true) [] (Datagram 5 (zeros 20) (start_command false (zs "1")) :: (Satellites <$> svss)) s in
  (exists s', run [[(1, 40)]] = inl (tt, s') /\ Avg_CNo s' = 400) /\ run [[(1, 40)]; [(1, 41)]] = inr OutOfBounds.
Proof.
  intros d s run.
  assert (forall svss, Forall valid_snr svss -> let vs := omap heard svss in
    if Z.of_nat (length vs) <=? 1
    then exists s', run svss = inl (tt, s')
       /\ Success_Num s' = Z.of_nat (length vs) /\ Avg_CNo s' = mean vs /\ Dev_CNo s' = deviation vs
    else run svss = inr OutOfBounds) as Hb.
  { intros svss Hs. apply (@at_block_bounds d (fun _ => true) [] false (zs "1") 5 (zeros 20) s svss).
    - reflexivity.
    - by_decide.
    - vm_compute. lia.
    - vm_compute. split; discriminate.
    - unfold fresh, idle, tally. vm_compute. tauto.
    - reflexivity.
    - split; (split; [vm_compute; discriminate|reflexivity]).
    - exact Hs. }
  split.
  - destruct (Hb [[(1, 40)]]) as (s' & H1 & _ & H2 & _); [unfold valid_snr; repeat constructor; cbn; lia|].
    exists s'. split; [exact H1|]. rewrite H2. reflexivity.
  - apply (Hb [[(1, 40)]; [(1, 41)]]). unfold valid_snr. repeat constructor; cbn; lia.
Defined.
