(* ===== verification/BtVendor.v ===== *)
(** * The Bluetooth vendor library (libbt-vendor-mtk/libbt-vendor-mtk.c)

    The library opens MediaTek's libbluetoothdrv.so and passes the opcodes of
    the Bluetooth stack on.  The loader counts the references to the opened
    library: its functions may be called, and its handle closed, only while
    there is one.  [None] is a call through NULL or into the closed library, or
    a closed handle that is closed again. *)

From S2P Require Import Prelude.

(** What the loader and the driver answer to the [n]-th call. *)
Class Blob := {
  opens : nat -> bool;                (* dlopen *)
  has_enable : nat -> bool;           (* dlsym *)
  has_disable : nat -> bool;
  bt_enable : nat -> Z;               (* the driver's mtk_bt_enable *)
  bt_disable : nat -> Z -> Z;
  bt_enable_int n : is_s32 (bt_enable n);
}.

(** A call that the library makes, with its answer. *)
Inductive vendor_call :=
  | Dlopen (ok : bool)
  | Dlclose
  | Enable (fd : Z)
  | Disable (fd ret : Z)
  | FwCfg                             (* BT_VND_OP_RESULT_SUCCESS *)
  | Epilog.

Record vendor := MkVendor {
  bt_vendor_cbacks : bool;            (* not NULL *)
  mtklib_handle : bool;
  references : nat;
  mtk_bt_enable : bool;
  mtk_bt_disable : bool;
  hci_tty_fd : Z;                     (* unsigned int *)
  trace : list vendor_call;
}.

#[export] Instance vendor_rebuild : Rebuild vendor := fun r =>
  MkVendor (bt_vendor_cbacks r) (mtklib_handle r) (references r) (mtk_bt_enable r) (mtk_bt_disable r)
    (hci_tty_fd r) (trace r).

Definition vendor_boot : vendor := MkVendor false false 0 false false (u32 (-1)) [].

Definition WL_DEFAULT_LPM_IDLE_TIMEOUT : Z := 200.

(** Opcodes with their [param]: the words it points to. *)
Inductive opcode :=
  | POWER_CTRL
  | FW_CFG
  | SCO_CFG
  | USERIAL_OPEN (fd_array : list Z)
  | USERIAL_CLOSE
  | GET_LPM_IDLE_TIMEOUT (timeout : list Z)
  | LPM_SET_MODE
  | LPM_WAKE_SET_STATE
  | EPILOG
  | OTHER.

Section Vendor.
Context `{Blob}.
Variable CH_MAX : nat.                (* of bt_vendor_lib.h *)

Notation VM := (CM vendor).

Definition note (c : vendor_call) : VM unit := cmodify (fun s => s ⟨ trace $= fun l => l ++ [c] ⟩).

(** dlclose, and a call into the library. *)
Definition dlclose : VM unit :=
  r ← cgets references;
  match r with
  | O => clift None
  | S r' => _ ← cmodify (fun s => s ⟨ references := r' ⟩); note Dlclose
  end.

Definition into_library (found : bool) : VM unit :=
  r ← cgets references;
  if found && negb (r =? 0)%nat then mret tt else clift None.

Definition mtk_init (p_cb : bool) : VM Z :=
  if negb p_cb then mret (-1)
  else
    _ ← cmodify (fun s => s ⟨ bt_vendor_cbacks := true ⟩);
    n ← cgets (fun s => length (trace s));
    _ ← cmodify (fun s => s ⟨ mtklib_handle := opens n ⟩);
    _ ← note (Dlopen (opens n));
    if negb (opens n) then mret 0     (* (int)NULL *)
    else
      _ ← cmodify (fun s => s ⟨ references $= S ⟩ ⟨ mtk_bt_enable := has_enable n ⟩
                             ⟨ mtk_bt_disable := has_disable n ⟩);
      _ ← cwhen (negb (has_enable n) || negb (has_disable n)) dlclose;
      mret 0.

Definition mtk_cleanup : VM unit :=
  _ ← cmodify (fun s => s ⟨ bt_vendor_cbacks := false ⟩);
  h ← cgets mtklib_handle;
  cwhen h dlclose.

(** [fill]: the loop over the channels of the caller's array. *)
Fixpoint fill (n : nat) (fd : Z) (fd_array : list Z) : option (list Z) :=
  match n with
  | O => Some fd_array
  | S n' => a ← fill n' fd fd_array; array_set a (Z.of_nat n') fd
  end.

(** The result, and the array. *)
Definition mtk_open (fd_array : list Z) : VM (Z * list Z) :=
  found ← cgets mtk_bt_enable;
  _ ← into_library found;
  n ← cgets (fun s => length (trace s));
  let fd := bt_enable n in
  _ ← note (Enable fd);
  if fd <? 0 then mret (-1, fd_array)
  else
    a ← clift (fill CH_MAX fd fd_array);
    _ ← cmodify (fun s => s ⟨ hci_tty_fd := u32 fd ⟩);
    mret (1, a).

Definition mtk_close : VM Z :=
  fd ← cgets hci_tty_fd;
  if fd =? u32 (-1) then mret (-1)
  else
    found ← cgets mtk_bt_disable;
    _ ← into_library found;
    n ← cgets (fun s => length (trace s));
    let ret := bt_disable n (s32 fd) in
    _ ← note (Disable (s32 fd) ret);
    mret ret.

(** A callback of the stack. *)
Definition call_host (c : vendor_call) : VM unit :=
  cb ← cgets bt_vendor_cbacks;
  if (cb : bool) then note c else clift None.

Definition mtk_op (op : opcode) : VM (Z * list Z) :=
  match op with
  | POWER_CTRL | SCO_CFG | LPM_SET_MODE | LPM_WAKE_SET_STATE | OTHER => mret (0, [])
  | GET_LPM_IDLE_TIMEOUT p => p' ← clift (array_set p 0 WL_DEFAULT_LPM_IDLE_TIMEOUT); mret (0, p')
  | USERIAL_OPEN a => mtk_open a
  | USERIAL_CLOSE => ret ← mtk_close; mret (ret, [])
  | FW_CFG => _ ← call_host FwCfg; mret (0, [])
  | EPILOG => _ ← call_host Epilog; mret (0, [])
  end.

Fixpoint ops (l : list opcode) : VM (list (Z * list Z)) :=
  match l with
  | [] => mret []
  | op :: l' => r ← mtk_op op; rs ← ops l'; mret (r :: rs)
  end.

(** A session of the stack. *)
Definition session (l : list opcode) : VM (Z * list (Z * list Z)) :=
  ret ← mtk_init true;
  rs ← ops l;
  _ ← mtk_cleanup;
  mret (ret, rs).

(** ** What the stack and the driver see *)

(** The descriptor of the last enable that succeeded. *)
Definition last_fd (tr : list vendor_call) : option Z :=
  last (omap (fun c => match c with Enable fd => if fd <? 0 then None else Some fd | _ => None end) tr).

(** A disable gets that descriptor. *)
Definition disables_last (tr : list vendor_call) : Prop :=
  forall pre fd ret post, tr = pre ++ Disable fd ret :: post -> last_fd pre = Some fd.

Definition is_callback (c : vendor_call) : bool := match c with FwCfg | Epilog => true | _ => false end.
Definition callbacks (tr : list vendor_call) : list vendor_call := filter (fun c => is_callback c = true) tr.

(** The callbacks that the opcodes ask for. *)
Definition asked (l : list opcode) : list vendor_call :=
  omap (fun op => match op with FW_CFG => Some FwCfg | EPILOG => Some Epilog | _ => None end) l.

(** Arrays that are long enough. *)
Definition room (op : opcode) : Prop :=
  match op with
  | USERIAL_OPEN a => (CH_MAX <= length a)%nat
  | GET_LPM_IDLE_TIMEOUT p => (1 <= length p)%nat
  | _ => True
  end.

(** The specification of an opcode knows neither pointers nor machine words,
    only the descriptor of the last enable that succeeded and the number of
    calls made so far, at which the driver answers: what it answers, the calls
    that it makes, and the descriptor that is the last one then. *)
Definition serve (n : nat) (current : option Z) (op : opcode) : (Z * list Z) * list vendor_call * option Z :=
  match op with
  | USERIAL_OPEN a =>
      let fd := bt_enable n in
      if fd <? 0 then ((-1, a), [Enable fd], current)
      else ((1, replicate CH_MAX fd ++ drop CH_MAX a), [Enable fd], Some fd)
  | USERIAL_CLOSE =>
      match current with
      | None => ((-1, []), [], None)
      | Some fd => ((bt_disable n fd, []), [Disable fd (bt_disable n fd)], current)
      end
  | GET_LPM_IDLE_TIMEOUT p => ((0, 200 :: tail p), [], current)
  | FW_CFG => ((0, []), [FwCfg], current)
  | EPILOG => ((0, []), [Epilog], current)
  | _ => ((0, []), [], current)
  end.

(** A list of opcodes: the answers, and all calls in their order. *)
Fixpoint serves (n : nat) (current : option Z) (l : list opcode) : list (Z * list Z) * list vendor_call :=
  match l with
  | [] => ([], [])
  | op :: l' =>
      let '(r, calls, current') := serve n current op in
      let '(rs, calls') := serves (n + length calls) current' l' in
      (r :: rs, calls ++ calls')
  end.

(** ** Lemmas *)

Lemma last_fd_snoc tr c :
  last_fd (tr ++ [c]) = match c with Enable fd => if fd <? 0 then last_fd tr else Some fd | _ => last_fd tr end.
Proof.
  unfold last_fd. rewrite omap_app. cbn. destruct c; cbn; rewrite ?app_nil_r; try done.
  destruct (fd <? 0); cbn; [by rewrite app_nil_r|by rewrite last_snoc].
Qed.

Lemma last_fd_nonneg tr fd : last_fd tr = Some fd -> 0 <= fd.
Proof.
  induction tr as [|c tr IH] using rev_ind; [done|]. rewrite last_fd_snoc. destruct c; try done.
  destruct (Z.ltb_spec fd0 0); [done|]. by intros [= ->].
Qed.

Lemma disables_last_snoc tr c :
  disables_last tr -> match c with Disable fd _ => last_fd tr = Some fd | _ => True end -> disables_last (tr ++ [c]).
Proof.
  intros Ht Hc pre fd ret post E. destruct post as [|d post _] using rev_ind.
  - apply app_inj_tail in E as [-> ->]. exact Hc.
  - rewrite app_comm_cons, app_assoc in E. apply app_inj_tail in E as [-> _]. by eapply Ht.
Qed.

(** The descriptor the library remembers is the last one. *)
Definition fd_ok (s : vendor) : Prop :=
  hci_tty_fd s = match last_fd (trace s) with Some fd => u32 fd | None => u32 (-1) end
  /\ (forall fd, last_fd (trace s) = Some fd -> is_s32 fd) /\ disables_last (trace s).

Definition pointers (s : vendor) : bool * bool * nat * bool * bool :=
  (bt_vendor_cbacks s, mtklib_handle s, references s, mtk_bt_enable s, mtk_bt_disable s).

Lemma fill_spec n fd a :
  (n <= length a)%nat -> fill n fd a = Some (replicate n fd ++ drop n a).
Proof.
  induction n as [|n IH]; intros Hl; [done|]. cbn [fill]. rewrite IH by lia. obind.
  rewrite array_set_Some by (rewrite length_app, length_replicate, length_drop; lia).
  rewrite Nat2Z.id. f_equal. rewrite insert_app_r_alt by (rewrite length_replicate; lia).
  rewrite length_replicate, Nat.sub_diag. destruct (drop n a) as [|x b] eqn:E.
  { apply (f_equal length) in E. rewrite length_drop in E. cbn in E. lia. }
  cbn [insert list_insert]. replace (drop (S n) a) with b.
  - rewrite replicate_S_end, <-app_assoc. done.
  - rewrite <-Nat.add_1_r, <-drop_drop, E. done.
Qed.

Lemma wp_into_library found Q s :
  found = true -> references s <> O -> Q tt s -> wp (into_library found) Q s.
Proof.
  intros -> Hr HQ. unfold into_library. apply wp_bind, wp_gets. by rewrite (proj2 (Nat.eqb_neq _ _)).
Qed.

(** One more call in the trace. *)
Lemma fd_ok_note s c fd :
  fd_ok s ->
  match c with
  | Enable x => is_s32 x /\ fd = if x <? 0 then hci_tty_fd s else u32 x
  | Disable x _ => last_fd (trace s) = Some x /\ fd = hci_tty_fd s
  | _ => fd = hci_tty_fd s
  end ->
  fd_ok (s ⟨ hci_tty_fd := fd ⟩ ⟨ trace $= fun l => l ++ [c] ⟩).
Proof.
  intros (Hfd & Hs & Hd) Hc. unfold fd_ok. cbn. rewrite last_fd_snoc. split_and!.
  - destruct c as [ok| |x|x ret| |]; try (by rewrite Hc); [|by destruct Hc as [_ ->]].
    destruct Hc as [Hx ->]. destruct (Z.ltb_spec x 0); [exact Hfd|done].
  - intros y. destruct c as [ok| |x|x ret| |]; try apply Hs. destruct (x <? 0); [apply Hs|]. intros [= <-]. apply Hc.
  - apply disables_last_snoc; [done|]. destruct c; [done|done|done|apply Hc|done|done].
Qed.

Definition live_pointers : bool * bool * nat * bool * bool := (true, true, 1%nat, true, true).

(** What an opcode does while the library is open. *)
Definition served (op : opcode) (r : Z * list Z) (s s' : vendor) : Prop :=
  pointers s' = live_pointers /\ fd_ok s'
  /\ exists calls, serve (length (trace s)) (last_fd (trace s)) op = (r, calls, last_fd (trace s'))
     /\ trace s' = trace s ++ calls.

Lemma served_note op c r s fd :
  pointers s = live_pointers -> fd_ok (s ⟨ hci_tty_fd := fd ⟩ ⟨ trace $= fun l => l ++ [c] ⟩) ->
  serve (length (trace s)) (last_fd (trace s)) op = (r, [c], last_fd (trace s ++ [c])) ->
  served op r s (s ⟨ hci_tty_fd := fd ⟩ ⟨ trace $= fun l => l ++ [c] ⟩).
Proof. intros Hp Hf Hc. split_and!; [exact Hp|exact Hf|]. by exists [c]. Qed.

Lemma served_nothing op r s :
  pointers s = live_pointers -> fd_ok s ->
  serve (length (trace s)) (last_fd (trace s)) op = (r, [], last_fd (trace s)) -> served op r s s.
Proof. intros Hp Hf Ha. split_and!; [done|done|]. exists []. by rewrite app_nil_r. Qed.

Lemma wp_call_host c Q s :
  bt_vendor_cbacks s = true -> Q tt (s ⟨ trace $= fun l => l ++ [c] ⟩) -> wp (call_host c) Q s.
Proof. intros Hcb HQ. unfold call_host. wps; [exact HQ|congruence]. Qed.

Lemma wp_op op s :
  pointers s = live_pointers -> fd_ok s -> room op ->
  wp (mtk_op op) (fun r s' => served op r s s') s.
Proof.
  intros Hp Hf Hr. pose proof Hp as Hp'. unfold pointers, live_pointers in Hp'. injection Hp' as Hcb Hh Hrf He Hd.
  destruct op; cbn [mtk_op]; try (apply wp_ret; by apply served_nothing).
  - apply wp_bind, wp_call_host; [done|]. apply wp_ret.
    apply (served_note FW_CFG FwCfg _ s (hci_tty_fd s)); [done|by apply fd_ok_note|by rewrite last_fd_snoc].
  - unfold mtk_open. apply wp_bind, wp_gets, wp_bind, wp_into_library; [done|by rewrite Hrf|].
    apply wp_bind, wp_gets. set (fd := bt_enable (length (trace s))). apply wp_bind. unfold note. apply wp_modify.
    pose proof (bt_enable_int (length (trace s))) as Hint. fold fd in Hint.
    destruct (fd <? 0) eqn:Hneg.
    + apply wp_ret. apply (served_note (USERIAL_OPEN fd_array) (Enable fd) _ s (hci_tty_fd s)); [done| |].
      * apply fd_ok_note; [done|]. by rewrite Hneg.
      * rewrite last_fd_snoc. cbn [serve]. fold fd. cbv zeta. by rewrite Hneg.
    + apply wp_bind. eapply wp_lift; [by apply fill_spec|]. apply wp_bind, wp_modify, wp_ret.
      apply (served_note (USERIAL_OPEN fd_array) (Enable fd) _ s (u32 fd)); [done| |].
      * apply fd_ok_note; [done|]. by rewrite Hneg.
      * rewrite last_fd_snoc. cbn [serve]. fold fd. cbv zeta. by rewrite Hneg.
  - unfold mtk_close. apply wp_bind, wp_bind, wp_gets. pose proof Hf as (Hfd & Hint & _).
    destruct (last_fd (trace s)) as [fd|] eqn:El.
    + rewrite Hfd. pose proof (last_fd_nonneg _ _ El) as Hpos. specialize (Hint fd eq_refl).
      rewrite u32_id by (unfold is_u32, is_s32 in *; lia).
      rewrite (proj2 (Z.eqb_neq fd _)) by (unfold is_s32 in Hint; change (u32 (-1)) with 4294967295; lia).
      apply wp_bind, wp_gets, wp_bind, wp_into_library; [done|by rewrite Hrf|].
      rewrite s32_id by done. apply wp_bind, wp_gets. cbv zeta. apply wp_bind. unfold note. apply wp_modify, wp_ret, wp_ret.
      apply (served_note USERIAL_CLOSE (Disable fd _) _ s (hci_tty_fd s)); [done|by apply fd_ok_note|].
      by rewrite last_fd_snoc, El.
    + rewrite Hfd, Z.eqb_refl. apply wp_ret, wp_ret. apply served_nothing; [done|done|by rewrite El].
  - apply wp_bind. destruct timeout as [|x p]; [by apply Nat.nle_succ_0 in Hr|].
    eapply (wp_lift _ _ _ (200 :: p)); [done|]. apply wp_ret. by apply served_nothing.
  - apply wp_bind, wp_call_host; [done|]. apply wp_ret.
    apply (served_note EPILOG Epilog _ s (hci_tty_fd s)); [done|by apply fd_ok_note|by rewrite last_fd_snoc].
Qed.

Lemma wp_ops l s :
  pointers s = live_pointers -> fd_ok s -> Forall room l ->
  wp (ops l) (fun rs s' => pointers s' = live_pointers /\ fd_ok s'
    /\ rs = fst (serves (length (trace s)) (last_fd (trace s)) l)
    /\ trace s' = trace s ++ snd (serves (length (trace s)) (last_fd (trace s)) l)) s.
Proof.
  intros Hp Hf Hl. revert s Hp Hf. induction Hl as [|op l Hop Hl IH]; intros s Hp Hf; cbn [ops].
  - apply wp_ret. cbn. by rewrite app_nil_r.
  - apply wp_bind. eapply wp_mono; [by apply wp_op|]. intros r s1 (Hp1 & Hf1 & calls & R1 & E1).
    apply wp_bind. eapply wp_mono; [by apply IH|]. intros rs s2 (Hp2 & Hf2 & R2 & E2).
    apply wp_ret. cbn [serves]. rewrite R1. rewrite E1, length_app, <-E1 in R2, E2.
    destruct (serves (length (trace s) + length calls) (last_fd (trace s1)) l) as [rs' calls'].
    cbn [fst snd] in *. split_and!; [done|done|by rewrite R2|]. by rewrite E2, E1, app_assoc.
Qed.

(** The specification makes the callbacks that are asked for, in order. *)
Lemma serves_callbacks n current l : callbacks (snd (serves n current l)) = asked l.
Proof.
  revert n current. induction l as [|op l IH]; intros n current; [done|]. cbn [serves].
  destruct (serve n current op) as [[r calls] current'] eqn:E.
  specialize (IH (n + length calls)%nat current'). destruct (serves (n + length calls) current' l) as [rs calls'].
  cbn [snd] in *. unfold callbacks in *. rewrite filter_app, IH.
  assert (filter (fun c => is_callback c = true) calls = asked [op]) as ->.
  { destruct op; cbn in E; try (by simplify_eq); [destruct (bt_enable n <? 0)|destruct current]; by simplify_eq. }
  unfold asked. by rewrite <-omap_app.
Qed.

(** ** Sessions *)

Lemma wp_init_found s :
  references s = O -> fd_ok s ->
  opens (length (trace s)) = true -> has_enable (length (trace s)) = true -> has_disable (length (trace s)) = true ->
  wp (mtk_init true) (fun ret s' => ret = 0 /\ pointers s' = live_pointers /\ fd_ok s' /\ trace s' = trace s ++ [Dlopen true]) s.
Proof.
  intros Hr Hf Ho He Hd. unfold mtk_init, note. cbn [negb].
  apply wp_bind, wp_modify, wp_bind, wp_gets, wp_bind, wp_modify, wp_bind, wp_modify.
  cbn [trace field_update]. rewrite Ho, He, Hd. apply wp_bind, wp_modify, wp_bind, wp_ret, wp_ret.
  split_and!; [done|unfold pointers; cbn; by rewrite Hr| |done].
  exact (fd_ok_note s (Dlopen true) (hci_tty_fd s) Hf eq_refl).
Qed.

(** Once the library is closed nothing opens it again, and an open fails. *)
Lemma closed_open_undefined l s :
  references s = O -> (exists a, USERIAL_OPEN a ∈ l) -> ops l s = None.
Proof.
  intros Hr [a Ha]. revert s Hr. induction l as [|op l IH]; intros s Hr; [by apply not_elem_of_nil in Ha|].
  cbn [ops]. unfold mbind, cm_bind. destruct (mtk_op op s) as [[r s1]|] eqn:E; [|done].
  apply elem_of_cons in Ha as [<-|Ha].
  { exfalso. cbn [mtk_op] in E. unfold mtk_open, into_library, mbind, cm_bind, cgets in E. rewrite Hr in E.
    by rewrite andb_false_r in E. }
  assert (references s1 = references s) as Hr1.
  { assert (preserves references (mtk_op op)) as Hp
      by (unfold mtk_op, mtk_open, mtk_close, into_library, call_host, note; preserves).
    by apply Hp in E. }
  rewrite (IH Ha s1); [done|by rewrite Hr1].
Qed.
End Vendor.

(** C32 (error): a session of the Bluetooth stack, from a state in which the
    library is not open.  If libbluetoothdrv.so opens and has both functions,
    every list of opcodes is served as [serve] says: an open enables the driver
    once, and answers 1 with the driver's descriptor in every channel, or -1
    with the array as it was if the driver refuses; a close disables the
    descriptor of the last enable that succeeded, once, and answers what the
    driver answers, or -1 without a call if there was none; a callback comes for
    each opcode that asks for one, and no other call is made.  The library is
    opened before all of that and closed after it.  If it does not
    open mtk_init returns 0 all the same, and opening the channels calls
    through NULL or into a closed library.  If one function is missing mtk_init
    closes the library and returns 0, and mtk_cleanup closes it again. *)
Theorem bt_session `{Blob} CH_MAX l s :
  references s = O -> fd_ok s -> Forall (room CH_MAX) l ->
  let n := length (trace s) in
  (opens n = true -> has_enable n = true -> has_disable n = true ->
   exists rs s' calls, serves CH_MAX (S n) (last_fd (trace s)) l = (rs, calls)
   /\ session CH_MAX l s = Some ((0, rs), s')
   /\ trace s' = trace s ++ Dlopen true :: calls ++ [Dlclose]
   /\ callbacks calls = asked l /\ disables_last (trace s') /\ references s' = O)
  /\ (opens n = false ->
      (exists s', mtk_init true s = Some (0, s')) /\ ((exists a, USERIAL_OPEN a ∈ l) -> session CH_MAX l s = None))
  /\ (opens n = true -> has_enable n && has_disable n = false ->
      (exists s', mtk_init true s = Some (0, s')) /\ session CH_MAX [] s = None).
Proof.
  intros Hr Hf Hl n. split_and!.
  - intros Ho He Hd. destruct (wp_Some _ _ _ (wp_init_found s Hr Hf Ho He Hd)) as (x & s1 & R1 & -> & Hp1 & Hf1 & E1).
    destruct (wp_Some _ _ _ (wp_ops CH_MAX l s1 Hp1 Hf1 Hl)) as (rs & s2 & R2 & Hp2 & Hf2 & Hrs & E2).
    unfold pointers, live_pointers in Hp2. injection Hp2 as Hcb Hh Hrf He2 Hd2.
    rewrite E1, length_app, Nat.add_1_r, last_fd_snoc in Hrs, E2. fold n in Hrs, E2.
    pose proof (serves_callbacks CH_MAX (S n) (last_fd (trace s)) l) as Hcalls.
    destruct (serves CH_MAX (S n) (last_fd (trace s)) l) as [rs' calls]. cbn [fst snd] in *. subst rs'.
    eexists rs, _, calls. split; [done|]. split.
    + unfold session. rewrite (run_bind _ _ _ _ _ R1), (run_bind _ _ _ _ _ R2).
      unfold mtk_cleanup, dlclose, note. cbv [mbind cm_bind cgets cmodify mret cm_ret cwhen].
      cbn [mtklib_handle references field_update]. rewrite Hh. cbn [references field_update]. rewrite Hrf. reflexivity.
    + cbn. rewrite E2, <-!app_assoc. cbn. split_and!; [done|done| |done].
      pose proof (fd_ok_note s2 Dlclose (hci_tty_fd s2) Hf2 eq_refl) as (_ & _ & Hdl). cbn in Hdl.
      by rewrite E2, <-!app_assoc in Hdl.
  - intros Ho.
    assert (exists s1, mtk_init true s = Some (0, s1) /\ references s1 = O) as (s1 & R1 & Hr1).
    { unfold mtk_init, note. cbv [mbind cm_bind cgets cmodify mret cm_ret negb]. cbn [trace field_update].
      fold n. rewrite Ho. eexists. split; [reflexivity|]. exact Hr. }
    split; [by exists s1|]. intros Ha. unfold session. rewrite (run_bind _ _ _ _ _ R1).
    unfold mbind at 1, cm_bind at 1. by rewrite closed_open_undefined.
  - intros Ho Hn.
    assert (exists s1, mtk_init true s = Some (0, s1) /\ references s1 = O /\ mtklib_handle s1 = true) as (s1 & R1 & Hr1 & Hh1).
    { unfold mtk_init, note, dlclose. cbv [mbind cm_bind cgets cmodify mret cm_ret negb cwhen]. cbn [trace field_update].
      fold n. rewrite Ho.
      destruct (has_enable n), (has_disable n); try done; (eexists; split; [reflexivity|split; [exact Hr|reflexivity]]). }
    split; [by exists s1|]. unfold session. rewrite (run_bind _ _ _ _ _ R1). cbn [ops].
    unfold mtk_cleanup, dlclose. cbv [mbind cm_bind cgets cmodify mret cm_ret cwhen].
    cbn [mtklib_handle references field_update]. rewrite Hh1. cbn [references field_update]. by rewrite Hr1.
Qed.

Lemma seven_int : is_s32 7.
Proof. by_decide. Qed.

(** A driver that enables descriptor 7 and answers 3 to a disable, in a library with both functions from
    the [from]-th call on, and with the first one only before. *)
Definition blob (library : bool) (from : nat) : Blob := {|
  opens _ := library;
  has_enable _ := true;
  has_disable n := (from <=? n)%nat;
  bt_enable _ := 7;
  bt_disable _ _ := 3;
  bt_enable_int _ := seven_int;
|}.

Theorem bt_session_witness :
  (exists s', @session (blob true 0) 4 [USERIAL_CLOSE; FW_CFG; USERIAL_OPEN (zeros 4); EPILOG; USERIAL_CLOSE] vendor_boot
     = Some ((0, [(-1, []); (0, []); (1, [7; 7; 7; 7]); (0, []); (3, [])]), s')
     /\ trace s' = [Dlopen true; FwCfg; Enable 7; Epilog; Disable 7 3; Dlclose])
  /\ @session (blob false 0) 4 [USERIAL_OPEN (zeros 4)] vendor_boot = None
  /\ @session (blob true 1) 4 [] vendor_boot = None.
Proof.
  assert (fd_ok vendor_boot) as Hf.
  { split; [reflexivity|]. split; [discriminate|]. intros pre fd ret post E. destruct pre; discriminate E. }
  split; [|split].
  - destruct (@bt_session (blob true 0) 4 [USERIAL_CLOSE; FW_CFG; USERIAL_OPEN (zeros 4); EPILOG; USERIAL_CLOSE] vendor_boot)
      as [Hs _]; [reflexivity|exact Hf|repeat constructor|].
    destruct (Hs eq_refl eq_refl eq_refl) as (rs & s' & calls & H1 & H2 & H3 & _).
    vm_compute in H1. injection H1 as <- <-. exists s'. split; [exact H2|exact H3].
  - destruct (@bt_session (blob false 0) 4 [USERIAL_OPEN (zeros 4)] vendor_boot) as (_ & Hs & _);
      [reflexivity|exact Hf|repeat constructor|].
    apply (proj2 (Hs eq_refl)). exists (zeros 4). by constructor.
  - destruct (@bt_session (blob true 1) 4 [] vendor_boot) as (_ & _ & Hs); [reflexivity|exact Hf|constructor|].
    apply (Hs eq_refl eq_refl).
Defined.
