(* ===== verification/Device.v ===== *)
(** * The GPS device: opening the HAL, thinned reading, and the codec
      (gps_mtk_aosp.c: gps__get_gps_interface, mtk_gps_set_position_mode, and
      what gps_state_thread does for the device and for the codec's socket)

    The bytes of the device go to the reader of NmeaParse.v; what the calls
    read, recv and accept answer comes from outside. *)

From stdpp Require Import gmap.
From S2P Require Import Prelude CFloat Calendar NmeaToken NmeaReader NmeaParse HalBuff EpoTime EpoConf EpoDownload Daemon Layout Hal MnldHandler Session.
#[local] Open Scope Z_scope.

(** ** State *)

Record dev := MkDev {
  d_reader : NmeaReader.hal;          (* the reader and its globals *)
  d_gps : gps;
  count : float32;                    (* of gps_state_thread *)
  report_time_interval : float32;
  codec_sent : list (list Z);
}.

#[export] Instance dev_rebuild : Rebuild dev := fun r =>
  MkDev (d_reader r) (d_gps r) (count r) (report_time_interval r) (codec_sent r).

Definition with_reader {A} : CM NmeaReader.hal A -> CM dev A := on_part d_reader (fun h s => s ⟨ d_reader := h ⟩).
Definition with_gps {A} : CM gps A -> CM dev A := on_part d_gps (fun g s => s ⟨ d_gps := g ⟩).

(** An answer of read: bytes, or -1 with errno. *)
Inductive read_answer := ReadBytes (data : list Z) | ReadError (errno : Z).

(** ** Numbers *)

Definition f32 (z : Z) : float32 := binary_normalize 24 128 z 0 false.
Definition f32_zero : float32 := S754_zero false.

(** report_time_interval = (float)min_interval/1000, at least a second. *)
Definition interval (min_interval : Z) : float32 :=
  if min_interval <=? 1000 then f32 1 else SFdiv 24 128 (f32 min_interval) (f32 1000).

Definition next_count (c : float32) : float32 := SFadd 24 128 c (f32 1).

(** ** The framework's calls *)

(** [fd]: the datagram socket. *)
Definition gps__get_gps_interface (fd : Z) : CM dev unit :=
  with_gps (cmodify (fun g => g ⟨ sock := fd ⟩ ⟨ send_fd := fd ⟩)).

Definition mtk_gps_set_position_mode (min_interval : Z) : CM dev Z :=
  _ ← cmodify (fun s => s ⟨ report_time_interval := interval min_interval ⟩);
  mret 0.

Section Thread.
Context `{GpsHeader} `{TimeZone}.
Variable sizeof_GpsCallbacks : Z.
Variable sizeof_GpsLocation : Z.

(** ** Reading the device *)

(** The inner loop, on the answers of read, each at its time: [false] if it is
    still waiting for one. *)
Fixpoint device_loop (answers : list (Z * read_answer)) : CM dev bool :=
  match answers with
  | [] => mret false
  | (now, ReadBytes data) :: rest =>
      _ ← with_reader (gps_device_data sizeof_GpsCallbacks now data);
      device_loop rest
  | (_, ReadError errno) :: rest => if errno =? EINTR then device_loop rest else mret true
  end.

(** The device is readable. *)
Definition device_event (answers : list (Z * read_answer)) : CM dev bool :=
  _ ← with_gps device_data;
  _ ← cmodify (fun s => s ⟨ count $= next_count ⟩);
  s ← cgets id;
  if SFltb (count s) (report_time_interval s) then mret (negb (length answers =? 0)%nat)
  else
    _ ← cmodify (fun s => s ⟨ count := f32_zero ⟩);
    device_loop answers.

(** One event after the other, each once the one before is done. *)
Fixpoint device_events (l : list (list (Z * read_answer))) : CM dev bool :=
  match l with
  | [] => mret true
  | answers :: l' =>
      ended ← device_event answers;
      if (ended : bool) then device_events l' else mret false
  end.

(** ** The codec *)

(** The answers of accept, of the first recv and of the second: a failure, or
    the bytes received. *)
Record codec_answers := {
  accepted : bool;
  command : option (list Z);
  location : option (list Z);
}.

Variable junk : list Z.               (* an uninitialised GpsLocation *)
Variable location_of : list Z -> Z * fields.

Definition codec_send (bytes : list Z) : CM dev unit := cmodify (fun s => s ⟨ codec_sent $= fun l => l ++ [bytes] ⟩).

Definition codec_event (a : codec_answers) : CM dev unit :=
  if negb (accepted a) then mret tt
  else
    match command a with
    | None => mret tt
    | Some bytes =>
        b ← clift (buf_write (le_bytes 4 0) 0 bytes);
        let cmd := s32 (le_val b) in
        if cmd =? 1 then codec_send (zeros 2048)
        else if cmd =? 2 then
          ack ← clift (buf_write (zeros 10) 0 (zs "cmd2_ack" ++ [0]));
          _ ← codec_send ack;
          match location a with
          | None => mret tt
          | Some bytes =>
              l ← clift (buf_write junk 0 bytes);
              let '(flags, values) := location_of l in
              cb ← cgets (fun s => base_callbacks (d_gps s));
              cwhen cb (with_gps (upcall_cb (CbLocation flags values)))
          end
        else mret tt
    end.
End Thread.

(** ** The thinning of device reads *)

(** The count after [n] events. *)
Definition counted_to (n : nat) : float32 := Nat.iter n next_count f32_zero.

(** How many events make one complete read: the interval in seconds, rounded
    up. *)
Definition period (min_interval : Z) : nat := Z.to_nat (Z.max 1 ((min_interval + 999) / 1000)).

(** The count stays below the interval before, and reaches it at, the period. *)
Fixpoint below (n : nat) (i c : float32) : bool :=
  match n with
  | O => true
  | S n' => SFltb (next_count c) i && below n' i (next_count c)
  end.

Definition period_ok (x : Z) : bool :=
  below (pred (period x)) (interval x) f32_zero && negb (SFltb (counted_to (period x)) (interval x)).

Lemma periods_ok : forallb period_ok (seqZ 0 10001) = true.
Proof. vm_cast_no_check (eq_refl true). Qed.

Lemma period_spec x : 0 <= x <= 10000 -> period_ok x = true.
Proof.
  intros Hx. pose proof periods_ok as H. rewrite forallb_forall in H. apply H, list_elem_of_In, elem_of_seqZ. lia.
Qed.

Section Thinning.
Context `{GpsHeader} `{TimeZone}.
Variable sizeof_GpsCallbacks : Z.

(** Complete reads, one after the other. *)
Fixpoint full_reads (l : list (list (Z * read_answer))) : CM dev bool :=
  match l with
  | [] => mret true
  | answers :: l' =>
      ended ← device_loop sizeof_GpsCallbacks answers;
      if (ended : bool) then full_reads l' else mret false
  end.

(** M_START is released. *)
Definition unlocked (g : gps) : gps :=
  if truthy (flag_unlock g) then g
  else g ⟨ conditions $= <[M_START := 1]> ⟩ ⟨ flag_unlock := 1 ⟩.

Lemma device_data_unlocks g : device_data g = Some (tt, unlocked g).
Proof. unfold device_data, unlocked. cbv [mbind cm_bind cgets cwhen]. by destruct (truthy (flag_unlock g)). Qed.

Lemma unlocked_twice g : unlocked (unlocked g) = unlocked g.
Proof. unfold unlocked. destruct (truthy (flag_unlock g)) eqn:E; [by rewrite E|done]. Qed.

Lemma device_event_run answers s :
  device_event sizeof_GpsCallbacks answers s
  = let s1 := s ⟨ d_gps := unlocked (d_gps s) ⟩ ⟨ count $= next_count ⟩ in
    if SFltb (next_count (count s)) (report_time_interval s) then Some (negb (length answers =? 0)%nat, s1)
    else device_loop sizeof_GpsCallbacks answers (s1 ⟨ count := f32_zero ⟩).
Proof.
  unfold device_event, with_gps, on_part. unfold mbind at 1, cm_bind at 1. unfold mbind at 1, option_bind.
  rewrite device_data_unlocks. cbv zeta.
  rewrite run_modify, run_gets. unfold id. cbn [count report_time_interval field_update].
  by destruct (SFltb (next_count (count s)) (report_time_interval s)).
Qed.

(** The events before a complete read. *)
Lemma skipped skips l s :
  below (length skips) (report_time_interval s) (count s) = true -> Forall (fun a => a <> []) skips -> skips <> [] ->
  device_events sizeof_GpsCallbacks (skips ++ l) s
  = device_events sizeof_GpsCallbacks l
      (s ⟨ d_gps := unlocked (d_gps s) ⟩ ⟨ count := Nat.iter (length skips) next_count (count s) ⟩).
Proof.
  intros Hb Hs. revert s Hb. induction Hs as [|a skips Ha Hs IH]; intros s Hb Hne; [done|].
  cbn [below length] in Hb. apply andb_prop in Hb as [Hlt Hb]. cbn [app device_events].
  unfold mbind, cm_bind. rewrite device_event_run, Hlt. cbv zeta.
  destruct a as [|x a]; [done|]. cbn [length Nat.eqb negb].
  destruct skips as [|b skips].
  - reflexivity.
  - rewrite IH; [|exact Hb|done]. cbn [d_gps count field_update]. rewrite unlocked_twice.
    f_equal. cbn [length]. rewrite (Nat.iter_succ_r (S (length skips))). done.
Qed.

Lemma period_pos x : exists n, period x = S n.
Proof. exists (pred (period x)). unfold period. lia. Qed.

(** Events up to a complete read. *)
Lemma one_period x skips answers l s :
  0 <= x <= 10000 -> report_time_interval s = interval x -> count s = f32_zero ->
  Forall (fun a => a <> []) skips -> length skips = pred (period x) ->
  device_events sizeof_GpsCallbacks (skips ++ answers :: l) s
  = (ended ← device_loop sizeof_GpsCallbacks answers;
     if (ended : bool) then device_events sizeof_GpsCallbacks l else mret false)
      (s ⟨ d_gps := unlocked (d_gps s) ⟩ ⟨ count := f32_zero ⟩).
Proof.
  intros Hx Hi Hc Hs Hl. pose proof (period_spec x Hx) as [Hb Hp]%andb_prop.
  destruct (period_pos x) as [n En]. rewrite En in *. cbn [pred] in *.
  apply negb_true_iff in Hp.
  assert (forall s1, report_time_interval s1 = interval x -> count s1 = counted_to n ->
    device_events sizeof_GpsCallbacks (answers :: l) s1
    = (ended ← device_loop sizeof_GpsCallbacks answers;
       if (ended : bool) then device_events sizeof_GpsCallbacks l else mret false)
        (s1 ⟨ d_gps := unlocked (d_gps s1) ⟩ ⟨ count := f32_zero ⟩)) as Hlast.
  { intros s1 Hi1 Hc1. cbn [device_events]. unfold mbind, cm_bind. rewrite device_event_run, Hi1, Hc1. cbv zeta.
    change (next_count (counted_to n)) with (counted_to (S n)). rewrite Hp. reflexivity. }
  destruct skips as [|a skips].
  - cbn in Hl. subst n. by apply Hlast.
  - rewrite skipped; [|by rewrite Hl, Hi, Hc|done|done]. rewrite Hlast; [|done|cbn [count field_update]; by rewrite Hc, Hl].
    cbn [d_gps field_update]. by rewrite unlocked_twice.
Qed.

Lemma loop_keeps {T} (part : dev -> T) answers :
  (forall h s, part (s ⟨ d_reader := h ⟩) = part s) -> preserves part (device_loop sizeof_GpsCallbacks answers).
Proof.
  intros Hp. induction answers as [|[now [data|e]] l IH]; cbn [device_loop]; [apply preserves_ret| |].
  - apply preserves_bind; [|by intros []]. by apply preserves_on_part.
  - destruct (e =? EINTR); [done|apply preserves_ret].
Qed.

Lemma periods x groups s :
  0 <= x <= 10000 -> report_time_interval s = interval x -> count s = f32_zero -> unlocked (d_gps s) = d_gps s ->
  Forall (fun g => Forall (fun a => a <> []) (fst g) /\ length (fst g) = pred (period x)) groups ->
  device_events sizeof_GpsCallbacks (concat ((fun g => fst g ++ [snd g]) <$> groups)) s
  = full_reads (snd <$> groups) s.
Proof.
  intros Hx Hi Hc Hu Hg. revert s Hi Hc Hu. induction Hg as [|[skips answers] groups [Hs Hl] Hg IH]; intros s Hi Hc Hu; [done|].
  cbn [fmap list_fmap concat fst snd full_reads]. rewrite <-app_assoc. cbn [app].
  rewrite (one_period x) by done.
  replace (s ⟨ d_gps := unlocked (d_gps s) ⟩ ⟨ count := f32_zero ⟩) with s
    by (rewrite Hu, <-Hc; by destruct s).
  unfold mbind, cm_bind. destruct (device_loop sizeof_GpsCallbacks answers s) as [[ended s1]|] eqn:E; [|done].
  destruct ended; [|done].
  apply IH.
  - by rewrite (loop_keeps report_time_interval answers ltac:(done) _ _ _ E).
  - by rewrite (loop_keeps count answers ltac:(done) _ _ _ E).
  - by rewrite (loop_keeps d_gps answers ltac:(done) _ _ _ E).
Qed.

Lemma events_unlocked es s :
  es <> [] ->
  device_events sizeof_GpsCallbacks es s = device_events sizeof_GpsCallbacks es (s ⟨ d_gps := unlocked (d_gps s) ⟩).
Proof.
  destruct es as [|a es]; [done|]. intros _. cbn [device_events]. unfold mbind, cm_bind. rewrite !device_event_run.
  cbv zeta. cbn [d_gps count report_time_interval field_update]. by rewrite unlocked_twice.
Qed.

Lemma empty_reads n now s :
  device_loop sizeof_GpsCallbacks (replicate (S n) (now, ReadBytes [])) s
  = Some (false, s ⟨ d_reader := (d_reader s) ⟨ gps_nmea_end_tag := 0 ⟩ ⟩).
Proof.
  revert s. induction n as [|n IH]; intros s; [reflexivity|].
  change (replicate (S (S n)) (now, ReadBytes [])) with ((now, ReadBytes []) :: replicate (S n) (now, ReadBytes [])).
  remember (replicate (S n) (now, ReadBytes [])) as l. cbn [device_loop].
  rewrite (run_bind _ _ s tt (s ⟨ d_reader := (d_reader s) ⟨ gps_nmea_end_tag := 0 ⟩ ⟩) eq_refl). by rewrite IH.
Qed.
End Thinning.

(** C33 (functional): the thinning of reads.  With a minimal interval of up to
    ten seconds, set before any event is counted, the device is read
    completely on every n-th event, n being the interval in seconds rounded up
    and at least 1, and the events before it are read once and thrown away.
    The first event of all releases M_START.  A complete read goes on until an
    error other than an interruption: reads of no bytes never end it. *)
Theorem device_thinned `{GpsHeader} `{TimeZone} sizeof_GpsCallbacks x groups s :
  0 <= x <= 10000 -> count s = f32_zero -> groups <> [] ->
  Forall (fun g => Forall (fun a => a <> []) (fst g) /\ length (fst g) = pred (period x)) groups ->
  (_ ← mtk_gps_set_position_mode x;
   device_events sizeof_GpsCallbacks (concat ((fun g => fst g ++ [snd g]) <$> groups))) s
  = full_reads sizeof_GpsCallbacks (snd <$> groups)
      (s ⟨ report_time_interval := interval x ⟩ ⟨ d_gps := unlocked (d_gps s) ⟩)
  /\ forall n now, device_loop sizeof_GpsCallbacks (replicate (S n) (now, ReadBytes [])) s
       = Some (false, s ⟨ d_reader := (d_reader s) ⟨ gps_nmea_end_tag := 0 ⟩ ⟩).
Proof.
  intros Hx Hc Hne Hg. split; [|intros; apply empty_reads].
  change (device_events sizeof_GpsCallbacks (concat ((fun g => fst g ++ [snd g]) <$> groups))
            (s ⟨ report_time_interval := interval x ⟩) =
          full_reads sizeof_GpsCallbacks (snd <$> groups)
            (s ⟨ report_time_interval := interval x ⟩ ⟨ d_gps := unlocked (d_gps s) ⟩)).
  rewrite events_unlocked.
  - apply (periods sizeof_GpsCallbacks x); [done|done|done|apply unlocked_twice|done].
  - destruct groups as [|[[|a l] answers] groups]; done.
Qed.

Theorem device_thinned_witness :
  let tz := fixed_zone 0 in
  let read := @device_events aosp_gps_h tz 100 in
  exists r, @nmea_reader_init aosp_gps_h tz 0 (gmtime 0) = Some r
  /\ forall (s := MkDev (MkHal r (zeros 256) 0 1 100 [] []) gps_boot f32_zero f32_zero [])
      (dropped := [(7, ReadBytes (zs "$GPRMC"))]) (full := [(8, ReadBytes (zs "$GP")); (8, ReadError EAGAIN)]),
     match (_ ← mtk_gps_set_position_mode 2500; read [dropped; dropped; full]) s with
     | Some (ended, s') => ended = true /\ pos (reader (d_reader s')) = 3 /\ conditions (d_gps s') !! M_START = Some 1
     | None => False
     end.
Proof.
  intros tz read. eexists. split; [reflexivity|]. intros s dropped full.
  destruct (@device_thinned aosp_gps_h tz 100 2500 [([dropped; dropped], full)] s) as [E _].
  - lia.
  - reflexivity.
  - discriminate.
  - constructor; [|constructor]. split; [repeat constructor; discriminate|reflexivity].
  - unfold read. cbn [fmap list_fmap concat fst snd app] in E. rewrite E. vm_compute. split; [reflexivity|split; reflexivity].
Defined.
