(* ===== verification/EpoThread.v ===== *)
(** * The EPO thread against any server (gps_mtk_aosp.c: thread_epo_file_update
      and what it calls)

    EpoDownload.v shows what a download does when the server delivers.  Here
    nothing is assumed of the server, of the files or of the settings' text:
    the state of the download stays well formed, and a round goes wrong only by
    the counter of failed attempts, which is printed into five bytes. *)

From stdpp Require Import gmap.
From S2P Require Import Prelude NmeaToken Calendar EpoTime EpoConf HalBuff EpoDownload.
#[local] Open Scope Z_scope.

(** ** Well-formed states *)

Definition is_flag (z : Z) : Prop := z ∈ [0; 1].

#[export] Instance is_flag_dec z : Decision (is_flag z).
Proof. unfold is_flag. apply _. Defined.

Record epo_ok (s : epo) : Prop := {
  ok_conf : conf_ok (conf s);
  ok_type : type_ok (gps_epo_type s);
  ok_count : 0 <= gps_epo_file_count s < 10;
  ok_updated : is_flag (epo_data_updated s);
  ok_failed : is_flag (epo_download_failed s);
  ok_retry : is_flag (epo_download_retry s);
  ok_retrying : 0 <= file_retrying s < 10 \/ file_retrying s = 50;
  ok_time : 0 <= retry_time s < 10;
}.

Lemma flag_0 : is_flag 0.
Proof. by_decide. Qed.
Lemma flag_1 : is_flag 1.
Proof. by_decide. Qed.

Lemma flag_cases z : is_flag z -> z = 0 \/ z = 1.
Proof. unfold is_flag. intros H. apply list_elem_of_In in H. cbn in H. intuition. Qed.

Create HintDb epo_ok discriminated.
#[export] Hint Resolve flag_0 flag_1 ok_conf ok_type ok_count ok_updated ok_failed ok_retry
  ok_retrying ok_time : epo_ok.

(** An update of some fields keeps a state well formed if the new values are. *)
Ltac epo_ok := split; cbn; auto with epo_ok; try lia.

(** [m] keeps a state well formed and adds at most [k] failed attempts, which
    goes well as long as the counter has four digits. *)
Definition costs {A} (k : Z) (m : CM epo A) : Prop := forall s b,
  epo_ok s -> 1 <= counter s <= b -> b + k <= 10000 ->
  wp m (fun _ s' => epo_ok s' /\ 1 <= counter s' <= b + k) s.

Lemma costs_mono {A} k k' (m : CM epo A) : costs k m -> k <= k' -> costs k' m.
Proof.
  intros Hm Hk s b Hs Hc Hb. eapply wp_mono; [apply (Hm s b); [done..|lia]|].
  cbn beta. intros _ s' [? ?]. split; [done|lia].
Qed.

Lemma costs_bind {A B} k1 k2 (m : CM epo A) (f : A -> CM epo B) :
  0 <= k2 -> costs k1 m -> (forall x, costs k2 (f x)) -> costs (k1 + k2) (x ← m; f x).
Proof.
  intros H2 Hm Hf s b Hs Hc Hb. apply wp_bind. eapply wp_mono; [apply (Hm s b); [done..|lia]|].
  cbn beta. intros x s' [Hs' Hc']. eapply wp_mono; [apply (Hf x s' (b + k1)); [done..|lia]|].
  cbn beta. intros _ s'' [? ?]. split; [done|lia].
Qed.

(** Only one of the two parts counts. *)
Lemma costs_bind_r {A B} k (m : CM epo A) (f : A -> CM epo B) :
  0 <= k -> costs 0 m -> (forall x, costs k (f x)) -> costs k (x ← m; f x).
Proof. intros Hk Hm Hf. apply (costs_bind 0 k); done. Qed.

Lemma costs_ret {A} (x : A) : costs 0 (mret x).
Proof. intros s b Hs Hc _. apply wp_ret. split; [done|lia]. Qed.

Lemma costs_gets {A} (f : epo -> A) : costs 0 (cgets f).
Proof. intros s b Hs Hc _. apply wp_gets. split; [done|lia]. Qed.

Lemma costs_modify k f :
  (forall s, epo_ok s -> epo_ok (f s)) -> (forall s, 1 <= counter s -> 1 <= counter (f s) <= counter s + k) ->
  costs k (cmodify f).
Proof. intros Hf Hc s b Hs Hb _. apply wp_modify. specialize (Hc s). split; [auto|lia]. Qed.

Lemma costs_if {A} k (b : bool) (m1 m2 : CM epo A) : costs k m1 -> costs k m2 -> costs k (if b then m1 else m2).
Proof. by destruct b. Qed.

Lemma costs_when k (b : bool) m : 0 <= k -> costs k m -> costs k (cwhen b m).
Proof. intros Hk Hm. destruct b; [done|]. by eapply costs_mono; [apply costs_ret|]. Qed.

#[export] Hint Resolve costs_ret costs_gets : epo_ok.

Ltac costs_modify := apply costs_modify; [intros ? ?; epo_ok|intros; cbn; lia].

(** The key's text needs a counter of at most four digits, as there is when one
    more failed attempt is allowed. *)
Lemma costs_with_key {A} k key (f : list Z -> CM epo A) :
  1 <= k -> (length key <= 16)%nat -> (forall t, costs k (f t)) ->
  costs k (t ← key_with_counter key; f t).
Proof.
  intros Hk Hl Hf s b Hs Hc Hb. apply wp_bind, wp_key; [lia|done|]. intros t. by apply Hf.
Qed.

Lemma costs_attempt {A} k (f : unit -> CM epo A) :
  1 <= k -> costs 0 (f tt) -> costs k (u ← cmodify (fun s => s ⟨ counter $= fun n => n + 1 ⟩); f u).
Proof.
  intros Hk Hf s b Hs Hc Hb. apply wp_bind, wp_modify.
  eapply wp_mono; [apply (Hf _ (b + 1)); [epo_ok|cbn; lia|lia]|]. cbn beta. intuition lia.
Qed.

(** Step through a computation; only the key's text and the last failed attempt
    count. *)
Ltac costs :=
  repeat first
    [ progress auto with epo_ok
    | apply (costs_mono 0); [solve [auto with epo_ok]|lia]
    | apply costs_with_key; [lia|done || lia|intros ?]
    | apply costs_attempt; [lia|]
    | apply costs_bind_r; [lia| |intros ?]
    | apply costs_if
    | apply costs_when; [lia|]
    | costs_modify
    | match goal with |- costs _ (match ?x with _ => _ end) => destruct x end ].

Section Thread.
Context `{TimeZone}.
Variable getEpoUrl : string -> list Z -> option (list Z).
Variable server : nat -> list Z -> dl_answer.
Variable daemon_send : list Z -> Z.

Lemma costs_curl url name : costs 0 (curl_easy_download server url name).
Proof. unfold curl_easy_download, writable, put_file. costs. Qed.

(** [m] only returns values in [R]. *)
Definition returns {A} (R : A -> Prop) (m : CM epo A) : Prop :=
  forall s x s', m s = Some (x, s') -> R x.

Lemma returns_bind {A B} R (m : CM epo A) (f : A -> CM epo B) :
  (forall x, returns R (f x)) -> returns R (x ← m; f x).
Proof. intros Hf s x s' E. unfold mbind, cm_bind in E. destruct (m s) as [[]|]; [by eapply Hf|done]. Qed.

Lemma returns_ret {A} (R : A -> Prop) x : R x -> returns R (mret x).
Proof. intros HR s y s' E. by injection E as <- <-. Qed.

Lemma costs_bind_returns {A B} R k1 k2 (m : CM epo A) (f : A -> CM epo B) :
  0 <= k2 -> costs k1 m -> returns R m -> (forall x, R x -> costs k2 (f x)) -> costs (k1 + k2) (x ← m; f x).
Proof.
  intros H2 Hm HR Hf s b Hs Hc Hb. apply wp_bind.
  destruct (wp_Some _ _ _ (Hm s b Hs Hc ltac:(lia))) as (x & s' & E & Hs' & Hc').
  eapply wp_eq; [exact E|]. eapply wp_mono; [apply (Hf x (HR _ _ _ E) s' (b + k1)); (done || lia)|].
  cbn beta. intros _ s'' [? ?]. split; [done|lia].
Qed.

Definition short_key (k : option (list Z)) : Prop := (length (default [] k) <= 16)%nat.

#[local] Hint Resolve costs_curl : epo_ok.

Lemma costs_download_md : costs 1 (download_md getEpoUrl server).
Proof.
  unfold download_md, open_read, unlink. costs.
Qed.

Lemma returns_download_md : returns short_key (download_md getEpoUrl server).
Proof.
  unfold download_md, short_key. apply returns_bind; intros md. apply returns_bind; intros t.
  destruct (getEpoUrl md t); [|by apply returns_ret; cbn; lia].
  apply returns_bind; intros res. destruct (res =? 0).
  - do 3 (apply returns_bind; intros ?). apply returns_ret. cbn. case_match; [apply length_md_key|done].
  - apply returns_bind; intros _. by apply returns_ret.
Qed.

Lemma costs_merge_piece name : costs 0 (merge_piece name).
Proof. unfold merge_piece, writable, open_read, append_file, unlink. costs. Qed.

Lemma costs_download_epo : costs 2 (curl_easy_download_epo getEpoUrl server).
Proof.
  apply (costs_bind_returns short_key 1 1);
    [lia|apply costs_download_md|apply returns_download_md|intros [key|] Hkey]; [|costs].
  costs.
Qed.

Lemma costs_update_hal : costs 2 (mtk_gps_epo_file_update_hal getEpoUrl server).
Proof.
  apply (costs_bind 2 0); [lia|apply costs_download_epo|intros res]. costs.
Qed.

(** The names of a piece exist for every count. *)
Lemma costs_set_file_name n : costs 0 (set_file_name n).
Proof.
  apply costs_modify; intros s Hs; destruct (gps_download_epo_file_name _ _ _); [epo_ok|cbn; lia].
Qed.
#[local] Hint Resolve costs_set_file_name : epo_ok.

Lemma costs_piece_time time : costs 0 (piece_time time).
Proof. unfold piece_time. costs. Qed.
#[local] Hint Resolve costs_piece_time : epo_ok.

Lemma costs_unlink_down n : costs 0 (unlink_pieces_down n).
Proof. induction n; cbn [unlink_pieces_down]; unfold unlink; costs. Qed.

Lemma costs_unlink_pieces n : forall i, costs 0 (unlink_pieces i n).
Proof. induction n; intros i; cbn [unlink_pieces]; unfold unlink; costs. Qed.
#[local] Hint Resolve costs_unlink_down costs_unlink_pieces : epo_ok.

Lemma costs_is_changed : costs 0 mtk_gps_epo_server_data_is_changed.
Proof. unfold mtk_gps_epo_server_data_is_changed, unlink. costs. Qed.

Lemma costs_send_update : costs 0 (send_update daemon_send).
Proof.
  intros s b Hs Hc _. unfold send_update. apply wp_bind. change (msg_init 1024) with (msg_of 1024 []).
  eapply wp_lift; [apply buff_put_int_of; cbn; lia|]. apply wp_bind, wp_modify, wp_ret.
  split; [epo_ok|cbn; lia].
Qed.
#[local] Hint Resolve costs_send_update costs_is_changed : epo_ok.

(** Unlinking pieces changes files and names only. *)
Lemma wp_unlink_pieces_any n : forall i s (Q : unit -> epo -> Prop),
  (forall f d m, Q tt (s ⟨ files := f ⟩ ⟨ gps_epo_file_name := d ⟩ ⟨ gps_epo_md_file_name := m ⟩)) ->
  wp (unlink_pieces i n) Q s.
Proof.
  induction n as [|n IH]; intros i s Q HQ; cbn [unlink_pieces].
  - apply wp_ret. specialize (HQ (files s) (gps_epo_file_name s) (gps_epo_md_file_name s)). by destruct s.
  - unfold set_file_name, unlink. apply wp_bind, wp_modify.
    destruct (gps_download_epo_file_name _ _ _) as [d m]. apply wp_bind, wp_gets, wp_bind, wp_modify.
    apply IH. intros f d' m'. apply HQ.
Qed.

(** The end of a download, whatever the count of pieces. *)
Lemma costs_complete n r s c b :
  epo_ok s -> 1 <= counter s <= b -> b <= 10000 ->
  wp (download_complete daemon_send n r) (fun _ s' => epo_ok s' /\ 1 <= counter s' <= b)
     (s ⟨ gps_epo_file_count := c ⟩).
Proof.
  intros Hs Hc Hb. unfold download_complete. apply wp_bind, wp_unlink_pieces_any. intros f d m.
  apply wp_bind, wp_modify. replace b with (b + 0) by lia.
  match goal with |- wp ?k _ ?s1 => enough (costs 0 k) as Hk by (apply Hk; [epo_ok|cbn; lia|lia]) end.
  unfold unlink. costs.
Qed.

Lemma costs_file_update : costs 2 (mtk_gps_epo_file_update getEpoUrl server daemon_send).
Proof.
  apply (costs_bind 2 0); [lia|apply costs_update_hal|intros ret]. apply costs_if; [costs|].
  apply costs_bind_r; [lia|costs|intros ch]. apply costs_if; [costs|].
  intros s b Hs Hc Hb. apply wp_bind, wp_modify, wp_bind, wp_gets, wp_bind, wp_gets.
  cbn [gps_epo_file_count conf field_update]. rewrite Z.add_0_r in *. pose proof (ok_count s Hs).
  apply wp_if; intros Hn.
  - apply wp_ret. split; [|cbn; lia]. destruct (Z.ltb_spec (gps_epo_file_count s + 1) 10); [epo_ok|done].
  - change (field_update _ s) with (s ⟨ gps_epo_file_count := gps_epo_file_count s + 1 ⟩).
    by apply costs_complete.
Qed.

Lemma costs_step_download : costs 2 (step_download getEpoUrl server daemon_send).
Proof.
  apply costs_bind_r; [lia|costs|intros u]. apply costs_when; [lia|].
  do 3 (apply costs_bind_r; [lia|costs|intros ?]).
  apply (costs_bind 2 0); [lia|apply costs_file_update|intros ret]. costs.
Qed.

Lemma costs_bookkeeping n : 0 <= n < 10 -> costs 0 (retry_bookkeeping n).
Proof.
  intros Hn s b Hs Hc Hb. rewrite Z.add_0_r in *. unfold retry_bookkeeping.
  apply wp_bind, wp_gets, wp_when; [|intros _; done]. intros ->%Z.eqb_eq.
  apply wp_bind, wp_gets, wp_bind. pose proof (ok_time s Hs).
  eapply (wp_mono _ (fun _ s' => exists r k, s' = s ⟨ file_retrying := r ⟩ ⟨ retry_time := k ⟩
    /\ (0 <= r < 10 \/ r = 50) /\ 0 <= k)).
  { apply wp_if; intros _; apply wp_modify.
    - exists (file_retrying s), (retry_time s + 1). split; [by destruct s|]. split; [apply Hs|lia].
    - eexists _, _. split; [reflexivity|]. split; [left|]; lia. }
  cbn beta. intros _ ? (r & k & -> & Hr & Hk). apply wp_bind, wp_gets. cbn [retry_time field_update].
  apply wp_if; intros Hk10; apply wp_modify; (split; [|cbn; lia]); [|epo_ok].
  apply Z.ltb_lt in Hk10. epo_ok.
Qed.

(** A value read from a well-formed state. *)
Lemma costs_read {A B} k (g : epo -> A) (f : A -> CM epo B) :
  (forall s, epo_ok s -> costs k (f (g s))) -> costs k (x ← cgets g; f x).
Proof. intros Hf s b Hs Hc Hb. apply wp_bind, wp_gets. by apply Hf. Qed.

Lemma costs_step_retry now : costs 2 (step_retry getEpoUrl server daemon_send now).
Proof.
  apply costs_read; intros s Hs. apply costs_when; [lia|]. pose proof (ok_count s Hs) as Hn.
  apply costs_bind_r; [lia| |intros _].
  { apply costs_when; [lia|]. apply costs_modify; [intros s' Hs'; epo_ok|intros; cbn; lia]. }
  apply (costs_bind 2 0); [lia| |intros _; by apply costs_bookkeeping].
  apply costs_if; [unfold unlink; costs|]. apply costs_bind_r; [lia|costs|intros _].
  apply (costs_bind 2 0); [lia|apply costs_file_update|intros ret]. costs.
Qed.

Lemma costs_step_wifi now : costs 0 (step_wifi now).
Proof. unfold step_wifi, gps_download_epo, unlink. costs. Qed.

Lemma settings_read conf_file c :
  (forall text, conf_file = Some text -> Forall is_byte text) ->
  exists r c', gps_download_epo_enable conf_file c = Some (r, c') /\ (conf_ok c -> conf_ok c').
Proof. destruct conf_file as [text|]; intros Hf; [by apply conf_total, Hf|]. by exists 1, c. Qed.

(** One round: four attempts at most. *)
Lemma costs_round now conf_file :
  (forall c, conf_file = Some c -> Forall is_byte c) ->
  costs 4 (epo_thread_round getEpoUrl server daemon_send now conf_file).
Proof.
  intros Hf s b Hs Hc Hb. unfold epo_thread_round. apply wp_bind, wp_gets, wp_bind.
  destruct (settings_read conf_file (conf s) Hf) as (r & c & Hr & Hok).
  eapply wp_lift; [exact Hr|]. cbn [fst snd]. apply wp_bind, wp_modify.
  assert (conf_ok c) as Hc' by apply Hok, Hs.
  match goal with |- wp ?k _ ?s1 => enough (costs 4 k) as Hk by (apply Hk; [epo_ok|cbn; lia|lia]) end.
  apply (costs_bind 2 2); [lia|apply costs_step_download|intros _].
  apply (costs_bind 2 0); [lia|apply costs_step_retry|intros _].
  apply costs_bind_r; [lia|apply costs_step_wifi|intros _]. costs.
Qed.

(** ** The retry flag and the alarms *)

(** Only the bookkeeping of retries touches them. *)
Definition retry_part (s : epo) : Z * list Z := (epo_download_retry s, alarms s).

Notation quiet m := (preserves retry_part m).

Lemma quiet_set_file_name n : quiet (set_file_name n).
Proof. apply preserves_modify. intros s. by destruct (gps_download_epo_file_name _ _ _). Qed.

Lemma quiet_unlink name : quiet (unlink name).
Proof. unfold unlink. preserves. Qed.

Lemma quiet_key key : quiet (key_with_counter key).
Proof. unfold key_with_counter. preserves. Qed.

Lemma quiet_curl url name : quiet (curl_easy_download server url name).
Proof. unfold curl_easy_download, writable, put_file. preserves. Qed.

#[local] Hint Resolve quiet_set_file_name quiet_unlink quiet_key quiet_curl : preserves.

Lemma quiet_download_epo : quiet (curl_easy_download_epo getEpoUrl server).
Proof.
  unfold curl_easy_download_epo, download_md, merge_piece, open_read, writable, append_file. preserves.
Qed.

Lemma quiet_piece_time time : quiet (piece_time time).
Proof. unfold piece_time. preserves. Qed.

Lemma quiet_unlink_down n : quiet (unlink_pieces_down n).
Proof. induction n; cbn [unlink_pieces_down]; preserves. Qed.

Lemma quiet_unlink_pieces n : forall i, quiet (unlink_pieces i n).
Proof. induction n; intros i; cbn [unlink_pieces]; preserves. Qed.

#[local] Hint Resolve quiet_download_epo quiet_piece_time quiet_unlink_down quiet_unlink_pieces : preserves.

Lemma quiet_file_update : quiet (mtk_gps_epo_file_update getEpoUrl server daemon_send).
Proof.
  unfold mtk_gps_epo_file_update, mtk_gps_epo_file_update_hal, mtk_gps_epo_server_data_is_changed,
    download_complete, send_update. preserves.
Qed.
#[local] Hint Resolve quiet_file_update : preserves.

(** What a round does to them: nothing, or the flag is cleared and one alarm
    of 15 seconds is asked for. *)
Definition asks (s s' : epo) : Prop :=
  retry_part s' = retry_part s
  \/ (truthy (epo_download_retry s) = true /\ epo_download_retry s' = 0 /\ alarms s' = alarms s ++ [15]).

Lemma asks_bookkeeping n s x s' :
  truthy (epo_download_retry s) = true -> retry_bookkeeping n s = Some (x, s') -> asks s s'.
Proof.
  intros Ht. unfold retry_bookkeeping, asks, retry_part. intros E.
  assert (wp (retry_bookkeeping n) (fun _ s' => asks s s') s) as Hw.
  { unfold retry_bookkeeping. apply wp_bind, wp_gets, wp_when; intros _; [|by left].
    apply wp_bind, wp_gets, wp_bind.
    eapply (wp_mono _ (fun _ s' => retry_part s' = retry_part s)); [apply wp_if; intros _; by apply wp_modify|].
    cbn beta. intros _ s1 Hs1. apply wp_bind, wp_gets, wp_if; intros _; apply wp_modify; [right|by left].
    injection Hs1 as Hs1 Hs2. cbn. by rewrite Hs2. }
  unfold wp in Hw. unfold retry_bookkeeping in Hw. by rewrite E in Hw.
Qed.

Lemma asks_quiet_l {A B} (m : CM epo A) (k : A -> CM epo B) s x s' :
  quiet m -> (forall y s1, m s = Some (y, s1) -> retry_part s1 = retry_part s -> k y s1 = Some (x, s') -> asks s1 s') ->
  (y ← m; k y) s = Some (x, s') -> asks s s'.
Proof.
  intros Hm Hk (y & s1 & E1 & E2)%bind_inv. pose proof (Hm _ _ _ E1) as Hq.
  specialize (Hk y s1 E1 Hq E2). unfold asks in *. rewrite Hq in Hk.
  unfold retry_part in Hq. injection Hq as Hq1 Hq2. by rewrite Hq1, Hq2 in Hk.
Qed.

Lemma asks_quiet_r {A B} (m : CM epo A) (k : A -> CM epo B) s x s' :
  (forall y s1, m s = Some (y, s1) -> asks s s1) -> (forall y, quiet (k y)) ->
  (y ← m; k y) s = Some (x, s') -> asks s s'.
Proof.
  intros Hm Hk (y & s1 & E1 & E2)%bind_inv. apply Hk in E2. specialize (Hm _ _ E1). unfold asks in *.
  rewrite E2. unfold retry_part in E2. injection E2 as -> ->. done.
Qed.

Lemma asks_step_retry now s x s' :
  step_retry getEpoUrl server daemon_send now s = Some (x, s') -> asks s s'.
Proof.
  unfold step_retry. rewrite run_gets. cbn [id]. destruct (_ && _) eqn:Hg; cbn [cwhen]; [|intros [= _ <-]; by left].
  rewrite !andb_true_iff in Hg. destruct Hg as (_ & _ & Ht).
  apply asks_quiet_l; [preserves|]. intros _ s1 _ Hr1. apply asks_quiet_l; [unfold unlink; preserves|].
  intros _ s2 _ Hr2. apply asks_bookkeeping. injection Hr1 as Hr1 _. injection Hr2 as Hr2 _. by rewrite Hr2, Hr1.
Qed.

Lemma asks_round now conf_file s x s' :
  epo_thread_round getEpoUrl server daemon_send now conf_file s = Some (x, s') -> asks s s'.
Proof.
  unfold epo_thread_round. apply asks_quiet_l; [preserves|]. intros c s1 _ _.
  apply asks_quiet_l; [preserves|]. intros [r c'] s2 _ _. apply asks_quiet_l; [preserves|]. intros _ s3 _ _.
  apply asks_quiet_l; [unfold step_download; preserves|]. intros _ s4 _ _.
  apply asks_quiet_r; [intros ? ?; apply asks_step_retry|].
  intros _. unfold step_wifi, gps_download_epo, unlink. preserves.
Qed.
End Thread.

(** ** A round is safe *)

Lemma round_delay `{TimeZone} getEpoUrl server daemon_send now conf_file s x s' :
  epo_thread_round getEpoUrl server daemon_send now conf_file s = Some (x, s') ->
  x = if (epo_data_updated s' =? 0) && (epo_download_failed s' =? 0) then 2000 else 100.
Proof.
  unfold epo_thread_round. intros (c & s1 & _ & E)%bind_inv. apply bind_inv in E as ([r c'] & s2 & _ & E).
  do 4 apply bind_inv in E as (? & ? & _ & E). by injection E as <- <-.
Qed.

(** C34 (type): the download's state is well formed for ever.  For every server,
    every content and refusal of the files and every text of the settings, a
    round of the EPO thread from a well-formed state (the flags are 0 or 1, the
    count is one of ten pieces, the settings are legal, fewer than ten retries)
    in which the counter of failed attempts is at most 9996 runs without
    undefined behaviour, raises the counter by at most four and ends in a
    well-formed state.  The counter starts at 1 and goes up with every failed
    request, so that this is at most 9995 of them in a row; from 9997 on the
    four requests of a round can bring it to five digits, which are written past
    the array.  The round asks for at most one retry alarm, exactly when it clears the
    retry flag, and sleeps long exactly when nothing is to be done. *)
Theorem epo_round_well_formed `{TimeZone} getEpoUrl server daemon_send now conf_file s :
  (forall c, conf_file = Some c -> Forall is_byte c) ->
  epo_ok s -> 1 <= counter s <= 9996 ->
  exists delay s', epo_thread_round getEpoUrl server daemon_send now conf_file s = Some (delay, s')
  /\ epo_ok s' /\ 1 <= counter s' <= counter s + 4 /\ asks s s'
  /\ delay = if (epo_data_updated s' =? 0) && (epo_download_failed s' =? 0) then 2000 else 100.
Proof.
  intros Hf Hs Hc.
  destruct (wp_Some _ _ _ (costs_round getEpoUrl server daemon_send now conf_file Hf s (counter s) Hs
    ltac:(lia) ltac:(lia))) as (delay & s' & E & Hs' & Hc').
  exists delay, s'. split; [done|]. split; [done|]. split; [done|].
  split; [by eapply asks_round|by eapply round_delay].
Qed.

(** A server that cannot be reached, while the first piece is to be had. *)
Definition lost_server (_ : nat) (_ : list Z) : dl_answer := DlDone 6 [].

Definition requested : epo :=
  epo_boot ⟨ conf := default_conf ⟩ ⟨ epo_data_updated := 1 ⟩ ⟨ started := 1 ⟩ ⟨ nw_connected := 1 ⟩.

Lemma epo_round_well_formed_witness :
  let tz := fixed_zone 28800 in
  exists delay s', @epo_thread_round tz sample_url lost_server (fun _ => 0) 1500000000 (Some sample_conf) requested
    = Some (delay, s')
  /\ epo_ok s' /\ 1 <= counter s' <= 1 + 4 /\ asks requested s'
  /\ delay = if (epo_data_updated s' =? 0) && (epo_download_failed s' =? 0) then 2000 else 100.
Proof.
  intros tz. apply (@epo_round_well_formed tz sample_url lost_server (fun _ => 0) 1500000000 (Some sample_conf) requested).
  - intros c [= <-]. by_decide.
  - split; (by_decide || (vm_compute; intuition discriminate) || (vm_compute; by right)).
  - vm_compute. split; discriminate.
Defined.
