(* ===== verification/EpoRetry.v ===== *)
(** * Retrying a download (gps_mtk_aosp.c: set_retry_alarm_handler,
      retry_alarm_handler, mtk_gps_epo_interface_init)

    The EPO thread of EpoDownload.v composed with the POSIX timer it sets: a
    failed piece is taken up again when the alarm has expired.  The timers that
    exist, each with the seconds until it expires if it is armed, are the
    kernel's state; whether a timer can be had is an answer of the kernel. *)

From stdpp Require Import gmap.
From S2P Require Import Prelude NmeaToken Calendar EpoTime EpoConf HalBuff EpoDownload EpoThread.
#[local] Open Scope Z_scope.

(** ** Timers *)

Record timers := MkTimerState {
  existing : gmap Z (option Z);      (* armed for so many seconds *)
  timer_fd : Z;                      (* retry_timer.fd *)
}.

#[export] Instance timers_rebuild : Rebuild timers := fun r => MkTimerState (existing r) (timer_fd r).

Definition C_INVALID_TIMER : Z := -1.

(** The kernel's identifier for a new timer: not in use, and not the invalid
    one. *)
Class TimerKernel := new_timer : gmap Z (option Z) -> Z.
Class TimerLaws `{TimerKernel} : Prop := {
  new_timer_fresh m : m !! new_timer m = None;
  new_timer_valid m : new_timer m <> C_INVALID_TIMER;
}.

(** A kernel that counts. *)
Definition next_id (m : gmap Z (option Z)) : Z := foldr Z.max 0 (map_to_list m).*1 + 1.

Lemma next_id_above m i : is_Some (m !! i) -> i < next_id m.
Proof.
  intros [x Hx]. apply elem_of_map_to_list in Hx. unfold next_id.
  assert (i ∈ (map_to_list m).*1) as Hi by (apply list_elem_of_fmap; by exists (i, x)).
  induction (map_to_list m).*1 as [|j l IH]; [by apply elem_of_nil in Hi|].
  cbn [foldr]. apply elem_of_cons in Hi as [<-|Hi]; [lia|]. specialize (IH Hi). lia.
Qed.

#[export] Instance counting_timers : TimerKernel := next_id.
#[export] Instance counting_timers_laws : @TimerLaws counting_timers.
Proof.
  split; intros m; unfold new_timer, counting_timers.
  - destruct (m !! next_id m) eqn:E; [|done]. pose proof (next_id_above m (next_id m) ltac:(by rewrite E)). lia.
  - unfold next_id, C_INVALID_TIMER. assert (0 <= foldr Z.max 0 (map_to_list m).*1); [|lia].
    induction (map_to_list m).*1; cbn [foldr]; lia.
Qed.

(** Whether timer_create and timer_settime succeed. *)
Record timer_answers := MkAnswers { create_ok : bool; settime_ok : bool }.

Section Timers.
Context `{TimerKernel}.

(** [true]: success. *)
Definition timer_delete (id : Z) : CM timers bool :=
  t ← cgets existing;
  match t !! id with
  | None => mret false
  | Some _ => _ ← cmodify (fun s => s ⟨ existing $= delete id ⟩); mret true
  end.

Definition timer_create (ok : bool) : CM timers bool :=
  if ok then
    t ← cgets existing;
    _ ← cmodify (fun s => s ⟨ existing := <[new_timer t := None]> t ⟩ ⟨ timer_fd := new_timer t ⟩);
    mret true
  else mret false.

(** Zero seconds disarm; the interval is zero, so the alarm expires once. *)
Definition timer_settime (ok : bool) (id sec : Z) : CM timers bool :=
  t ← cgets existing;
  match t !! id with
  | Some _ =>
      if ok then
        _ ← cmodify (fun s => s ⟨ existing $= <[id := if sec =? 0 then None else Some sec]> ⟩);
        mret true
      else mret false
  | None => mret false
  end.

Definition set_retry_alarm_handler (a : timer_answers) (timeout : Z) : CM timers Z :=
  old ← cgets timer_fd;
  gone ← (if negb (old =? C_INVALID_TIMER) then
            ok ← timer_delete old;
            _ ← cwhen ok (cmodify (fun s => s ⟨ timer_fd := C_INVALID_TIMER ⟩));
            mret ok
          else mret true);
  if negb gone then mret (-1)
  else
    cur ← cgets timer_fd;
    created ← (if cur =? C_INVALID_TIMER then timer_create (create_ok a) else mret true);
    if negb created then mret (-1)
    else
      id ← cgets timer_fd;
      set ← timer_settime (settime_ok a) id timeout;
      mret (if (set : bool) then 0 else -1).
End Timers.

(** ** The thread and its timer *)

Record downloader := MkDownloader { thread : epo; tm : timers }.

#[export] Instance downloader_rebuild : Rebuild downloader := fun r => MkDownloader (thread r) (tm r).

(** What happens: a round of the thread, with the time, the settings' text and
    the kernel's answers; an alarm expires; the framework initialises the
    interface again. *)
Inductive action :=
| Round (now : Z) (conf_file : option (list Z)) (a : timer_answers)
| Expire (id : Z)
| InterfaceInit.

(** retry_alarm_handler *)
Definition retry_alarm_handler : CM downloader unit :=
  cmodify (fun w => w ⟨ thread := (thread w) ⟨ epo_download_retry := 1 ⟩ ⟩).

(** mtk_gps_epo_interface_init: the timer is forgotten. *)
Definition forget_timer : CM downloader unit :=
  cmodify (fun w => w ⟨ tm := (tm w) ⟨ timer_fd := C_INVALID_TIMER ⟩ ⟩).

Section Retry.
Context `{TimeZone, TimerKernel}.
Variable getEpoUrl : string -> list Z -> option (list Z).
Variable server : nat -> list Z -> dl_answer.
Variable daemon_send : list Z -> Z.

Notation epo_thread_round := (epo_thread_round getEpoUrl server daemon_send).

(** The alarms that a round asked for; the result is ignored. *)
Fixpoint set_alarms (a : timer_answers) (l : list Z) : CM downloader unit :=
  match l with
  | [] => mret tt
  | timeout :: l' =>
      _ ← on_part tm (fun t w => w ⟨ tm := t ⟩) (set_retry_alarm_handler a timeout);
      set_alarms a l'
  end.

Definition perform (x : action) : CM downloader unit :=
  match x with
  | Round now conf_file a =>
      before ← cgets (fun w => alarms (thread w));
      _ ← on_part thread (fun e w => w ⟨ thread := e ⟩) (epo_thread_round now conf_file);
      after ← cgets (fun w => alarms (thread w));
      set_alarms a (drop (length before) after)
  | Expire id =>
      t ← cgets (fun w => existing (tm w));
      match t !! id with
      | Some (Some _) =>
          _ ← cmodify (fun w => w ⟨ tm := (tm w) ⟨ existing $= <[id := None]> ⟩ ⟩);
          retry_alarm_handler
      | _ => mret tt
      end
  | InterfaceInit => forget_timer
  end.
End Retry.

(** ** Setting an alarm *)

Record timers_ok (t : timers) : Prop := {
  to_invalid : existing t !! C_INVALID_TIMER = None;
  to_fd : timer_fd t = C_INVALID_TIMER \/ is_Some (existing t !! timer_fd t);
}.

(** Run the steps of a computation whose state is known. *)
Ltac run_cm :=
  cbv [mbind cm_bind cgets cmodify mret cm_ret cwhen field_update];
  cbn [existing timer_fd thread tm field_update negb create_ok settime_ok andb].

(** The timers after set_retry_alarm_handler: the old one is gone, and there is
    a new one unless it could not be created, armed unless that failed. *)
Definition alarm_set `{TimerKernel} (a : timer_answers) (sec : Z) (t : timers) : timers :=
  let m := delete (timer_fd t) (existing t) in
  if create_ok a then
    MkTimerState (<[new_timer m := if settime_ok a then Some sec else None]> m) (new_timer m)
  else MkTimerState m C_INVALID_TIMER.

Lemma set_alarm_spec `{TimerLaws} a sec t :
  timers_ok t -> sec <> 0 ->
  set_retry_alarm_handler a sec t
  = Some (if create_ok a && settime_ok a then 0 else -1, alarm_set a sec t).
Proof.
  intros [Hi Hf] Hs. unfold set_retry_alarm_handler, alarm_set, timer_delete. rewrite run_gets.
  set (m := delete (timer_fd t) (existing t)).
  rewrite (run_bind _ _ _ true (MkTimerState m C_INVALID_TIMER)).
  - cbn [negb]. rewrite run_gets. cbn [timer_fd]. rewrite Z.eqb_refl. unfold timer_create, timer_settime.
    destruct (create_ok a); [|reflexivity]. apply Z.eqb_neq in Hs as ->. run_cm.
    rewrite lookup_insert_eq. destruct (settime_ok a); run_cm; [by rewrite insert_insert_eq|done].
  - destruct (Z.eqb_spec (timer_fd t) C_INVALID_TIMER) as [E|E]; run_cm.
    + subst m. rewrite E, delete_id by done. by destruct t; cbn in *; subst.
    + destruct Hf as [|[x Hx]]; [done|]. by rewrite Hx.
Qed.

Lemma timers_ok_set `{TimerLaws} a sec t : timers_ok t -> timers_ok (alarm_set a sec t).
Proof.
  intros [Hi Hf]. unfold alarm_set.
  assert (delete (timer_fd t) (existing t) !! C_INVALID_TIMER = None) as Hd by (by apply lookup_delete_None; right).
  destruct (create_ok a); split; cbn; auto.
  - rewrite lookup_insert_ne; [done|apply new_timer_valid].
  - right. rewrite lookup_insert_eq. eauto.
Qed.

Lemma timers_ok_expire id t : is_Some (existing t !! id) ->
  timers_ok t -> timers_ok (t ⟨ existing $= <[id := None]> ⟩).
Proof.
  intros [x Hx] [Hi Hf]. split; cbn.
  - rewrite lookup_insert_ne; [done|]. intros ->. congruence.
  - destruct Hf as [|Hf]; [by left|right]. destruct (decide (id = timer_fd t)) as [->|].
    + rewrite lookup_insert_eq. eauto.
    + by rewrite lookup_insert_ne.
Qed.

(** ** Runs *)

Section Runs.
Context `{TimeZone} `{HL : TimerLaws}.
Variable getEpoUrl : string -> list Z -> option (list Z).
Variable server : nat -> list Z -> dl_answer.
Variable daemon_send : list Z -> Z.

Notation epo_thread_round := (epo_thread_round getEpoUrl server daemon_send).
Notation perform := (perform getEpoUrl server daemon_send).

(** A round, and what becomes of the timer if it asks for an alarm. *)
Inductive round_result (a : timer_answers) (w w' : downloader) : Prop :=
| quiet_round :
    retry_part (thread w') = retry_part (thread w) -> tm w' = tm w -> round_result a w w'
| alarm_round :
    truthy (epo_download_retry (thread w)) = true -> epo_download_retry (thread w') = 0 ->
    tm w' = alarm_set a 15 (tm w) -> round_result a w w'.

Lemma perform_round now conf_file a w delay e :
  timers_ok (tm w) -> epo_thread_round now conf_file (thread w) = Some (delay, e) ->
  exists w', perform (Round now conf_file a) w = Some (tt, w') /\ thread w' = e /\ round_result a w w'.
Proof using HL.
  intros Ht E. cbn [EpoRetry.perform]. rewrite run_gets.
  rewrite (run_bind _ _ _ delay (w ⟨ thread := e ⟩)) by (unfold on_part; by rewrite E).
  rewrite run_gets. cbn [thread field_update].
  destruct (asks_round _ _ _ _ _ _ _ _ E) as [Hq|(Hr & Hr' & Ha)].
  - eexists. unfold retry_part in Hq. injection Hq as Hq1 Hq2.
    rewrite Hq2, drop_all. split; [reflexivity|]. split; [done|]. apply quiet_round; [|done].
    cbn. unfold retry_part. by rewrite Hq1, Hq2.
  - rewrite Ha, drop_app_length. cbn [set_alarms]. eexists.
    rewrite (run_bind _ _ _ (if create_ok a && settime_ok a then 0 else -1)
      (w ⟨ thread := e ⟩ ⟨ tm := alarm_set a 15 (tm w) ⟩)).
    + split; [reflexivity|]. split; [done|]. by apply alarm_round.
    + unfold on_part. cbn [tm field_update]. by rewrite (set_alarm_spec a 15 (tm w) Ht).
Qed.

Lemma perform_round_inv now conf_file a w x w' :
  timers_ok (tm w) -> perform (Round now conf_file a) w = Some (x, w') -> round_result a w w'.
Proof using HL.
  intros Ht E. pose proof E as (d & w1 & E1 & E2)%bind_inv. injection E1 as <- <-.
  apply bind_inv in E2 as (delay & w2 & E2 & _). unfold on_part in E2.
  destruct (epo_thread_round now conf_file (thread w)) as [[y e]|] eqn:Er; [|done].
  destruct (perform_round now conf_file a w y e Ht Er) as (w3 & E3 & _ & Hr).
  rewrite E3 in E. by injection E as _ <-.
Qed.

(** What the other threads of the HAL do to the download's state: anything but
    setting the retry flag or the record of alarms. *)
Inductive moves (ok : action -> Prop) : downloader -> downloader -> Prop :=
| moves_action x w w' : ok x -> x <> InterfaceInit -> perform x w = Some (tt, w') -> moves ok w w'
| moves_others w e : retry_part e = retry_part (thread w) -> moves ok w (w ⟨ thread := e ⟩).

(** Reached after [n] initialisations, with the kernel's answers in [ok]. *)
Inductive reachable (ok : action -> Prop) : nat -> downloader -> Prop :=
| reach_init e : epo_download_retry e = 1 -> reachable ok 1 (MkDownloader e (MkTimerState ∅ C_INVALID_TIMER))
| reach_step n w w' : reachable ok n w -> moves ok w w' -> reachable ok n w'
| reach_again n w w' : reachable ok n w -> perform InterfaceInit w = Some (tt, w') -> reachable ok (S n) w'.

(** An alarm that will set the retry flag. *)
Definition pending (w : downloader) : Prop := exists id sec, existing (tm w) !! id = Some (Some sec).

(** The timers that exist: the library's own, and one forgotten in every further
    initialisation. *)
Definition timers_bound (n : nat) (t : timers) : Prop :=
  (size (existing t) + (if (timer_fd t =? C_INVALID_TIMER)%Z then 1 else 0) <= n)%nat.

Lemma bound_set a sec n t : timers_ok t -> timers_bound n t -> timers_bound n (alarm_set a sec t).
Proof using HL.
  intros [Hi Hf] Hb. unfold timers_bound, alarm_set in *.
  assert (size (delete (timer_fd t) (existing t)) + 1 <= n)%nat as Hd.
  { destruct (Z.eqb_spec (timer_fd t) C_INVALID_TIMER) as [E|E]; [by rewrite E, delete_id|].
    destruct Hf as [|[x Hx]]; [done|]. rewrite map_size_delete, Hx.
    assert (size (existing t) <> 0%nat) by (intros Hz; apply map_size_empty_inv in Hz; by rewrite Hz in Hx). lia. }
  destruct (create_ok a); cbn; [|done].
  rewrite map_size_insert, new_timer_fresh. destruct (Z.eqb_spec (new_timer (delete (timer_fd t) (existing t))) C_INVALID_TIMER) as [E|E]; [by destruct (new_timer_valid _ E)|lia].
Qed.

Record retry_inv (n : nat) (w : downloader) : Prop := {
  ri_ok : timers_ok (tm w);
  ri_bound : timers_bound n (tm w);
}.

Lemma retry_inv_step ok n w w' : moves ok w w' -> retry_inv n w -> retry_inv n w'.
Proof using HL.
  intros [x w1 w1' _ Hx E|w1 e _] [Hok Hb]; [|by split].
  destruct x as [now cf a|id|]; [| |done].
  - destruct (perform_round_inv _ _ _ _ _ _ Hok E) as [_ Ht|_ _ Ht]; split; rewrite Ht;
      auto using timers_ok_set, bound_set.
  - revert E. cbn [EpoRetry.perform]. rewrite run_gets.
    destruct (existing (tm w1) !! id) as [[sec|]|] eqn:Hid; intros [= <-]; [|by split..].
    split; cbn; [by apply timers_ok_expire; eauto|]. unfold timers_bound in *. cbn.
    by rewrite map_size_insert, Hid.
Qed.

Lemma retry_inv_reachable ok n w : reachable ok n w -> retry_inv n w.
Proof using HL.
  induction 1 as [e|n w w' _ IH Hs|n w w' _ [Hok Hb] E].
  - split; [split; [done|by left]|]. by vm_compute.
  - by eapply retry_inv_step.
  - injection E as <-. split; cbn; [split; [apply Hok|by left]|]. unfold timers_bound in *. cbn.
    destruct (timer_fd (tm w) =? C_INVALID_TIMER); lia.
Qed.

(** ** No retry is lost *)

Definition timers_work (x : action) : Prop :=
  match x with Round _ _ a => create_ok a = true /\ settime_ok a = true | _ => True end.

Definition retry_due (w : downloader) : Prop := epo_download_retry (thread w) = 1 \/ pending w.

Lemma due_step w w' : timers_ok (tm w) -> moves timers_work w w' -> retry_due w -> retry_due w'.
Proof using HL.
  intros Hok Hs. revert Hok. destruct Hs as [x w1 w1' Hw Hx E|w1 e He]; intros Hok Hd.
  - destruct x as [now cf a|id|]; [| |done].
    + destruct (perform_round_inv _ _ _ _ _ _ Hok E) as [Hq Ht|_ _ Ht].
      * unfold retry_due, pending. rewrite Ht. injection Hq as -> _. done.
      * right. unfold pending. rewrite Ht. unfold alarm_set. destruct Hw as [-> ->]. cbn.
        eexists _, 15. apply lookup_insert_eq.
    + revert E. cbn [EpoRetry.perform]. rewrite run_gets.
      destruct (existing (tm w1) !! id) as [[sec|]|]; intros [= <-]; [by left|done..].
  - unfold retry_due, pending in *. cbn. injection He as -> _. done.
Qed.
(** ** An alarm that could not be set *)

(** What can happen, initialisations included. *)
Definition evolves : downloader -> downloader -> Prop :=
  rtc (fun w w' => moves (fun _ => True) w w' \/ perform InterfaceInit w = Some (tt, w')).

Definition stuck (w : downloader) : Prop :=
  timers_ok (tm w) /\ epo_download_retry (thread w) = 0 /\ ~ pending w.

Lemma stuck_step ok w w' : moves ok w w' -> stuck w -> stuck w'.
Proof using HL.
  intros [x w1 w1' _ Hx E|w1 e He] (Hok & Hr & Hp).
  - destruct x as [now cf a|id|]; [| |done].
    + destruct (perform_round_inv _ _ _ _ _ _ Hok E) as [Hq Ht|Hq _ _]; [|by rewrite Hr in Hq].
      unfold stuck, pending. rewrite Ht. injection Hq as -> _. done.
    + revert E. cbn [EpoRetry.perform]. rewrite run_gets.
      destruct (existing (tm w1) !! id) as [[sec|]|] eqn:Hid; intros [= <-]; [|done..].
      destruct Hp. by exists id, sec.
  - unfold stuck, pending in *. cbn. injection He as -> _. done.
Qed.

Lemma stuck_evolves w w' : evolves w w' -> stuck w -> stuck w'.
Proof using HL.
  induction 1 as [|w w1 w' [Hs|E] _ IH]; [done|..]; intros Hw; apply IH.
  - by eapply stuck_step.
  - injection E as <-. destruct Hw as ([Hi _] & Hr & Hp). split; [|done]. split; [done|by left].
Qed.

(** With one timer at most, none is left armed by a failure. *)
Lemma failed_set a sec t :
  timers_ok t -> timers_bound 1 t -> create_ok a && settime_ok a = false ->
  forall id x, existing (alarm_set a sec t) !! id <> Some (Some x).
Proof using HL.
  intros Hok Hb Ha id x. pose proof (bound_set a sec 1 t Hok Hb) as Hb'.
  unfold timers_bound, alarm_set in *. destruct (create_ok a); cbn in *.
  - rewrite map_size_insert, new_timer_fresh in Hb'. subst.
    assert (delete (timer_fd t) (existing t) = ∅) as -> by (apply map_size_empty_inv; lia).
    rewrite Ha. destruct (decide (new_timer ∅ = id)) as [<-|]; [by rewrite lookup_insert_eq|by rewrite lookup_insert_ne].
  - assert (delete (timer_fd t) (existing t) = ∅) as -> by (apply map_size_empty_inv; lia). done.
Qed.

Lemma step_retry_idle now s :
  epo_download_retry s = 0 -> step_retry getEpoUrl server daemon_send now s = Some (tt, s).
Proof. intros Hr. unfold step_retry. rewrite run_gets. cbn [id]. by rewrite Hr, !andb_false_r. Qed.
End Runs.

(** C35 (invariant): no retry is lost.  If the kernel's timers work, then in
    every history of rounds, expiring alarms, further initialisations and
    whatever the other threads do to the download, either the thread may retry
    or an alarm is armed that lets it; and after [n] initialisations no more
    than [n] timers exist, the one of retry_timer.fd among them. *)
Theorem retry_never_lost `{TimeZone} `{TimerLaws} getEpoUrl server daemon_send n w :
  reachable getEpoUrl server daemon_send timers_work n w ->
  retry_due w /\ (size (existing (tm w)) <= n)%nat
  /\ (timer_fd (tm w) = C_INVALID_TIMER \/ is_Some (existing (tm w) !! timer_fd (tm w))).
Proof.
  intros Hr. pose proof (retry_inv_reachable _ _ _ _ _ _ Hr) as [Hok Hb].
  split; [|split; [unfold timers_bound in Hb; lia|apply Hok]]. clear Hok Hb.
  induction Hr as [e He|n w w' Hr IH Hs|n w w' _ IH E].
  - by left.
  - eapply due_step; [eapply retry_inv_reachable, Hr|exact Hs|exact IH].
  - by injection E as <-.
Qed.

(** A timer that cannot be had ends the retries for ever.  The
    result of set_retry_alarm_handler is ignored: when, in a history with one
    initialisation, a round clears the retry flag for an alarm that cannot be
    created or armed, then whatever happens afterwards, further rounds,
    initialisations and changes by other threads included, the flag stays 0 and
    the part of the thread that takes up a failed download does nothing. *)
Theorem lost_alarm_ends_retries `{TimeZone} `{TimerLaws} getEpoUrl server daemon_send ok w now cf a w1 w2 :
  reachable getEpoUrl server daemon_send ok 1 w ->
  create_ok a && settime_ok a = false ->
  perform getEpoUrl server daemon_send (Round now cf a) w = Some (tt, w1) ->
  retry_part (thread w1) <> retry_part (thread w) ->
  evolves getEpoUrl server daemon_send w1 w2 ->
  epo_download_retry (thread w2) = 0
  /\ forall now', step_retry getEpoUrl server daemon_send now' (thread w2) = Some (tt, thread w2).
Proof.
  intros Hr Ha E Hc He. pose proof (retry_inv_reachable _ _ _ _ _ _ Hr) as [Hok Hb].
  destruct (perform_round_inv _ _ _ _ _ _ _ _ _ Hok E) as [Hq _|_ Hf Ht]; [done|].
  assert (stuck w1) as Hs.
  { unfold stuck, pending. rewrite Ht. split; [by apply timers_ok_set|]. split; [done|].
    intros (id & sec & Hid). by eapply failed_set. }
  destruct (stuck_evolves _ _ _ _ _ He Hs) as (_ & Hz & _).
  split; [done|]. intros now'. by apply step_retry_idle.
Qed.

(** ** Examples: the first piece cannot be had *)

Definition started_up : downloader := MkDownloader requested (MkTimerState ∅ C_INVALID_TIMER).

Definition sample_round (a : timer_answers) : action := Round 1500000000 None a.

(** The state after an action that is defined. *)
Definition after (x : action) (w : downloader) : downloader :=
  match @perform (fixed_zone 28800) counting_timers sample_url lost_server (fun _ => 0) x w with
  | Some (_, w') => w'
  | None => w
  end.

Example round_asks :
  tm (after (sample_round (MkAnswers true true)) started_up) = MkTimerState {[ 1 := Some 15 ]} 1.
Proof. vm_compute. reflexivity. Qed.

Lemma retry_never_lost_witness :
  let w := after (sample_round (MkAnswers true true)) started_up in
  retry_due w /\ (size (existing (tm w)) <= 1)%nat
  /\ (timer_fd (tm w) = C_INVALID_TIMER \/ is_Some (existing (tm w) !! timer_fd (tm w))).
Proof.
  apply (@retry_never_lost (fixed_zone 28800) counting_timers counting_timers_laws sample_url lost_server (fun _ => 0)).
  apply (reach_step _ _ _ _ _ started_up).
  - apply reach_init. reflexivity.
  - apply (moves_action _ _ _ _ (sample_round (MkAnswers true true))); [by split|discriminate|vm_compute; reflexivity].
Defined.

Lemma lost_alarm_ends_retries_witness :
  let w := after (sample_round (MkAnswers false true)) started_up in
  epo_download_retry (thread w) = 0
  /\ forall now', @step_retry (fixed_zone 28800) sample_url lost_server (fun _ => 0) now' (thread w) = Some (tt, thread w).
Proof.
  apply (@lost_alarm_ends_retries (fixed_zone 28800) counting_timers counting_timers_laws sample_url lost_server
    (fun _ => 0) (fun _ => True) started_up 1500000000 None (MkAnswers false true)
    (after (sample_round (MkAnswers false true)) started_up)).
  - apply reach_init. reflexivity.
  - reflexivity.
  - vm_compute. reflexivity.
  - vm_compute. discriminate.
  - constructor.
Defined.
