(* ===== verification/EpoOutage.v ===== *)
(** * Downloads while the server cannot be reached (gps_mtk_aosp.c:
      thread_epo_file_update)

    The rounds of the EPO thread and the alarms of EpoRetry.v when every
    download fails.  With a current orbit file the thread gives up after ten
    attempts; without one it never does. *)

From stdpp Require Import gmap.
From S2P Require Import Prelude NmeaToken Calendar EpoTime EpoConf HalBuff EpoDownload EpoThread EpoRetry.
#[local] Open Scope Z_scope.

(** Compute an update of a state that is a record of variables. *)
Ltac epo_fields :=
  cbv [field_update files conf counter gps_epo_type gps_epo_file_count gps_epo_file_name gps_epo_md_file_name
    epo_data_updated epo_download_failed epo_download_retry started nw_connected nw_type file_retrying retry_time
    requests sent alarms].

(** ** A failed attempt *)

(** The orbit files are the same. *)
Definition same_orbits (f f' : fs) : Prop :=
  f' !! EPO_FILE_HAL = f !! EPO_FILE_HAL /\ f' !! EPO_FILE = f !! EPO_FILE.

#[export] Instance same_orbits_po : PreOrder same_orbits.
Proof. split; [done|]. intros f g h [H1 H2] [H3 H4]. split; congruence. Qed.

(** They are all that the time of an orbit file depends on. *)
Lemma file_time_same `{TimeZone} f f' t :
  same_orbits f f' -> mtk_gps_epo_file_time_hal f' t = mtk_gps_epo_file_time_hal f t.
Proof.
  intros [Hh He]. assert (epo_file f' = epo_file f) as Hf by (unfold epo_file, access_ok; by rewrite Hh, He).
  assert (forall n, epo_file f = Some n -> f' !! n = f !! n) as Hn.
  { unfold epo_file. intros n. repeat case_match; congruence. }
  unfold mtk_gps_epo_file_time_hal, mtk_gps_sys_epo_period_end, mtk_gps_sys_get_file_size. rewrite Hf.
  destruct (epo_file f) as [n|]; [|done]. by rewrite (Hn n).
Qed.

Lemma piece_names ty i : type_ok ty -> 0 <= i < 10 ->
  path (dname ty i) <> EPO_FILE_HAL /\ path (dname ty i) <> EPO_FILE
  /\ path (mname ty i) <> EPO_FILE_HAL /\ path (mname ty i) <> EPO_FILE.
Proof.
  intros Hty Hi.
  pose (P := fun ty i (_ : Z) => bool_decide (path (dname ty i) <> EPO_FILE_HAL
    /\ path (dname ty i) <> EPO_FILE /\ path (mname ty i) <> EPO_FILE_HAL /\ path (mname ty i) <> EPO_FILE)).
  apply (bool_decide_eq_true (path (dname ty i) <> EPO_FILE_HAL /\ _)).
  apply (names_enum P) with (j := 0); [vm_compute; reflexivity|done|done|lia].
Qed.

Lemma same_insert f n x : n <> EPO_FILE_HAL -> n <> EPO_FILE -> same_orbits f (<[n := x]> f).
Proof. intros H1 H2. split; by rewrite fs_insert_ne. Qed.

Lemma same_delete f n : n <> EPO_FILE_HAL -> n <> EPO_FILE -> same_orbits f (delete n f).
Proof. intros H1 H2. split; by rewrite fs_delete_ne. Qed.

Section Attempt.
Context `{TimeZone}.
Variable getEpoUrl : string -> list Z -> option (list Z).
Variable server : nat -> list Z -> dl_answer.
Variable daemon_send : list Z -> Z.

(** Every URL can be built, and every download fails. *)
Definition unreachable : Prop :=
  (forall name key, is_Some (getEpoUrl name key))
  /\ forall n url, match server n url with DlInit => True | DlDone code _ => code <> CURLE_OK end.

Hypothesis Hout : unreachable.

Lemma wp_curl_fails url name s (Q : Z -> epo -> Prop) :
  name <> EPO_FILE_HAL -> name <> EPO_FILE ->
  (forall r f, r <> 0 -> same_orbits (files s) f -> Q r (s ⟨ requests $= S ⟩ ⟨ files := f ⟩)) ->
  wp (curl_easy_download server url name) Q s.
Proof using Hout.
  intros H1 H2 HQ. unfold curl_easy_download. apply wp_bind, wp_gets, wp_bind, wp_modify.
  destruct Hout as [_ Hs]. specialize (Hs (requests s) url).
  assert (s ⟨ requests $= S ⟩ = s ⟨ requests $= S ⟩ ⟨ files := files s ⟩) as Hid by done.
  destruct (server (requests s) url) as [|code data]; [apply wp_ret; rewrite Hid; by apply HQ|].
  unfold writable, put_file. apply wp_bind, wp_gets, wp_if; intros _.
  - apply wp_bind, wp_modify, wp_ret. cbn [files field_update].
    apply (HQ code (<[name := MkFile data 0 true true]> (files s)) Hs). by apply same_insert.
  - apply wp_ret. rewrite Hid. by apply HQ.
Qed.

(** Both downloads of a piece fail. *)
Lemma wp_update_fails ty i s (Q : Z -> epo -> Prop) :
  type_ok ty -> 0 <= i < 10 -> named ty i s -> 0 <= counter s <= 9998 ->
  (forall f, same_orbits (files s) f ->
     Q (-1) (s ⟨ requests := S (S (requests s)) ⟩ ⟨ counter := counter s + 2 ⟩ ⟨ files := f ⟩ ⟨ epo_download_failed := 1 ⟩)) ->
  wp (mtk_gps_epo_file_update getEpoUrl server daemon_send) Q s.
Proof using Hout.
  intros Hty Hi [Hd Hm] Hc HQ. destruct (piece_names ty i Hty Hi) as (Hd1 & Hd2 & Hm1 & Hm2).
  unfold mtk_gps_epo_file_update, mtk_gps_epo_file_update_hal, curl_easy_download_epo, download_md, unlink.
  apply wp_bind, wp_bind, wp_bind, wp_bind, wp_gets. rewrite Hm.
  apply wp_bind, wp_key; [lia|done|]. intros k. destruct (proj1 Hout (mname ty i) k) as [u ->].
  apply wp_bind, wp_curl_fails; [done..|]. intros r f Hr Hf. apply Z.eqb_neq in Hr as ->.
  apply wp_bind, wp_modify, wp_ret, wp_bind, wp_key; [cbn; lia|done|]. intros k'.
  apply wp_bind, wp_gets. cbn [gps_epo_file_name field_update]. rewrite Hd.
  destruct (proj1 Hout (dname ty i) k') as [u' ->].
  apply wp_bind, wp_curl_fails; [done..|]. intros r' f' Hr' Hf'. unfold CURLE_OK. apply Z.eqb_neq in Hr' as Hr0.
  rewrite Hr0. apply wp_bind, wp_modify, wp_bind, wp_modify, wp_ret. rewrite Hr0. cbn [negb].
  apply wp_bind, wp_modify, wp_ret. cbn [Z.ltb Z.compare]. apply wp_ret.
  cbn [files field_update] in Hf'.
  match goal with |- Q _ ?s' => replace s' with
    (s ⟨ requests := S (S (requests s)) ⟩ ⟨ counter := counter s + 2 ⟩
       ⟨ files := delete (path (dname ty i)) f' ⟩ ⟨ epo_download_failed := 1 ⟩) end.
  - apply HQ. etrans; [exact Hf|]. etrans; [exact Hf'|]. by apply same_delete.
  - clear. destruct s. epo_fields. f_equal. lia.
Qed.

(** A download in progress fails, and stops. *)
Lemma wp_download_fails s (Q : unit -> epo -> Prop) :
  epo_ok s -> epo_data_updated s = 1 -> 1 <= counter s <= 9998 ->
  (forall f d m, same_orbits (files s) f ->
     Q tt (s ⟨ gps_epo_file_name := d ⟩ ⟨ gps_epo_md_file_name := m ⟩ ⟨ requests := S (S (requests s)) ⟩
             ⟨ counter := counter s + 2 ⟩ ⟨ files := f ⟩ ⟨ epo_download_failed := 1 ⟩ ⟨ epo_data_updated := 0 ⟩)) ->
  wp (step_download getEpoUrl server daemon_send) Q s.
Proof using Hout.
  intros Hs Hu Hc HQ. unfold step_download. apply wp_bind, wp_gets. rewrite Hu. cbn [Z.eqb Pos.eqb cwhen].
  apply wp_bind, wp_modify, wp_bind, wp_gets, wp_bind. cbn [gps_epo_file_count field_update].
  pose proof (ok_type s Hs) as Hty. pose proof (ok_count s Hs) as Hn.
  apply (wp_set_file_name (gps_epo_type s)); [done..|].
  apply wp_bind, (wp_update_fails (gps_epo_type s) (gps_epo_file_count s)); [done..|cbn; lia|].
  cbn [files requests counter gps_epo_type field_update]. intros f Hf.
  apply wp_bind, wp_gets. cbn [epo_download_failed field_update]. apply wp_modify.
  match goal with |- Q _ ?s' => replace s' with
    (s ⟨ gps_epo_file_name := dname (gps_epo_type s) (gps_epo_file_count s) ⟩
       ⟨ gps_epo_md_file_name := mname (gps_epo_type s) (gps_epo_file_count s) ⟩ ⟨ requests := S (S (requests s)) ⟩
       ⟨ counter := counter s + 2 ⟩ ⟨ files := f ⟩ ⟨ epo_download_failed := 1 ⟩ ⟨ epo_data_updated := 0 ⟩)
    by (clear; by destruct s) end.
  by apply HQ.
Qed.

Lemma download_idle s : epo_data_updated s <> 1 -> step_download getEpoUrl server daemon_send s = Some (tt, s).
Proof.
  intros Hu. unfold step_download. rewrite run_gets. by rewrite (proj2 (Z.eqb_neq _ _) Hu).
Qed.
End Attempt.

(** Undefined behaviour, at once or later. *)
Lemma wrong_now {S A B} (m : CM S A) (k : A -> CM S B) s : m s = None -> (x ← m; k x) s = None.
Proof. unfold mbind, cm_bind. by intros ->. Qed.

Lemma wrong_later {S A B} (m : CM S A) (k : A -> CM S B) P s :
  wp m P s -> (forall x s', P x s' -> k x s' = None) -> (x ← m; k x) s = None.
Proof. unfold wp, mbind, cm_bind. destruct (m s) as [[x s']|]; [auto|done]. Qed.

(** ** Without an orbit file *)

Lemma wp_and {S A} (m : CM S A) P Q s : wp m P s -> wp m Q s -> wp m (fun x s' => P x s' /\ Q x s') s.
Proof. unfold wp. destruct (m s) as [[x s']|]; [|done]. auto. Qed.

(** There is no orbit file, and the first piece is missing: it is being
    downloaded, or was. *)
Record looping (s : epo) : Prop := {
  lp_ok : epo_ok s;
  lp_on : truthy (started s) || (nw_type s =? nw_wifi) = true;
  lp_connected : truthy (nw_connected s) = true;
  lp_count : gps_epo_file_count s = 0;
  lp_hal : files s !! EPO_FILE_HAL = None;
  lp_epo : files s !! EPO_FILE = None;
  lp_busy : epo_data_updated s = 1 \/ epo_download_failed s = 1;
  lp_counter : 1 <= counter s <= 10000;
}.

(** The clock is later than the second of January 1970. *)
Definition late `{TimeZone} (now : Z) : Prop := 86400 <= u32 (fst (mktime (gmtime now))).

Section Loop.
Context `{TimeZone}.
Variable getEpoUrl : string -> list Z -> option (list Z).
Variable server : nat -> list Z -> dl_answer.
Variable daemon_send : list Z -> Z.
Hypothesis Hout : unreachable getEpoUrl server.

(** What stays the same. *)
Definition setting (s : epo) := (started s, nw_connected s, nw_type s, gps_epo_file_count s).

(** The bookkeeping of retries changes only its own fields. *)
Lemma wp_bookkeeping_any n s (Q : unit -> epo -> Prop) :
  (forall r k x y l, Q tt (s ⟨ file_retrying := r ⟩ ⟨ retry_time := k ⟩ ⟨ epo_download_retry := x ⟩
                             ⟨ epo_download_failed := y ⟩ ⟨ alarms := l ⟩)) ->
  wp (retry_bookkeeping n) Q s.
Proof using.
  intros HQ. assert (forall s1 : epo, (exists r k, s1 = s ⟨ file_retrying := r ⟩ ⟨ retry_time := k ⟩) ->
    forall x y l, Q tt (s1 ⟨ epo_download_retry := x ⟩ ⟨ epo_download_failed := y ⟩ ⟨ alarms := l ⟩)) as HQ'
    by (intros ? (r & k & ->) *; apply HQ).
  assert (forall s1 : epo, (exists r k, s1 = s ⟨ file_retrying := r ⟩ ⟨ retry_time := k ⟩) -> Q tt s1) as HQ1.
  { intros s1 Hs1. specialize (HQ' s1 Hs1 (epo_download_retry s1) (epo_download_failed s1) (alarms s1)). by destruct s1. }
  unfold retry_bookkeeping. apply wp_bind, wp_gets, wp_when; intros _.
  - apply wp_bind, wp_gets, wp_bind.
    eapply (wp_mono _ (fun _ s1 => exists r k, s1 = s ⟨ file_retrying := r ⟩ ⟨ retry_time := k ⟩)).
    { apply wp_if; intros _; apply wp_modify; [exists (file_retrying s), (retry_time s + 1)|by eexists _, _].
      by destruct s. }
    cbn beta. intros _ s1 Hs1. apply wp_bind, wp_gets, wp_if; intros _; apply wp_modify.
    + specialize (HQ' s1 Hs1 0 (epo_download_failed s1) (alarms s1 ++ [15])). by destruct s1.
    + destruct Hs1 as (r & k & ->).
      specialize (HQ 50 0 (epo_download_retry s) 0 (alarms s)). by destruct s.
  - apply HQ1. exists (file_retrying s), (retry_time s). by destruct s.
Qed.

(** When the retry is due, the download is begun again. *)
Lemma wp_retry_restarts now s :
  looping s -> late now ->
  wp (step_retry getEpoUrl server daemon_send now)
    (fun _ s' => epo_ok s' /\ setting s' = setting s /\ counter s' = counter s /\ requests s' = requests s
       /\ (files s' !! EPO_FILE_HAL = None /\ files s' !! EPO_FILE = None)
       /\ if truthy (epo_download_failed s) && truthy (epo_download_retry s) then epo_data_updated s' = 1
          else s' = s) s.
Proof using.
  intros [] Hnow. unfold step_retry. apply wp_bind, wp_gets. cbn [id]. rewrite lp_on0, lp_connected0. cbn [andb].
  destruct (truthy (epo_download_failed s) && truthy (epo_download_retry s)); cbn [cwhen]; [|by apply wp_ret].
  assert (mtk_gps_epo_file_time_hal (files s) (MkTimes 0 0 0) = (-1, MkTimes 0 0 0)) as ->.
  { unfold mtk_gps_epo_file_time_hal, epo_file, access_ok. by rewrite lp_hal0, lp_epo0. }
  cbn [snd t_start]. unfold late in Hnow. rewrite (proj2 (Z.geb_le _ _)) by lia. unfold unlink, setting.
  apply wp_bind. eapply (wp_mono _ (fun _ s1 => exists r, (0 <= r < 10 \/ r = 50) /\ s1 = s ⟨ file_retrying := r ⟩)).
  { apply wp_when; intros _.
    - eexists. split; [|reflexivity]. left. apply lp_ok0.
    - exists (file_retrying s). split; [apply lp_ok0|by destruct s]. }
  cbn beta. intros _ ? (r & Hr & ->). apply wp_bind, wp_bind, wp_modify, wp_modify.
  eapply wp_mono; [apply wp_and; [apply (costs_bookkeeping _ (ok_count s lp_ok0) _ (counter s))|]|].
  - epo_ok.
  - cbn. lia.
  - lia.
  - apply (wp_bookkeeping_any _ _ (fun _ s' => setting s' = setting s /\ counter s' = counter s
      /\ requests s' = requests s /\ (files s' !! EPO_FILE_HAL = None /\ files s' !! EPO_FILE = None)
      /\ epo_data_updated s' = 1)).
    intros r' k x y l. cbn. unfold setting. cbn.
    rewrite lp_count0, fs_delete_eq, fs_delete_ne by done. done.
  - cbn beta. tauto.
Qed.

Lemma wifi_idle now s :
  (epo_data_updated s =? 0) && (epo_download_failed s =? 0) = false -> step_wifi now s = Some (tt, s).
Proof using.
  intros Hb. unfold step_wifi. rewrite run_gets. cbn [id].
  destruct (epo_data_updated s =? 0), (epo_download_failed s =? 0); try done; cbn [andb]; by rewrite ?andb_false_r.
Qed.

(** How many attempts a round makes. *)
Definition attempts (s : epo) : nat := if epo_data_updated s =? 1 then 1 else 0.

(** The part of a round before the retry. *)
Lemma loop_download s :
  looping s -> counter s + 2 * Z.of_nat (attempts s) <= 10000 ->
  wp (step_download getEpoUrl server daemon_send)
    (fun _ s' => looping s' /\ counter s' = counter s + 2 * Z.of_nat (attempts s)
       /\ requests s' = (requests s + 2 * attempts s)%nat
       /\ epo_data_updated s' = 0 /\ epo_download_failed s' = 1 /\ epo_download_retry s' = epo_download_retry s) s.
Proof using Hout.
  intros Hs Hc. destruct (Hs) as [Hok _ _ _ Hhal Hepo Hbusy Hcnt]. unfold attempts in *.
  destruct (flag_cases _ (ok_updated s Hok)) as [Hu|Hu]; rewrite Hu in *; cbn [Z.eqb Pos.eqb] in *.
  - eapply wp_eq; [apply download_idle; by rewrite Hu|]. rewrite Hu.
    assert (epo_download_failed s = 1) by (by destruct Hbusy). repeat (split; [done || lia|]). done.
  - apply wp_download_fails; [done..|lia|]. intros f d m [Hf1 Hf2].
    split; [|cbn; split; [lia|]; split; [lia|done]].
    destruct Hs. split; cbn; try done; [epo_ok|congruence|congruence|by right|lia].
Qed.

(** A round: a download in progress fails, one that failed is begun again when
    the retry is due. *)
Lemma loop_round now conf_file s :
  looping s -> late now -> (forall c, conf_file = Some c -> Forall is_byte c) ->
  counter s + 2 * Z.of_nat (attempts s) <= 10000 ->
  wp (epo_thread_round getEpoUrl server daemon_send now conf_file)
    (fun _ s' => looping s' /\ counter s' = counter s + 2 * Z.of_nat (attempts s)
       /\ requests s' = (requests s + 2 * attempts s)%nat
       /\ epo_data_updated s' = if truthy (epo_download_retry s) then 1 else 0) s.
Proof using Hout.
  intros Hs Hnow Hf Hc. unfold epo_thread_round. apply wp_bind, wp_gets, wp_bind.
  destruct (settings_read conf_file (conf s) Hf) as (r & c & Hr & Hok).
  eapply wp_lift; [exact Hr|]. apply wp_bind, wp_modify. specialize (Hok (ok_conf s (lp_ok s Hs))).
  set (s1 := s ⟨ conf := c ⟩).
  assert (looping s1) as Hs1 by (destruct Hs as [Hsok]; split; try done; by epo_ok).
  apply wp_bind. eapply wp_mono; [by apply loop_download|]. cbn beta.
  intros _ s2 (Hs2 & Hc2 & Hr2 & Hu2 & Hf2 & Ht2). apply wp_bind.
  eapply wp_mono; [by apply wp_retry_restarts|]. cbn beta.
  intros _ s3 (Hok3 & Hset & Hc3 & Hr3 & [Hh He] & Hu3). rewrite Hf2, Ht2 in Hu3. cbn [truthy] in Hu3.
  change (truthy 1) with true in Hu3. cbn [andb] in Hu3. change (epo_download_retry s1) with (epo_download_retry s) in Hu3.
  assert (looping s3) as Hs3.
  { unfold setting in Hset. injection Hset as E1 E2 E3 E4. destruct Hs2.
    split; rewrite ?E1, ?E2, ?E3, ?E4; try done; [|lia].
    destruct (truthy (epo_download_retry s)); [by left|subst s3; by right]. }
  apply wp_bind, wp_eq with (x := tt) (s' := s3).
  - apply wifi_idle. destruct (lp_busy s3 Hs3) as [-> | ->]; [done|apply andb_false_r].
  - apply wp_bind, wp_gets, wp_ret. split; [done|]. split; [by rewrite Hc3|]. split; [by rewrite Hr3|].
    destruct (truthy (epo_download_retry s)); [done|by subst s3].
Qed.

Lemma wrong_key key s : counter s = 10000 -> key_with_counter key s = None.
Proof using. intros Hc. unfold key_with_counter. rewrite run_gets, Hc. by apply wrong_now. Qed.

(** The fifth digit of the counter is written past the array. *)
Lemma update_overflow ty i s :
  type_ok ty -> 0 <= i < 10 -> named ty i s -> 9999 <= counter s <= 10000 ->
  mtk_gps_epo_file_update getEpoUrl server daemon_send s = None.
Proof using Hout.
  intros Hty Hi [Hd Hm] Hc. destruct (piece_names ty i Hty Hi) as (_ & _ & Hm1 & Hm2).
  unfold mtk_gps_epo_file_update, mtk_gps_epo_file_update_hal, curl_easy_download_epo. do 2 apply wrong_now.
  destruct (Z.eq_dec (counter s) 10000) as [E|E].
  - apply wrong_now. unfold download_md. rewrite run_gets. by apply wrong_now, wrong_key.
  - apply (wrong_later _ _ (fun k s' => k = Some no_key /\ counter s' = 10000)).
    + unfold download_md. apply wp_bind, wp_gets, wp_bind, wp_key; [lia|done|]. intros k. rewrite Hm.
      destruct (proj1 Hout (mname ty i) k) as [u ->].
      apply wp_bind, (wp_curl_fails getEpoUrl server Hout); [done..|]. intros r f Hr _. apply Z.eqb_neq in Hr as ->.
      apply wp_bind, wp_modify, wp_ret. split; [done|]. cbn. lia.
    + intros k s' [-> Hc']. by apply wrong_now, wrong_key.
Qed.

Lemma loop_overflow now conf_file s :
  looping s -> (forall c, conf_file = Some c -> Forall is_byte c) ->
  epo_data_updated s = 1 -> 9999 <= counter s ->
  epo_thread_round getEpoUrl server daemon_send now conf_file s = None.
Proof using Hout.
  intros Hs Hf Hu Hc. unfold epo_thread_round. rewrite run_gets.
  destruct (settings_read conf_file (conf s) Hf) as (r & c & Hr & _).
  rewrite (run_lift _ _ _ _ Hr), run_modify. apply wrong_now. unfold step_download.
  rewrite run_gets. cbn [epo_data_updated field_update]. rewrite Hu. cbn [Z.eqb Pos.eqb cwhen].
  rewrite run_modify, run_gets. cbn [gps_epo_file_count field_update]. destruct Hs as [Hok _ _ Hn _ _ _ Hcnt].
  pose proof (ok_type s Hok) as Hty. eapply wrong_later with (P := fun _ s' => named (gps_epo_type s) 0 s' /\ counter s' = counter s).
  - rewrite Hn. apply (wp_set_file_name (gps_epo_type s)); done.
  - intros _ s' [Hnm Hc']. apply wrong_now. eapply update_overflow; [exact Hty| |exact Hnm|]; lia.
Qed.
End Loop.

(** ** The thread and its alarms during the outage *)

Section Outage.
Context `{TimeZone} `{HL : TimerLaws}.
Variable getEpoUrl : string -> list Z -> option (list Z).
Variable server : nat -> list Z -> dl_answer.
Variable daemon_send : list Z -> Z.
Hypothesis Hout : unreachable getEpoUrl server.

Notation perform := (perform getEpoUrl server daemon_send).

(** Rounds whose timers work, at times that are [ok]; and alarms. *)
Definition plain_action (ok : Z -> Prop) (x : action) : Prop :=
  match x with
  | Round now conf_file a =>
      ok now /\ (forall c, conf_file = Some c -> Forall is_byte c) /\ create_ok a = true /\ settime_ok a = true
  | Expire _ => True
  | InterfaceInit => False
  end.

Definition runs (ok : Z -> Prop) : downloader -> downloader -> Prop :=
  rtc (fun w w' => exists x, plain_action ok x /\ perform x w = Some (tt, w')).

(** A round is one of the thread and what follows for the timer. *)
Lemma perform_round_thread now cf a w w' :
  timers_ok (tm w) -> perform (Round now cf a) w = Some (tt, w') ->
  exists delay, epo_thread_round getEpoUrl server daemon_send now cf (thread w) = Some (delay, thread w').
Proof using HL.
  intros Ht E. pose proof E as (d & w1 & E1 & E2)%bind_inv. injection E1 as <- <-.
  apply bind_inv in E2 as (delay & w2 & E2 & _). unfold on_part in E2.
  destruct (epo_thread_round _ _ _ now cf (thread w)) as [[y e]|] eqn:Er; [|done].
  destruct (perform_round getEpoUrl server daemon_send now cf a w y e Ht Er) as (w3 & E3 & E4 & _).
  rewrite E3 in E. injection E as <-. exists y. by rewrite E4.
Qed.

Lemma perform_round_none now cf a w :
  epo_thread_round getEpoUrl server daemon_send now cf (thread w) = None -> perform (Round now cf a) w = None.
Proof using. intros E. cbn [EpoRetry.perform]. rewrite run_gets. apply wrong_now. unfold on_part. by rewrite E. Qed.

Record hopeless (w : downloader) : Prop := {
  hl_loop : looping (thread w);
  hl_timers : timers_ok (tm w);
  hl_due : retry_due w;
}.

Lemma plain_step ok x w w' : plain_action ok x -> perform x w = Some (tt, w') -> moves getEpoUrl server daemon_send timers_work w w'.
Proof using. intros Hx E. apply (moves_action _ _ _ _ x); [by destruct x as [? ? ?| |]; cbn in *; tauto|by intros ->|done]. Qed.

(** What a round does to a hopeless download. *)
Lemma hopeless_round now cf a w w' :
  hopeless w -> plain_action late (Round now cf a) -> perform (Round now cf a) w = Some (tt, w') ->
  hopeless w' /\ counter (thread w') = counter (thread w) + 2 * Z.of_nat (attempts (thread w))
  /\ requests (thread w') = (requests (thread w) + 2 * attempts (thread w))%nat
  /\ epo_data_updated (thread w') = if truthy (epo_download_retry (thread w)) then 1 else 0.
Proof using Hout HL.
  intros [Hl Ht Hd] Hx E. pose proof Hx as (Hnow & Hcf & _).
  destruct (perform_round_thread _ _ _ _ _ Ht E) as [delay Er].
  pose proof (lp_counter _ Hl) as Hcnt.
  assert (counter (thread w) + 2 * Z.of_nat (attempts (thread w)) <= 10000) as Hc.
  { unfold attempts. destruct (Z.eqb_spec (epo_data_updated (thread w)) 1) as [Hu|]; [|lia].
    destruct (Z.le_gt_cases 9999 (counter (thread w))) as [Hge|]; [|lia].
    by rewrite (loop_overflow getEpoUrl server daemon_send Hout now cf _ Hl Hcf Hu Hge) in Er. }
  pose proof (loop_round getEpoUrl server daemon_send Hout now cf (thread w) Hl Hnow Hcf Hc) as Hw.
  unfold wp in Hw. rewrite Er in Hw. destruct Hw as (Hl' & Hr). split; [|exact Hr]. split; [done| |].
  - destruct (perform_round_inv _ _ _ _ _ _ _ _ _ Ht E) as [_ Htm|_ _ Htm]; rewrite Htm; auto using timers_ok_set.
  - eapply due_step; [exact Ht| |exact Hd]. by eapply plain_step.
Qed.

(** An alarm only sets the flag. *)
Lemma expire_thread id w w' :
  perform (Expire id) w = Some (tt, w') ->
  w' = w \/ (thread w' = (thread w) ⟨ epo_download_retry := 1 ⟩
              /\ tm w' = (tm w) ⟨ existing $= <[id := None]> ⟩ /\ is_Some (existing (tm w) !! id)).
Proof using.
  cbn [EpoRetry.perform]. rewrite run_gets. destruct (existing (tm w) !! id) as [[sec|]|]; intros [= <-]; [|by left..].
  right. split; [done|]. split; [done|]. eauto.
Qed.

Lemma hopeless_step x w w' :
  hopeless w -> plain_action late x -> perform x w = Some (tt, w') ->
  hopeless w' /\ counter (thread w') - counter (thread w)
    = Z.of_nat (requests (thread w')) - Z.of_nat (requests (thread w)).
Proof using Hout HL.
  intros Hw Hx E. destruct x as [now cf a|id|]; [| |done].
  - destruct (hopeless_round _ _ _ _ _ Hw Hx E) as (Hw' & Hc & Hr & _). split; [done|]. rewrite Hc, Hr. lia.
  - destruct (expire_thread _ _ _ E) as [->|(Et & Em & Hid)]; [split; [done|lia]|].
    destruct Hw as [Hl Ht Hd]. split; [split|].
    + rewrite Et. destruct Hl as [Hok]. split; cbn; try done. epo_ok.
    + rewrite Em. by apply timers_ok_expire.
    + left. by rewrite Et.
    + rewrite Et. cbn. lia.
Qed.

Lemma hopeless_runs w w' :
  hopeless w -> runs late w w' ->
  hopeless w' /\ counter (thread w') - counter (thread w)
    = Z.of_nat (requests (thread w')) - Z.of_nat (requests (thread w)).
Proof using Hout HL.
  intros Hw Hr. revert Hw. induction Hr as [w|w w1 w' (x & Hx & E) _ IH]; intros Hw; [split; [done|lia]|].
  destruct (hopeless_step _ _ _ Hw Hx E) as [H1 H2]. destruct (IH H1) as [H3 H4]. split; [done|lia].
Qed.

(** ** A run to the end *)

Variable now : Z.
Hypothesis Hnow : late now.

Definition good_round : action := Round now None (MkAnswers true true).

Lemma good_round_plain : plain_action late good_round.
Proof using Hnow. by repeat split. Qed.

Lemma runs_one x w w' : plain_action late x -> perform x w = Some (tt, w') -> runs late w w'.
Proof using. intros Hx E. apply rtc_once. by exists x. Qed.

Lemma good_round_runs w :
  hopeless w -> counter (thread w) + 2 * Z.of_nat (attempts (thread w)) <= 10000 ->
  exists w', perform good_round w = Some (tt, w') /\ runs late w w'.
Proof using Hout Hnow HL.
  intros [Hl Ht Hd] Hc.
  destruct (wp_Some _ _ _ (loop_round getEpoUrl server daemon_send Hout now None (thread w) Hl Hnow ltac:(done) Hc))
    as (delay & e & E & _).
  destruct (perform_round getEpoUrl server daemon_send now None (MkAnswers true true) w delay e Ht E) as (w' & E' & _).
  exists w'. split; [done|]. eapply runs_one; [exact good_round_plain|exact E'].
Qed.

(** Sooner or later the download is in progress again, without an attempt. *)
Lemma begun_again w :
  hopeless w -> exists w', runs late w w' /\ hopeless w' /\ epo_data_updated (thread w') = 1
  /\ counter (thread w') = counter (thread w).
Proof using Hout Hnow HL.
  assert (forall w, hopeless w -> epo_download_retry (thread w) = 1 ->
    exists w', runs late w w' /\ hopeless w' /\ epo_data_updated (thread w') = 1
    /\ counter (thread w') = counter (thread w)) as Hflag.
  { clear w. intros w Hw Hr. destruct (flag_cases _ (ok_updated _ (lp_ok _ (hl_loop _ Hw)))) as [Hu|Hu].
    - pose proof (lp_counter _ (hl_loop _ Hw)).
      destruct (good_round_runs w Hw) as (w' & E & Hrun); [unfold attempts; rewrite Hu; cbn; lia|].
      destruct (hopeless_round _ _ _ _ _ Hw good_round_plain E) as (Hw' & Hc & _ & Hu').
      exists w'. rewrite Hr in Hu'. split; [done|]. split; [done|]. split; [done|].
      rewrite Hc. unfold attempts. rewrite Hu. cbn. lia.
    - exists w. split; [constructor|]. done. }
  intros Hw. destruct (hl_due _ Hw) as [Hr|(id & sec & Hid)]; [by apply Hflag|].
  assert (exists w', perform (Expire id) w = Some (tt, w') /\ thread w' = (thread w) ⟨ epo_download_retry := 1 ⟩)
    as (w1 & E & Et) by (cbn [EpoRetry.perform]; rewrite run_gets, Hid; by eexists).
  destruct (hopeless_step (Expire id) w w1 Hw I E) as [Hw1 _].
  destruct (Hflag w1 Hw1) as (w' & Hrun & Hw' & Hu & Hc); [by rewrite Et|].
  exists w'. split; [by etrans; [eapply (runs_one (Expire id))|]|]. split; [done|]. split; [done|].
  by rewrite Hc, Et.
Qed.

Lemma ends_wrong n : forall w, hopeless w -> 10000 - counter (thread w) <= Z.of_nat n ->
  exists w', runs late w w' /\ hopeless w' /\ epo_data_updated (thread w') = 1 /\ 9999 <= counter (thread w').
Proof using Hout Hnow HL.
  induction n as [|n IH]; intros w Hw Hn;
    destruct (begun_again w Hw) as (w1 & Hr1 & Hw1 & Hu1 & Hc1).
  - exists w1. split; [done|]. split; [done|]. split; [done|]. lia.
  - destruct (Z.le_gt_cases 9999 (counter (thread w1))) as [Hge|Hlt]; [by exists w1|].
    destruct (good_round_runs w1 Hw1) as (w2 & E2 & Hr2); [unfold attempts; rewrite Hu1; cbn; lia|].
    destruct (hopeless_round _ _ _ _ _ Hw1 good_round_plain E2) as (Hw2 & Hc2 & _).
    unfold attempts in Hc2. rewrite Hu1 in Hc2. cbn in Hc2.
    destruct (IH w2 Hw2 ltac:(lia)) as (w' & Hr' & Hrest).
    exists w'. split; [|done]. etrans; [exact Hr1|]. by etrans.
Qed.
End Outage.


Lemma lost_server_unreachable : unreachable sample_url lost_server.
Proof. split; [by eexists|done]. Qed.

