(* ===== verification/EpoGiveUp.v ===== *)
(** * Giving up a download (gps_mtk_aosp.c: thread_epo_file_update)

    The server cannot be reached, but the orbit file is less than a day old:
    the thread and its alarms refine a small machine that makes ten attempts. *)

From stdpp Require Import gmap.
From S2P Require Import Prelude NmeaToken Calendar EpoTime EpoConf HalBuff EpoDownload EpoThread EpoRetry EpoOutage.
#[local] Open Scope Z_scope.

(** ** The machine *)

(** [k] attempts were made: the next one may be made, or waits for an alarm. *)
Inductive phase := Trying (k : nat) | Waiting (k : nat) | GivenUp.

Definition tries (p : phase) : nat := match p with Trying k | Waiting k => k | GivenUp => 10 end.

Definition next_phase (p : phase) (x : action) : phase :=
  match x, p with
  | Round _ _ _, Trying k => if (S k <? 10)%nat then Waiting (S k) else GivenUp
  | Expire _, Waiting k => Trying k
  | _, _ => p
  end.

(** ** One round *)

(** The GPS runs with a mobile network; a failed download, if any, is of a
    later piece or of a file that is still there. *)
Record steady `{TimeZone} (start : Z) (s : epo) : Prop := {
  st_ok : epo_ok s;
  st_started : truthy (started s) = true;
  st_mobile : nw_type s <> nw_wifi;
  st_connected : truthy (nw_connected s) = true;
  st_idle : epo_data_updated s = 0;
  st_start : t_start (snd (mtk_gps_epo_file_time_hal (files s) (MkTimes 0 0 0))) = start;
  st_counter : 1 <= counter s;
}.

(** The orbit file is not a day old. *)
Definition current `{TimeZone} (start now : Z) : Prop := u32 (fst (mktime (gmtime now))) < start + 86400.

Section GiveUp.
Context `{TimeZone} `{HL : TimerLaws}.
Variable getEpoUrl : string -> list Z -> option (list Z).
Variable server : nat -> list Z -> dl_answer.
Variable daemon_send : list Z -> Z.
Hypothesis Hout : unreachable getEpoUrl server.
Variable start : Z.

Notation epo_thread_round := (epo_thread_round getEpoUrl server daemon_send).

Lemma steady_conf s c : conf_ok c -> steady start s -> steady start (s ⟨ conf := c ⟩).
Proof using. intros Hc []. split; try done. epo_ok. Qed.

Lemma wifi_never now s : nw_type s <> nw_wifi -> step_wifi now s = Some (tt, s).
Proof using.
  intros Hw. unfold step_wifi. rewrite run_gets. cbn [id]. rewrite (proj2 (Z.eqb_neq _ _) Hw).
  by rewrite !andb_false_r.
Qed.

(** The state after an attempt, with [k] of them before. *)
Definition attempted (k : Z) (s s' : epo) : Prop :=
  counter s' = counter s + 2 /\ requests s' = S (S (requests s))
  /\ gps_epo_file_count s' = gps_epo_file_count s
  /\ if k + 1 <? 10 then
       epo_download_failed s' = 1 /\ epo_download_retry s' = 0
       /\ file_retrying s' = gps_epo_file_count s /\ retry_time s' = k + 1
     else
       epo_download_failed s' = 0 /\ epo_download_retry s' = 1 /\ file_retrying s' = 50 /\ retry_time s' = 0.

(** Ten times the same piece: the bookkeeping after a failed attempt. *)
Lemma wp_bookkeeping_same s (Q : unit -> epo -> Prop) :
  file_retrying s = gps_epo_file_count s ->
  Q tt (if retry_time s + 1 <? 10 then
          s ⟨ retry_time := retry_time s + 1 ⟩ ⟨ epo_download_retry := 0 ⟩ ⟨ alarms $= fun l => l ++ [15] ⟩
        else s ⟨ epo_download_failed := 0 ⟩ ⟨ retry_time := 0 ⟩ ⟨ file_retrying := 50 ⟩) ->
  wp (retry_bookkeeping (gps_epo_file_count s)) Q s.
Proof using.
  intros Hr HQ. unfold retry_bookkeeping. apply wp_bind, wp_gets. rewrite Z.eqb_refl. cbn [cwhen].
  apply wp_bind, wp_gets, wp_bind. rewrite Hr, Z.eqb_refl. apply wp_modify, wp_bind, wp_gets.
  cbn [retry_time field_update]. destruct (retry_time s + 1 <? 10); apply wp_modify.
  - exact HQ.
  - by destruct s.
Qed.

Lemma wp_attempt now s :
  steady start s -> current start now -> counter s <= 9998 ->
  epo_download_failed s = 1 -> epo_download_retry s = 1 ->
  file_retrying s = gps_epo_file_count s \/ file_retrying s = 50 ->
  wp (step_retry getEpoUrl server daemon_send now)
     (fun _ s' => steady start s' /\ attempted (retry_time s) s s') s.
Proof using Hout.
  intros Hs Hnow Hc Hf Hr Hfr. pose proof (st_ok _ _ Hs) as Hok. pose proof (st_counter _ _ Hs) as Hc1.
  pose proof (ok_type s Hok) as Hty. pose proof (ok_count s Hok) as Hn.
  eapply wp_mono; [apply (wp_and _ (fun _ s' => epo_ok s' /\ 1 <= counter s' <= counter s + 2)
    (fun _ s' => attempted (retry_time s) s s' /\ started s' = started s /\ nw_type s' = nw_type s
       /\ nw_connected s' = nw_connected s /\ epo_data_updated s' = epo_data_updated s
       /\ same_orbits (files s) (files s')))|].
  - apply costs_step_retry; [done|split; [apply Hs|lia]|lia].
  - unfold step_retry. apply wp_bind, wp_gets. cbn [id].
    rewrite (st_started _ _ Hs), (st_connected _ _ Hs), Hf, Hr. cbn [orb andb cwhen]. change (truthy 1) with true. cbn [cwhen].
    apply wp_bind. eapply (wp_mono _ (fun _ s1 => s1 = s ⟨ file_retrying := gps_epo_file_count s ⟩)).
    { apply wp_when; intros E; [by apply wp_modify|]. destruct Hfr as [Hfr|Hfr]; [|by rewrite Hfr in E].
      clear -Hfr. destruct s. cbn in *. by subst. }
    cbn beta. intros _ ? ->. unfold current in Hnow. rewrite (st_start _ _ Hs).
    destruct (Z.geb_spec (u32 (fst (mktime (gmtime now)))) (start + 24 * 60 * 60)); [lia|].
    apply wp_bind, wp_bind, (wp_set_file_name (gps_epo_type s)); [done..|].
    apply wp_bind, (wp_update_fails getEpoUrl server daemon_send Hout (gps_epo_type s) (gps_epo_file_count s));
      [done..|cbn; lia|].
    cbn [files requests counter field_update]. intros f Hfs. apply wp_ret.
    match goal with |- wp (retry_bookkeeping ?n) _ ?s1 => change n with (gps_epo_file_count s1) end.
    apply wp_bookkeeping_same; [done|]. cbn [retry_time field_update]. unfold attempted.
    destruct (retry_time s + 1 <? 10); cbn; rewrite ?Hf; done.
  - cbn beta. intros _ s' ([Hok' Hc'] & Ha & E1 & E2 & E3 & E4 & Hsame). split; [|done].
    destruct Hs. split; [done|by rewrite E1|by rewrite E2|by rewrite E3|by rewrite E4|
      by rewrite (file_time_same _ _ _ Hsame)|lia].
Qed.

(** What a round without an attempt leaves alone. *)
Definition observed (s : epo) :=
  (counter s, requests s, gps_epo_file_count s, (epo_download_failed s, epo_download_retry s,
   file_retrying s, retry_time s)).

(** One round: an attempt if one may be made, else only the settings are read. *)
Lemma steady_round now conf_file s :
  steady start s -> current start now -> (forall c, conf_file = Some c -> Forall is_byte c) -> counter s <= 9998 ->
  file_retrying s = gps_epo_file_count s \/ file_retrying s = 50 ->
  wp (epo_thread_round now conf_file)
    (fun _ s' => steady start s'
       /\ if truthy (epo_download_failed s) && truthy (epo_download_retry s) then attempted (retry_time s) s s'
          else observed s' = observed s) s.
Proof using Hout.
  intros Hs Hnow Hf Hc Hfr. unfold EpoDownload.epo_thread_round. apply wp_bind, wp_gets, wp_bind.
  destruct (settings_read conf_file (conf s) Hf) as (r & c & Hr & Hok).
  eapply wp_lift; [exact Hr|]. apply wp_bind, wp_modify. specialize (Hok (ok_conf s (st_ok _ _ Hs))).
  set (s1 := s ⟨ conf := c ⟩).
  assert (steady start s1) as Hs1 by (by apply steady_conf).
  apply wp_bind, wp_eq with (x := tt) (s' := s1); [apply download_idle; by rewrite (st_idle _ _ Hs1)|].
  apply wp_bind.
  eapply (wp_mono _ (fun _ s' => steady start s'
       /\ if truthy (epo_download_failed s) && truthy (epo_download_retry s) then attempted (retry_time s) s s'
          else observed s' = observed s)).
  { destruct (flag_cases _ (ok_failed _ (st_ok _ _ Hs))) as [Ef|Ef], (flag_cases _ (ok_retry _ (st_ok _ _ Hs))) as [Er|Er].
    4: { rewrite Ef, Er. by apply (wp_attempt now s1). }
    all: eapply wp_eq; [|split; [exact Hs1|rewrite Ef, Er; reflexivity]]; unfold step_retry; rewrite run_gets;
      cbn [id]; change (epo_download_failed s1) with (epo_download_failed s);
      change (epo_download_retry s1) with (epo_download_retry s); rewrite Ef, Er;
      change (truthy 0) with false; by rewrite ?andb_false_r. }
  cbn beta. intros _ s2 [Hs2 Ha]. apply wp_bind, wp_eq with (x := tt) (s' := s2); [by apply wifi_never, Hs2|].
  apply wp_bind, wp_gets, wp_ret. done.
Qed.

(** ** Histories *)

Notation perform := (perform getEpoUrl server daemon_send).

(** Only an armed alarm expires. *)
Definition enabled (x : action) (w : downloader) : Prop :=
  match x with Expire id => exists sec, existing (tm w) !! id = Some (Some sec) | _ => True end.

Inductive history (ok : Z -> Prop) : downloader -> list action -> downloader -> Prop :=
| history_nil w : history ok w [] w
| history_snoc w l w1 x w' :
    history ok w l w1 -> plain_action ok x -> enabled x w1 -> perform x w1 = Some (tt, w') ->
    history ok w (l ++ [x]) w'.

(** What the state shows of a phase, after a download that had failed in [s0]. *)
Record shows (s0 : epo) (p : phase) (w : downloader) : Prop := {
  sh_steady : steady start (thread w);
  sh_timers : timers_ok (tm w);
  sh_bound : timers_bound 1 (tm w);
  sh_counter : counter (thread w) = counter s0 + 2 * Z.of_nat (tries p);
  sh_requests : requests (thread w) = (requests s0 + 2 * tries p)%nat;
  sh_phase : match p with
    | Trying k => (k < 10)%nat /\ epo_download_failed (thread w) = 1 /\ epo_download_retry (thread w) = 1
        /\ retry_time (thread w) = Z.of_nat k
        /\ (file_retrying (thread w) = gps_epo_file_count (thread w) \/ file_retrying (thread w) = 50)
        /\ ~ pending w
    | Waiting k => (k < 10)%nat /\ epo_download_failed (thread w) = 1 /\ epo_download_retry (thread w) = 0
        /\ retry_time (thread w) = Z.of_nat k
        /\ file_retrying (thread w) = gps_epo_file_count (thread w) /\ pending w
    | GivenUp => epo_download_failed (thread w) = 0 /\ epo_download_retry (thread w) = 1
        /\ file_retrying (thread w) = 50 /\ ~ pending w
    end;
}.

Lemma shows_retrying s0 p w : shows s0 p w ->
  file_retrying (thread w) = gps_epo_file_count (thread w) \/ file_retrying (thread w) = 50.
Proof using. intros []. destruct p; intuition. Qed.

(** With one timer at most, an expired alarm was the only one. *)
Lemma none_pending_expired id t x :
  timers_bound 1 t -> existing t !! id = Some x ->
  forall id' sec, <[id := None]> (existing t) !! id' <> Some (Some sec).
Proof using.
  intros Hb Hid id' sec E. destruct (decide (id = id')) as [<-|Hne]; [by rewrite lookup_insert_eq in E|].
  rewrite lookup_insert_ne in E by done. unfold timers_bound in Hb.
  assert (delete id (existing t) = ∅) as Hd.
  { apply map_size_empty_inv. rewrite map_size_delete, Hid. destruct (_ =? _); lia. }
  assert (delete id (existing t) !! id' = Some (Some sec)) as E' by (by rewrite lookup_delete_ne).
  by rewrite Hd in E'.
Qed.

Lemma tries_bound s0 p w : shows s0 p w -> (tries p <= 10)%nat.
Proof using. intros []. destruct p; cbn; lia. Qed.

(** A round that asks for no alarm, with the timers as they were. *)
Lemma round_timers a w w' :
  round_result a w w' ->
  if epo_download_retry (thread w) =? epo_download_retry (thread w') then epo_download_retry (thread w') <> 0 -> tm w' = tm w
  else tm w' = alarm_set a 15 (tm w).
Proof using.
  intros [Hq Ht|Hr Hz Ht]; [injection Hq as -> _; by rewrite Z.eqb_refl|].
  destruct (Z.eqb_spec (epo_download_retry (thread w)) (epo_download_retry (thread w'))); [by intros []|done].
Qed.

Lemma shows_round s0 p w now cf a w' :
  shows s0 p w -> counter s0 <= 9978 -> plain_action (current start) (Round now cf a) ->
  perform (Round now cf a) w = Some (tt, w') -> shows s0 (next_phase p (Round now cf a)) w'.
Proof using Hout HL.
  intros Hsh Hc0 (Hnow & Hcf & Ha1 & Ha2) E. pose proof (tries_bound _ _ _ Hsh) as Htr.
  pose proof (shows_retrying _ _ _ Hsh) as Hfr. destruct Hsh as [Hst Ht Hb Hcnt Hreq Hph].
  destruct (perform_round_thread _ _ _ _ _ _ _ _ Ht E) as [delay Er].
  pose proof (steady_round now cf (thread w) Hst Hnow Hcf ltac:(lia) Hfr) as Hw.
  unfold wp in Hw. rewrite Er in Hw. destruct Hw as [Hst' Hw].
  pose proof (perform_round_inv _ _ _ _ _ _ _ _ _ Ht E) as Hres.
  assert (timers_ok (tm w') /\ timers_bound 1 (tm w')) as [Ht' Hb']
    by (destruct Hres as [_ ->|_ _ ->]; auto using timers_ok_set, bound_set).
  destruct p as [k|k|]; cbn [next_phase tries] in *.
  - destruct Hph as (Hk & Hf & Hr & Hrt & _ & Hnp). rewrite Hf, Hr in Hw. change (truthy 1) with true in Hw. cbn [andb] in Hw.
    destruct Hw as (Hc' & Hq' & Hn' & Hw). rewrite Hrt in Hw. apply round_timers in Hres. rewrite Hr in Hres.
    destruct (Nat.ltb_spec (S k) 10), (Z.ltb_spec (Z.of_nat k + 1) 10); try lia;
      destruct Hw as (Hf' & Hr' & Hfr' & Hrt'); rewrite Hr' in Hres; cbn in Hres; split; cbn [tries]; try done; try lia.
    + split; [lia|]. split; [done|]. split; [done|]. split; [lia|]. split; [by rewrite Hfr', Hn'|].
      unfold pending. rewrite Hres. unfold alarm_set. rewrite Ha1, Ha2. cbn. eexists _, 15. apply lookup_insert_eq.
    + split; [done|]. split; [done|]. split; [done|]. unfold pending. by rewrite Hres.
  - destruct Hph as (Hk & Hf & Hr & Hrt & Hfr' & Hp). rewrite Hr, andb_false_r in Hw.
    injection Hw as W1 W2 W3 W4 W5 W6 W7.
    assert (tm w' = tm w) as Htm by (destruct Hres as [_ ->|Hr1 _ _]; [done|by rewrite Hr in Hr1]).
    split; cbn [tries]; try done; try congruence. unfold pending. rewrite Htm, W3, W4, W5, W6, W7. done.
  - destruct Hph as (Hf & Hr & Hfr' & Hp). rewrite Hf in Hw. cbn [truthy] in Hw. change (truthy 0) with false in Hw.
    cbn [andb] in Hw. injection Hw as W1 W2 W3 W4 W5 W6 W7.
    assert (tm w' = tm w) as Htm by (destruct Hres as [_ ->|_ Hr1 _]; [done|congruence]).
    split; cbn [tries]; try done; try congruence. unfold pending. rewrite Htm, W4, W5, W6. done.
Qed.

Lemma shows_expire s0 p w id w' :
  shows s0 p w -> enabled (Expire id) w -> perform (Expire id) w = Some (tt, w') ->
  shows s0 (next_phase p (Expire id)) w'.
Proof using.
  intros [Hst Ht Hb Hcnt Hreq Hph] [sec Hid] E.
  assert (pending w) as Hpend by (by exists id, sec).
  assert (w' = w ⟨ thread := (thread w) ⟨ epo_download_retry := 1 ⟩ ⟩ ⟨ tm := (tm w) ⟨ existing $= <[id := None]> ⟩ ⟩) as ->.
  { cbn [EpoRetry.perform] in E. rewrite run_gets, Hid in E. by injection E as <-. }
  destruct p as [k|k|]; cbn [next_phase tries] in *; [tauto| |tauto].
  destruct Hph as (Hk & Hf & Hr & Hrt & Hfr & _). split; cbn; try done.
  - destruct Hst as [Hok]. split; cbn; try done. epo_ok.
  - apply timers_ok_expire; eauto.
  - unfold timers_bound in *. cbn. by rewrite map_size_insert, Hid.
  - split; [done|]. split; [done|]. split; [done|]. split; [done|]. split; [by left|].
    intros (id' & sec' & E'). by eapply none_pending_expired.
Qed.

Lemma shows_defined s0 p w x :
  shows s0 p w -> counter s0 <= 9978 -> plain_action (current start) x -> is_Some (perform x w).
Proof using Hout HL.
  intros Hsh Hc0 Hx. pose proof (tries_bound _ _ _ Hsh). pose proof (shows_retrying _ _ _ Hsh) as Hfr.
  destruct Hsh as [Hst Ht Hb Hcnt _ _]. destruct x as [now cf a|id|]; [| |done].
  - destruct Hx as (Hnow & Hcf & _).
    destruct (wp_Some _ _ _ (steady_round now cf (thread w) Hst Hnow Hcf ltac:(lia) Hfr)) as (d & e & Er & _).
    destruct (perform_round getEpoUrl server daemon_send now cf a w d e Ht Er) as (w' & E & _). by rewrite E.
  - cbn [EpoRetry.perform]. rewrite run_gets. destruct (existing (tm w) !! id) as [[]|]; by eexists.
Qed.
End GiveUp.


(** ** Example: the second piece cannot be had *)

Definition sample_orbit : file := MkFile (sample_piece 0) 0 true true.

Definition second_missing : downloader :=
  MkDownloader (requested ⟨ epo_data_updated := 0 ⟩ ⟨ epo_download_failed := 1 ⟩ ⟨ gps_epo_file_count := 1 ⟩
    ⟨ files := {[ EPO_FILE_HAL := sample_orbit ]} ⟩) (MkTimerState ∅ C_INVALID_TIMER).

(** When the first record of the orbit file begins. *)
Definition sample_start : Z :=
  t_start (snd (@mtk_gps_epo_file_time_hal (fixed_zone 28800) (files (thread second_missing)) (MkTimes 0 0 0))).

Definition sample_attempt : action := Round sample_start None (MkAnswers true true).

Lemma sample_ok : epo_ok (thread second_missing).
Proof.
  split; (by_decide || (vm_compute; intuition discriminate) || (vm_compute; by right)).
Qed.

