(* ===== verification/AtNmea.v ===== *)
(** * The NMEA reader with the AT command test (gps_mtk_aosp.c under
      GPS_AT_COMMAND: nmea_reader_parse and what calls it)

    The composition of NmeaParse.v and AtCommand.v: the reader copies the
    numbers and the C/N0 of the satellites of a group of GSV sentences into two
    arrays, and the test takes them from there. *)

From stdpp Require Import gmap.
From S2P Require Import Prelude CFloat Calendar HalBuff NmeaToken NmeaReader NmeaParse NmeaProps NmeaSats EpoTime EpoConf EpoDownload Daemon Hal HalProps AtCommand AtLogic.
#[local] Open Scope Z_scope.

(** ** State *)

Record at_reader := MkAtReader {
  nmea : hal;
  at_test : at_state;
  at_prn : list Z;                   (* int prn[32] *)
  at_snr : list Z;                   (* int snr[32] *)
}.

#[export] Instance at_reader_rebuild : Rebuild at_reader := fun r =>
  MkAtReader (nmea r) (at_test r) (at_prn r) (at_snr r).

Definition NM (A : Type) : Type := at_reader -> (A * at_reader) + fault.

#[export] Instance nm_ret : MRet NM := fun A x s => inl (x, s).
#[export] Instance nm_bind : MBind NM := fun A B k m s =>
  match m s with inl (x, s') => k x s' | inr f => inr f end.

Definition nget {A} (f : at_reader -> A) : NM A := fun s => inl (f s, s).
Definition nset (f : at_reader -> at_reader) : NM unit := fun s => inl (tt, f s).
Definition nlift {A} (f : fault) (o : option A) : NM A :=
  fun s => match o with Some x => inl (x, s) | None => inr f end.
Definition nwhen (b : bool) (m : NM unit) : NM unit := if b then m else mret tt.

(** What the reader does, and what the test does. *)
Definition on_nmea {A} (m : CM hal A) : NM A := fun s =>
  match m (nmea s) with
  | Some (x, h) => inl (x, s ⟨ nmea := h ⟩)
  | None => inr HalFault
  end.

Definition on_test {A} (m : AM A) : NM A := fun s =>
  match m (at_test s) with
  | inl (x, t) => inl (x, s ⟨ at_test := t ⟩)
  | inr f => inr f
  end.

Section Parse.
Context `{GpsHeader} `{TimeZone} `{DaemonLink}.
Variable sizeof_GpsCallbacks : Z.
Variable malloc_ok : Z -> bool.

(** ** GSV sentences *)

(** [prn[r->sv_count] = str2int(...); snr[r->sv_count] = (int)str2float(...);] *)
Definition store_satellite (tok_id tok_snr : Token) : NM unit :=
  c ← on_nmea (on_reader (cgets sv_count));
  v ← on_nmea (tok_int tok_id);
  p ← nget at_prn;
  p ← nlift OutOfBounds (array_set p c v);
  _ ← nset (fun s => s ⟨ at_prn := p ⟩);
  m ← on_nmea in_mem;
  d ← on_nmea (clift (tok2float m tok_snr));
  a ← nget at_snr;
  a ← nlift OutOfBounds (array_set a c (d_to_int d));
  nset (fun s => s ⟨ at_snr := a ⟩).

(** The first sv_count entries of the arrays. *)
Definition satellites (s : at_reader) : list (Z * Z) :=
  let n := Z.to_nat (sv_count (reader (nmea s))) in zip (take n (at_prn s)) (take n (at_snr s)).

Section Gsv.
Variable update : Z -> Token -> Token -> Token -> CM hal unit.
Variable commit reject : CM hal unit.

Fixpoint gsv_loop_at (bds : bool) (tzer : NmeaTokenizer) (idx : Z) (n : nat) : NM unit :=
  match n with
  | O => mret tt
  | S n' =>
      let base_idx := 4 * (idx + 1) in
      id ← on_nmea (tok_int (nmea_tokenizer_get tzer (base_idx + 0)));
      let sv_id := if bds then s32 (id + 200) else id in
      _ ← store_satellite (nmea_tokenizer_get tzer (base_idx + 0)) (nmea_tokenizer_get tzer (base_idx + 3));
      _ ← on_nmea (update sv_id (nmea_tokenizer_get tzer (base_idx + 1))
                     (nmea_tokenizer_get tzer (base_idx + 2)) (nmea_tokenizer_get tzer (base_idx + 3)));
      gsv_loop_at bds tzer (idx + 1) n'
  end.

Definition parse_gsv_at (bds : bool) (tzer : NmeaTokenizer) : NM unit :=
  num ← on_nmea (tok_int (nmea_tokenizer_get tzer 1));
  seq ← on_nmea (tok_int (nmea_tokenizer_get tzer 2));
  cnt ← on_nmea (tok_int (nmea_tokenizer_get tzer 3));
  _ ← on_nmea (cwhen (seq =? 1) (on_reader (cmodify (fun r => r ⟨ sv_count := 0 ⟩))));
  _ ← gsv_loop_at bds tzer 0 (Z.to_nat (gsv_sv_num seq cnt));
  nwhen (seq =? num)
    (c ← on_nmea (on_reader (cgets sv_count));
     if c <=? cnt then
       _ ← on_nmea commit;
       svs ← nget satellites;
       on_test (gsv_complete svs)
     else on_nmea reject).
End Gsv.

Definition parse_gsv_gnss_at : bool -> NmeaTokenizer -> NM unit :=
  parse_gsv_at nmea_reader_update_sv_status_gnss
    (on_reader (cmodify (fun r => r ⟨ sv_status_gnss $= fun s =>
       s ⟨ num_svs $= fun n => s32 (n + sv_count r) ⟩ ⟩)))
    (on_reader (cmodify (fun r => r ⟨ sv_count := 0 ⟩
       ⟨ sv_status_gnss $= fun s => s ⟨ num_svs := 0 ⟩ ⟩))).

Definition parse_gsv_gps_at : bool -> NmeaTokenizer -> NM unit :=
  parse_gsv_at (fun id e a s => on_reader (nmea_reader_update_sv_status_gps id e a s))
    (on_reader (cmodify (fun r => r ⟨ sv_status_gps $= fun s =>
       s ⟨ gps_num_svs $= fun n => s32 (n + sv_count r) ⟩ ⟨ almanac_mask := 0 ⟩
         ⟨ ephemeris_mask := 0 ⟩ ⟩)))
    (on_reader (cmodify (fun r => r ⟨ sv_count := 0 ⟩
       ⟨ sv_status_gps $= fun s => s ⟨ gps_num_svs := 0 ⟩ ⟩))).

(** ** Sentences *)

Definition parse_sentence_at (now : Z) (tzer : NmeaTokenizer) (mtok : Token) : NM unit :=
  bds ← on_nmea (memcmp_eq mtok "BD");
  let tok := MkToken (obj mtok) (p mtok + 2) (end_ mtok) in
  size ← on_nmea (cgets cb_size);
  let mtk := size =? sizeof_GpsCallbacks_mtk sizeof_GpsCallbacks in
  let base := size =? sizeof_GpsCallbacks in
  is_gga ← on_nmea (memcmp_eq tok "GGA");
  if (is_gga : bool) then on_nmea (parse_gga now tzer) else
  gsa3 ← on_nmea (memcmp_any mtok ["GPGSA"; "BDGSA"; "GLGSA"]%string);
  if mtk && gsa3 then on_nmea (parse_gsa_mtk bds tzer) else
  gsa1 ← on_nmea (memcmp_eq mtok "GPGSA");
  if base && gsa1 then on_nmea (parse_gsa_base tzer) else
  is_rmc ← on_nmea (memcmp_eq tok "RMC");
  if (is_rmc : bool) then on_nmea (parse_rmc now tzer) else
  is_gsv ← on_nmea (memcmp_eq tok "GSV");
  if mtk && is_gsv then parse_gsv_gnss_at bds tzer else
  gsv2 ← on_nmea (memcmp_any mtok ["GPGSV"; "GLGSV"]%string);
  if base && gsv2 then parse_gsv_gps_at bds tzer else
  is_acc ← on_nmea (memcmp_eq tok "ACCURACY");
  if (is_acc : bool) then on_nmea (parse_accuracy tzer) else mret tt.

(** nmea_reader_parse: the head of the test may drop the sentence. *)
Definition nmea_reader_parse_at (now : Z) : NM unit :=
  tag ← nget (fun s => gps_nmea_end_tag (nmea s));
  go ← on_test (at_parse_head now tag);
  if negb go then mret tt
  else
    r ← on_nmea (cgets reader);
    if pos r <? 9 then mret tt
    else
      tzer ← on_nmea (clift (nmea_tokenizer_init (in_ r) 0 (pos r)));
      let tok := nmea_tokenizer_get tzer 0 in
      if p tok + 5 >? end_ tok then mret tt
      else
        _ ← parse_sentence_at now tzer tok;
        _ ← on_nmea report_location;
        on_nmea (report_svs sizeof_GpsCallbacks).

Definition nmea_reader_addc_at (now c : Z) : NM unit :=
  r ← on_nmea (cgets reader);
  if truthy (overflow r) then
    on_nmea (on_reader (cmodify (fun r => r ⟨ overflow := cbool (negb (c =? 10)) ⟩)))
  else if (pos r >=? NMEA_MAX_SIZE + 1 - 1) || (pos r <? 0) then
    on_nmea (on_reader (cmodify (fun r => r ⟨ overflow := 1 ⟩ ⟨ pos := 0 ⟩)))
  else
    m ← on_nmea (clift (array_set (in_ r) (pos r) c));
    _ ← on_nmea (on_reader (cmodify (fun r => r ⟨ in_ := m ⟩)));
    _ ← on_nmea (on_reader (cmodify (fun r => r ⟨ pos $= fun n => n + 1 ⟩)));
    nwhen (c =? 10)
      (_ ← nmea_reader_parse_at now;
       r ← on_nmea (cgets reader);
       _ ← on_nmea (emit (NmeaCb (timestamp (fix_ r)) (in_ r) (pos r)));
       on_nmea (on_reader (cmodify (fun r => r ⟨ pos := 0 ⟩)))).

(** The bytes of one read of the device. *)
Fixpoint read_loop_at (now : Z) (buff : list Z) : NM unit :=
  match buff with
  | [] => mret tt
  | c :: rest =>
      _ ← on_nmea (cwhen (match rest with [] => true | _ => false end)
                     (cmodify (fun h => h ⟨ gps_nmea_end_tag := 1 ⟩)));
      _ ← nmea_reader_addc_at now c;
      read_loop_at now rest
  end.

Definition gps_device_data_at (now : Z) (buff : list Z) : NM unit :=
  _ ← on_nmea (cmodify (fun h => h ⟨ gps_nmea_end_tag := 0 ⟩));
  read_loop_at now buff.
End Parse.

(** ** The reader is not disturbed *)

(** The head of nmea_reader_parse does not drop the sentence: no test runs, or
    its delay is over. *)
Definition passes (now : Z) (t : at_state) : Prop :=
  (MNL_AT_TEST_FLAG t <> 1 /\ MNL_AT_SIGNAL_TEST_BEGIN t <> 1) \/ hal_time_delay t <= now - start_time t.

(** What [passes] depends on. *)
Definition timing (t : at_state) : Z * Z * Z * Z :=
  (MNL_AT_TEST_FLAG t, MNL_AT_SIGNAL_TEST_BEGIN t, hal_time_delay t, start_time t).

Lemma timing_passes now t t' : timing t' = timing t -> passes now t -> passes now t'.
Proof. unfold timing, passes. intros [= -> -> -> ->]. done. Qed.

(** [m] does not change a part of the test's state. *)
Section Keeps.
Context {T : Type} (part : at_state -> T).

Definition akeeps {A} (m : AM A) : Prop := forall s x s', m s = inl (x, s') -> part s' = part s.

Lemma akeeps_bind {A B} (m : AM A) (k : A -> AM B) :
  akeeps m -> (forall x, akeeps (k x)) -> akeeps (x ← m; k x).
Proof.
  intros Hm Hk s y s'' E. unfold mbind, am_bind in E. destruct (m s) as [[x s']|] eqn:Em; [|done].
  by rewrite (Hk _ _ _ _ E), (Hm _ _ _ Em).
Qed.

Lemma akeeps_ret {A} (x : A) : akeeps (mret x).
Proof. by intros s y s' [= _ <-]. Qed.

Lemma akeeps_get {A} (f : at_state -> A) : akeeps (aget f).
Proof. by intros s y s' [= _ <-]. Qed.

Lemma akeeps_set f : (forall s, part (f s) = part s) -> akeeps (aset f).
Proof. intros Hf s y s' [= _ <-]. apply Hf. Qed.

Lemma akeeps_fail {A} f : akeeps (fail f : AM A).
Proof. by intros s y s'. Qed.

Lemma akeeps_lift {A} f (o : option A) : akeeps (alift f o).
Proof. destruct o; [apply akeeps_ret|apply akeeps_fail]. Qed.

Lemma akeeps_if {A} (b : bool) (m1 m2 : AM A) : akeeps m1 -> akeeps m2 -> akeeps (if b then m1 else m2).
Proof. by destruct b. Qed.

Lemma akeeps_when (b : bool) (m : AM unit) : akeeps m -> akeeps (awhen b m).
Proof. destruct b; [done|]. intros _. apply akeeps_ret. Qed.
End Keeps.

#[local] Hint Resolve akeeps_ret akeeps_get akeeps_fail akeeps_lift : preserves.

Ltac akeeps :=
  repeat first
    [ progress auto with preserves
    | apply akeeps_bind; [|intros ?]
    | apply akeeps_if
    | apply akeeps_when
    | apply akeeps_set; reflexivity
    | match goal with |- akeeps _ (match ?x with _ => _ end) => destruct x end ].

Section Transparent.
Context `{GpsHeader} `{TimeZone} `{DaemonLink}.
Variable sizeof_GpsCallbacks : Z.
Variable now : Z.

Notation pwp := (awp (fun _ => True)).

Lemma passes_stop t : passes now t -> pwp mtk_gps_test_stop (fun _ => passes now) t.
Proof using.
  intros Hp. unfold mtk_gps_test_stop. awps; [exact Hp|].
  apply awp_on_gps; [done|]. intros err g _. awps; [exact Hp|].
  apply awp_on_gps; [done|]. intros [] g' _. awps. unfold free_block. awps.
  destruct (Dev_CNr _); awps; try (by left). by apply awp_fail.
Qed.

Lemma passes_head tag t : passes now t -> pwp (at_parse_head now tag) (fun b t' => b = true /\ passes now t') t.
Proof using.
  intros Hp. unfold at_parse_head. awps; [|done| |done].
  - eapply (awp_mono _ (fun _ => passes now)).
    + unfold count_measurements, complete. awps; try exact Hp.
      all: try (eapply timing_passes; [|exact Hp]; reflexivity).
      all: try done.
    + intros b t' Hp'. awps; [|done]. unfold publish_result. awps; [|done].
      eapply (awp_mono _ (fun _ => passes now)); [by apply passes_stop|]. intros x t2 Ht2. by awps.
  - match goal with K : (_ >=? _) = false |- _ => rewrite Z.geb_leb in K; apply Z.leb_gt in K end.
    destruct Hp as [[Hf Hg]|Hd]; [|cbn in *; lia].
    match goal with K : (_ || _) = true |- _ => apply orb_true_iff in K as [K|K]; by apply Z.eqb_eq in K end.
Qed.

(** What a complete group does leaves the timing alone. *)
Lemma timing_group svs : akeeps timing (gsv_complete svs).
Proof using.
  assert (akeeps timing update_deviation) as Hdev.
  { unfold update_deviation. akeeps. generalize 0. generalize (Z.to_nat x). intros n.
    induction n as [|n IH]; intros j; cbn [deviation_loop]; unfold block_get; akeeps. }
  assert (akeeps timing (gps_at_command_search_satellite svs)) as Hs
    by (unfold gps_at_command_search_satellite, measured, not_measured, block_set; akeeps).
  unfold gsv_complete, gps_at_command_test_proc. akeeps.
Qed.

End Transparent.

(** Relating the reader's runs, as long as the test's state is in [P]. *)
Section Shadows.
Context `{GpsHeader} `{TimeZone} `{DaemonLink}.
Variable P : at_state -> Prop.
Hypothesis P_timing : forall t t', timing t' = timing t -> P t -> P t'.

(** Without a fault, [m] does with the reader what [m0] does. *)
Definition shadows {A} (m : NM A) (m0 : CM hal A) : Prop := forall w x w',
  P (at_test w) -> m w = inl (x, w') ->
  m0 (nmea w) = Some (x, nmea w') /\ P (at_test w').

(** [m] leaves the reader alone. *)
Definition unseen {A} (m : NM A) : Prop := forall w x w',
  P (at_test w) -> m w = inl (x, w') -> nmea w' = nmea w /\ P (at_test w').

Lemma nm_bind_inv {A B} (m : NM A) (k : A -> NM B) w y w' :
  (x ← m; k x) w = inl (y, w') -> exists x w1, m w = inl (x, w1) /\ k x w1 = inl (y, w').
Proof using. unfold mbind, nm_bind. destruct (m w) as [[x w1]|]; [|done]. by exists x, w1. Qed.

Lemma shadows_bind {A B} (m : NM A) (m0 : CM hal A) (k : A -> NM B) k0 :
  shadows m m0 -> (forall x, shadows (k x) (k0 x)) -> shadows (x ← m; k x) (x ← m0; k0 x).
Proof using.
  intros Hm Hk w y w' Hp (x & w1 & E1 & E2)%nm_bind_inv.
  destruct (Hm _ _ _ Hp E1) as [F1 Hp1]. destruct (Hk _ _ _ _ Hp1 E2) as [F2 Hp2].
  split; [|done]. by rewrite (run_bind _ _ _ _ _ F1).
Qed.

Lemma shadows_ret {A} (x : A) : shadows (mret x) (mret x).
Proof using. by intros w y w' Hp [= <- <-]. Qed.

Lemma shadows_nmea {A} (m : CM hal A) : shadows (on_nmea m) m.
Proof using.
  intros w x w' Hp. unfold on_nmea. destruct (m (nmea w)) as [[y h]|]; [|done]. by intros [= <- <-].
Qed.

Lemma shadows_if {A} (b : bool) (m1 m2 : NM A) n1 n2 :
  shadows m1 n1 -> shadows m2 n2 -> shadows (if b then m1 else m2) (if b then n1 else n2).
Proof using. by destruct b. Qed.

Lemma shadows_when (b : bool) (m : NM unit) n : shadows m n -> shadows (nwhen b m) (cwhen b n).
Proof using. destruct b; [done|]. intros _. apply shadows_ret. Qed.

Lemma shadows_unseen_l {A B} (m : NM A) (k : A -> NM B) n :
  unseen m -> (forall x, shadows (k x) n) -> shadows (x ← m; k x) n.
Proof using.
  intros Hm Hk w y w' Hp (x & w1 & E1 & E2)%nm_bind_inv.
  destruct (Hm _ _ _ Hp E1) as [<- Hp1]. by apply (Hk x).
Qed.

Lemma shadows_unseen_r (m : NM unit) (k : unit -> NM unit) n :
  shadows m n -> (forall x, unseen (k x)) -> shadows (x ← m; k x) n.
Proof using.
  intros Hm Hk w [] w' Hp ([] & w1 & E1 & E2)%nm_bind_inv.
  destruct (Hm _ _ _ Hp E1) as [F1 Hp1]. by destruct (Hk _ _ _ _ Hp1 E2) as [-> Hp2].
Qed.

Lemma unseen_bind {A B} (m : NM A) (k : A -> NM B) :
  unseen m -> (forall x, unseen (k x)) -> unseen (x ← m; k x).
Proof using.
  intros Hm Hk w y w' Hp (x & w1 & E1 & E2)%nm_bind_inv.
  destruct (Hm _ _ _ Hp E1) as [<- Hp1]. by apply (Hk x w1 y).
Qed.

Lemma unseen_get {A} (f : at_reader -> A) : unseen (nget f).
Proof using. by intros w x w' Hp [= _ <-]. Qed.

Lemma unseen_set f : (forall w, nmea (f w) = nmea w /\ at_test (f w) = at_test w) -> unseen (nset f).
Proof using. intros Hf w x w' Hp [= _ <-]. destruct (Hf w) as [-> ->]. done. Qed.

Lemma unseen_lift {A} f (o : option A) : unseen (nlift f o).
Proof using. intros w x w' Hp. unfold nlift. destruct o; [|done]. by intros [= _ <-]. Qed.

Lemma unseen_read {A} (m : CM hal A) : (forall h x h', m h = Some (x, h') -> h' = h) -> unseen (on_nmea m).
Proof using.
  intros Hm w x w' Hp. unfold on_nmea. destruct (m (nmea w)) as [[y h]|] eqn:E; [|done].
  intros [= _ <-]. apply Hm in E as ->. done.
Qed.

Lemma unseen_group svs : unseen (on_test (gsv_complete svs)).
Proof using P_timing.
  intros w x w' Hp. unfold on_test. destruct (gsv_complete svs (at_test w)) as [[y t]|] eqn:E; [|done].
  intros [= _ <-]. split; [done|]. eapply P_timing; [|exact Hp]. by eapply timing_group.
Qed.

Lemma read_tok_int tok h x h' : tok_int tok h = Some (x, h') -> h' = h.
Proof using.
  unfold tok_int, in_mem, clift, mbind, cm_bind. cbn. destruct (tok2int _ tok); [|done]. by intros [= _ <-].
Qed.

Lemma read_lift {A} (o : option A) h x h' : (clift o : CM hal A) h = Some (x, h') -> h' = h.
Proof using. unfold clift. destruct o; [|done]. by intros [= _ <-]. Qed.

Lemma read_reader {A} (f : NmeaReader -> A) h x h' : on_reader (cgets f) h = Some (x, h') -> h' = h.
Proof using. destruct h. by intros [= _ <-]. Qed.

Lemma unseen_store tok_id tok_snr : unseen (store_satellite tok_id tok_snr).
Proof using.
  unfold store_satellite.
  repeat first
    [ apply unseen_bind; [|intros ?]
    | apply unseen_get | apply unseen_lift | by apply unseen_set
    | apply unseen_read, read_tok_int
    | apply unseen_read, read_reader
    | apply unseen_read; by intros h y h' [= _ <-]
    | apply unseen_read, read_lift ].
Qed.

Lemma shadows_gsv_loop update bds tzer n : forall idx,
  shadows (gsv_loop_at update bds tzer idx n) (gsv_loop update bds tzer idx n).
Proof using.
  induction n as [|n IH]; intros idx; cbn [gsv_loop_at gsv_loop]; [apply shadows_ret|].
  apply shadows_bind; [apply shadows_nmea|intros id]. apply shadows_unseen_l; [apply unseen_store|intros _].
  apply shadows_bind; [apply shadows_nmea|intros _]. apply IH.
Qed.

Lemma shadows_gsv update commit reject bds tzer :
  shadows (parse_gsv_at update commit reject bds tzer) (parse_gsv update commit reject bds tzer).
Proof using P_timing.
  unfold parse_gsv_at, parse_gsv.
  do 4 (apply shadows_bind; [apply shadows_nmea|intros ?]).
  apply shadows_bind; [apply shadows_gsv_loop|intros _]. apply shadows_when.
  apply shadows_bind; [apply shadows_nmea|intros c]. apply shadows_if; [|apply shadows_nmea].
  apply shadows_unseen_r; [apply shadows_nmea|intros _].
  apply unseen_bind; [apply unseen_get|intros svs]. apply unseen_group.
Qed.

End Shadows.

Ltac shadows :=
  cbv zeta; repeat lazymatch goal with
  | |- shadows _ (mbind _ _) _ => apply shadows_bind; [|intros ?]
  | |- shadows _ (on_nmea _) _ => apply shadows_nmea
  | |- shadows _ (mret _) _ => apply shadows_ret
  | |- shadows _ (nwhen _ _) _ => apply shadows_when
  | |- shadows _ (if _ then _ else _) _ => apply shadows_if
  | |- shadows _ (parse_gsv_at _ _ _ _ _) _ => apply shadows_gsv, timing_passes
  end.

Section Sentences.
Context `{GpsHeader} `{TimeZone} `{DaemonLink}.
Variable sizeof_GpsCallbacks : Z.
Variable now : Z.

(** ** Sentence by sentence *)

Lemma shadows_sentence tzer mtok :
  shadows (passes now) (parse_sentence_at sizeof_GpsCallbacks now tzer mtok) (parse_sentence sizeof_GpsCallbacks now tzer mtok).
Proof using.
  unfold parse_sentence_at, parse_sentence, parse_gsv_gnss_at, parse_gsv_gnss, parse_gsv_gps_at, parse_gsv_gps.
  shadows.
Qed.

Lemma shadows_parse :
  shadows (passes now) (nmea_reader_parse_at sizeof_GpsCallbacks now) (nmea_reader_parse sizeof_GpsCallbacks now).
Proof using.
  unfold nmea_reader_parse_at. apply shadows_unseen_l; [apply unseen_get|intros tag].
  intros w x w' Hp (go & w1 & E1 & E)%nm_bind_inv. unfold on_test in E1.
  destruct (at_parse_head now tag (at_test w)) as [[b t]|] eqn:Eh; [|done]. injection E1 as <- <-.
  destruct (awp_inl _ _ _ _ _ (passes_head _ _ _ Hp) Eh) as [-> Hp']. cbn [negb] in E.
  change (nmea w) with (nmea (w ⟨ at_test := t ⟩)). revert Hp' E.
  change t with (at_test (w ⟨ at_test := t ⟩)) at 1. generalize (w ⟨ at_test := t ⟩). clear.
  intros w Hp E. revert Hp E. unfold nmea_reader_parse.
  match goal with |- _ -> ?m w = _ -> ?m0 _ = _ /\ _ => enough (shadows (passes now) m m0) as Hs by (intros Hp' E'; exact (Hs _ _ _ Hp' E')) end.
  shadows. apply shadows_sentence.
Qed.

Lemma shadows_addc c :
  shadows (passes now) (nmea_reader_addc_at sizeof_GpsCallbacks now c) (nmea_reader_addc sizeof_GpsCallbacks now c).
Proof using. unfold nmea_reader_addc_at, nmea_reader_addc. shadows. apply shadows_parse. Qed.

Lemma shadows_data buff :
  shadows (passes now) (gps_device_data_at sizeof_GpsCallbacks now buff) (gps_device_data sizeof_GpsCallbacks now buff).
Proof using.
  apply shadows_bind; [apply shadows_nmea|intros _].
  induction buff as [|c buff IH]; cbn [read_loop_at read_loop]; shadows; [apply shadows_addc|exact IH].
Qed.
End Sentences.

(** C39 (equivalence): the AT command test does not disturb the reader.  Whatever
    bytes are read from the device, whatever the reader and the test have gone
    through, as long as the test does not wait for its delay and does not go
    wrong, the reader's state, its reports to the framework and its messages to
    the daemon are those of the build without the test. *)
Theorem at_reader_transparent `{GpsHeader} `{TimeZone} `{DaemonLink} sizeof_GpsCallbacks now buff w w' :
  passes now (at_test w) ->
  gps_device_data_at sizeof_GpsCallbacks now buff w = inl (tt, w') ->
  gps_device_data sizeof_GpsCallbacks now buff (nmea w) = Some (tt, nmea w') /\ passes now (at_test w').
Proof. apply shadows_data. Qed.

(** ** The satellites of a group *)

(** [m] runs without a fault from [w], and ends in [Q]. *)
Definition nwp {A} (m : NM A) (Q : A -> at_reader -> Prop) (w : at_reader) : Prop :=
  match m w with inl (x, w') => Q x w' | inr _ => False end.

Lemma nwp_bind {A B} (m : NM A) (k : A -> NM B) Q w :
  nwp m (fun x => nwp (k x) Q) w -> nwp (x ← m; k x) Q w.
Proof. unfold nwp, mbind, nm_bind. by destruct (m w) as [[x w']|]. Qed.

Lemma nwp_ret {A} (x : A) (Q : A -> at_reader -> Prop) w : Q x w -> nwp (mret x) Q w.
Proof. done. Qed.

Lemma nwp_get {A} (f : at_reader -> A) (Q : A -> at_reader -> Prop) w : Q (f w) w -> nwp (nget f) Q w.
Proof. done. Qed.

Lemma nwp_set f (Q : unit -> at_reader -> Prop) w : Q tt (f w) -> nwp (nset f) Q w.
Proof. done. Qed.

Lemma nwp_lift {A} f (o : option A) (Q : A -> at_reader -> Prop) w x : o = Some x -> Q x w -> nwp (nlift f o) Q w.
Proof. by intros ->. Qed.

Lemma nwp_nmea {A} (m : CM hal A) (Q : A -> at_reader -> Prop) w :
  wp m (fun x h => Q x (w ⟨ nmea := h ⟩)) (nmea w) -> nwp (on_nmea m) Q w.
Proof. unfold nwp, wp, on_nmea. by destruct (m (nmea w)) as [[x h]|]. Qed.

Lemma nwp_mono {A} (m : NM A) (P Q : A -> at_reader -> Prop) w :
  nwp m P w -> (forall x w', P x w' -> Q x w') -> nwp m Q w.
Proof. unfold nwp. destruct (m w) as [[x w']|]; auto. Qed.

Section Group.
Context `{HL : GpsHeaderLaws} `{TimeZone} `{DaemonLink}.

(** One satellite of a GSV sentence for the test: its number as it is written,
    and its C/N0 in whole dB. *)
Definition at_sat_of (bds : bool) (id : Z) (sn : list Z) : list (Z * Z) :=
  if gnss_ignored (if bds then s32 (id + 200) else id) then [] else [(id, d_to_int (field_float sn))].

Fixpoint at_sats_of (bds : bool) (fld : Z -> list Z) (idx : Z) (n : nat) : list (Z * Z) :=
  match n with
  | O => []
  | S n' =>
      let b := 4 * (idx + 1) in
      at_sat_of bds (field_int (fld (b + 0))) (fld (b + 3)) ++ at_sats_of bds fld (idx + 1) n'
  end.

(** The arrays beside the table. *)
Record at_inv (mem used : list Z) (n : Z) (w : at_reader) : Prop := {
  ai_sat : sat_inv mem used n (nmea w);
  ai_prn : length (at_prn w) = 32%nat;
  ai_snr : length (at_snr w) = 32%nat;
}.

Lemma length_satellites mem used n w :
  at_inv mem used n w -> sv_count (reader (nmea w)) <= 32 ->
  Z.of_nat (length (satellites w)) = sv_count (reader (nmea w)).
Proof using.
  intros [[] Hp Hs] Hc. unfold satellites. rewrite length_zip, !length_take. lia.
Qed.

(** The entries of a satellite are written behind those of the group. *)
Lemma nwp_store mem used n w tok_id tok_sn (Q : unit -> at_reader -> Prop) :
  mem_ok mem -> tok_ok mem tok_id -> tok_ok mem tok_sn -> at_inv mem used n w -> sv_count (reader (nmea w)) < 32 ->
  (let c := Z.to_nat (sv_count (reader (nmea w))) in
   Q tt (w ⟨ at_prn := <[c := field_int (token_text mem tok_id)]> (at_prn w) ⟩
           ⟨ at_snr := <[c := d_to_int (field_float (token_text mem tok_sn))]> (at_snr w) ⟩)) ->
  nwp (store_satellite tok_id tok_sn) Q w.
Proof using.
  intros Hm Hi Hn [[Hmem _ _ _ Hcnt] Hp Hs] Hc HQ. unfold store_satellite, tok_int, in_mem.
  apply nwp_bind, nwp_nmea, wp_on_part, wp_gets. apply nwp_bind, nwp_nmea. wps. cbn [reader nmea field_update]. rewrite Hmem.
  eapply wp_lift; [apply tok2int_field; [apply Hm|exact Hi]|].
  apply nwp_bind, nwp_get, nwp_bind. eapply nwp_lift; [apply array_set_Some; cbn; lia|].
  apply nwp_bind, nwp_set, nwp_bind, nwp_nmea. wps. cbn [reader nmea field_update]. rewrite Hmem.
  apply nwp_bind, nwp_nmea. eapply wp_lift; [by apply tok2float_field|].
  apply nwp_bind, nwp_get, nwp_bind. eapply nwp_lift; [apply array_set_Some; cbn; lia|].
  apply nwp_set. cbn in HQ. cbn. destruct w as [[] ? ? ?]. exact HQ.
Qed.

Lemma zip_snoc {A B} (l : list A) (k : list B) c x y :
  (c < length l)%nat -> length l = length k ->
  zip (take (S c) (<[c := x]> l)) (take (S c) (<[c := y]> k)) = zip (take c l) (take c k) ++ [(x, y)].
Proof using.
  intros Hc Hl. erewrite !take_S_r by (apply list_lookup_insert_eq; lia).
  rewrite !take_insert_ge by lia. by rewrite zip_with_app by (rewrite !length_take; lia).
Qed.

Lemma zip_same {A B} (l : list A) (k : list B) c x y :
  zip (take c (<[c := x]> l)) (take c (<[c := y]> k)) = zip (take c l) (take c k).
Proof using. by rewrite !take_insert_ge by lia. Qed.

(** One satellite. *)
Lemma nwp_satellite mem used n (bds : bool) w tok_id ele azi sn :
  mem_ok mem -> length used = 256%nat ->
  tok_ok mem tok_id -> tok_ok mem ele -> tok_ok mem azi -> tok_ok mem sn ->
  at_inv mem used n w -> sv_count (reader (nmea w)) < 32 ->
  let id := field_int (token_text mem tok_id) in
  nwp (_ ← store_satellite tok_id sn;
       on_nmea (nmea_reader_update_sv_status_gnss (if bds then s32 (id + 200) else id) ele azi sn))
    (fun _ w' => at_inv mem used n w' /\ at_test w' = at_test w
       /\ sv_count (reader (nmea w')) <= sv_count (reader (nmea w)) + 1
       /\ satellites w' = take (Z.to_nat (GNSS_MAX_SVS - n)) (satellites w ++ at_sat_of bds id (token_text mem sn))) w.
Proof using HL.
  intros Hm Hu Hi He Ha Hs Hinv Hc id. pose proof (length_satellites _ _ _ _ Hinv ltac:(lia)) as Hlen.
  apply nwp_bind, (nwp_store mem used n); [done..|]. cbv zeta. apply nwp_nmea. cbn [nmea field_update].
  destruct Hinv as [Hsat Hp Hsn].
  eapply wp_mono; [by apply (wp_update_gnss mem used n)|]. cbn beta.
  set (sid := if bds then s32 (id + 200) else id). intros _ h (Hsat' & Hle & Hv).
  pose proof (length_visible _ _ _ _ Hsat) as Hl1. pose proof (length_visible _ _ _ _ Hsat') as Hl2.
  pose proof (si_count _ _ _ _ Hsat) as Hcnt. pose proof (si_count _ _ _ _ Hsat') as Hcnt'.
  rewrite Hv, length_take, length_app in Hl2.
  assert (length (sat_of used sid (token_text mem ele) (token_text mem azi) (token_text mem sn))
    = length (at_sat_of bds id (token_text mem sn))) as Hsame
    by (unfold sat_of, at_sat_of; fold sid; by destruct (gnss_ignored sid)).
  rewrite Hsame in Hl2.
  assert (at_sat_of bds id (token_text mem sn) = [] \/
    at_sat_of bds id (token_text mem sn) = [(id, d_to_int (field_float (token_text mem sn)))]) as Hcase
    by (unfold at_sat_of; destruct (gnss_ignored _); auto).
  split; [split; cbn; rewrite ?length_insert; done|]. split; [done|].
  unfold satellites at 1. cbn [nmea at_prn at_snr field_update].
  destruct (Z.eq_dec (sv_count (reader h)) (sv_count (reader (nmea w)))) as [E|E].
  - split; [cbn; lia|]. rewrite E, zip_same. fold (satellites w).
    destruct Hcase as [-> | Hone]; [rewrite app_nil_r, take_ge by lia; done|].
    rewrite Hone in Hl2 |- *. cbn [length] in Hl2.
    rewrite (take_app_le (satellites w)) by lia. symmetry. apply (take_ge (satellites w)). lia.
  - destruct Hcase as [Hnil|Hone]; [rewrite Hnil in Hl2; cbn [length] in Hl2; lia|].
    rewrite Hone in Hl2 |- *. cbn [length] in Hl2. split; [cbn; lia|].
    replace (Z.to_nat (sv_count (reader h))) with (S (Z.to_nat (sv_count (reader (nmea w))))) by lia.
    rewrite zip_snoc by lia. symmetry. apply (take_ge (satellites w ++ _)). rewrite length_app. cbn [length]. lia.
Qed.

Lemma nwp_gsv_loop_at mem used n bds tz idx k w :
  mem_ok mem -> length used = 256%nat -> tz_ok mem tz -> at_inv mem used n w ->
  sv_count (reader (nmea w)) + Z.of_nat k <= 32 ->
  nwp (gsv_loop_at nmea_reader_update_sv_status_gnss bds tz idx k)
    (fun _ w' => at_inv mem used n w' /\ at_test w' = at_test w
       /\ sv_count (reader (nmea w')) <= 32
       /\ satellites w' = take (Z.to_nat (GNSS_MAX_SVS - n))
            (satellites w ++ at_sats_of bds (fun i => token_text mem (nmea_tokenizer_get tz i)) idx k)) w.
Proof using HL.
  intros Hm Hu Htz. revert idx w. induction k as [|k IH]; intros idx w Hinv Hc; cbn [gsv_loop_at at_sats_of].
  { apply nwp_ret. split; [done|]. split; [done|]. split; [lia|]. rewrite app_nil_r, take_ge; [done|].
    pose proof (length_satellites _ _ _ _ Hinv ltac:(lia)). destruct Hinv as [[] _ _]. lia. }
  apply nwp_bind, nwp_nmea. unfold tok_int, in_mem. wps. rewrite (si_mem _ _ _ _ (ai_sat _ _ _ _ Hinv)).
  eapply wp_lift; [apply tok2int_field; [apply Hm|apply Htz]|].
  replace (w ⟨ nmea := nmea w ⟩) with w by (by destruct w).
  match goal with |- nwp (_ ← ?a; _ ← ?b; ?c) _ _ =>
    enough (nwp (_ ← (_ ← a; b); c) (fun _ w' => at_inv mem used n w' /\ at_test w' = at_test w
       /\ sv_count (reader (nmea w')) <= 32
       /\ satellites w' = take (Z.to_nat (GNSS_MAX_SVS - n)) (satellites w ++
         (at_sat_of bds (field_int (token_text mem (nmea_tokenizer_get tz (4 * (idx + 1) + 0))))
            (token_text mem (nmea_tokenizer_get tz (4 * (idx + 1) + 3)))
          ++ at_sats_of bds (fun i => token_text mem (nmea_tokenizer_get tz i)) (idx + 1) k))) w) as Hn
  end.
  { revert Hn. unfold nwp, mbind, nm_bind. by destruct (store_satellite _ _ w) as [[[] w1]|]. }
  apply nwp_bind. eapply nwp_mono; [eapply (nwp_satellite mem used n); first [done|apply Htz|lia]|]. cbn beta.
  intros _ w1 (Hinv1 & Ht1 & Hc1 & Hs1). eapply nwp_mono; [apply IH; [done|lia]|]. cbn beta.
  intros _ w2 (Hinv2 & Ht2 & Hc2 & Hs2). split; [done|]. split; [congruence|]. split; [done|].
  by rewrite Hs2, Hs1, take_take_app, app_assoc.
Qed.

Lemma run_nm_bind {A B} (m : NM A) (k : A -> NM B) w x w' : m w = inl (x, w') -> (y ← m; k y) w = k x w'.
Proof using. unfold mbind, nm_bind. by intros ->. Qed.

Lemma run_on_nmea {A} (m : CM hal A) w x h : m (nmea w) = Some (x, h) -> on_nmea m w = inl (x, w ⟨ nmea := h ⟩).
Proof using. unfold on_nmea. by intros ->. Qed.

Lemma same_nmea w : w ⟨ nmea := nmea w ⟩ = w.
Proof using. by destruct w. Qed.

Lemma run_field tz mem i w :
  mem_ok mem -> tz_ok mem tz -> in_ (reader (nmea w)) = mem ->
  on_nmea (tok_int (nmea_tokenizer_get tz i)) w = inl (field_int (token_text mem (nmea_tokenizer_get tz i)), w).
Proof using.
  intros Hm Htz Hmem. rewrite (run_on_nmea _ _ (field_int (token_text mem (nmea_tokenizer_get tz i))) (nmea w)); [by rewrite same_nmea|].
  unfold tok_int, in_mem, clift, cgets. cbv [mbind cm_bind mret cm_ret]. rewrite Hmem.
  by rewrite (tok2int_field mem) by (apply Hm || apply Htz).
Qed.

(** The sentence up to its last satellite. *)
Definition gsv_state (seq : Z) (w : at_reader) : at_reader :=
  if seq =? 1 then w ⟨ nmea $= fun h => h ⟨ reader $= fun r => r ⟨ sv_count := 0 ⟩ ⟩ ⟩ else w.

(** The test's part of the end of a group. *)
Definition group_step (last : bool) (cnt : Z) (svs : list (Z * Z)) (t : at_state) : (unit * at_state) + fault :=
  if last && (Z.of_nat (length svs) <=? cnt) then gsv_complete svs t else inl (tt, t).

Lemma run_gsv_at bds mem tz w num seq cnt :
  let fld i := token_text mem (nmea_tokenizer_get tz i) in
  let k := Z.to_nat (gsv_sv_num seq cnt) in
  let start := gsv_state seq w in
  mem_ok mem -> tz_ok mem tz -> in_ (reader (nmea w)) = mem ->
  num = field_int (fld 1) -> seq = field_int (fld 2) -> cnt = field_int (fld 3) ->
  parse_gsv_gnss_at bds tz w
  = (_ ← gsv_loop_at nmea_reader_update_sv_status_gnss bds tz 0 k;
     nwhen (seq =? num)
       (c ← on_nmea (on_reader (cgets sv_count));
        if c <=? cnt then
          _ ← on_nmea (on_reader (cmodify (fun r => r ⟨ sv_status_gnss $= fun s =>
                s ⟨ num_svs $= fun n => s32 (n + sv_count r) ⟩ ⟩)));
          svs ← nget satellites;
          on_test (gsv_complete svs)
        else on_nmea (on_reader (cmodify (fun r => r ⟨ sv_count := 0 ⟩
               ⟨ sv_status_gnss $= fun s => s ⟨ num_svs := 0 ⟩ ⟩))))) start.
Proof using.
  intros fld k start Hm Htz Hmem Hnum Hseq Hcnt. unfold parse_gsv_gnss_at, parse_gsv_at.
  do 3 (rewrite (run_nm_bind _ _ _ _ _ (run_field tz mem _ w Hm Htz Hmem))).
  fold fld. fold (fld 1) (fld 2) (fld 3). rewrite <-Hnum, <-Hseq, <-Hcnt.
  subst start k. unfold gsv_state. destruct (seq =? 1) eqn:E; cbn [cwhen].
  - by rewrite (run_nm_bind _ _ _ _ _ (run_on_nmea _ _ tt _ (eq_refl _))).
  - rewrite (run_nm_bind _ _ _ _ _ (run_on_nmea _ _ tt _ (eq_refl _))). by rewrite same_nmea.
Qed.

(** C38 (refinement): one GSV sentence (message [seq] of [num] of a group that
    announces [cnt] satellites) on the abstract list of the group's satellites.
    While the group has at most 32 of them, the arrays beside the table hold
    exactly the satellites that the table takes, in their order; the last
    message hands them to the test, unless the group has more satellites than
    announced, in which case the group is dropped; the reader does what it does
    without the test.  What the sentence does wrong, the test does. *)
Theorem at_gsv_refines (bds : bool) (mem : list Z) (tz : NmeaTokenizer) (w : at_reader) (num seq cnt : Z) :
  let fld i := token_text mem (nmea_tokenizer_get tz i) in
  let k := Z.to_nat (gsv_sv_num seq cnt) in
  let n := num_svs (sv_status_gnss (reader (nmea w))) in
  let start := gsv_state seq w in
  mem_ok mem -> tz_ok mem tz ->
  num = field_int (fld 1) -> seq = field_int (fld 2) -> cnt = field_int (fld 3) ->
  length (sv_used_in_fix (nmea w)) = 256%nat ->
  at_inv mem (sv_used_in_fix (nmea w)) n start ->
  sv_count (reader (nmea start)) + Z.of_nat k <= 32 ->
  let group := take (Z.to_nat (GNSS_MAX_SVS - n)) (satellites start ++ at_sats_of bds fld 0 k) in
  let rejected := (seq =? num) && (cnt <? Z.of_nat (length group)) in
  match group_step (seq =? num) cnt group (at_test w) with
  | inl (_, t) =>
      exists w', parse_gsv_gnss_at bds tz w = inl (tt, w')
        /\ at_test w' = t /\ satellites w' = (if rejected then [] else group)
        /\ parse_gsv_gnss bds tz (nmea w) = Some (tt, nmea w')
  | inr f => parse_gsv_gnss_at bds tz w = inr f
  end.
Proof using HL.
  intros fld k n start Hm Htz Hnum Hseq Hcnt Hused Hinv Hk group rejected.
  assert (in_ (reader (nmea w)) = mem) as Hmem
    by (rewrite <-(si_mem _ _ _ _ (ai_sat _ _ _ _ Hinv)); subst start; unfold gsv_state; by destruct (seq =? 1)).
  assert (at_test start = at_test w) as Ht by (subst start; unfold gsv_state; by destruct (seq =? 1)).
  assert (Hplain := shadows_gsv (fun _ => True) (fun _ _ _ _ => I) nmea_reader_update_sv_status_gnss
    (on_reader (cmodify (fun r => r ⟨ sv_status_gnss $= fun s => s ⟨ num_svs $= fun n => s32 (n + sv_count r) ⟩ ⟩)))
    (on_reader (cmodify (fun r => r ⟨ sv_count := 0 ⟩ ⟨ sv_status_gnss $= fun s => s ⟨ num_svs := 0 ⟩ ⟩)))
    bds tz w tt).
  fold (parse_gsv_gnss_at bds tz) in Hplain. fold (parse_gsv_gnss bds tz) in Hplain.
  rewrite (run_gsv_at bds mem tz w num seq cnt) in Hplain |- * by done.
  pose proof (nwp_gsv_loop_at mem _ n bds tz 0 k start Hm Hused Htz Hinv Hk) as Hloop. unfold nwp in Hloop.
  fold fld k start in Hplain |- *. fold fld group in Hloop.
  destruct (gsv_loop_at _ _ _ _ _ start) as [[[] w1]|f] eqn:E1; [|done].
  destruct Hloop as (Hinv1 & Ht1 & Hc1 & Hs1). rewrite Ht in Ht1.
  rewrite (run_nm_bind _ _ _ _ _ E1) in Hplain |- *.
  pose proof (length_satellites _ _ _ _ Hinv1 Hc1) as Hlen. rewrite Hs1 in Hlen.
  unfold group_step, rejected in *. destruct (seq =? num); cbn [andb nwhen] in *.
  2: { exists w1. split; [done|]. split; [done|]. split; [done|]. by apply (Hplain w1 I). }
  rewrite (run_nm_bind _ _ w1 (sv_count (reader (nmea w1))) w1) in Hplain |- *
    by (unfold on_nmea; cbn; by destruct w1 as [[] ? ? ?]).
  rewrite Hlen. rewrite Z.ltb_antisym. destruct (sv_count (reader (nmea w1)) <=? cnt); cbn [negb].
  - rewrite (run_nm_bind _ _ w1 _ _ (run_on_nmea _ _ tt _ (eq_refl _))) in Hplain |- *.
    set (w2 := w1 ⟨ nmea := _ ⟩) in *.
    assert (satellites w2 = group) as Hs2 by (rewrite <-Hs1; subst w2; by destruct w1 as [[] ? ? ?]).
    rewrite (run_nm_bind _ _ w2 (satellites w2) w2) in Hplain |- * by done.
    rewrite Hs2 in Hplain |- *. unfold on_test in Hplain |- *.
    replace (at_test w2) with (at_test w) in Hplain |- * by (rewrite <-Ht1; subst w2; by destruct w1).
    destruct (gsv_complete group (at_test w)) as [[[] t]|f]; [|done].
    eexists. split; [done|]. split; [done|]. split; [exact Hs2|]. exact (proj1 (Hplain _ I eq_refl)).
  - rewrite (run_on_nmea _ w1 tt _ (eq_refl _)) in Hplain |- *.
    eexists. split; [done|]. split; [done|]. split; [done|]. exact (proj1 (Hplain _ I eq_refl)).
Qed.
End Group.

(** ** A test on a sentence

    A group of one sentence and three satellites, while a test of three
    measurements of satellite 1 is running. *)
Definition group_memory : list Z :=
  zs "GPGSV,1,1,03,04,75,001,42,01,40,083,46.5,16,17,308,41" ++ zeros 76.

Definition group_tokens : NmeaTokenizer := default (MkTokenizer 0 []) (nmea_tokenizer_init group_memory 0 53).

Definition test_running : at_state :=
  (at_boot (gps_boot ⟨ init := 1 ⟩)) ⟨ MNL_AT_TEST_FLAG := 1 ⟩ ⟨ hal_test_num := 3 ⟩ ⟨ hal_prn_num := GPS_TEST_PRN ⟩
    ⟨ hal_time_delay := 2 ⟩ ⟨ start_time := 100 ⟩ ⟨ Dev_CNr := Block [0; 0; 0] ⟩.

Definition group_start (t : at_state) : at_reader :=
  MkAtReader (gsv_hal ⟨ reader $= fun r => r ⟨ in_ := group_memory ⟩ ⟩) t (zeros 32) (zeros 32).

Theorem at_gsv_refines_witness :
  exists w', @parse_gsv_gnss_at aosp_gps_h false group_tokens (group_start test_running) = inl (tt, w')
    /\ satellites w' = [(4, 42); (1, 46); (16, 41)] /\ Success_Num (at_test w') = 1 /\ Avg_CNo (at_test w') = 460
    /\ Dev_CNr (at_test w') = Block [460; 0; 0].
Proof.
  assert (Hwf : tokenizer_wf 0 53 group_tokens /\ 53 < Z.of_nat (length group_memory)).
  { split; [|vm_compute; reflexivity].
    split; [reflexivity|]. split; [vm_compute; discriminate|]. by_decide. }
  assert (Hrun : match group_step true 3 [(4, 42); (1, 46); (16, 41)] test_running with
    | inl (_, t) => Success_Num t = 1 /\ Avg_CNo t = 460 /\ Dev_CNr t = Block [460; 0; 0]
    | inr _ => False
    end) by (vm_compute; tauto).
  pose proof (@at_gsv_refines aosp_gps_h aosp_gps_h_laws false group_memory group_tokens (group_start test_running) 1 1 3) as Ht.
  cbv zeta in Ht.
  match type of Ht with context [take ?n ?l] =>
    assert (E : take n l = [(4, 42); (1, 46); (16, 41)]) by (vm_compute; reflexivity);
    set (g := take n l) in Ht, E; clearbody g; subst g end.
  change (1 =? 1) with true in Ht. change (at_test (group_start test_running)) with test_running in Ht.
  destruct (group_step true 3 [(4, 42); (1, 46); (16, 41)] test_running) as [[u t]|f]; [|destruct Hrun].
  destruct Ht as (w' & Hw & Htest & Hsat & _).
  - by_decide.
  - intros i. eapply tokenizer_get_ok; [|apply Hwf|apply Hwf]. lia.
  - vm_compute; reflexivity.
  - vm_compute; reflexivity.
  - vm_compute; reflexivity.
  - reflexivity.
  - split; [split; [reflexivity..|]; cbn; lia|reflexivity..].
  - vm_compute. discriminate.
  - exists w'. rewrite Hsat, Htest. split; [exact Hw|]. split; [reflexivity|exact Hrun].
Defined.

(** One sentence as the device delivers it; the test measures the C/N0 of
    satellite 1. *)
Definition group_bytes : list Z :=
  zs "$GPGSV,1,1,02,04,75,001,42,01,40,083,46,*7A" ++ [10].

Definition reader_start (t : at_state) : option at_reader :=
  r ← nmea_reader_init (H := aosp_gps_h) (H0 := fixed_zone 0) 0 (gmtime 0);
  Some (MkAtReader (MkHal r (zeros 256) 0 1 100 [] []) t (zeros 32) (zeros 32)).

Definition sample_device_data (now : Z) (buff : list Z) (t : at_state) : option ((unit * at_reader) + fault) :=
  w ← reader_start t; Some (@gps_device_data_at aosp_gps_h (fixed_zone 0) quiet_link 100 now buff w).

Theorem at_reader_transparent_witness :
  exists w w', reader_start test_running = Some w
    /\ @gps_device_data_at aosp_gps_h (fixed_zone 0) quiet_link 100 200 group_bytes w = inl (tt, w')
    /\ @gps_device_data aosp_gps_h (fixed_zone 0) 100 200 group_bytes (nmea w) = Some (tt, nmea w')
    /\ Dev_CNr (at_test w') = Block [460; 0; 0].
Proof.
  destruct (reader_start test_running) as [w|] eqn:Ew; [|vm_compute in Ew; discriminate].
  destruct (@gps_device_data_at aosp_gps_h (fixed_zone 0) quiet_link 100 200 group_bytes w) as [[[] w']|f] eqn:E;
    vm_compute in Ew; injection Ew as <-; [|vm_compute in E; discriminate].
  eexists _, w'. split; [reflexivity|]. split; [exact E|]. split.
  - refine (proj1 (@at_reader_transparent aosp_gps_h (fixed_zone 0) quiet_link 100 200 group_bytes _ w' _ E)). right. vm_compute. discriminate.
  - vm_compute in E. injection E as <-. reflexivity.
Defined.

(** Before its delay is over, a test keeps the reader from the sentences. *)
Example sentences_dropped :
  match sample_device_data 101 group_bytes test_running with
  | Some (inl (_, w)) => satellites w = [] /\ Dev_CNr (at_test w) = Block [0; 0; 0]
  | _ => False
  end.
Proof. vm_compute. split; reflexivity. Qed.

(** Message [i] of a group of 36 satellites. *)
Definition message (i : string) : list Z :=
  zs ("$GPGSV,9," ++ i ++ ",36,01,40,083,46,02,75,001,42,03,75,001,42,04,75,001,42,*7A") ++ [10].

(** With or without a test, the 33rd satellite is stored past the arrays. *)
Example satellite_33 :
  let first := concat (message <$> ["1"; "2"; "3"; "4"; "5"; "6"; "7"; "8"]%string) in
  match sample_device_data 200 first (at_boot gps_boot) with
  | Some (inl (_, w)) => length (satellites w) = 32%nat
  | _ => False
  end /\ sample_device_data 200 (first ++ message "9") (at_boot gps_boot) = Some (inr OutOfBounds).
Proof. vm_compute. split; reflexivity. Qed.
