(* ===== verification/Modules.v ===== *)
(** * The hardware modules: how the framework opens and closes the HALs
      (open_lights and close_lights in liblights/lights.c, open_gps in
      gps_mtk_aosp.c, legacy_adev_open in audio/audio.cpp)

    A device is a structure on the heap; the framework reaches the operations
    of a HAL, and its close, through the device's members.  [None] is a store
    through NULL, an access to freed memory or a call through NULL. *)

From stdpp Require Import gmap.
From S2P Require Import Prelude Lights NmeaReader HalBuff Calendar EpoTime EpoConf EpoDownload Daemon Hal Device.
#[local] Open Scope Z_scope.

(** hardware/hardware.h *)
Class HardwareHeader := { HARDWARE_DEVICE_TAG : Z }.

(** malloc, given the addresses in use; [None] is NULL. *)
Class Allocator := {
  malloc : gset Z -> option Z;
  malloc_fresh used p : malloc used = Some p -> p ∉ used;
}.

(** ** State *)

(** The functions that a device's members point to. *)
Inductive close_fn := CloseLights.
Inductive operation := SetLight (f : set_light_fn) | GetGpsInterface.

(** struct hw_device_t with the member that a module adds to it *)
Record hw_device := MkDevice {
  tag : Z;
  version : Z;
  module : Z;
  close : option close_fn;
  op : option operation;
}.

#[export] Instance hw_device_rebuild : Rebuild hw_device := fun r =>
  MkDevice (tag r) (version r) (module r) (close r) (op r).

Definition device_zero : hw_device := MkDevice 0 0 0 None None.

Record hw := MkHw {
  heap : gmap Z hw_device;
  device : option Z;                  (* the caller's *device, if it is set *)
  hw_lights : lights;
  hw_gps : dev;
  libraries : nat;                    (* open handles of the audio module *)
}.

#[export] Instance hw_rebuild : Rebuild hw := fun r =>
  MkHw (heap r) (device r) (hw_lights r) (hw_gps r) (libraries r).

(** ** Operations *)

Section Modules.
Context `{HardwareHeader} `{Allocator}.
Context (os : list syscall -> syscall -> Z).
Context (os_sleep : list syscall -> list sleep_answer).
Context (LIGHT_ID : list (list Z)).

Definition on_lights {A} (m : ST lights A) : CM hw A :=
  on_part hw_lights (fun l s => s ⟨ hw_lights := l ⟩) (fun l => Some (m l)).

(** A pointer that malloc returns. *)
Definition new_device : CM hw (option Z) :=
  p ← cgets (fun s => malloc (dom (heap s)));
  match p with
  | None => mret None
  | Some p => _ ← cmodify (fun s => s ⟨ heap $= <[p := device_zero]> ⟩); mret (Some p)
  end.

(** [p->...], and the stores through it *)
Definition deref (p : Z) : CM hw hw_device := h ← cgets heap; clift (h !! p).

Definition write_device (p : Z) (f : hw_device -> hw_device) : CM hw unit :=
  d ← deref p; cmodify (fun s => s ⟨ heap $= <[p := f d]> ⟩).

Definition open_lights_device (mod_ : Z) (name : list Z) : CM hw Z :=
  r ← on_lights (open_lights os LIGHT_ID name);
  match r with
  | inl err => mret err
  | inr f =>
      p ← new_device;
      p ← clift p;                    (* memset *)
      _ ← write_device p (fun d => d ⟨ tag := HARDWARE_DEVICE_TAG ⟩ ⟨ version := 0 ⟩ ⟨ module := mod_ ⟩
                                     ⟨ close := Some CloseLights ⟩ ⟨ op := Some (SetLight f) ⟩);
      _ ← cmodify (fun s => s ⟨ device := Some p ⟩);
      mret 0
  end.

(** [dev] is not NULL where it is called. *)
Definition close_lights (p : Z) : CM hw Z :=
  _ ← deref p;
  _ ← cmodify (fun s => s ⟨ heap $= delete p ⟩);
  mret 0.

Definition open_gps (mod_ : Z) : CM hw Z :=
  p ← new_device;
  match p with
  | Some p =>
      _ ← write_device p (fun d => d ⟨ tag := HARDWARE_DEVICE_TAG ⟩ ⟨ version := 0 ⟩ ⟨ module := mod_ ⟩
                                     ⟨ op := Some GetGpsInterface ⟩);
      _ ← cmodify (fun s => s ⟨ device := Some p ⟩);
      mret 0
  | None => mret 0
  end.

(** What the framework calls through a device. *)
Definition set_light_of (p : Z) (st : light_state_t) : CM hw Z :=
  d ← deref p;
  match op d with
  | Some (SetLight f) => on_lights (set_light os os_sleep f st)
  | _ => clift None
  end.

Definition gps_interface_of (p fd : Z) : CM hw unit :=
  d ← deref p;
  match op d with
  | Some GetGpsInterface => on_part hw_gps (fun g s => s ⟨ hw_gps := g ⟩) (gps__get_gps_interface fd)
  | _ => clift None
  end.

Definition close_of (p : Z) : CM hw Z :=
  d ← deref p;
  match close d with
  | Some CloseLights => close_lights p
  | None => clift None
  end.

(** The audio module passes the call on to libaudio.primary.default.so.
    [loads] and [finds]: what dlopen and dlsym answer; [default_open]: the open
    of the library. *)
Definition legacy_adev_open (loads finds : bool) (default_open : Z -> list Z -> CM hw Z) (mod_ : Z) (name : list Z) : CM hw Z :=
  if negb loads then mret (-1)
  else
    _ ← cmodify (fun s => s ⟨ libraries $= S ⟩);
    if negb finds then mret (-1) else default_open mod_ name.

(** The calls of a framework that uses the lights. *)
Inductive light_call :=
  | OpenLight (name : list Z)
  | SetLightOf (p : Z) (st : light_state_t)
  | CloseLight (p : Z).

Definition light_step (mod_ : Z) (c : light_call) : CM hw Z :=
  match c with
  | OpenLight name => open_lights_device mod_ name
  | SetLightOf p st => set_light_of p st
  | CloseLight p => close_of p
  end.

Fixpoint light_run (mod_ : Z) (cs : list light_call) : CM hw (list Z) :=
  match cs with
  | [] => mret []
  | c :: cs' => r ← light_step mod_ c; rs ← light_run mod_ cs'; mret (r :: rs)
  end.

(** ** Specification

    A framework has opened lights, each with its own device, and operates on
    those that it has not closed; it is wrong to use a device that is not open,
    and fatal to run out of memory. *)

Record lamps := MkLamps {
  lit : gmap Z set_light_fn;          (* the open lights *)
  last : option Z;                    (* the one opened last *)
  shared : lights;                    (* what all of them share, Lights.v *)
}.

Definition spec_step (c : light_call) (s : lamps) : option (Z * lamps) :=
  let '(MkLamps A d l) := s in
  match c with
  | OpenLight name =>
      let l' := run_op os os_sleep LIGHT_ID (OpOpen name) l in
      match fst (open_lights os LIGHT_ID name l) with
      | inl err => Some (err, MkLamps A d l')
      | inr f => p ← malloc (dom A); Some (0, MkLamps (<[p := f]> A) (Some p) l')
      end
  | SetLightOf p st =>
      f ← A !! p;
      Some (fst (set_light os os_sleep f st l), MkLamps A d (run_op os os_sleep LIGHT_ID (OpSet f st) l))
  | CloseLight p => _ ← A !! p; Some (0, MkLamps (delete p A) d l)
  end.

Fixpoint spec_run (cs : list light_call) (s : lamps) : option (list Z * lamps) :=
  match cs with
  | [] => Some ([], s)
  | c :: cs' => '(r, s') ← spec_step c s; '(rs, s'') ← spec_run cs' s'; Some (r :: rs, s'')
  end.

(** The device of a light. *)
Definition lamp (mod_ : Z) (f : set_light_fn) : hw_device :=
  MkDevice HARDWARE_DEVICE_TAG 0 mod_ (Some CloseLights) (Some (SetLight f)).

(** The state [s] represents [a]. *)
Definition represents (mod_ : Z) (s : hw) (a : lamps) : Prop :=
  heap s = lamp mod_ <$> lit a /\ device s = last a /\ hw_lights s = shared a.

(** Both are wrong, or both give the same result and related states. *)
Definition agree {A} (R : hw -> lamps -> Prop)
    (o : option (A * hw)) (a : option (A * lamps)) : Prop :=
  match o, a with
  | Some (x, s), Some (y, b) => x = y /\ R s b
  | None, None => True
  | _, _ => False
  end.

Lemma run_deref {A} mod_ s a p (k : hw_device -> CM hw A) :
  represents mod_ s a ->
  (d ← deref p; k d) s = match lit a !! p with Some f => k (lamp mod_ f) s | None => None end.
Proof.
  intros [Hh _]. unfold deref, clift. cbv [mbind cm_bind cgets option_bind].
  rewrite Hh, lookup_fmap. destruct (lit a !! p); reflexivity.
Qed.

Lemma agree_step mod_ c s a : represents mod_ s a -> agree (represents mod_) (light_step mod_ c s) (spec_step c a).
Proof.
  intros Hr. destruct a as [A e l]. pose proof Hr as (Hh & Hd & Hl). cbn [lit last shared] in Hh, Hd, Hl.
  destruct c as [name|p st|p]; cbn [light_step spec_step].
  - unfold open_lights_device, on_lights, on_part, run_op. unfold mbind at 1, cm_bind. cbn [mbind option_bind].
    rewrite Hl. destruct (open_lights os LIGHT_ID name l) as [[err|f] l']; [by split_and!|].
    cbn [fst snd]. unfold new_device. cbv [mbind cm_bind cgets cmodify mret cm_ret clift option_bind].
    cbn [heap field_update]. rewrite Hh, dom_fmap_L.
    destruct (malloc (dom A)) as [p|] eqn:Em; [|done].
    unfold write_device, deref. cbv [mbind cm_bind cgets cmodify mret cm_ret clift option_bind].
    cbn. rewrite lookup_insert_eq. cbn. split; [done|]. split; [|done]. cbn. by rewrite insert_insert_eq, Hh, fmap_insert.
  - unfold set_light_of. rewrite (run_deref mod_ s (MkLamps A e l)) by done. cbn [lit].
    destruct (A !! p) as [f|]; [|done]. unfold lamp, on_lights, on_part, run_op. cbn. rewrite Hl.
    destruct (set_light os os_sleep f st l). by split_and!.
  - unfold close_of, close_lights. rewrite (run_deref mod_ s (MkLamps A e l)) by done. cbn [lit].
    destruct (A !! p) as [f|] eqn:Ep; [|done]. cbn [lamp close]. rewrite (run_deref mod_ s (MkLamps A e l)) by done.
    cbn. rewrite Ep. split; [done|]. split; cbn; [|done]. by rewrite Hh, fmap_delete.
Qed.

Lemma agree_run mod_ cs : forall s a, represents mod_ s a -> agree (represents mod_) (light_run mod_ cs s) (spec_run cs a).
Proof.
  induction cs as [|c cs IH]; intros s a Hr; cbn [light_run spec_run]; [done|].
  pose proof (agree_step mod_ c s a Hr) as Hs. unfold mbind, cm_bind at 1.
  destruct (light_step mod_ c s) as [[x s1]|], (spec_step c a) as [[y a1]|]; try done. cbn in Hs |- *.
  destruct Hs as [<- Hr1]. specialize (IH s1 a1 Hr1). unfold cm_bind.
  destruct (light_run mod_ cs s1) as [[xs s2]|], (spec_run cs a1) as [[ys a2]|]; try done. cbn in IH |- *.
  by destruct IH as [<- ?].
Qed.

(** What a framework does to the lights is a history of Lights.v. *)
Lemma spec_step_reachable c a r a' :
  spec_step c a = Some (r, a') -> reachable os os_sleep LIGHT_ID (shared a) -> reachable os os_sleep LIGHT_ID (shared a').
Proof.
  destruct a as [A e l]. intros Hs Hr. destruct c as [name|p st|p]; cbn [spec_step shared] in Hs, Hr.
  - pose proof (reach_op os os_sleep LIGHT_ID (OpOpen name) l Hr) as Hr'.
    destruct (fst _) as [err|f]; [by injection Hs as <- <-|].
    destruct (malloc _); [|done]. by injection Hs as <- <-.
  - destruct (A !! p) as [f|]; [|done]. injection Hs as <- <-. exact (reach_op os os_sleep LIGHT_ID (OpSet f st) l Hr).
  - destruct (A !! p); [|done]. by injection Hs as <- <-.
Qed.

Lemma spec_run_reachable cs : forall a rs a',
  spec_run cs a = Some (rs, a') -> reachable os os_sleep LIGHT_ID (shared a) -> reachable os os_sleep LIGHT_ID (shared a').
Proof.
  induction cs as [|c cs IH]; intros a rs a'; cbn [spec_run]; [by intros [= _ <-]|].
  destruct (spec_step c a) as [[r a1]|] eqn:E; [|done]. cbn.
  destruct (spec_run cs a1) as [[rs' a2]|] eqn:E2; [|done]. intros [= _ <-] Hr.
  eapply IH; [done|]. by eapply spec_step_reachable.
Qed.

(** A new device has an address of its own. *)
Lemma run_new {A} s (k : option Z -> CM hw A) :
  (p ← new_device; k p) s
  = match malloc (dom (heap s)) with
    | Some p => k (Some p) (s ⟨ heap $= <[p := device_zero]> ⟩)
    | None => k None s
    end.
Proof.
  unfold new_device. cbv [mbind cm_bind cgets cmodify]. by destruct (malloc (dom (heap s))).
Qed.

(** What becomes of the GPS module.  With memory, the caller gets a device with
    an address of its own, on which the interface can be had and the sockets of
    the HAL are set, but which cannot be closed: its close is NULL.  Without
    memory the call still returns 0, and *device is what it was. *)
Lemma open_gps_result mod_ s :
  exists s', open_gps mod_ s = Some (0, s') /\
    match malloc (dom (heap s)) with
    | None => s' = s
    | Some p =>
        heap s !! p = None /\ device s' = Some p
        /\ heap s' = <[p := MkDevice HARDWARE_DEVICE_TAG 0 mod_ None (Some GetGpsInterface)]> (heap s)
        /\ close_of p s' = None
        /\ forall fd, exists s'', gps_interface_of p fd s' = Some (tt, s'')
           /\ sock (d_gps (hw_gps s'')) = fd /\ send_fd (d_gps (hw_gps s'')) = fd
    end.
Proof.
  unfold open_gps. rewrite run_new. destruct (malloc (dom (heap s))) as [p|] eqn:Em; [|by exists s].
  apply malloc_fresh, not_elem_of_dom in Em.
  unfold write_device, deref, clift. cbv [mbind cm_bind cgets cmodify mret cm_ret option_bind]. cbn.
  rewrite lookup_insert_eq. cbn. eexists. split; [done|]. cbn. rewrite insert_insert_eq.
  split; [done|]. split; [done|]. split; [done|]. split.
  - unfold close_of, deref, clift. cbv [mbind cm_bind cgets option_bind]. cbn. by rewrite lookup_insert_eq.
  - intros fd. unfold gps_interface_of, deref, clift. cbv [mbind cm_bind cgets option_bind]. cbn.
    rewrite lookup_insert_eq. cbn. eexists. by repeat split.
Qed.

(** The audio module: without the library or its symbol the answer is -1 and
    no device; the handle of a library without the symbol is not closed. *)
Lemma legacy_adev_open_result loads finds default_open mod_ name s :
  legacy_adev_open loads finds default_open mod_ name s
  = if loads then
      if finds then default_open mod_ name (s ⟨ libraries $= S ⟩)
      else Some (-1, s ⟨ libraries $= S ⟩)
    else Some (-1, s).
Proof. by destruct loads, finds. Qed.
End Modules.

(** C40 (refinement): the lights module under a framework.  Whatever lights are
    opened, set and closed in whatever order, from a process without devices:
    exactly if only open devices are used and memory does not run out, all goes
    well; the results are those of the specification, the heap holds one device
    for each open light, with the members of that light, so that nothing is
    leaked, and the state that the lights share is a history of Lights.v, to
    which lights_mutex and speaker_lights_refine apply. *)
Theorem light_devices_refine `{HardwareHeader} `{Allocator} os os_sleep LIGHT_ID mod_ g cs :
  let boot := MkHw ∅ None lights_boot g 0 in
  match spec_run os os_sleep LIGHT_ID cs (MkLamps ∅ None lights_boot) with
  | None => light_run os os_sleep LIGHT_ID mod_ cs boot = None
  | Some (rs, MkLamps A d l) =>
      exists s, light_run os os_sleep LIGHT_ID mod_ cs boot = Some (rs, s)
        /\ heap s = lamp mod_ <$> A /\ device s = d /\ hw_lights s = l
        /\ reachable os os_sleep LIGHT_ID l
  end.
Proof.
  intros boot.
  assert (represents mod_ boot (MkLamps ∅ None lights_boot)) as Hr by (split_and!; cbn; by rewrite ?fmap_empty).
  pose proof (agree_run os os_sleep LIGHT_ID mod_ cs _ _ Hr) as Hrun.
  destruct (spec_run os os_sleep LIGHT_ID cs _) as [[rs [A d l]]|] eqn:E,
    (light_run os os_sleep LIGHT_ID mod_ cs boot) as [[rs' s]|]; try done.
  destruct Hrun as [-> (Hh & Hd & Hl)]. exists s. split_and!; [done..|].
  exact (spec_run_reachable os os_sleep LIGHT_ID cs _ _ _ E (reach_boot _ _ _)).
Qed.

(** ** An example

    malloc gives the first address of three that is free. *)
#[export] Instance android_hardware : HardwareHeader := {| HARDWARE_DEVICE_TAG := 0x48574454 |}.

#[export] Program Instance three_blocks : Allocator := {|
  malloc used := List.find (fun p => negb (bool_decide (p ∈ used))) [4096; 8192; 12288]
|}.
Next Obligation.
  intros used p [_ Hp]%find_some. by apply negb_true_iff, bool_decide_eq_false in Hp.
Qed.

Definition names : list (list Z) :=
  [zs "backlight"; zs "keyboard"; zs "buttons"; zs "battery"; zs "notifications"; zs "attention"].

Definition run_lights (cs : list light_call) (g : dev) : option (list Z * hw) :=
  light_run (fun _ _ => 0) (fun _ => []) names 100 cs (MkHw ∅ None lights_boot g 0).

(** The battery's light is opened twice, and a closed device is used. *)
Example two_devices g :
  (fst <$> run_lights [OpenLight (zs "battery"); OpenLight (zs "flash"); OpenLight (zs "battery"); CloseLight 4096;
     SetLightOf 8192 light_zero; OpenLight (zs "buttons")] g) = Some [0; -22; 0; 0; 0; 0]
  /\ run_lights [OpenLight (zs "battery"); CloseLight 4096; SetLightOf 4096 light_zero] g = None.
Proof. split; vm_compute; reflexivity. Qed.
