(* ===== verification/MnldSafe.v ===== *)
(** * Messages from the GPS daemon: which of them are harmless

    The handler of MnldHandler.v checks nothing that the daemon sends.  Here is
    the check that it would need: a function of the datagram that says whether
    the handler reads or writes past an array or calls through NULL. *)

From stdpp Require Import gmap.
From S2P Require Import Prelude NmeaReader NmeaParse HalBuff Layout EpoTime EpoDownload Hal HalProps MnldHandler MnldProps.
#[local] Open Scope Z_scope.

(** ** The check *)

(** Reading the buffer of 9000 bytes, without a running offset. *)
Definition bytes_at (b : list Z) (off n : Z) : list Z := take (Z.to_nat n) (drop (Z.to_nat off) b).
Definition int_at (b : list Z) (off : Z) : Z := s32 (le_val (bytes_at b off 4)).

(** A string at [off], its length in front: it fits into an array of [size]
    bytes and ends inside of the buffer. *)
Definition string_fits (b : list Z) (off size : Z) : bool :=
  let n := int_at b off in (0 <=? n) && (n <=? size) && (off + 4 + n <=? Z.of_nat (length b)).

Definition after (b : list Z) (off : Z) : Z := off + 4 + int_at b off.

(** The array [out] once the string is copied to it. *)
Definition copied (b : list Z) (off : Z) (out : list Z) : list Z :=
  bytes_at b (off + 4) (int_at b off) ++ drop (Z.to_nat (int_at b off)) out.

(** The text in an array is terminated, fits into 1024 bytes of UCS-2, and as
    hexadecimal digits into an array of [size] bytes. *)
Definition text_fits (size : Z) (text : list Z) : bool :=
  match strlen text with
  | Some n => (n <=? 509) && (4 * n + 4 <=? size)
  | None => false
  end.

(** sizeof(gpsnavigation_event->data) *)
Definition NAVIGATION_DATA : Z := 40.

(** Where the length of a navigation message is in the datagram. *)
Definition navigation_length_at : Z := 4 + 12.

Section Harmless.
Context `{GpsHeader} `{NiHeader} `{DaemonLink}.
Variable junk : list Z.

Definition notification_harmless (b : list Z) : bool :=
  let o := after b 12 in
  string_fits b 12 (Z.of_nat (length junk)) && string_fits b o (Z.of_nat (length junk))
  && text_fits GPS_NI_SHORT_STRING_MAXLEN (copied b 12 junk) && text_fits GPS_NI_LONG_STRING_MAXLEN (copied b o junk).

Definition notification_2_harmless (b : list Z) : bool :=
  let o := after b 12 in
  string_fits b 12 GPS_NI_SHORT_STRING_MAXLEN && string_fits b o GPS_NI_LONG_STRING_MAXLEN
  && (after b o + 8 <=? Z.of_nat (length b)).

Definition harmless (mem : allocations) (s : gps) (d : option (list Z)) : bool :=
  let b := mb_data (received d) in
  let type := int_at b 0 in
  if type =? MNL_AGPS_CMD_NOTIFICATION then notification_harmless b && gps_ni_callbacks s
  else if type =? MNL_AGPS_CMD_NOTIFICATION_2 then notification_2_harmless b && gps_ni_callbacks s
  else if bool_decide (type ∈ [MNL_AGPS_CMD_DATA_CONN_REQ; MNL_AGPS_CMD_DATA_CONN_REQ2; MNL_AGPS_CMD_DATA_CONN_RELEASE])
  then agps_callbacks s
  else if bool_decide (type ∈ [MNL_AGPS_CMD_REQUEST_SET_ID; MNL_AGPS_CMD_REQUEST_REFLOC]) then agps_ril_callbacks s
  else if type =? HAL_CMD_MNL_DIE then base_callbacks s
  else if type =? HAL_CMD_GPS_ICON then
    base_callbacks s || negb (started (g_epo s) =? 0) || negb (bool_decide (int_at b 4 ∈ [0; 1]))
  else if type =? HAL_CMD_NAVIGATION then
    negb (gpsnavigation_init_flag s =? 1) || negb (event_allocated mem)
    || (data_allocated mem && (le_val (bytes_at b navigation_length_at 4) <=? NAVIGATION_DATA))
  else true.

(** ** Lemmas *)

(** Whether a computation is free of undefined behaviour. *)
Definition defined {A} (m : CM gps A) (s : gps) (ok : bool) : Prop := is_Some (m s) <-> ok = true.

Lemma defined_true {A} (m : CM gps A) s : is_Some (m s) -> defined m s true.
Proof. by split. Qed.

Lemma defined_ret {A} (x : A) s : defined (mret x) s true.
Proof. apply defined_true. by eexists. Qed.

Lemma defined_modify f s : defined (cmodify f) s true.
Proof. apply defined_true. by eexists. Qed.

Lemma defined_fail {A B} (o : option A) (k : A -> CM gps B) s : o = None -> defined (x ← clift o; k x) s false.
Proof. intros ->. split; [by intros []|done]. Qed.

Lemma defined_lift {A B} (o : option A) (k : A -> CM gps B) s x ok :
  o = Some x -> defined (k x) s ok -> defined (x ← clift o; k x) s ok.
Proof. unfold defined. intros ->. done. Qed.

(** A step that is defined under a condition [c] of its own. *)
Lemma defined_step {A B} (o : option A) (k : A -> CM gps B) s x (c ok : bool) :
  o = (if c then Some x else None) -> (c = true -> defined (k x) s ok) -> defined (x ← clift o; k x) s (c && ok).
Proof. intros -> Hk. destruct c; [by apply Hk|]. by apply defined_fail. Qed.

Lemma defined_gets {A B} (f : gps -> A) (k : A -> CM gps B) s ok : defined (k (f s)) s ok -> defined (x ← cgets f; k x) s ok.
Proof. done. Qed.

Lemma defined_set {B} f (k : unit -> CM gps B) s ok : defined (k tt) (f s) ok -> defined (x ← cmodify f; k x) s ok.
Proof. done. Qed.

Lemma defined_call given u s : defined (call_back given u) s (given s).
Proof.
  apply defined_gets. destruct (given s); [apply defined_modify|]. split; [by intros []|done].
Qed.

(** A call that is defined, and then the rest. *)
Lemma defined_bind {A B} (m : CM gps A) (k : A -> CM gps B) s (c ok : bool) :
  defined m s c -> (forall x s', m s = Some (x, s') -> defined (k x) s' ok) -> defined (x ← m; k x) s (c && ok).
Proof.
  unfold defined, mbind, cm_bind. intros Hm Hk. destruct (m s) as [[x s']|].
  - rewrite (proj1 Hm (mk_is_Some _ _ eq_refl)). by apply Hk.
  - destruct c; [by destruct (proj2 Hm eq_refl)|]. split; [by intros []|done].
Qed.

Lemma get_int_val b off :
  buff_get_int (MsgBuf b off)
  = if (0 <=? off) && (off + 4 <=? Z.of_nat (length b)) then Some (int_at b off, MsgBuf b (off + 4)) else None.
Proof.
  unfold buff_get_int, buf_read, int_at, bytes_at. cbn [mb_data mb_off]. rewrite andb_true_r.
  destruct ((0 <=? off) && (off + 4 <=? Z.of_nat (length b))); reflexivity.
Qed.

Lemma get_int_in b off : 0 <= off -> off + 4 <= Z.of_nat (length b) -> buff_get_int (MsgBuf b off) = Some (int_at b off, MsgBuf b (off + 4)).
Proof. intros. rewrite get_int_val. by rewrite !(proj2 (Z.leb_le _ _)) by lia. Qed.

Lemma get_struct_val out size b off :
  0 <= off ->
  buff_get_struct out size (MsgBuf b off)
  = if (0 <=? size) && (size <=? Z.of_nat (length out)) && (off + size <=? Z.of_nat (length b))
    then Some (bytes_at b off size ++ drop (Z.to_nat size) out, MsgBuf b (off + size)) else None.
Proof.
  intros Ho. unfold buff_get_struct, buf_read. cbn [mb_data mb_off]. rewrite (proj2 (Z.leb_le 0 off)) by done.
  cbn [andb]. destruct (Z.leb_spec 0 size) as [Hs|Hs]; [|done]. cbn [andb].
  destruct (Z.leb_spec (off + size) (Z.of_nat (length b))) as [Hb|Hb]; [|by rewrite andb_false_r].
  obind. fold (bytes_at b off size). rewrite andb_true_r.
  assert (length (bytes_at b off size) = Z.to_nat size) as Hl
    by (unfold bytes_at; rewrite length_take, length_drop; lia).
  destruct (Z.leb_spec size (Z.of_nat (length out))).
  - rewrite buf_write_Some by lia. obind. cbn [Z.to_nat take app Nat.add]. by rewrite Hl.
  - by rewrite buf_write_None by lia.
Qed.

Lemma get_string_val out b off :
  0 <= off ->
  buff_get_string out (MsgBuf b off)
  = if string_fits b off (Z.of_nat (length out))
    then Some (int_at b off, copied b off out, MsgBuf b (after b off)) else None.
Proof.
  intros Ho. unfold buff_get_string, string_fits. cbv zeta.
  destruct (Z.leb_spec (off + 4) (Z.of_nat (length b))) as [H4|H4].
  - rewrite get_int_in by done. obind. rewrite get_struct_val by lia.
    destruct (_ && _); [|done]. obind. reflexivity.
  - rewrite get_int_val, (proj2 (Z.leb_gt (off + 4) _)), andb_false_r by done. obind.
    destruct (Z.leb_spec 0 (int_at b off)); [|done].
    by rewrite (proj2 (Z.leb_gt (off + 4 + _) _)), andb_false_r by lia.
Qed.

(** *** Texts *)

Lemma strlen_split m n : strlen m = Some n -> exists s rest, m = s ++ 0 :: rest /\ no_nul s /\ n = Z.of_nat (length s).
Proof.
  revert n. induction m as [|c m IH]; intros n; cbn [strlen]; [done|].
  destruct (Z.eqb_spec c 0) as [->|Hc]; [intros [= <-]; exists [], m; split_and!; [done|constructor|done]|].
  destruct (strlen m) as [l|]; [|done]. intros [= <-]. destruct (IH l eq_refl) as (s & rest & -> & Hs & ->).
  exists (c :: s), rest. split; [done|]. split; [by constructor|]. cbn [length]. lia.
Qed.

(** What the conversion has written when it returns. *)
Lemma usc2_loop_inv input : forall output len o l,
  usc2_loop output input len = Some (o, l) ->
  exists n, strlen input = Some n /\ l = len + 2 * n /\ length o = length output.
Proof.
  induction input as [|c input IH]; intros output len o l; cbn [usc2_loop strlen]; [done|].
  destruct (c =? 0); [intros [= <- <-]; exists 0; split_and!; [done|lia|done]|].
  destruct (buf_write output len [0]) as [o1|] eqn:E1; [|done]. obind.
  destruct (buf_write o1 (len + 1) [c]) as [o2|] eqn:E2; [|done]. obind.
  intros (n & -> & -> & ->)%IH. exists (n + 1). split_and!; [done|lia|].
  by rewrite (length_buf_write _ _ _ _ E2), (length_buf_write _ _ _ _ E1).
Qed.

Lemma usc2_fails size text : (forall n, strlen text = Some n -> 509 < n) -> ucs2_hex size text = None.
Proof.
  intros Hn. unfold ucs2_hex, asc_str_to_usc2_str.
  destruct (buf_write (zeros 1024) 0 [254]) as [o0|] eqn:E0; [|done]. obind.
  destruct (buf_write o0 1 [255]) as [o1|] eqn:E1; [|done]. obind.
  destruct (usc2_loop o1 text 2) as [[o l]|] eqn:E; [|done]. obind.
  destruct (usc2_loop_inv _ _ _ _ _ E) as (n & Hs & -> & Hl). specialize (Hn n Hs).
  destruct (buf_write o (2 + 2 * n + 1) [0]) as [o2|] eqn:E2; [|done]. obind.
  rewrite buf_write_None; [done|]. right.
  apply length_buf_write in E0, E1, E2. rewrite E2, Hl, E1, E0. change (length (zeros 1024)) with 1024%nat. cbn [length]. lia.
Qed.

Lemma ucs2_hex_fits size text : 0 <= size -> is_Some (ucs2_hex size text) <-> text_fits size text = true.
Proof.
  intros Hsz. destruct (strlen text) as [n|] eqn:E.
  - destruct (strlen_split _ _ E) as (s & rest & -> & Hs & Hn). destruct (Z.leb_spec n 509) as [Hle|Hgt].
    + unfold text_fits. rewrite E, ucs2_hex_val by (done || lia). rewrite Hn, (proj2 (Z.leb_le _ 509)) by lia.
      cbn [andb]. destruct (_ <=? size); [by split|]. split; [by intros []|done].
    + assert (text_fits size (s ++ 0 :: rest) = false) as Hf
        by (unfold text_fits; by rewrite E, (proj2 (Z.leb_gt _ _))).
      rewrite Hf, usc2_fails; [split; [by intros []|done]|]. intros m. rewrite E. by intros [= <-].
  - assert (text_fits size text = false) as Hf by (unfold text_fits; by rewrite E).
    rewrite Hf, usc2_fails; [split; [by intros []|done]|]. intros m. by rewrite E.
Qed.

Lemma defined_text {B} size text (k : list Z -> CM gps B) s ok :
  0 <= size -> (forall x, defined (k x) s ok) -> defined (x ← clift (ucs2_hex size text); k x) s (text_fits size text && ok).
Proof.
  intros Hsz Hk. pose proof (ucs2_hex_fits size text Hsz) as Hf. unfold defined.
  destruct (ucs2_hex size text) as [x|].
  - rewrite (proj1 Hf (mk_is_Some _ _ eq_refl)). apply Hk.
  - destruct (text_fits size text); [by destruct (proj2 Hf eq_refl)|]. split; [by intros []|done].
Qed.

(** *** The notifications *)

Hypothesis short_ok : 0 <= GPS_NI_SHORT_STRING_MAXLEN.
Hypothesis long_ok : 0 <= GPS_NI_LONG_STRING_MAXLEN.

Lemma fits_range b off size : string_fits b off size = true -> 0 <= int_at b off <= size /\ after b off <= Z.of_nat (length b).
Proof. unfold string_fits, after. rewrite !andb_true_iff, !Z.leb_le. lia. Qed.

Lemma defined_notification b s :
  Z.of_nat (length b) = 9000 -> (length junk <= 1024)%nat ->
  defined (notification junk (MsgBuf b 4)) s (notification_harmless b && gps_ni_callbacks s).
Proof using short_ok long_ok.
  intros Hb Hj. unfold notification, notification_harmless. rewrite <-!andb_assoc.
  eapply defined_lift; [apply get_int_in; lia|]. eapply defined_lift; [apply get_int_in; lia|].
  eapply defined_step; [apply get_string_val; lia|]. intros [Hn1 Ha1]%fits_range. cbn [Z.add] in *.
  change (4 + 4 + 4) with 12 in *.
  eapply defined_step; [apply get_string_val; unfold after; lia|]. intros [Hn2 Ha2]%fits_range.
  apply defined_text; [done|]. intros r. apply defined_text; [done|]. intros t. apply defined_call.
Qed.

Lemma defined_notification_2 b s :
  Z.of_nat (length b) = 9000 ->
  defined (notification_2 (MsgBuf b 4)) s (notification_2_harmless b && gps_ni_callbacks s).
Proof using short_ok long_ok.
  intros Hb. unfold notification_2, notification_2_harmless. rewrite <-!andb_assoc.
  assert (forall n, 0 <= n -> Z.of_nat (length (zeros n)) = n) as Hz
    by (intros; unfold zeros; rewrite length_replicate; lia).
  eapply defined_lift; [apply get_int_in; lia|]. eapply defined_lift; [apply get_int_in; lia|].
  change (4 + 4 + 4) with 12.
  eapply defined_step; [rewrite get_string_val by lia; by rewrite Hz|]. intros [Hn1 Ha1]%fits_range.
  eapply defined_step; [rewrite get_string_val by (unfold after; lia); by rewrite Hz|]. intros [Hn2 Ha2]%fits_range.
  set (o := after b (after b 12)) in *. assert (0 <= o) as Ho by (unfold o, after in *; lia).
  destruct (Z.leb_spec (o + 8) (Z.of_nat (length b))); cbn [andb].
  - eapply defined_lift; [apply get_int_in; lia|]. eapply defined_lift; [apply get_int_in; lia|]. apply defined_call.
  - rewrite get_int_val. destruct (_ && _); [|by apply defined_fail].
    eapply defined_lift; [done|]. apply defined_fail.
    by rewrite get_int_val, (proj2 (Z.leb_gt (o + 4 + 4) _)), andb_false_r by lia.
Qed.

(** *** Structures *)

(** The members of a structure in enough bytes. *)
Fixpoint values_at (pack : nat) (l : layout) (bs : list Z) (off : nat) : list cval :=
  match l with
  | [] => []
  | (_, t) :: l' =>
      let o := align_up (calign pack t) off in
      dec_val t (take (csize t) (drop o bs)) :: values_at pack l' bs (o + csize t)
  end.

Lemma end_from_ge pack l : forall off, (off <= end_from pack l off)%nat.
Proof.
  induction l as [|[name t] l IH]; intros off; cbn [end_from]; [lia|].
  pose proof (align_up_ge (calign pack t) off). specialize (IH (align_up (calign pack t) off + csize t)%nat). lia.
Qed.

Lemma dec_from_values pack l bs : forall off,
  (end_from pack l off <= length bs)%nat -> dec_from pack l bs off = Some (zip (fst <$> l) (values_at pack l bs off)).
Proof.
  induction l as [|[name t] l IH]; intros off He; cbn [dec_from end_from values_at] in *; [done|].
  set (o := align_up (calign pack t) off) in *.
  pose proof (end_from_ge pack l (o + csize t)) as Hge. unfold buf_read.
  rewrite !(proj2 (Z.leb_le _ _)) by lia. cbn [andb]. obind. rewrite !Nat2Z.id, IH by done. done.
Qed.

Lemma defined_struct {B} b off size (k : list Z * msgbuf -> CM gps B) s ok :
  Z.of_nat (length b) = 9000 -> 0 <= off -> 0 <= size -> off + size <= 9000 ->
  defined (k (bytes_at b off size, MsgBuf b (off + size))) s ok ->
  defined (x ← clift (buff_get_struct (zeros size) size (MsgBuf b off)); k x) s ok.
Proof using.
  intros Hb Ho Hs Hle Hk. eapply defined_lift; [|exact Hk].
  assert (length (zeros size) = Z.to_nat size) as Hz by (unfold zeros; apply length_replicate).
  rewrite get_struct_val, !(proj2 (Z.leb_le _ _)) by lia. cbn [andb].
  by rewrite <-Hz, drop_all, app_nil_r.
Qed.

Lemma length_bytes_at b off n :
  0 <= off -> 0 <= n -> off + n <= Z.of_nat (length b) -> Z.of_nat (length (bytes_at b off n)) = n.
Proof using. intros. unfold bytes_at. rewrite length_take, length_drop. lia. Qed.

Lemma defined_decoded {B} pack l bs (k : fields -> CM gps B) s ok :
  (end_from pack l 0 <= length bs)%nat ->
  defined (k (zip (fst <$> l) (values_at pack l bs 0))) s ok ->
  defined (x ← clift (dec_struct pack l bs); k x) s ok.
Proof using. intros He Hk. eapply defined_lift; [|exact Hk]. by apply dec_from_values. Qed.

Lemma defined_agps_location b s : Z.of_nat (length b) = 9000 -> defined (agps_location (MsgBuf b 4)) s true.
Proof using.
  intros Hb. unfold agps_location. cbv zeta. change (Z.of_nat (sizeof 8 agps_location_layout)) with 72.
  apply defined_struct; [lia..|].
  apply defined_decoded.
  { pose proof (length_bytes_at b 4 72). change (end_from 8 agps_location_layout 0) with 72%nat. lia. }
  set (v := zip _ _). assert (exists x, agps_location_of v = Some x) as [[flags values] Hx].
  { subst v. cbn -[take drop le_val swrap truthy Z.lor].
    repeat match goal with |- context [truthy ?x] => destruct (truthy x) end; cbn -[take drop le_val swrap Z.lor]; eauto. }
  eapply defined_lift; [exact Hx|]. cbv beta iota. apply defined_gets. destruct (base_callbacks s); [apply defined_modify|apply defined_ret].
Qed.

Lemma length_values_at pack l bs : forall off, length (values_at pack l bs off) = length l.
Proof using. induction l as [|[name t] l IH]; intros off; cbn [values_at length]; [done|]. by rewrite IH. Qed.

(** The assignments out of a structure find all their members. *)
Lemma defined_assign {B} pack l bs table (k : fields -> CM gps B) s ok :
  NoDup (fst <$> l) -> Forall (fun e => e.2 ∈ fst <$> l) table ->
  (forall r, assign table (zip (fst <$> l) (values_at pack l bs 0)) = Some r -> defined (k r) s ok) ->
  defined (x ← clift (assign table (zip (fst <$> l) (values_at pack l bs 0))); k x) s ok.
Proof using.
  intros Hd Ht Hk. destruct (assign_total (fst <$> l) (values_at pack l bs 0) table) as [r Hr]; [done| |done|].
  - by rewrite length_values_at, length_fmap.
  - eapply defined_lift; [exact Hr|by apply Hk].
Qed.

Lemma measurement_names : NoDup (fst <$> measurement_layout).
Proof using. by_decide. Qed.

Lemma defined_measurement b s : Z.of_nat (length b) = 9000 -> defined (measurement (MsgBuf b 4)) s true.
Proof using.
  intros Hb. unfold measurement. cbv zeta.
  change (Z.of_nat (sizeof PACK measurement_layout)) with 220. change (Z.of_nat (sizeof PACK clock_layout)) with 68.
  apply defined_struct; [lia..|]. apply defined_struct; [lia..|].
  apply defined_decoded.
  { pose proof (length_bytes_at b (4 + 32 * 220) 68). change (end_from PACK clock_layout 0) with 68%nat. lia. }
  apply defined_assign; [by_decide|by_decide|]. intros c _.
  apply defined_decoded.
  { pose proof (length_bytes_at b 4 (32 * 220)). change (end_from PACK measurement_layout 0) with 217%nat. lia. }
  apply defined_assign; [by_decide|by_decide|]. intros m Hm.
  eapply defined_lift.
  { unfold member_num. rewrite (assign_member measurement_map _ m 21 "prn" "PRN" ltac:(by_decide) eq_refl Hm).
    rewrite (member_zip _ _ 2 "PRN" measurement_names eq_refl). reflexivity. }
  destruct (_ >? 0); [apply defined_modify|apply defined_ret].
Qed.

Lemma navigation_names : NoDup (fst <$> navigation_layout).
Proof using. by_decide. Qed.

Lemma defined_navigation (mem : allocations) b s :
  Z.of_nat (length b) = 9000 -> Forall is_byte b ->
  defined (navigation mem (MsgBuf b 4)) s
    (negb (event_allocated mem) || (data_allocated mem && (le_val (bytes_at b navigation_length_at 4) <=? NAVIGATION_DATA))).
Proof using.
  intros Hb Hbytes. unfold navigation. destruct mem as [[] data_ok]; [|apply defined_ret]. cbn [cwhen negb orb event_allocated data_allocated]. cbv zeta.
  change (Z.of_nat (sizeof PACK navigation_layout)) with 56.
  apply defined_struct; [lia..|].
  set (event := bytes_at b 4 56). pose proof (length_bytes_at b 4 56 ltac:(lia) ltac:(lia) ltac:(lia)) as Hl. fold event in Hl.
  apply defined_decoded; [change (end_from PACK navigation_layout 0) with 56%nat; lia|].
  apply defined_assign; [by_decide|by_decide|]. intros m _.
  set (len := le_val (take 4 (drop 12 event))). set (data := take 40 (drop 16 event)).
  apply (defined_lift _ _ _ len).
  { unfold member_num. by rewrite (member_zip _ _ 5 "length" navigation_names eq_refl). }
  apply (defined_lift _ _ _ data).
  { by rewrite (member_zip _ _ 6 "data" navigation_names eq_refl). }
  assert (length data = 40%nat) as Hd by (subst data; rewrite length_take, length_drop; lia).
  assert (len = le_val (bytes_at b navigation_length_at 4)) as <-.
  { subst len event. f_equal. unfold bytes_at, navigation_length_at. rewrite skipn_firstn_comm, drop_drop, take_take. done. }
  assert (0 <= len) by (subst len; apply le_val_range; subst event; unfold bytes_at; auto using Forall_take, Forall_drop).
  destruct data_ok; cbn [andb]; [|by apply defined_fail].
  unfold buf_read. rewrite Hd, (proj2 (Z.leb_le 0 len)) by done. cbn [andb Z.leb Z.compare].
  change (0 + len <=? Z.of_nat 40) with (len <=? NAVIGATION_DATA).
  destruct (len <=? NAVIGATION_DATA); [apply defined_modify|by apply defined_fail].
Qed.

(** *** The other messages *)

Lemma wp_defined {A} (m : CM gps A) (Q : A -> gps -> Prop) s : wp m Q s -> defined m s true.
Proof using. intros (x & s' & E & _)%wp_Some. apply defined_true. by exists (x, s'). Qed.

Lemma defined_send_location s : defined mtk_gps_send_location_to_mnl s true.
Proof using.
  apply (wp_defined _ (fun _ _ => True)). unfold mtk_gps_send_location_to_mnl, open_read.
  apply wp_bind, wp_on_part, wp_gets. generalize (match files (g_epo s) !! LOCATION_NLP_FIX with Some f => if can_open f then Some (content f) else None | None => None end). intros c.
  destruct c as [data|]; [|exact I]. cbv zeta. change (sizeof 8 nlp_layout) with 32%nat.
  apply wp_bind, wp_gets, wp_bind. eapply wp_put_msg.
  { apply inject_msg_of. rewrite length_insert, length_app, length_take, length_replicate. lia. }
  unfold send_if_ready. apply wp_bind, wp_gets, wp_when; intros _; [|done].
  apply wp_bind, wp_daemon_send. intros e _. by apply wp_ret.
Qed.

Lemma defined_epo_done s : defined (on_epo update_epo_done) s true.
Proof using.
  apply (wp_defined _ (fun _ _ => True)). apply wp_on_part. unfold update_epo_done.
  apply wp_bind, wp_gets, wp_when; intros _; [|done]. unfold unlink. by apply wp_modify.
Qed.

(** Steps that all need the framework's table, and keep it. *)
Lemma defined_then {A B} (m : CM gps A) (k : A -> CM gps B) s :
  defined m s (base_callbacks s) -> preserves base_callbacks m ->
  (forall x s', defined (k x) s' (base_callbacks s')) -> defined (x ← m; k x) s (base_callbacks s).
Proof using.
  intros Hm Hp Hk. rewrite <-(andb_diag (base_callbacks s)). apply defined_bind; [done|].
  intros x s' E. rewrite <-(Hp _ _ _ E). apply Hk.
Qed.

Lemma defined_set_then {B} f (k : unit -> CM gps B) s :
  (forall s, base_callbacks (f s) = base_callbacks s) ->
  (forall x s', defined (k x) s' (base_callbacks s')) -> defined (x ← cmodify f; k x) s (base_callbacks s).
Proof using. intros Hf Hk. rewrite <-(Hf s). apply defined_set, Hk. Qed.

Lemma defined_status st s : defined (report_status st) s (base_callbacks s).
Proof using. unfold report_status. apply defined_set_then; [done|]. intros _ s'. apply defined_call. Qed.

Lemma keeps_status st : preserves base_callbacks (report_status st).
Proof using. unfold report_status, call_back, upcall_cb. preserves. Qed.

Lemma defined_mnl_die s : defined mnl_die s (base_callbacks s).
Proof using.
  unfold mnl_die, release_condition. apply defined_set_then; [done|]. intros _ s1.
  do 2 (apply defined_then; [apply defined_status|apply keeps_status|]; intros _ ?).
  apply defined_set_then; [done|]. intros _ s2.
  rewrite <-(andb_true_r (base_callbacks s2)). apply defined_bind; [apply defined_call|]. intros _ s3 _. apply defined_modify.
Qed.

Lemma defined_two_reports a b s : defined (_ ← report_status a; report_status b) s (base_callbacks s).
Proof using. apply defined_then; [apply defined_status|apply keeps_status|]. intros _ s'. apply defined_status. Qed.

Lemma defined_gps_icon b s :
  Z.of_nat (length b) = 9000 ->
  defined (gps_icon (MsgBuf b 4)) s
    (base_callbacks s || negb (started (g_epo s) =? 0) || negb (bool_decide (int_at b 4 ∈ [0; 1]))).
Proof using.
  intros Hb. unfold gps_icon. eapply defined_lift; [apply get_int_in; lia|]. apply defined_gets.
  assert (forall m : CM gps unit, defined m s (base_callbacks s) ->
    defined (cwhen (started (g_epo s) =? 0) m) s (base_callbacks s || negb (started (g_epo s) =? 0))) as Hw.
  { intros m Hm. destruct (started (g_epo s) =? 0); cbn [cwhen negb]; [by rewrite orb_false_r|].
    rewrite orb_true_r. apply defined_ret. }
  destruct (Z.eqb_spec (int_at b 4) 1) as [E1|E1].
  { rewrite E1, bool_decide_true, orb_false_r by (right; left). apply Hw, defined_two_reports. }
  destruct (Z.eqb_spec (int_at b 4) 0) as [E0|E0].
  { rewrite E0, bool_decide_true, orb_false_r by left. apply Hw, defined_two_reports. }
  rewrite bool_decide_false by (intros [?|[?|[]%not_elem_of_nil]%elem_of_cons]%elem_of_cons; done).
  rewrite orb_true_r. apply defined_ret.
Qed.

Lemma received_length d : Z.of_nat (length (mb_data (received d))) = 9000.
Proof using.
  unfold received. cbv zeta. cbn [mb_data]. set (data := take _ _).
  assert (Z.of_nat (length data) <= 9000) by (subst data; rewrite length_take; lia).
  unfold zeros. rewrite length_app, length_replicate. lia.
Qed.

Lemma received_bytes d : Forall is_byte (default [] d) -> Forall is_byte (mb_data (received d)).
Proof using.
  intros Hd. unfold received. cbv zeta. cbn [mb_data]. apply Forall_app. split; [by apply Forall_take|].
  unfold zeros. apply Forall_replicate. by_decide.
Qed.

(** The handler is defined exactly on the harmless datagrams. *)
Lemma handler_defined mem d s :
  (length junk <= 1024)%nat -> Forall is_byte (default [] d) ->
  defined (mnld_to_gps_handler junk mem d) s (harmless mem s d).
Proof using short_ok long_ok.
  intros Hj Hd. unfold mnld_to_gps_handler, harmless. cbv zeta.
  pose proof (received_length d) as Hb. pose proof (received_bytes d Hd) as Hbytes.
  change (received d) with (MsgBuf (mb_data (received d)) 0) at 1. set (b := mb_data (received d)) in *. clearbody b.
  eapply defined_lift; [apply get_int_in; lia|]. change (0 + 4) with 4. generalize (int_at b 0). intros type.
  destruct (Z.eqb_spec type MNL_AGPS_CMD_NOTIFICATION) as [->|]; [by apply defined_notification|].
  destruct (Z.eqb_spec type MNL_AGPS_CMD_NOTIFICATION_2) as [->|]; [by apply defined_notification_2|].
  destruct (Z.eqb_spec type MNL_AGPS_CMD_DATA_CONN_REQ) as [->|N1].
  { unfold data_conn_req. do 2 (eapply defined_lift; [apply get_int_in; lia|]). apply defined_call. }
  destruct (Z.eqb_spec type MNL_AGPS_CMD_DATA_CONN_REQ2) as [->|N2].
  { unfold data_conn_req2. apply defined_struct; [lia..|]. eapply defined_lift; [apply get_int_in; lia|]. apply defined_call. }
  destruct (Z.eqb_spec type MNL_AGPS_CMD_DATA_CONN_RELEASE) as [->|N3]; [apply defined_call|].
  rewrite (bool_decide_false (type ∈ _)) by set_solver.
  destruct (Z.eqb_spec type MNL_AGPS_CMD_REQUEST_SET_ID) as [->|N4].
  { unfold request_set_id. eapply defined_lift; [apply get_int_in; lia|]. apply defined_call. }
  destruct (Z.eqb_spec type MNL_AGPS_CMD_REQUEST_REFLOC) as [->|N5].
  { unfold request_refloc. eapply defined_lift; [apply get_int_in; lia|]. apply defined_call. }
  rewrite (bool_decide_false (type ∈ _)) by set_solver.
  destruct (Z.eqb_spec type MNL_AGPS_CMD_AGPS_LOC) as [->|]; [by apply defined_agps_location|].
  destruct (Z.eqb_spec type HAL_CMD_UPDATE_EPO_FILE_DONE) as [->|]; [apply defined_epo_done|].
  destruct (Z.eqb_spec type MNL_CMD_GPS_INJECT_TIME_REQ) as [->|].
  { apply defined_gets. destruct (base_callbacks s); [apply defined_modify|apply defined_ret]. }
  destruct (Z.eqb_spec type MNL_CMD_GPS_INJECT_LOCATION_REQ) as [->|]; [apply defined_send_location|].
  destruct (Z.eqb_spec type HAL_CMD_MNL_DIE) as [->|]; [apply defined_mnl_die|].
  destruct (Z.eqb_spec type HAL_CMD_GPS_ICON) as [->|]; [by apply defined_gps_icon|].
  destruct (Z.eqb_spec type HAL_CMD_MEASUREMENT) as [->|].
  { apply defined_gets. destruct (_ =? 1); [by apply defined_measurement|apply defined_ret]. }
  destruct (Z.eqb_spec type HAL_CMD_NAVIGATION) as [->|]; [|apply defined_ret].
  apply defined_gets. destruct (gpsnavigation_init_flag s =? 1); cbn [negb orb cwhen]; [|apply defined_ret].
  by apply defined_navigation.
Qed.
End Harmless.

(** C7 (bounds): which messages of the daemon the HAL survives.  The handler
    checks no length, no terminator, no table of callbacks and only the first of
    its two allocations; for any datagram whatever, in any state, it reads and
    writes inside of its arrays and calls and writes through no NULL exactly if
    the datagram is [harmless]: its strings fit
    into their arrays, its texts are terminated and fit as UCS-2 and as
    digits, its navigation message (if these are on, and the first malloc gives
    memory for it) has at most 40 bytes and the second malloc gives memory for
    them, and the framework has given the table that the message calls. *)
Theorem handler_survives `{GpsHeader} `{NiHeader} `{DaemonLink} junk mem d s :
  0 <= GPS_NI_SHORT_STRING_MAXLEN -> 0 <= GPS_NI_LONG_STRING_MAXLEN ->
  length junk = 1024%nat -> Forall is_byte (default [] d) ->
  if harmless junk mem s d
  then exists s', mnld_to_gps_handler junk mem d s = Some (tt, s')
  else mnld_to_gps_handler junk mem d s = None.
Proof.
  intros Hs Hl Hj Hd. pose proof (handler_defined junk Hs Hl mem d s ltac:(lia) Hd) as Hi. unfold defined in Hi.
  destruct (harmless junk mem s d).
  - destruct (proj2 Hi eq_refl) as [[[] s'] E]. by exists s'.
  - destruct (mnld_to_gps_handler junk mem d s) as [x|]; [|done]. by discriminate (proj1 Hi (mk_is_Some _ _ eq_refl)).
Qed.

(** A text without its terminator, a request before the framework has given
    its table, and a navigation message whose data get no memory. *)
Theorem handler_survives_witness :
  let run mem := @mnld_to_gps_handler aosp_gps_h aosp_ni quiet_link (replicate 1024 65) mem in
  let unterminated := enc_int MNL_AGPS_CMD_NOTIFICATION ++ enc_int 7 ++ enc_int 2 ++ enc_int 4 ++ zs "user" ++ enc_int 1 ++ [0] in
  let request := enc_int MNL_AGPS_CMD_REQUEST_SET_ID ++ enc_int 1 in
  let event := navigation_msg [Num 60; Num 1; Num 7; Num 2; Num 3; Num 40; Raw (replicate 40 9)] in
  let listening := ready_state ⟨ gpsnavigation_init_flag := 1 ⟩ in
  run memory_left (Some unterminated) ready_state = None
  /\ run memory_left (Some request) gps_boot = None
  /\ (exists s', run memory_left (Some request) ready_state = Some (tt, s'))
  /\ (exists s', run memory_left (Some event) listening = Some (tt, s'))
  /\ run (MkAllocations true false) (Some event) listening = None
  /\ exists s', run (MkAllocations false false) (Some event) listening = Some (tt, s').
Proof.
  intros run unterminated request event listening.
  assert (Hsurvive : forall mem d s b, Forall is_byte d -> @harmless aosp_ni (replicate 1024 65) mem s (Some d) = b ->
    if b then exists s', run mem (Some d) s = Some (tt, s') else run mem (Some d) s = None).
  { intros mem d s b Hd <-.
    apply (@handler_survives aosp_gps_h aosp_ni quiet_link (replicate 1024 65) mem (Some d) s);
      [vm_compute; discriminate|vm_compute; discriminate|reflexivity|exact Hd]. }
  split; [|split; [|split; [|split; [|split]]]].
  - apply (Hsurvive memory_left unterminated ready_state false); [by_decide|vm_compute; reflexivity].
  - apply (Hsurvive memory_left request gps_boot false); [by_decide|vm_compute; reflexivity].
  - apply (Hsurvive memory_left request ready_state true); [by_decide|vm_compute; reflexivity].
  - apply (Hsurvive memory_left event listening true); [by_decide|vm_compute; reflexivity].
  - apply (Hsurvive (MkAllocations true false) event listening false); [by_decide|vm_compute; reflexivity].
  - apply (Hsurvive (MkAllocations false false) event listening true); [by_decide|vm_compute; reflexivity].
Defined.
