(* ===== verification/HalThread.v ===== *)
(** * The HAL thread: its event loop (gps_mtk_aosp.c: gps_state_thread)

    The thread waits for events and handles those of one answer of epoll_wait
    one after the other: a byte of the control socket, the device (Device.v
    over NmeaParse.v), a message of the daemon (MnldHandler.v), a connection of
    the codec.  While it waits the other threads run.  What read, recv and
    accept answer is part of an event. *)

From stdpp Require Import gmap.
From S2P Require Import Prelude CFloat Calendar NmeaToken NmeaReader NmeaParse NmeaProps HalBuff EpoTime EpoConf EpoDownload Daemon Layout Hal HalProps MnldHandler MnldProps Session Device MnldSafe.
#[local] Open Scope Z_scope.

(** ** State and events *)

Record loop_state := MkHalThread {
  t_dev : dev;
  download_request_cb : bool;         (* of mGpsXtraCallbacks: not NULL *)
  download_requests : nat;            (* calls of it *)
}.

#[export] Instance loop_state_rebuild : Rebuild loop_state := fun r =>
  MkHalThread (t_dev r) (download_request_cb r) (download_requests r).

Definition on_dev {A} : CM dev A -> CM loop_state A := on_part t_dev (fun d t => t ⟨ t_dev := d ⟩).

Inductive poll_event :=
  | Broken                                     (* EPOLLERR or EPOLLHUP *)
  | NotReadable                                (* no EPOLLIN *)
  | ControlByte (byte : option Z)              (* what read has stored *)
  | DeviceReadable (answers : list (Z * read_answer))
  | DaemonMessage (mem : allocations) (datagram : option (list Z))
  | CodecConnection (a : codec_answers)
  | UnknownDescriptor.

(** [Blocked]: still in a read of the device. *)
Inductive loop_result := Running | Exited | Blocked.

Definition CMD_DOWNLOAD : Z := 4.

(** ** The position as an IEEE 754 bit pattern *)

(** [prec] and [emax] as in SpecFloat; a NaN is the default one. *)
Definition float_bits (prec emax : Z) (x : spec_float) : Z :=
  let sign s := if s : bool then 2 * emax * 2 ^ (prec - 1) else 0 in
  match x with
  | S754_zero s => sign s
  | S754_infinity s => sign s + (2 * emax - 1) * 2 ^ (prec - 1)
  | S754_nan => (2 * emax - 1) * 2 ^ (prec - 1) + 2 ^ (prec - 2)
  | S754_finite s m e =>
      sign s + (if Z.pos m <? 2 ^ (prec - 1) then Z.pos m
                else (e - (3 - emax - prec)) * 2 ^ (prec - 1) + Z.pos m)
  end.

(** What fwrite stores in LOCATION_NLP_FIX. *)
Definition nlp_bytes (c : nlp_context) : list Z :=
  enc_struct 8 nlp_layout
    (nlp_values (float_bits 53 1024 (nlp_latitude c)) (float_bits 53 1024 (nlp_longitude c))
       (float_bits 24 128 (nlp_accuracy c)) (ts_sec c) (ts_nsec c) (nlp_type c) (nlp_started c)).

Example float_bits_one : float_bits 53 1024 (d_of_Z 1) = 0x3ff0000000000000.
Proof. reflexivity. Qed.

Example float_bits_tenth : float_bits 53 1024 (strtod (zs "-0.1")) = 0xbfb999999999999a.
Proof. reflexivity. Qed.

(** The writes of a list of reports. *)
Fixpoint write_locations (l : list event) : CM epo unit :=
  match l with
  | [] => mret tt
  | WriteLocation c :: l' => _ ← mtk_gps_update_location (nlp_bytes c); write_locations l'
  | _ :: l' => write_locations l'
  end.

Section Loop.
Context `{GpsHeader} `{TimeZone} `{NiHeader} `{DaemonLink}.
Variable sizeof_GpsCallbacks : Z.
Variable junk : list Z.               (* the uninitialised arrays of a notification *)
Variable junk_location : list Z.      (* an uninitialised GpsLocation *)
Variable location_of : list Z -> Z * fields.

(** ** The events *)

(** [started], of which the reader and the EPO part have a copy each. *)
Definition set_started_to (v : Z) : CM dev unit :=
  _ ← with_reader (cmodify (fun h => h ⟨ NmeaReader.started := v ⟩));
  with_gps (on_epo (cmodify (fun e => e ⟨ EpoDownload.started := v ⟩))).

Definition control_event (byte : option Z) : CM loop_state loop_result :=
  let cmd := default 255 byte in
  st ← cgets (fun t => EpoDownload.started (g_epo (d_gps (t_dev t))));
  if cmd =? CMD_QUIT then mret Exited
  else
    _ ← (if cmd =? CMD_START then
           cwhen (negb (truthy st))
             (on_dev (_ ← set_started_to 1; with_reader (on_reader (nmea_reader_set_callback false 0))))
         else if cmd =? CMD_DOWNLOAD then
           cb ← cgets download_request_cb;
           if (cb : bool) then cmodify (fun t => t ⟨ download_requests $= S ⟩) else clift None
         else if cmd =? CMD_STOP then
           cwhen (truthy st)
             (on_dev (_ ← set_started_to 0; with_reader (on_reader (nmea_reader_set_callback true 0))))
         else if cmd =? CMD_RESTART then
           on_dev (with_reader (on_reader (cmodify (fun r => r ⟨ fix_mode := 0 ⟩))))
         else mret tt);
    mret Running.

(** Every location reported goes to the file. *)
Definition device_readable (answers : list (Z * read_answer)) : CM loop_state loop_result :=
  n ← cgets (fun t => length (trace (d_reader (t_dev t))));
  ended ← on_dev (device_event sizeof_GpsCallbacks answers);
  l ← cgets (fun t => drop n (trace (d_reader (t_dev t))));
  _ ← on_dev (with_gps (on_epo (write_locations l)));
  mret (if ended : bool then Running else Blocked).

Definition handle_event (ev : poll_event) : CM loop_state loop_result :=
  match ev with
  | Broken => mret Exited
  | NotReadable | UnknownDescriptor => mret Running
  | ControlByte byte => control_event byte
  | DeviceReadable answers => device_readable answers
  | DaemonMessage mem d => _ ← on_dev (with_gps (mnld_to_gps_handler junk mem d)); mret Running
  | CodecConnection a => _ ← on_dev (codec_event junk_location location_of a); mret Running
  end.

(** ** The loop *)

Fixpoint handle_events (l : list poll_event) : CM loop_state loop_result :=
  match l with
  | [] => mret Running
  | ev :: l' =>
      o ← handle_event ev;
      match o with Running => handle_events l' | _ => mret o end
  end.

(** For each wait what the other threads do in the meantime, and the events it
    ends with; none if it fails. *)
Fixpoint gps_state_thread (waits : list ((dev -> dev) * list poll_event)) : CM loop_state loop_result :=
  match waits with
  | [] => mret Running
  | (others, events) :: waits' =>
      _ ← on_dev (cmodify others);
      o ← handle_events events;
      match o with
      | Running => gps_state_thread waits'
      | Exited => _ ← on_dev (with_gps (release_condition M_CLEANUP)); mret Exited
      | Blocked => mret Blocked
      end
  end.
End Loop.

(** ** What the thread promises *)

(** An event that ends the thread. *)
Definition final (ev : poll_event) : bool :=
  match ev with
  | Broken => true
  | ControlByte (Some c) => c =? CMD_QUIT
  | _ => false
  end.

(** The events up to the one that ends the thread. *)
Fixpoint handled (l : list poll_event) : list poll_event :=
  match l with
  | [] => []
  | ev :: l' => ev :: (if final ev then [] else handled l')
  end.

(** What an event makes of [started]. *)
Definition started_by (st : Z) (ev : poll_event) : Z :=
  match ev with
  | ControlByte (Some c) => if c =? CMD_START then 1 else if c =? CMD_STOP then 0 else st
  | _ => st
  end.

Definition is_download (ev : poll_event) : bool :=
  match ev with ControlByte (Some c) => c =? CMD_DOWNLOAD | _ => false end.

Definition downloads (l : list poll_event) : nat := length (filter (fun ev => is_download ev = true) l).

(** The bytes that an event brings from the device. *)
Definition bytes_read (a : read_answer) : list Z := match a with ReadBytes d => d | ReadError _ => [] end.

Definition bytes_of (answers : list (Z * read_answer)) : list Z := answers ≫= (fun a => bytes_read (snd a)).

Definition device_bytes (ev : poll_event) : list Z :=
  match ev with DeviceReadable answers => bytes_of answers | _ => [] end.

Definition lines_of (l : list poll_event) : Z := newlines (l ≫= device_bytes).

(** The reads of an event end with an error that is not an interruption, as
    the descriptor does not block. *)
Definition drained (answers : list (Z * read_answer)) : bool :=
  existsb (fun a => match snd a with ReadError e => negb (e =? EINTR) | _ => false end) answers.

(** The tables of the framework, all of them given. *)
Definition tables (s : gps) : bool := base_callbacks s && agps_callbacks s && gps_ni_callbacks s && agps_ril_callbacks s.

(** What the messages and the other threads leave alone. *)
Definition frame (s : gps) : bool * Z * nat := (tables s, EpoDownload.started (g_epo s), length (conditions s)).

Definition others_ok (f : dev -> dev) : Prop :=
  forall s, d_reader (f s) = d_reader s /\ frame (d_gps (f s)) = frame (d_gps s).

Section Promise.
Context `{NiHeader}.
Variables junk junk_location : list Z.

(** A message that is harmless whatever the state, given the tables. *)
Definition benign (mem : allocations) (d : option (list Z)) : bool :=
  let b := mb_data (received d) in
  let type := int_at b 0 in
  if type =? MNL_AGPS_CMD_NOTIFICATION then notification_harmless junk b
  else if type =? MNL_AGPS_CMD_NOTIFICATION_2 then notification_2_harmless b
  else if type =? HAL_CMD_NAVIGATION then
    negb (event_allocated mem)
    || (data_allocated mem && (le_val (bytes_at b navigation_length_at 4) <=? NAVIGATION_DATA))
  else true.

(** What the kernel and the daemon promise about an event. *)
Definition event_ok (ev : poll_event) : Prop :=
  match ev with
  | DeviceReadable answers => drained answers = true /\ Forall is_byte (device_bytes ev)
  | DaemonMessage mem d => benign mem d = true /\ Forall is_byte (default [] d)
  | CodecConnection a =>
      (length (default [] (command a)) <= 4)%nat
      /\ (length (default [] (location a)) <= length junk_location)%nat
  | _ => True
  end.

Lemma benign_harmless mem s d : tables s = true -> benign mem d = true -> harmless junk mem s d = true.
Proof.
  unfold tables, benign, harmless. rewrite !andb_true_iff. intros [[[Hb Ha] Hn] Hr]. cbv zeta.
  rewrite Hb, Ha, Hn, Hr, !andb_true_r, orb_true_l.
  generalize (int_at (mb_data (received d)) 0). intros type.
  destruct (type =? MNL_AGPS_CMD_NOTIFICATION); [done|].
  destruct (type =? MNL_AGPS_CMD_NOTIFICATION_2); [done|].
  do 2 (destruct (bool_decide _); [done|]).
  destruct (type =? HAL_CMD_MNL_DIE); [done|]. destruct (type =? HAL_CMD_GPS_ICON); [done|].
  destruct (type =? HAL_CMD_NAVIGATION); [|done]. rewrite <-orb_assoc. intros ->. by rewrite orb_true_r.
Qed.
End Promise.

(** *** What the handler leaves alone *)

(** A part of the state that none of the handler's steps changes. *)
Section Untouched.
Context `{GpsHeader} `{TimeZone} `{NiHeader} `{DaemonLink}.
Context {T : Type} (part : gps -> T).
Hypothesis upcall_keeps : forall u, preserves part (upcall_cb u).
Hypothesis release_keeps : forall i, preserves part (release_condition i).
Hypothesis send_keeps : forall fd d, preserves part (daemon_send fd d).
Hypothesis done_keeps : preserves part (on_epo update_epo_done).
Hypothesis read_keeps : preserves part (on_epo (open_read LOCATION_NLP_FIX)).
Hypothesis flags_keep : forall s v, part (s ⟨ sta_status := v ⟩) = part s
  /\ part (s ⟨ flag_unlock := v ⟩) = part s /\ part (s ⟨ start_flag := v ⟩) = part s.

Lemma untouched_handler junk mem d : preserves part (mnld_to_gps_handler junk mem d).
Proof using upcall_keeps release_keeps send_keeps done_keeps read_keeps flags_keep.
  assert (forall v, preserves part (cmodify (fun s => s ⟨ sta_status := v ⟩)))
    by (intros v; apply preserves_modify; intros s; apply (flags_keep s v)).
  assert (forall v, preserves part (cmodify (fun s => s ⟨ flag_unlock := v ⟩)))
    by (intros v; apply preserves_modify; intros s; apply (flags_keep s v)).
  assert (forall v, preserves part (cmodify (fun s => s ⟨ start_flag := v ⟩)))
    by (intros v; apply preserves_modify; intros s; apply (flags_keep s v)).
  unfold mnld_to_gps_handler, notification, notification_2, data_conn_req, data_conn_req2, data_conn_release,
    request_set_id, request_refloc, agps_location, mtk_gps_send_location_to_mnl, send_if_ready, put_msg, mnl_die,
    gps_icon, measurement, navigation, inject_time_req, report_status, call_back.
  preserves.
Qed.
End Untouched.

Section Frame.
Context `{GpsHeader} `{TimeZone} `{NiHeader} `{DaemonLink}.

Lemma frame_epo {A} (m : CM epo A) : preserves EpoDownload.started m -> preserves frame (on_epo m).
Proof.
  intros Hm s x s'. unfold on_epo, on_part. destruct (m (g_epo s)) as [[y e]|] eqn:E; [|done].
  intros [= _ <-]. unfold frame, tables. cbn. by rewrite (Hm _ _ _ E).
Qed.

Lemma frame_handler junk mem d : preserves frame (mnld_to_gps_handler junk mem d).
Proof.
  apply untouched_handler; [..|done].
  - intros u. unfold upcall_cb. preserves.
  - intros i. apply preserves_modify. intros s. unfold frame, tables. cbn. by rewrite length_insert.
  - intros fd data. unfold daemon_send, send_errno_too. preserves.
  - apply frame_epo. unfold update_epo_done, unlink. preserves.
  - apply frame_epo. unfold open_read. preserves.
Qed.
End Frame.

(** ** The loop keeps its state well formed *)

Section Reading.
Context `{HL : GpsHeaderLaws} `{TimeZone}.
Variable sizeof_GpsCallbacks : Z.

Lemma started_parse now : preserves NmeaReader.started (nmea_reader_parse sizeof_GpsCallbacks now).
Proof using.
  assert (forall e, preserves NmeaReader.started (emit e)) as He by (intros; unfold emit; preserves).
  assert (forall tz tok, preserves NmeaReader.started (parse_sentence sizeof_GpsCallbacks now tz tok)) as Hs
    by (intros tz tok h x h' E; by apply quiet_sentence in E as (_ & _ & -> & _)).
  assert (forall fuel idx, preserves NmeaReader.started (sv_status_loop idx fuel)) as Hl
    by (induction fuel as [|fuel IH]; intros idx; cbn [sv_status_loop]; unfold on_reader; preserves).
  unfold nmea_reader_parse, report_location, position_log, report_svs, on_reader. preserves.
Qed.

Lemma started_addc now c : preserves NmeaReader.started (nmea_reader_addc sizeof_GpsCallbacks now c).
Proof using. pose proof started_parse. unfold nmea_reader_addc, on_reader, emit. preserves. Qed.

Lemma started_read now buff : preserves NmeaReader.started (gps_device_data sizeof_GpsCallbacks now buff).
Proof using.
  unfold gps_device_data. apply preserves_bind; [preserves|]. intros _. pose proof started_addc.
  induction buff as [|c buff IH]; cbn [read_loop]; preserves.
Qed.

Lemma newlines_app s1 s2 : newlines (s1 ++ s2) = newlines s1 + newlines s2.
Proof using. unfold newlines. rewrite filter_app, length_app. lia. Qed.

Lemma newlines_nonneg s : 0 <= newlines s.
Proof using. unfold newlines. lia. Qed.

Lemma table_pos : 0 < table_max.
Proof using HL. pose proof gps_max_range. unfold table_max. lia. Qed.

(** More satellites may wait than do. *)
Lemma reader_ok_mono B B' h : B <= B' -> reader_ok B h -> reader_ok B' h.
Proof using. intros HB [[] ?]. split; [split; done || lia|done]. Qed.

Lemma safe_data now data B h :
  Forall is_byte data -> B + (newlines data + 2) * table_max < 2 ^ 31 -> reader_ok B h ->
  wp (gps_device_data sizeof_GpsCallbacks now data) (fun _ => reader_ok (B + newlines data * table_max)) h.
Proof using HL.
  intros Hd HB Hh. apply wp_bind, wp_modify, safe_read_loop; [done|done|].
  destruct Hh as [[] ?]. split; [by split|done].
Qed.

(** A drained read ends. *)
Lemma wp_device_loop answers : forall B s,
  drained answers = true -> Forall is_byte (bytes_of answers) ->
  B + (newlines (bytes_of answers) + 2) * table_max < 2 ^ 31 -> reader_ok B (d_reader s) ->
  wp (device_loop sizeof_GpsCallbacks answers)
    (fun ended s' => ended = true /\ reader_ok (B + newlines (bytes_of answers) * table_max) (d_reader s')
       /\ NmeaReader.started (d_reader s') = NmeaReader.started (d_reader s) /\ d_gps s' = d_gps s) s.
Proof using HL.
  pose proof table_pos as Ht.
  induction answers as [|[now [data|e]] l IH]; intros B s Hd Hb HB Hs; [done| |]; cbn [device_loop].
  - change (bytes_of ((now, ReadBytes data) :: l)) with (data ++ bytes_of l) in *.
    apply Forall_app in Hb as [Hb1 Hb2]. rewrite newlines_app in *.
    pose proof (newlines_nonneg data). pose proof (newlines_nonneg (bytes_of l)).
    apply wp_bind, wp_on_part. eapply wp_mono.
    { eapply wp_preserves; [apply (started_read now data)|]. apply safe_data; [done| |exact Hs]. nia. }
    intros _ h [Hst Hh]. eapply wp_mono; [apply (IH (B + newlines data * table_max)); [done|done|nia|done]|].
    cbn [d_reader d_gps field_update]. intros ended s' (-> & Hr & Hst' & Hg). split_and!; [done| |congruence|done].
    by replace (B + (newlines data + newlines (bytes_of l)) * table_max)
      with (B + newlines data * table_max + newlines (bytes_of l) * table_max) by lia.
  - change (bytes_of ((now, ReadError e) :: l)) with (bytes_of l) in *. cbn [drained existsb snd] in Hd.
    destruct (Z.eqb_spec e EINTR); [by apply IH|]. apply wp_ret.
    pose proof (newlines_nonneg (bytes_of l)). split_and!; [done| |done|done].
    eapply reader_ok_mono; [|exact Hs]. nia.
Qed.

Lemma frame_unlocked g : frame (unlocked g) = frame g.
Proof using. unfold unlocked, frame, tables. destruct (truthy (flag_unlock g)); [done|]. cbn. by rewrite length_insert. Qed.

Lemma wp_device_event answers B s :
  drained answers = true -> Forall is_byte (bytes_of answers) ->
  B + (newlines (bytes_of answers) + 2) * table_max < 2 ^ 31 -> reader_ok B (d_reader s) ->
  wp (device_event sizeof_GpsCallbacks answers)
    (fun ended s' => ended = true /\ reader_ok (B + newlines (bytes_of answers) * table_max) (d_reader s')
       /\ NmeaReader.started (d_reader s') = NmeaReader.started (d_reader s) /\ frame (d_gps s') = frame (d_gps s)) s.
Proof using HL.
  intros Hd Hb HB Hs. pose proof table_pos. pose proof (newlines_nonneg (bytes_of answers)).
  unfold wp. rewrite device_event_run. cbv zeta. destruct (SFltb _ _).
  - cbn [d_reader d_gps field_update]. rewrite frame_unlocked. split_and!; [by destruct answers| |done|done].
    eapply reader_ok_mono; [|exact Hs]. nia.
  - set (s1 := s ⟨ d_gps := unlocked (d_gps s) ⟩ ⟨ count $= next_count ⟩ ⟨ count := f32_zero ⟩).
    pose proof (wp_device_loop answers B s1 Hd Hb HB Hs) as Hw. unfold wp in Hw.
    destruct (device_loop sizeof_GpsCallbacks answers s1) as [[ended s']|]; [|done].
    destruct Hw as (-> & Hr & Hst & Hg). split_and!; [done|done|exact Hst|].
    rewrite Hg. unfold s1. cbn [d_gps field_update]. by rewrite frame_unlocked.
Qed.
End Reading.

Section Control.
Context `{HL : GpsHeaderLaws} `{TimeZone}.

(** The state of the thread between two events, with [started] at [st] and [n]
    requests for a download made.  [B] bounds the satellites that wait.  The
    reader is well formed, which includes that the position log is off
    ([wf_log]: [get_prop] of the property is 0); the framework has given all of
    its tables and the callback for downloads. *)
Record thread_ok (B st : Z) (n : nat) (t : loop_state) : Prop := {
  th_reader : reader_ok B (d_reader (t_dev t));
  th_started : NmeaReader.started (d_reader (t_dev t)) = st;
  th_bool : st = 0 \/ st = 1;
  th_frame : frame (d_gps (t_dev t)) = (true, st, 6%nat);
  th_download : download_request_cb t = true;
  th_requests : download_requests t = n;
}.

Lemma frame_started (s : gps) b st k : frame s = (b, st, k) -> EpoDownload.started (g_epo s) = st.
Proof using. by intros [= _ <- _]. Qed.

Lemma frame_tables (s : gps) st k : frame s = (true, st, k) -> tables s = true.
Proof using. by intros [= -> _ _]. Qed.

Lemma frame_conditions (s : gps) b st k : frame s = (b, st, k) -> length (conditions s) = k.
Proof using. by intros [= _ _ <-]. Qed.

(** Both copies of [started] change. *)
Lemma wp_set_started st B n t v cbs (f : Z) :
  thread_ok B st n t -> v = 0 \/ v = 1 ->
  wp (on_dev (_ ← set_started_to v; with_reader (on_reader (nmea_reader_set_callback cbs f))))
    (fun _ t' => thread_ok B v n t') t.
Proof using HL.
  intros [Hr Hst Hb Hf Hd Hn] Hv. pose proof table_pos.
  assert (frame ((d_gps (t_dev t)) ⟨ g_epo $= fun e => e ⟨ EpoDownload.started := v ⟩ ⟩) = (true, v, 6%nat)) as Hg.
  { unfold frame, tables in *. cbn. injection Hf as -> _ ->. done. }
  unfold set_started_to, with_reader, with_gps, on_epo, nmea_reader_set_callback, upd_fix.
  apply wp_on_part, wp_bind, wp_bind, wp_on_part, wp_modify, wp_on_part, wp_on_part, wp_modify, wp_on_part, wp_on_part.
  destruct cbs; [|destruct (truthy f)]; wps; (split; [|done..|exact Hg|done|done]);
    destruct Hr as [[] Hp]; (split; [split; cbn; done || lia|done]).
Qed.

Lemma wp_control byte B st n t :
  thread_ok B st n t ->
  wp (control_event byte)
    (fun o t' => o = (if final (ControlByte byte) then Exited else Running)
       /\ thread_ok B (started_by st (ControlByte byte)) (n + (if is_download (ControlByte byte) then 1 else 0)) t') t.
Proof using HL.
  intros Ht. pose proof Ht as [[Hwf Hp] Hst Hb Hf Hd Hn]. pose proof (frame_started _ _ _ _ Hf) as Hs.
  unfold control_event. apply wp_bind, wp_gets. rewrite Hs. cbv zeta.
  destruct byte as [c|]; cbn [from_option id final started_by is_download].
  2: { apply wp_bind. cbn. apply wp_ret, wp_ret. by rewrite Nat.add_0_r. }
  destruct (Z.eqb_spec c CMD_QUIT) as [->|N0]; [apply wp_ret; by rewrite Nat.add_0_r|]. apply wp_bind.
  destruct (Z.eqb_spec c CMD_START) as [->|N1].
  { apply wp_when; intros E; [|apply wp_ret; rewrite Nat.add_0_r; split; [done|]].
    - eapply wp_mono; [apply (wp_set_started _ _ _ _ _ _ _ Ht); by right|]. intros [] t' Ht'. apply wp_ret.
      by rewrite Nat.add_0_r.
    - replace 1 with st; [done|]. destruct Hb as [-> | ->]; done. }
  destruct (Z.eqb_spec c CMD_DOWNLOAD) as [->|N4].
  { apply wp_bind, wp_gets. rewrite Hd. apply wp_modify, wp_ret. split; [done|].
    change (CMD_DOWNLOAD =? CMD_STOP) with false. cbv iota. split; try done. cbn. lia. }
  rewrite Nat.add_0_r. destruct (Z.eqb_spec c CMD_STOP) as [->|N2].
  { apply wp_when; intros E; [|apply wp_ret; split; [done|]].
    - eapply wp_mono; [apply (wp_set_started _ _ _ _ _ _ _ Ht); by left|]. intros [] t' Ht'. by apply wp_ret.
    - replace 0 with st; [done|]. destruct Hb as [-> | ->]; done. }
  apply wp_if; intros _; [|by apply wp_ret, wp_ret].
  unfold with_reader, on_reader. apply wp_on_part, wp_on_part, wp_on_part, wp_modify, wp_ret. split; [done|].
  destruct Hwf. by split.
Qed.
End Control.

Section Thread.
Context `{HL : GpsHeaderLaws} `{TimeZone} `{NiHeader} `{DaemonLink}.
Variable sizeof_GpsCallbacks : Z.
Variables junk junk_location : list Z.
Variable location_of : list Z -> Z * fields.

(** The messages and the codec leave the reader and the frame alone. *)
Lemma thread_gps B st n t d :
  thread_ok B st n t -> d_reader d = d_reader (t_dev t) -> frame (d_gps d) = frame (d_gps (t_dev t)) ->
  thread_ok B st n (t ⟨ t_dev := d ⟩).
Proof using. intros [] E1 E2. split; cbn [t_dev download_request_cb download_requests field_update]; by rewrite ?E1, ?E2. Qed.

Lemma wp_codec a s :
  event_ok junk junk_location (CodecConnection a) ->
  wp (codec_event junk_location location_of a)
    (fun _ s' => d_reader s' = d_reader s /\ frame (d_gps s') = frame (d_gps s)) s.
Proof using.
  intros [Hc Hl]. unfold codec_event, codec_send. apply wp_if; intros _; [by apply wp_ret|].
  destruct (command a) as [bytes|]; [|by apply wp_ret]. cbn [default from_option id] in Hc.
  apply wp_bind. eapply wp_lift; [apply buf_write_Some; cbn; lia|]. cbv zeta.
  apply wp_if; intros _; [by apply wp_modify|]. apply wp_if; intros _; [|by apply wp_ret].
  apply wp_bind. eapply wp_lift; [reflexivity|]. apply wp_bind, wp_modify.
  destruct (location a) as [bytes'|]; [|by apply wp_ret]. cbn [default from_option id] in Hl.
  apply wp_bind. eapply wp_lift; [apply buf_write_Some; lia|]. destruct (location_of _) as [flags values].
  apply wp_bind, wp_gets, wp_when; intros _; [|done]. unfold with_gps, upcall_cb. by apply wp_on_part, wp_modify.
Qed.

Lemma frame_locations l : preserves frame (on_epo (write_locations l)).
Proof using.
  apply frame_epo. induction l as [|[] l IH]; cbn [write_locations]; try done; [preserves|].
  unfold mtk_gps_update_location, writable, put_file. preserves.
Qed.

Lemma wp_locations l s : wp (write_locations l) (fun _ _ => True) s.
Proof using.
  revert s. induction l as [|[] l IH]; intros g; cbn [write_locations]; try done.
  unfold mtk_gps_update_location, writable, put_file.
  apply wp_bind, wp_bind, wp_gets, wp_when; intros _; [by apply wp_modify|apply IH].
Qed.

Hypothesis short_ok : 0 <= GPS_NI_SHORT_STRING_MAXLEN.
Hypothesis long_ok : 0 <= GPS_NI_LONG_STRING_MAXLEN.
Hypothesis junk_ok : length junk = 1024%nat.

Lemma wp_message mem d s :
  tables s = true -> event_ok junk junk_location (DaemonMessage mem d) ->
  wp (mnld_to_gps_handler junk mem d) (fun _ s' => frame s' = frame s) s.
Proof using short_ok long_ok junk_ok.
  intros Ht [Hd Hb]. pose proof (handler_defined junk short_ok long_ok mem d s ltac:(lia) Hb) as [_ Hdef].
  destruct (Hdef (benign_harmless _ _ _ _ Ht Hd)) as [[[] s'] E]. eapply wp_eq; [exact E|]. by eapply frame_handler.
Qed.

(** The newlines of an event. *)
Abbreviation lines ev := (newlines (device_bytes ev)).

Lemma wp_event ev B st n t :
  thread_ok B st n t -> event_ok junk junk_location ev -> B + (lines ev + 2) * table_max < 2 ^ 31 ->
  wp (handle_event sizeof_GpsCallbacks junk junk_location location_of ev)
    (fun o t' => o = (if final ev then Exited else Running)
       /\ thread_ok (B + lines ev * table_max) (started_by st ev) (n + (if is_download ev then 1 else 0)) t') t.
Proof using HL short_ok long_ok junk_ok.
  intros Ht Hev HB. pose proof (frame_tables _ _ _ (th_frame _ _ _ _ Ht)) as Htab.
  destruct ev as [| |byte|answers|mem d|a|]; cbn [handle_event];
    try (apply wp_ret; rewrite Nat.add_0_r, Z.add_0_r; done).
  - rewrite Z.add_0_r. by apply wp_control.
  - destruct Hev as [Hdr Hby]. cbn [device_bytes final is_download started_by] in *. rewrite Nat.add_0_r.
    unfold device_readable. apply wp_bind, wp_gets, wp_bind, wp_on_part.
    eapply wp_mono; [apply (wp_device_event _ _ B); [done|done|done|apply Ht]|].
    intros ended s (-> & Hr & Hst & Hf). apply wp_bind, wp_gets, wp_bind, wp_on_part, wp_on_part.
    cbn [t_dev field_update]. eapply wp_mono.
    { eapply (wp_preserves _ _ (fun _ _ => True)); [apply frame_locations|apply wp_on_part, wp_locations]. }
    intros [] g [Hg _]. apply wp_ret. split; [done|]. destruct Ht. split; cbn; try done; congruence.
  - rewrite Nat.add_0_r, Z.add_0_r. apply wp_bind, wp_on_part, wp_on_part.
    eapply wp_mono; [by apply wp_message|]. intros [] g Hg. apply wp_ret. split; [done|]. by apply thread_gps.
  - rewrite Nat.add_0_r, Z.add_0_r. apply wp_bind, wp_on_part.
    eapply wp_mono; [by apply wp_codec|]. intros [] d [Hr Hf]. apply wp_ret. split; [done|]. by apply thread_gps.
Qed.

Lemma handled_app l1 l2 : handled (l1 ++ l2) = handled l1 ++ (if existsb final l1 then [] else handled l2).
Proof using.
  induction l1 as [|ev l1 IH]; [done|]. cbn [handled app existsb]. destruct (final ev); cbn [orb app]; [done|].
  by rewrite IH.
Qed.

Lemma downloads_cons ev l : downloads (ev :: l) = ((if is_download ev then 1 else 0) + downloads l)%nat.
Proof using. unfold downloads. rewrite filter_cons. by destruct (is_download ev). Qed.

Lemma downloads_app l1 l2 : downloads (l1 ++ l2) = (downloads l1 + downloads l2)%nat.
Proof using. unfold downloads. by rewrite filter_app, length_app. Qed.

Lemma lines_cons ev l : lines_of (ev :: l) = lines ev + lines_of l.
Proof using. unfold lines_of. by rewrite <-newlines_app. Qed.

Lemma lines_app l1 l2 : lines_of (l1 ++ l2) = lines_of l1 + lines_of l2.
Proof using. unfold lines_of. by rewrite bind_app, newlines_app. Qed.

Lemma lines_nonneg l : 0 <= lines_of l.
Proof using. apply newlines_nonneg. Qed.

Lemma thread_ok_mono B B' st n t : B <= B' -> thread_ok B st n t -> thread_ok B' st n t.
Proof using. intros HB []. split; try done. by eapply reader_ok_mono. Qed.

(** What has become of the thread after events: [o], and its state. *)
Definition handled_to (B st : Z) (n : nat) (l : list poll_event) (o : loop_result) (t : loop_state) : Prop :=
  o = (if existsb final l then Exited else Running)
  /\ thread_ok (B + lines_of l * table_max) (foldl started_by st (handled l)) (n + downloads (handled l)) t.

Lemma wp_events l : forall B st n t,
  thread_ok B st n t -> Forall (event_ok junk junk_location) l -> B + (lines_of l + 2) * table_max < 2 ^ 31 ->
  wp (handle_events sizeof_GpsCallbacks junk junk_location location_of l) (handled_to B st n l) t.
Proof using HL short_ok long_ok junk_ok.
  pose proof table_pos as Hp. induction l as [|ev l IH]; intros B st n t Ht Hl HB; cbn [handle_events].
  { apply wp_ret. split; [done|]. cbn. by rewrite Nat.add_0_r, Z.add_0_r. }
  apply Forall_cons in Hl as [Hev Hl]. rewrite lines_cons in HB.
  pose proof (newlines_nonneg (device_bytes ev)). pose proof (lines_nonneg l).
  apply wp_bind. eapply wp_mono; [apply (wp_event ev B st n); [done|done|nia]|]. intros o t1 [-> Ht1].
  unfold handled_to. cbn [existsb handled foldl]. rewrite lines_cons, downloads_cons.
  destruct (final ev); cbn [orb foldl].
  - apply wp_ret. split; [done|]. rewrite Nat.add_0_r. eapply thread_ok_mono; [|exact Ht1]. nia.
  - eapply wp_mono; [apply (IH _ _ _ _ Ht1 Hl); nia|]. intros o t2 [-> Ht2]. split; [done|].
    by rewrite Z.mul_add_distr_r, Z.add_assoc, Nat.add_assoc.
Qed.

Lemma thread_others B st n t f :
  others_ok f -> thread_ok B st n t -> thread_ok B st n (t ⟨ t_dev $= f ⟩).
Proof using. intros Hf Ht. destruct (Hf (t_dev t)) as [E1 E2]. by apply (thread_gps B st n t (f (t_dev t))). Qed.

Lemma wp_thread waits : forall B st n t,
  thread_ok B st n t ->
  Forall (fun w => others_ok (fst w) /\ Forall (event_ok junk junk_location) (snd w)) waits ->
  B + (lines_of (waits ≫= snd) + 2) * table_max < 2 ^ 31 ->
  wp (gps_state_thread sizeof_GpsCallbacks junk junk_location location_of waits)
    (fun o t' => handled_to B st n (waits ≫= snd) o t'
       /\ (o = Exited -> conditions (d_gps (t_dev t')) !! M_CLEANUP = Some 1)) t.
Proof using HL short_ok long_ok junk_ok.
  pose proof table_pos as Hp. induction waits as [|[others l] waits IH]; intros B st n t Ht Hw HB; cbn [gps_state_thread].
  { apply wp_ret. split; [|done]. split; [done|]. cbn. by rewrite Nat.add_0_r, Z.add_0_r. }
  apply Forall_cons in Hw as [[Ho Hl] Hw]. cbn [mbind list_bind fst snd] in *. rewrite lines_app in HB.
  fold (waits ≫= snd) in *.
  pose proof (lines_nonneg l). pose proof (lines_nonneg (waits ≫= snd)).
  apply wp_bind, wp_on_part, wp_modify, wp_bind.
  assert (thread_ok B st n (t ⟨ t_dev $= others ⟩)) as Ht0 by (by apply thread_others).
  eapply wp_mono; [apply (wp_events l B st n); [exact Ht0|done|nia]|].
  intros o t1 [-> Ht1]. unfold handled_to. rewrite existsb_app, handled_app, lines_app.
  destruct (existsb final l) eqn:El; cbn [orb].
  - apply wp_bind, wp_on_part, wp_on_part, wp_modify, wp_ret. rewrite app_nil_r. split; [split; [done|]|].
    + eapply thread_ok_mono; [|apply (thread_gps _ _ _ t1 _ Ht1); [done|]]; [nia|].
      cbn. unfold frame, tables. cbn. by rewrite length_insert.
    + intros _. cbn. apply list_lookup_insert_eq. apply th_frame, frame_conditions in Ht1. rewrite Ht1. unfold M_CLEANUP. lia.
  - eapply wp_mono; [apply (IH _ _ _ _ Ht1 Hw); nia|]. intros o t2 [[-> Ht2] Hc]. split; [split; [done|]|done].
    by rewrite foldl_app, downloads_app, Z.mul_add_distr_r, Z.add_assoc, Nat.add_assoc.
Qed.
End Thread.

(** A byte of the control socket is, for the globals of the sessions, the step
    [hal_control] of Session.v. *)
Lemma control_event_session `{GpsHeader} `{TimeZone} c t o t' :
  control_event (Some c) t = Some (o, t') -> o = Running ->
  control_command c (d_gps (t_dev t)) = Some (tt, d_gps (t_dev t')).
Proof.
  unfold control_event, control_command. cbn [default from_option id]. rewrite !run_gets. cbv zeta.
  destruct (c =? CMD_QUIT); [by intros [= <- <-]|].
  set (st := truthy (EpoDownload.started (g_epo (d_gps (t_dev t))))).
  destruct (c =? CMD_START).
  { destruct st; cbn [cwhen negb]; [by intros [= <- <-]|]. intros [= <- <-] _. reflexivity. }
  destruct (Z.eqb_spec c CMD_DOWNLOAD) as [->|_].
  { rewrite (proj2 (Z.eqb_neq CMD_DOWNLOAD CMD_STOP)) by done. unfold mbind at 1 2, cm_bind at 1 2, cgets at 1.
    destruct (download_request_cb t); [by intros [= <- <-]|done]. }
  destruct (c =? CMD_STOP).
  { destruct st; cbn [cwhen negb]; [|by intros [= <- <-]]. intros [= <- <-] _. reflexivity. }
  destruct (c =? CMD_RESTART); [|by intros [= <- <-]]. intros [= <- <-] _. reflexivity.
Qed.

(** C5 (safety): the HAL thread as a whole, under these conditions:
    - the position log is off ([get_prop] of the property is 0, in [thread_ok];
      with it on a report can overrun its array, [position_log_overruns]);
    - the reads of the device for one event end with an error that is not an
      interruption ([drained], in [event_ok]; the code never leaves the loop
      after reads of zero bytes), and the codec sends no more than its arrays
      hold;
    - the daemon's messages are harmless in every state ([benign]);
    - the framework has given all of its tables and the callback for downloads;
    - the other threads, while this one waits, leave the reader, the tables and
      [started] alone ([others_ok]), and change whatever else they like;
    - the lines read, and two, times the size of a table, and what waits
      already, are less than 2^31 satellites.

    Then, whichever events come in whichever groups and whatever bytes the
    device sends, no event reads or writes outside of an array
    or calls through NULL.  The thread handles every event in order up to the
    first broken descriptor or byte 0 of the control socket; only these end it,
    and then M_CLEANUP is released.  Both copies of [started] say what the last
    byte 1 or 2 said, and each byte 4 asks for one download. *)
Theorem hal_thread_safe `{GpsHeaderLaws} `{TimeZone} `{NiHeader} `{DaemonLink}
    sizeof_GpsCallbacks junk junk_location location_of waits B st n t :
  0 <= GPS_NI_SHORT_STRING_MAXLEN -> 0 <= GPS_NI_LONG_STRING_MAXLEN -> length junk = 1024%nat ->
  thread_ok B st n t ->
  Forall (fun w => others_ok (fst w) /\ Forall (event_ok junk junk_location) (snd w)) waits ->
  B + (lines_of (waits ≫= snd) + 2) * table_max < 2 ^ 31 ->
  let l := waits ≫= snd in
  exists o t', gps_state_thread sizeof_GpsCallbacks junk junk_location location_of waits t = Some (o, t')
  /\ o = (if existsb final l then Exited else Running)
  /\ thread_ok (B + lines_of l * table_max) (foldl started_by st (handled l)) (n + downloads (handled l)) t'
  /\ (o = Exited -> conditions (d_gps (t_dev t')) !! M_CLEANUP = Some 1).
Proof.
  intros Hs Hl Hj Ht Hw HB l.
  destruct (wp_Some _ _ _ (wp_thread sizeof_GpsCallbacks junk junk_location location_of Hs Hl Hj waits B st n t Ht Hw HB))
    as (o & t' & E & [Ho Ht'] & Hc).
  by exists o, t'.
Qed.

(** The thread after mtk_gps_init, with a reader just set up. *)
Definition thread_start (r : NmeaReader) : loop_state :=
  MkHalThread (MkDev (MkHal r (zeros 256) 0 0 100 [] []) ready_state f32_zero f32_zero []) true 0.

Definition sample_thread : loop_state :=
  thread_start (default (reader idle_hal) (@nmea_reader_init aosp_gps_h (fixed_zone 0) 0 (gmtime 0))).

Lemma sample_thread_ok : @thread_ok aosp_gps_h 0 0 0 sample_thread.
Proof.
  split; [|reflexivity|by left|reflexivity..].
  apply (@nmea_reader_init_ok aosp_gps_h aosp_gps_h_laws (fixed_zone 0) 0 (gmtime 0)); reflexivity.
Qed.

(** A session with a position and a message of the daemon, a download asked for
    by the framework, and the end. *)
Definition sample_waits : list ((dev -> dev) * list poll_event) :=
  [(id, [ControlByte (Some CMD_START)]);
   (fun d => d ⟨ report_time_interval := f32 1 ⟩,
    [DeviceReadable [(7, ReadBytes sample_burst); (8, ReadError EAGAIN)];
     DaemonMessage memory_left (Some (enc_int MNL_CMD_GPS_INJECT_LOCATION_REQ))]);
   (id, [ControlByte (Some CMD_DOWNLOAD); NotReadable]);
   (id, [ControlByte (Some CMD_STOP); ControlByte (Some CMD_QUIT); ControlByte (Some CMD_START)])].

Theorem hal_thread_safe_witness :
  exists t',
    @gps_state_thread aosp_gps_h (fixed_zone 0) aosp_ni quiet_link 100 (replicate 1024 0) (zeros 64) (fun _ => (0, []))
      sample_waits sample_thread = Some (Exited, t')
    /\ NmeaReader.started (d_reader (t_dev t')) = 0 /\ download_requests t' = 1%nat
    /\ conditions (d_gps (t_dev t')) !! M_CLEANUP = Some 1.
Proof.
  destruct (@hal_thread_safe aosp_gps_h aosp_gps_h_laws (fixed_zone 0) aosp_ni quiet_link 100 (replicate 1024 0)
              (zeros 64) (fun _ => (0, [])) sample_waits 0 0 0%nat sample_thread) as (o & t' & E & Ho & Ht' & Hc).
  - vm_compute. discriminate.
  - vm_compute. discriminate.
  - reflexivity.
  - exact sample_thread_ok.
  - repeat constructor; by_decide.
  - vm_compute. reflexivity.
  - cbv zeta in Ho. assert (o = Exited) as -> by (rewrite Ho; vm_compute; reflexivity).
    exists t'. split; [exact E|]. destruct Ht' as [_ Hst _ _ _ Hr].
    split; [rewrite Hst; vm_compute; reflexivity|]. split; [rewrite Hr; vm_compute; reflexivity|by apply Hc].
Defined.
