(* ===== verification/HalFix.v ===== *)
(** * The HAL thread: the way of a position back to the daemon

    The reader reports a position and writes it to LOCATION.DAT (NmeaParse.v);
    when the daemon asks for a position, the handler of its messages reads the
    file (MnldHandler.v).  Here is what comes out, through the loop of
    HalThread.v. *)

From stdpp Require Import gmap.
From S2P Require Import Prelude CFloat Calendar NmeaToken NmeaReader NmeaParse NmeaProps HalBuff EpoTime EpoConf EpoDownload Daemon Layout Hal HalProps MnldHandler MnldProps Session Device MnldSafe HalThread.
#[local] Open Scope Z_scope.

(** ** Computations that move the state along a preorder *)

Section Moving.
Context {S : Type} (R : S -> S -> Prop) `{!PreOrder R}.

Definition along {A} (m : CM S A) : Prop := forall s x s', m s = Some (x, s') -> R s s'.

Lemma along_ret {A} (x : A) : along (mret x).
Proof using Type*. by intros s y s' [= _ <-]. Qed.

Lemma along_gets {A} (f : S -> A) : along (cgets f).
Proof using Type*. by intros s y s' [= _ <-]. Qed.

Lemma along_lift {A} (o : option A) : along (clift o).
Proof using Type*. intros s y s'. unfold clift. destruct o; [|done]. by intros [= _ <-]. Qed.

Lemma along_modify (f : S -> S) : (forall s, R s (f s)) -> along (cmodify f).
Proof using Type. intros Hf s y s' [= _ <-]. apply Hf. Qed.

Lemma along_bind {A B} (m : CM S A) (k : A -> CM S B) :
  along m -> (forall x, along (k x)) -> along (x ← m; k x).
Proof using Type*.
  intros Hm Hk s y s'' E. unfold mbind, cm_bind in E. destruct (m s) as [[x s']|] eqn:Em; [|done].
  etrans; [by eapply Hm|by eapply Hk].
Qed.

Lemma along_if {A} (b : bool) (m1 m2 : CM S A) : along m1 -> along m2 -> along (if b then m1 else m2).
Proof using Type. by destruct b. Qed.

Lemma along_when (b : bool) (m : CM S unit) : along m -> along (cwhen b m).
Proof using Type*. destruct b; [done|]. intros _. apply along_ret. Qed.
End Moving.

(** ** What the reader has reported *)

(** The last position reported, and the last one written. *)
Definition last_location (l : list event) : option GpsLocation :=
  foldl (fun o e => match e with LocationCb f => Some f | _ => o end) None l.

Definition last_written (l : list event) : option nlp_context :=
  foldl (fun o e => match e with WriteLocation c => Some c | _ => o end) None l.

Lemma last_location_snoc l e :
  last_location (l ++ [e]) = match e with LocationCb f => Some f | _ => last_location l end.
Proof. unfold last_location. by rewrite foldl_app. Qed.

Lemma last_written_snoc l e :
  last_written (l ++ [e]) = match e with WriteLocation c => Some c | _ => last_written l end.
Proof. unfold last_written. by rewrite foldl_app. Qed.

(** The last position written is the last one reported. *)
Definition paired (l : list event) : Prop :=
  match last_location l, last_written l with
  | Some f, Some c => exists st, c = nlp_of_fix f st
  | None, None => True
  | _, _ => False
  end.

(** Reports are added, and keep the pairing. *)
Definition reports (h h' : NmeaReader.hal) : Prop :=
  trace h `prefix_of` trace h' /\ (paired (trace h) -> paired (trace h')).

#[export] Instance reports_preorder : PreOrder reports.
Proof.
  split; [by split|]. intros h1 h2 h3 [P1 Q1] [P2 Q2]. split; [by etrans|auto].
Qed.

Lemma reports_same h h' : trace h' = trace h -> reports h h'.
Proof. unfold reports. by intros ->. Qed.

(** A report of anything but a position. *)
Definition other (e : event) : Prop := match e with LocationCb _ | WriteLocation _ => False | _ => True end.

Lemma along_emit e : other e -> along reports (emit e).
Proof.
  intros He. apply along_modify. intros h. split; cbn; [by apply prefix_app_r|].
  unfold paired. rewrite last_location_snoc, last_written_snoc. by destruct e.
Qed.

Lemma along_reader {A} (m : CM NmeaReader A) : along reports (on_reader m).
Proof.
  intros h x h'. unfold on_reader, on_part. destruct (m (reader h)) as [[y r]|]; [|done].
  intros [= _ <-]. by apply reports_same.
Qed.

Lemma along_quiet {A} (m : CM NmeaReader.hal A) : quiet m -> along reports m.
Proof. intros Hm h x h' E. by apply reports_same, (Hm _ _ _ E). Qed.

Ltac alongs :=
  repeat first
    [ solve [auto 2] | progress cbv zeta
    | apply along_ret; exact _ | apply along_gets; exact _ | apply along_lift; exact _
    | apply along_emit; exact I | apply along_reader
    | apply along_bind; [exact _| |intros ?]
    | apply along_when; [exact _|] | apply along_if
    | apply along_modify; intros; by apply reports_same
    | match goal with |- along _ (match ?x with _ => _ end) => destruct x end ].

Section Reading.
Context `{GpsHeader} `{TimeZone}.
Variable sizeof_GpsCallbacks : Z.

Lemma along_report_location : along reports report_location.
Proof using.
  assert (forall r, along reports (position_log r)) as Hl by (intros; unfold position_log; alongs).
  unfold report_location. apply along_bind; [exact _|apply along_gets; exact _|]. intros h.
  apply along_when; [exact _|]. apply along_bind; [exact _|by alongs|]. intros _ h1 [] h2 E.
  revert E. unfold emit, on_reader, upd_fix. rewrite !run_modify. intros [= <-].
  split; cbn.
  - rewrite <-app_assoc. by apply prefix_app_r.
  - intros _. unfold paired. rewrite last_location_snoc, !last_written_snoc, last_location_snoc. by eexists.
Qed.

Lemma along_parse now : along reports (nmea_reader_parse sizeof_GpsCallbacks now).
Proof using.
  pose proof along_report_location as Hr.
  assert (forall tz tok, along reports (parse_sentence sizeof_GpsCallbacks now tz tok)) as Hs
    by (intros; apply along_quiet, quiet_sentence).
  assert (forall fuel idx, along reports (sv_status_loop idx fuel)) as Hl
    by (induction fuel as [|fuel IH]; intros idx; cbn [sv_status_loop]; alongs).
  unfold nmea_reader_parse, report_svs. alongs.
Qed.

Lemma along_data now data : along reports (gps_device_data sizeof_GpsCallbacks now data).
Proof using.
  pose proof (along_parse now) as Hp.
  assert (forall c, along reports (nmea_reader_addc sizeof_GpsCallbacks now c)) as Ha
    by (intros c; unfold nmea_reader_addc; alongs).
  unfold gps_device_data. apply along_bind; [exact _|by alongs|]. intros _.
  induction data as [|c data IH]; cbn [read_loop]; alongs.
Qed.
End Reading.

(** ** What LOCATION.DAT holds *)

Definition location_file (g : gps) : option file := files (g_epo g) !! LOCATION_NLP_FIX.

(** The file can be opened, if it is there. *)
Definition openable (o : option file) : Prop := match o with Some f => can_open f = true | None => True end.

(** Reports and file agree: the file holds the last position reported. *)
Definition tracks (l : list event) (o : option file) : Prop :=
  paired l /\ openable o
  /\ match last_written l with
     | Some c => exists f, o = Some f /\ content f = nlp_bytes c
     | None => True
     end.

Definition stored (t : loop_state) : list event * option file := (trace (d_reader (t_dev t)), location_file (d_gps (t_dev t))).

Lemma last_written_app l1 l2 :
  last_written (l1 ++ l2) = match last_written l2 with Some c => Some c | None => last_written l1 end.
Proof.
  induction l2 as [|e l2 IH] using rev_ind; [by rewrite app_nil_r|].
  rewrite app_assoc, !last_written_snoc. destruct e; done.
Qed.

Lemma run_update_location data e :
  openable (files e !! LOCATION_NLP_FIX) ->
  mtk_gps_update_location data e
  = Some (tt, e ⟨ files $= fun f => <[LOCATION_NLP_FIX := MkFile data 0 true true]> f ⟩).
Proof.
  intros Ho. unfold mtk_gps_update_location, writable. rewrite run_gets. unfold openable in Ho.
  destruct (files e !! LOCATION_NLP_FIX); [by rewrite Ho|done].
Qed.

(** The file after the writes. *)
Lemma write_locations_file l : forall e u e',
  write_locations l e = Some (u, e') -> openable (files e !! LOCATION_NLP_FIX) ->
  openable (files e' !! LOCATION_NLP_FIX)
  /\ files e' !! LOCATION_NLP_FIX
     = match last_written l with Some c => Some (MkFile (nlp_bytes c) 0 true true) | None => files e !! LOCATION_NLP_FIX end.
Proof.
  induction l as [|ev l IH]; intros e u e' E Ho; [by injection E as _ <-|].
  change (last_written (ev :: l)) with (last_written ([ev] ++ l)). rewrite last_written_app.
  destruct ev; cbn [write_locations] in E;
    try (destruct (IH _ _ _ E Ho) as [Ho' Hf]; split; [done|]; rewrite Hf; by destruct (last_written l)).
  erewrite run_bind in E by (by apply run_update_location).
  destruct (IH _ _ _ E) as [Ho' Hf]; [cbn; by rewrite fs_insert_eq|]. split; [done|]. rewrite Hf. cbn [files field_update].
  rewrite fs_insert_eq. by destruct (last_written l).
Qed.

Section Kept.
Context `{GpsHeader} `{TimeZone} `{NiHeader} `{DaemonLink}.

Lemma location_epo {A} (m : CM epo A) :
  preserves (fun e => files e !! LOCATION_NLP_FIX) m -> preserves location_file (on_epo m).
Proof.
  intros Hm s x s'. unfold on_epo, on_part. destruct (m (g_epo s)) as [[y e]|] eqn:E; [|done].
  intros [= _ <-]. unfold location_file. cbn. by rewrite (Hm _ _ _ E).
Qed.

(** No message of the daemon touches the file. *)
Lemma location_handler junk mem d : preserves location_file (mnld_to_gps_handler junk mem d).
Proof.
  apply untouched_handler; [..|done].
  - intros u. unfold upcall_cb. preserves.
  - intros i. unfold release_condition. preserves.
  - intros fd data. unfold daemon_send, send_errno_too. preserves.
  - apply location_epo. unfold update_epo_done, unlink. preserves. apply preserves_modify. intros s. cbn.
    by apply lookup_delete_ne.
  - apply location_epo. unfold open_read. preserves.
Qed.
End Kept.

(** ** Through the loop *)

Section Tracking.
Context `{GpsHeader} `{TimeZone} `{NiHeader} `{DaemonLink}.
Variable sizeof_GpsCallbacks : Z.
Variables junk junk_location : list Z.
Variable location_of : list Z -> Z * fields.

Definition tracking (t : loop_state) : Prop := tracks (stored t).1 (stored t).2.

Lemma tracking_same t t' : stored t' = stored t -> tracking t -> tracking t'.
Proof using. unfold tracking. by intros ->. Qed.

Lemma on_part_inv {S T A} (get : S -> T) (set : T -> S -> S) (m : CM T A) s x s' :
  on_part get set m s = Some (x, s') -> exists u, m (get s) = Some (x, u) /\ s' = set u s.
Proof using. unfold on_part. destruct (m (get s)) as [[y u]|]; [|done]. intros [= <- <-]. by exists u. Qed.

Lemma stored_dev {A} (m : CM dev A) :
  preserves (fun d => (trace (d_reader d), location_file (d_gps d))) m -> preserves stored (on_dev m).
Proof using.
  intros Hm t x t' (d & E & ->)%on_part_inv. exact (Hm _ _ _ E).
Qed.

Lemma stored_gps {A} (m : CM gps A) : preserves location_file m -> preserves stored (on_dev (with_gps m)).
Proof using.
  intros Hm. apply stored_dev. intros d x d' (g & E%Hm & ->)%on_part_inv.
  unfold location_file in *. cbn. by rewrite E.
Qed.

Lemma stored_control byte : preserves stored (control_event byte).
Proof using.
  assert (forall v, preserves stored (on_dev (_ ← set_started_to v; with_reader (on_reader (nmea_reader_set_callback (v =? 0) 0))))) as Hs.
  { intros v t x t'. unfold set_started_to, nmea_reader_set_callback. by destruct (v =? 0); intros [= _ <-]. }
  pose proof (Hs 1). pose proof (Hs 0). cbn [Z.eqb Pos.eqb] in *.
  unfold control_event. cbv zeta. preserves.
Qed.

Lemma stored_codec a : preserves stored (on_dev (codec_event junk_location location_of a)).
Proof using. apply stored_dev. unfold codec_event, codec_send, with_gps, upcall_cb. preserves. all: by intros d x d' [= _ <-]. Qed.

Lemma loop_reports answers d x d' :
  device_loop sizeof_GpsCallbacks answers d = Some (x, d') ->
  reports (d_reader d) (d_reader d') /\ d_gps d' = d_gps d.
Proof using.
  revert d x d'. induction answers as [|[now [data|e]] l IH]; intros d x d'; cbn [device_loop].
  - by intros [= _ <-].
  - intros ([] & d1 & (h & E & ->)%on_part_inv & [Hr Hg]%IH)%bind_inv. split; [|exact Hg].
    etrans; [by eapply along_data|exact Hr].
  - destruct (e =? EINTR); [apply IH|by intros [= _ <-]].
Qed.

Lemma event_reports answers d x d' :
  device_event sizeof_GpsCallbacks answers d = Some (x, d') ->
  reports (d_reader d) (d_reader d') /\ location_file (d_gps d') = location_file (d_gps d).
Proof using.
  rewrite device_event_run. cbv zeta.
  assert (location_file (unlocked (d_gps d)) = location_file (d_gps d)) as Hu
    by (unfold unlocked; by destruct (truthy (flag_unlock (d_gps d)))).
  destruct (SFltb _ _); [intros [= _ <-]; by rewrite <-Hu|].
  intros [Hr Hg]%loop_reports. split; [exact Hr|]. by rewrite Hg.
Qed.

Lemma tracking_device answers t o t' :
  device_readable sizeof_GpsCallbacks answers t = Some (o, t') -> tracking t -> tracking t'.
Proof using.
  unfold device_readable. rewrite run_gets.
  intros (ended & t1 & (d & E & ->)%on_part_inv & E1)%bind_inv.
  apply event_reports in E as [[[new Hn] Hp] Hf]. rewrite run_gets in E1. cbn [t_dev field_update] in E1.
  rewrite Hn, drop_app_length in E1.
  apply bind_inv in E1 as (u & t2 & (d2 & (g & (e & Ew & ->)%on_part_inv & ->)%on_part_inv & ->)%on_part_inv & [= _ <-]).
  intros (Hpair & Ho & Hw). unfold stored, location_file in *. cbn [fst snd] in *.
  destruct (write_locations_file _ _ _ _ Ew) as [Ho' Hf']; [by rewrite <-Hf in Ho|].
  unfold tracking, tracks, stored, location_file in *. cbn. rewrite Hn in *. split; [by apply Hp|]. split; [exact Ho'|].
  rewrite last_written_app, Hf'. destruct (last_written new); [by eexists|].
  rewrite <-Hf in Hw. exact Hw.
Qed.

Lemma tracking_event ev t o t' :
  handle_event sizeof_GpsCallbacks junk junk_location location_of ev t = Some (o, t') -> tracking t -> tracking t'.
Proof using.
  assert (forall {A} (m : CM loop_state A) x s s', preserves stored m -> m s = Some (x, s') -> tracking s -> tracking s') as Hs
    by (intros A m x s s' Hm E; by eapply tracking_same, Hm).
  destruct ev as [| |byte|answers|mem d|a|]; cbn [handle_event]; try by intros [= _ <-].
  - apply Hs, stored_control.
  - apply tracking_device.
  - apply Hs. apply preserves_bind; [apply stored_gps, location_handler|intros; apply preserves_ret].
  - apply Hs. apply preserves_bind; [apply stored_codec|intros; apply preserves_ret].
Qed.

Lemma tracking_events l : forall t o t',
  handle_events sizeof_GpsCallbacks junk junk_location location_of l t = Some (o, t') -> tracking t -> tracking t'.
Proof using.
  induction l as [|ev l IH]; intros t o t'; cbn [handle_events]; [by intros [= _ <-]|].
  intros (o1 & t1 & E & E')%bind_inv Ht%(tracking_event _ _ _ _ E).
  destruct o1; [by eapply IH|by injection E' as _ <-..].
Qed.

(** The other threads leave the reader and the file alone. *)
Definition others_keep (f : dev -> dev) : Prop :=
  forall s, d_reader (f s) = d_reader s /\ location_file (d_gps (f s)) = location_file (d_gps s).

Lemma tracking_thread waits : forall t o t',
  Forall (fun w => others_keep (fst w)) waits ->
  gps_state_thread sizeof_GpsCallbacks junk junk_location location_of waits t = Some (o, t') -> tracking t -> tracking t'.
Proof using.
  induction waits as [|[others l] waits IH]; intros t o t' Hw; cbn [gps_state_thread]; [by intros [= _ <-]|].
  apply Forall_cons in Hw as [Ho Hw]. cbn [fst] in Ho. intros E Ht.
  assert (tracking (t ⟨ t_dev $= others ⟩)) as Ht0.
  { eapply tracking_same, Ht. destruct (Ho (t_dev t)) as [E1 E2]. unfold stored.
    change (t_dev (t ⟨ t_dev $= others ⟩)) with (others (t_dev t)). by rewrite E1, E2. }
  apply bind_inv in E as ([] & t1 & (d & [= <-] & ->)%on_part_inv & (o1 & t2 & E1 & E2)%bind_inv).
  apply (tracking_events _ _ _ _ E1) in Ht0. destruct o1; [by eapply IH| |by injection E2 as _ <-].
  injection E2 as _ <-. by eapply tracking_same, Ht0.
Qed.
End Tracking.

(** ** The daemon's question *)

(** The daemon's answer: the position as a message, with [started] as it is. *)
Definition location_reply (f : GpsLocation) (st : Z) : list Z :=
  code_msg MNL_CMD_GPS_INJECT_LOCATION (nlp_bytes (nlp_of_fix f (u8 st))).

Lemma length_nlp_bytes c : length (nlp_bytes c) = 32%nat.
Proof. reflexivity. Qed.

Lemma wp_location_request `{DaemonLink} f st0 g x :
  location_file g = Some x -> can_open x = true -> content x = nlp_bytes (nlp_of_fix f st0) -> 0 <= send_fd g ->
  wp mtk_gps_send_location_to_mnl (fun _ g' =>
    datagrams g' = datagrams g ++ [(send_fd g, location_reply f (EpoDownload.started (g_epo g)))]) g.
Proof.
  intros Hx Hop Hc Hfd. unfold mtk_gps_send_location_to_mnl, open_read. apply wp_bind, wp_on_part, wp_gets.
  unfold location_file in Hx. rewrite Hx, Hop, Hc. apply wp_bind, wp_gets. cbn [g_epo field_update].
  change (sizeof 8 nlp_layout) with 32%nat. rewrite take_ge by (by rewrite length_nlp_bytes).
  rewrite length_nlp_bytes. cbn [replicate Nat.sub]. rewrite app_nil_r. unfold nlp_bytes at 1. rewrite set_started.
  apply wp_bind. eapply wp_put_msg; [apply inject_msg_of; cbn; lia|].
  unfold send_if_ready. apply wp_bind, wp_gets, wp_when; cbn [send_fd field_update]; intros; [|lia].
  apply wp_bind, wp_daemon_send. intros e _. by apply wp_ret.
Qed.

(** C6 (functional): the way of a position from the device back to the daemon.
    After any history of the HAL thread - whatever it has read from the device,
    from the control socket, from the codec and in harmless messages, and
    whatever the other threads have done but for writing LOCATION.DAT - the
    daemon that asks for a position is sent, in one datagram, the last position
    that the reader has reported to the framework: latitude, longitude,
    accuracy and time as they were reported, marked as a position of type 1,
    with the [started] of the moment of the question.  The conditions are those
    of hal_thread_safe: the position log is off, the reads of the device end,
    the tables are given, and the lines read are bounded. *)
Theorem fix_reaches_daemon `{GpsHeaderLaws} `{TimeZone} `{NiHeader} `{DaemonLink}
    sizeof_GpsCallbacks junk junk_location location_of waits B st n t :
  0 <= GPS_NI_SHORT_STRING_MAXLEN -> 0 <= GPS_NI_LONG_STRING_MAXLEN -> length junk = 1024%nat ->
  thread_ok B st n t -> tracking t ->
  Forall (fun w => (others_ok (fst w) /\ others_keep (fst w)) /\ Forall (event_ok junk junk_location) (snd w)) waits ->
  B + (lines_of (waits ≫= snd) + 2) * table_max < 2 ^ 31 ->
  exists o t', gps_state_thread sizeof_GpsCallbacks junk junk_location location_of waits t = Some (o, t')
  /\ forall f mem rest,
     let g := d_gps (t_dev t') in
     last_location (trace (d_reader (t_dev t'))) = Some f -> 0 <= send_fd g -> Z.of_nat (length rest) <= 8996 ->
     exists g', mnld_to_gps_handler junk mem (Some (enc_int MNL_CMD_GPS_INJECT_LOCATION_REQ ++ rest)) g = Some (tt, g')
     /\ datagrams g' = datagrams g ++ [(send_fd g, location_reply f (foldl started_by st (handled (waits ≫= snd))))].
Proof.
  intros Hs Hl Hj Ht Htr Hw HB.
  assert (Forall (fun w => others_ok (fst w) /\ Forall (event_ok junk junk_location) (snd w)) waits) as Hw1
    by (eapply Forall_impl; [exact Hw|]; tauto).
  assert (Forall (fun w => others_keep (fst w)) waits) as Hw2 by (eapply Forall_impl; [exact Hw|]; tauto).
  destruct (wp_Some _ _ _ (wp_thread sizeof_GpsCallbacks junk junk_location location_of Hs Hl Hj waits B st n t Ht Hw1 HB))
    as (o & t' & E & [_ Ht'] & _).
  exists o, t'. split; [done|]. intros f mem rest g Hf Hfd Hr.
  destruct (tracking_thread _ _ _ _ _ _ _ _ Hw2 E Htr) as (Hp & Ho & Hwr).
  unfold paired in Hp. unfold stored in *. cbn [fst snd] in *. rewrite Hf in Hp.
  destruct (last_written _) as [c|]; [|done]. destruct Hp as [st0 ->]. destruct Hwr as (x & Hx & Hc).
  destruct (received_code MNL_CMD_GPS_INJECT_LOCATION_REQ rest) as [z Ez]; [by_decide|done|].
  rewrite Hx in Ho.
  destruct (wp_Some _ _ _ (wp_location_request f st0 g x Hx Ho Hc Hfd)) as ([] & g' & Eg & Hg).
  exists g'. split.
  - unfold mnld_to_gps_handler. rewrite (run_lift _ _ _ _ Ez). exact Eg.
  - rewrite Hg. subst g. by rewrite (frame_started _ _ _ _ (th_frame _ _ _ _ Ht')).
Qed.

(** The position of the sample sentences comes back, with [started] cleared by
    the end of the session. *)
Theorem fix_reaches_daemon_witness :
  exists o t' f g',
    @gps_state_thread aosp_gps_h (fixed_zone 0) aosp_ni quiet_link 100 (replicate 1024 0) (zeros 64) (fun _ => (0, []))
      sample_waits sample_thread = Some (o, t')
    /\ last_location (trace (d_reader (t_dev t'))) = Some f
    /\ @mnld_to_gps_handler aosp_gps_h aosp_ni quiet_link (replicate 1024 0) memory_left
         (Some (enc_int MNL_CMD_GPS_INJECT_LOCATION_REQ)) (d_gps (t_dev t')) = Some (tt, g')
    /\ (snd <$> last (datagrams g')) = Some (location_reply f 0).
Proof.
  destruct (@fix_reaches_daemon aosp_gps_h aosp_gps_h_laws (fixed_zone 0) aosp_ni quiet_link 100 (replicate 1024 0)
              (zeros 64) (fun _ => (0, [])) sample_waits 0 0 0%nat sample_thread) as (o & t' & E & Hq).
  - vm_compute. discriminate.
  - vm_compute. discriminate.
  - reflexivity.
  - exact sample_thread_ok.
  - split; [exact I|split; exact I].
  - repeat constructor; by_decide.
  - vm_compute. reflexivity.
  - assert (is_Some (last_location (trace (d_reader (t_dev t')))) /\ 0 <= send_fd (d_gps (t_dev t'))) as [[f Hf] Hfd].
    { revert E. vm_compute. intros [= _ <-]. split; [by eexists|done]. }
    destruct (Hq f memory_left [] Hf Hfd ltac:(vm_compute; discriminate)) as (g' & Eg & Hd).
    exists o, t', f, g'. split; [exact E|]. split; [exact Hf|]. rewrite app_nil_r in Eg. split; [exact Eg|].
    rewrite Hd, last_snoc. reflexivity.
Defined.
